(** * Copy-on-write strings of the GotW #45 performance harness

    A shallow embedding of the string classes of [test.cpp] /
    [common-test.h] and of the fixed-block allocator of [test.h], executed
    by one thread.

    Conventions of the embedding.
    - [size_t] values are [nat]: no buffer of the program can reach the
      size at which [size_t] arithmetic would wrap or at which the
      [double] computation [len*1.5] would stop being exact.
    - [long] and [int] values (reference counts, block headers, the
      counters [nCopies] and [nAllocs]) are [Z].
    - A [char] slot is a [cell]: memory obtained from [new char[n]] or from
      the arena is uninitialised until the program writes to it.
    - A function that can throw or leave defined behaviour returns an
      [outcome]. *)

From Stdlib Require Import ZArith Lia Ascii Zify ZifyNat.
From stdpp Require Import base option list gmap.

Ltac Zify.zify_post_hook ::= Z.to_euclidean_division_equations.

(** ** Outcomes and the state-and-exception monad *)

Inductive outcome (A : Type) : Type :=
| Ok (a : A)      (* normal return *)
| bad_alloc       (* throw bad_alloc(): never caught, the process ends *)
| Undef.          (* a store or load outside the objects of the program *)

Arguments Ok {A} a.
Arguments bad_alloc {A}.
Arguments Undef {A}.

Definition M (S A : Type) : Type := S → outcome (A * S).

Definition ret {S A} (a : A) : M S A := λ s, Ok (a, s).

Definition bind {S A B} (m : M S A) (k : A → M S B) : M S B :=
  λ s, match m s with
       | Ok (a, s') => k a s'
       | bad_alloc => bad_alloc
       | Undef => Undef
       end.

Definition throw {S A} : M S A := λ _, bad_alloc.
Definition undefined {S A} : M S A := λ _, Undef.
Definition get {S} : M S S := λ s, Ok (s, s).
Definition put {S} (s : S) : M S unit := λ _, Ok (tt, s).
Definition modify {S} (f : S → S) : M S unit := λ s, Ok (tt, f s).

Notation "'let!' x ':=' m 'in' k" := (bind m (λ x, k))
  (at level 10, x pattern, m at level 100, k at level 200).
Notation "m ';;;' k" := (bind m (λ _, k))
  (at level 100, k at level 200, right associativity).

(** ** Characters and raw memory *)

Inductive cell : Type :=
| Uninit              (* never written since it was allocated *)
| Char (c : ascii).

#[global] Instance cell_eq_dec : EqDecision cell.
Proof. solve_decision. Defined.

(** [memcpy( dst, src, n )] on the contents of two arrays: [None] when one
    of the arrays is shorter than [n]. *)
Definition memcpy (dst src : list cell) (n : nat) : option (list cell) :=
  if decide (n ≤ length dst ∧ n ≤ length src)
  then Some (take n src ++ drop n dst)
  else None.

(** [memcpy] between two [char*], [None] being the null pointer: nothing is
    touched when [n] is 0. *)
Definition memcpy_ptr (dst src : option (list cell)) (n : nat)
  : option (option (list cell)) :=
  if decide (n = 0) then Some dst
  else match dst, src with
       | Some d, Some s => Some <$> memcpy d s n
       | _, _ => None
       end.

(** A step that is undefined when [o] is [None]. *)
Definition defined {S A} (o : option A) : M S A :=
  match o with
  | Some a => ret a
  | None => undefined
  end.

(** [4 * ((needed-1)/4 + 1)], or 0: the capacity granted for [needed]. *)
Definition round4 (needed : nat) : nat :=
  if decide (needed = 0) then 0 else 4 * ((needed - 1) / 4 + 1).

(** [static_cast<size_t>(max(len*1.5, static_cast<double>(n)))] *)
Definition needed_for (len n : nat) : nat := Nat.max (len * 3 / 2) n.

(** [IntAtomicCompare], [IntAtomicIncrement], [IntAtomicDecrement] of
    [test.h], on the value of the [long] they are applied to; the last two
    give the value that is stored and returned. *)
Definition IntAtomicCompare (i v : Z) : Z :=
  if decide (i < v)%Z then (-1)%Z else if decide (i = v) then 0%Z else 1%Z.
Definition IntAtomicIncrement (i : Z) : Z := (i + 1)%Z.
Definition IntAtomicDecrement (i : Z) : Z := (i - 1)%Z.

(** ** The fixed-block allocator [FastArena] of test.h *)

Module FastArena.

Definition size : nat := 100.
(* The harness is a Win32 program: [long] has four bytes there. *)
Definition sizeof_long : nat := 4.

(** [n_] and [buf_] are the members of the class; [hdr] holds the [long]
    at the head of each of the [size] blocks of [buf_]. *)
Record t : Type := mk { n_ : nat; buf_ : Z; hdr : list Z }.

Definition set_hdr (a : t) (h : list Z) : t :=
  {| n_ := n_ a; buf_ := buf_ a; hdr := h |}.

(** The constructor, [base] being the address [new char[...]] returned. *)
Definition ctor (base : Z) (n : nat) : t :=
  {| n_ := if decide (n = 0) then 4 else 4 * ((n - 1) / 4 + 1);
     buf_ := base;
     hdr := replicate size 0%Z |}.

Definition stride (a : t) : nat := n_ a + sizeof_long.
(** [buf_ + (n_+sizeof(long))*i], the address of block [i]. *)
Definition block (a : t) (i : nat) : Z := (buf_ a + Z.of_nat (stride a * i))%Z.
(** [buf_ + (n_+sizeof(long))*size] *)
Definition limit (a : t) : Z := block a size.
(** What [Allocate] returns for block [i]: [p+sizeof(long)]. *)
Definition payload (a : t) (i : nat) : Z := (block a i + Z.of_nat sizeof_long)%Z.

(** The [while] loop of [Allocate]: the number of blocks it steps over.
    It stops at the end of [hdr] where the source stops at [limit]. *)
Fixpoint scan (hs : list Z) : nat :=
  match hs with
  | [] => 0
  | h :: hs' => if decide (h = 0%Z) then 0 else S (scan hs')
  end.

Definition Allocate (a : t) (n : nat) : outcome (Z * t) :=
  if decide (n_ a < n) then bad_alloc
  else
    let i := scan (hdr a) in
    if decide (limit a ≤ block a i)%Z then bad_alloc
    else Ok (payload a i, set_hdr a (alter IntAtomicIncrement i (hdr a))).

(** The block whose header starts at address [q], if there is one. *)
Definition header_at (a : t) (q : Z) : option nat :=
  let off := (q - buf_ a)%Z in
  if decide (0 ≤ off ∧ off `mod` Z.of_nat (stride a) = 0
             ∧ off `div` Z.of_nat (stride a) < Z.of_nat size)%Z
  then Some (Z.to_nat (off `div` Z.of_nat (stride a)))
  else None.

(** [Deallocate]. The decrement goes to the [long] at [p-sizeof(long)];
    when that is not the header of a block the store lands in a payload
    or outside the arena, which the embedding reports as [Undef]. *)
Definition Deallocate (a : t) (p : Z) : outcome t :=
  if decide (p = 0%Z) then Ok a
  else if decide (p < buf_ a ∨ limit a < p)%Z then bad_alloc
  else match header_at a (p - Z.of_nat sizeof_long) with
       | Some i => Ok (set_hdr a (alter IntAtomicDecrement i (hdr a)))
       | None => Undef
       end.

(** Block [i] is in use when its header is not zero: the test of the
    loop of [Allocate]. *)
Definition in_use (a : t) (i : nat) : Prop := ∃ h, hdr a !! i = Some h ∧ h ≠ 0%Z.
Definition is_free (a : t) (i : nat) : Prop := hdr a !! i = Some 0%Z.
Definition exhausted (a : t) : Prop := ∀ i, i < size → in_use a i.

(** What the constructor establishes and every operation keeps. *)
Definition wf (a : t) : Prop := length (hdr a) = size ∧ (0 < buf_ a)%Z.

(** The addresses of the arena, and the block an address falls in. *)
Definition within (a : t) (p : Z) : Prop := (buf_ a ≤ p < limit a)%Z.
Definition block_of (a : t) (p : Z) : nat :=
  Z.to_nat ((p - buf_ a) `div` Z.of_nat (stride a)).

(** [Deallocate] as the specification words it: a null pointer changes
    nothing, any other pointer outside the arena throws, and any other
    pointer inside it leaves its block free. *)
Definition Deallocate_as_specified : Prop :=
  ∀ (a : t) (p : Z), wf a →
    (p = 0%Z → Deallocate a p = Ok a) ∧
    (p ≠ 0%Z → ¬ within a p → Deallocate a p = bad_alloc) ∧
    (p ≠ 0%Z → within a p →
     ∃ a', Deallocate a p = Ok a' ∧ is_free a' (block_of a p)).

End FastArena.

(** ** The code that is the same for most COW versions: common-test.h *)

Module COW.

(** [buf] is [None] for the null pointer and otherwise the contents of
    the array it points to: no two [StringBuf]s ever hold the same
    array. [baggage] is the BAGGAGE member, where there is one: the number
    of times its lock is held. *)
Record StringBuf : Type := mkStringBuf {
  buf : option (list cell);
  len : nat;
  used : nat;
  refs : Z;
  baggage : nat
}.

Definition set_buf (b : StringBuf) (x : option (list cell)) : StringBuf :=
  {| buf := x; len := len b; used := used b; refs := refs b; baggage := baggage b |}.
Definition set_len (b : StringBuf) (x : nat) : StringBuf :=
  {| buf := buf b; len := x; used := used b; refs := refs b; baggage := baggage b |}.
Definition set_used (b : StringBuf) (x : nat) : StringBuf :=
  {| buf := buf b; len := len b; used := x; refs := refs b; baggage := baggage b |}.
Definition set_refs (b : StringBuf) (x : Z) : StringBuf :=
  {| buf := buf b; len := len b; used := used b; refs := x; baggage := baggage b |}.
Definition set_baggage (b : StringBuf) (x : nat) : StringBuf :=
  {| buf := buf b; len := len b; used := used b; refs := refs b; baggage := x |}.

(** The state of one namespace: its arena [fa], the [StringBuf]s that
    live in the blocks of [fa], and the two static counters. *)
Record heap : Type := mkHeap {
  fa : FastArena.t;
  objs : gmap Z StringBuf;
  nCopies : Z;
  nAllocs : Z
}.

Definition set_fa (h : heap) (a : FastArena.t) : heap :=
  {| fa := a; objs := objs h; nCopies := nCopies h; nAllocs := nAllocs h |}.
Definition set_objs (h : heap) (o : gmap Z StringBuf) : heap :=
  {| fa := fa h; objs := o; nCopies := nCopies h; nAllocs := nAllocs h |}.
Definition set_nCopies (h : heap) (x : Z) : heap :=
  {| fa := fa h; objs := objs h; nCopies := x; nAllocs := nAllocs h |}.
Definition set_nAllocs (h : heap) (x : Z) : heap :=
  {| fa := fa h; objs := objs h; nCopies := nCopies h; nAllocs := x |}.

(** [class String]: its only member. *)
Record String : Type := mkString { data_ : Z }.

(** A [char&] into the array of the [StringBuf] at [obj]. *)
Record charref : Type := mkRef { obj : Z; off : nat }.

(** *** Access to the objects of the heap *)

Definition load (p : Z) : M heap StringBuf :=
  λ h, match objs h !! p with
       | Some b => Ok (b, h)
       | None => Undef
       end.

Definition store (p : Z) (b : StringBuf) : M heap unit :=
  λ h, match objs h !! p with
       | Some _ => Ok (tt, set_objs h (<[p := b]> (objs h)))
       | None => Undef
       end.

(** [p->refs = r], [++p->refs], [--p->refs] and the like. *)
Definition update (p : Z) (f : StringBuf → StringBuf) : M heap unit :=
  let! b := load p in store p (f b).

Definition incr_nAllocs : M heap unit := modify (λ h, set_nAllocs h (nAllocs h + 1)%Z).
Definition incr_nCopies : M heap unit := modify (λ h, set_nCopies h (nCopies h + 1)%Z).

Section common_test_h.

(** [sizeof(StringBuf)]: fixed by the platform and by BAGGAGE. *)
Variable sizeof_StringBuf : nat.

(** [static FastArena fa( NAME, sizeof(StringBuf) )], and the empty
    state of the namespace. *)
Definition start (base : Z) : heap :=
  {| fa := FastArena.ctor base sizeof_StringBuf; objs := ∅;
     nCopies := 0; nAllocs := 0 |}.

Definition operator_new : M heap Z :=
  λ h, match FastArena.Allocate (fa h) sizeof_StringBuf with
       | Ok (p, a) => Ok (p, set_fa h a)
       | bad_alloc => bad_alloc
       | Undef => Undef
       end.

Definition operator_delete (p : Z) : M heap unit :=
  λ h, match FastArena.Deallocate (fa h) p with
       | Ok a => Ok (tt, set_fa h a)
       | bad_alloc => bad_alloc
       | Undef => Undef
       end.

(** The member initialisers [buf(0), len(0), used(0), refs(1)], run on
    the block at [p]. *)
Definition construct (p : Z) : M heap unit :=
  modify (λ h, set_objs h (<[p := mkStringBuf None 0 0 1 0]> (objs h))).

(** [StringBuf::Reserve], on the object at [p]. *)
Definition Reserve (p : Z) (n : nat) : M heap unit :=
  let! b := load p in
  if decide (len b < n) then
    let needed := needed_for (len b) n in
    let newlen := round4 needed in
    let! newbuf :=
      (if decide (newlen = 0) then ret None
       else (incr_nAllocs ;;; ret (Some (replicate newlen Uninit)))) in
    let! newbuf :=
      (match buf b with
       | Some old =>
           match newbuf with
           | Some nb =>
               match memcpy nb old (used b) with
               | Some r => ret (Some r)
               | None => undefined
               end
           | None => undefined
           end
       | None => ret newbuf
       end) in
    store p (set_len (set_buf b newbuf) newlen)
  else ret tt.

(** [StringBuf::StringBuf()] by [new StringBuf]. *)
Definition new_StringBuf : M heap Z :=
  let! p := operator_new in
  construct p ;;;
  ret p.

(** [StringBuf::StringBuf( const StringBuf& other, size_t n )] by
    [new StringBuf( other, n )], [q] being the address of [other]. *)
Definition new_StringBuf_clone (q : Z) (n : nat) : M heap Z :=
  let! p := operator_new in
  construct p ;;;
  let! other := load q in
  Reserve p (Nat.max (len other) n) ;;;
  let! this := load p in
  let! other := load q in
  let! b := defined (memcpy_ptr (buf this) (buf other) (used this)) in
  store p (set_buf this b) ;;;
  let! other := load q in
  update p (λ this, set_used this (used other)) ;;;
  ret p.

(** [delete p]: [~StringBuf] releases the array, [operator delete]
    the block. *)
Definition delete (p : Z) : M heap unit :=
  load p ;;;
  modify (λ h, set_objs h (base.delete p (objs h))) ;;;
  operator_delete p.

(** [StringBuf::Clear] *)
Definition StringBuf_Clear (p : Z) : M heap unit :=
  update p (λ b, set_used (set_len (set_buf b None) 0) 0).

(** The four member functions each namespace defines for itself. *)
Record members : Type := mkMembers {
  dtor : String → M heap unit;
  copy_ctor : String → M heap String;
  Clear : String → M heap String;
  EnsureUnique : String → nat → M heap String
}.

(** [String::String()] *)
Definition String_ctor : M heap String :=
  let! p := new_StringBuf in ret (mkString p).

Section members_of_String.

Variable v : members.

(** [String::Append] *)
Definition Append (s : String) (c : ascii) : M heap String :=
  let! d := load (data_ s) in
  let! s := EnsureUnique v s (used d + 1) in
  let! d := load (data_ s) in
  match buf d with
  | Some a =>
      if decide (used d < length a)
      then store (data_ s)
             (set_used (set_buf d (Some (<[used d := Char c]> a))) (used d + 1)) ;;;
           ret s
      else undefined
  | None => undefined
  end.

(** [String::Length] *)
Definition Length (s : String) : M heap nat :=
  let! d := load (data_ s) in ret (used d).

(** [String::EnsureUnshareable] *)
Definition EnsureUnshareable (s : String) (n : nat) : M heap String :=
  let! s := EnsureUnique v s n in
  update (data_ s) (λ d, set_refs d (-1)) ;;;
  ret s.

(** [String::operator[]]: the string afterwards and the reference
    [*(data_->buf+n)]. *)
Definition index (s : String) (n : nat) : M heap (String * charref) :=
  let! d := load (data_ s) in
  let! s := EnsureUnshareable s (len d) in
  ret (s, mkRef (data_ s) n).

End members_of_String.

End common_test_h.

(** Reading and writing through a [char&]. *)
Definition read (r : charref) : M heap cell :=
  let! d := load (obj r) in
  match buf d with
  | Some a => match a !! off r with
              | Some x => ret x
              | None => undefined
              end
  | None => undefined
  end.

Definition write (r : charref) (c : ascii) : M heap unit :=
  let! d := load (obj r) in
  match buf d with
  | Some a => if decide (off r < length a)
              then store (obj r) (set_buf d (Some (<[off r := Char c]> a)))
              else undefined
  | None => undefined
  end.

End COW.


(** ** COW_Unsafe: the thread-unsafe implementation *)

Module COW_Unsafe.
Import COW.

Section namespace.

Variable sizeof_StringBuf : nat.

(** [String::~String] *)
Definition dtor (s : String) : M heap unit :=
  let! d := load (data_ s) in
  store (data_ s) (set_refs d (refs d - 1)) ;;;
  if decide (refs d - 1 < 1)%Z then delete (data_ s) else ret tt.

(** [String::String( const String& other )] *)
Definition copy_ctor (other : String) : M heap String :=
  let! d := load (data_ other) in
  let! s :=
    (if decide (refs d > 0)%Z then
       update (data_ other) (λ d, set_refs d (refs d + 1)) ;;;
       ret (mkString (data_ other))
     else
       let! p := new_StringBuf_clone sizeof_StringBuf (data_ other) 0 in
       ret (mkString p)) in
  incr_nCopies ;;;
  ret s.

(** [String::Clear] *)
Definition Clear (s : String) : M heap String :=
  let! d := load (data_ s) in
  if decide (refs d > 1)%Z then
    update (data_ s) (λ d, set_refs d (refs d - 1)) ;;;
    let! p := new_StringBuf sizeof_StringBuf in
    ret (mkString p)
  else
    StringBuf_Clear (data_ s) ;;;
    update (data_ s) (λ d, set_refs d 1) ;;;
    ret s.

(** [String::EnsureUnique] *)
Definition EnsureUnique (s : String) (n : nat) : M heap String :=
  let! d := load (data_ s) in
  if decide (refs d > 1)%Z then
    let! newdata := new_StringBuf_clone sizeof_StringBuf (data_ s) n in
    update (data_ s) (λ d, set_refs d (refs d - 1)) ;;;
    ret (mkString newdata)
  else
    Reserve (data_ s) n ;;;
    update (data_ s) (λ d, set_refs d 1) ;;;
    ret s.

Definition String : members := mkMembers dtor copy_ctor Clear EnsureUnique.

End namespace.

End COW_Unsafe.

(** ** COW_AtomicInt: atomic integer operations on [refs] *)

Module COW_AtomicInt.
Import COW.

(** [IntAtomicDecrement( p->refs )] and [IntAtomicIncrement( p->refs )]:
    the new value is stored and returned. *)
Definition decrement_refs (p : Z) : M heap Z :=
  let! d := load p in
  store p (set_refs d (IntAtomicDecrement (refs d))) ;;;
  ret (IntAtomicDecrement (refs d)).

Definition increment_refs (p : Z) : M heap Z :=
  let! d := load p in
  store p (set_refs d (IntAtomicIncrement (refs d))) ;;;
  ret (IntAtomicIncrement (refs d)).

Section namespace.

Variable sizeof_StringBuf : nat.

(** [String::~String] *)
Definition dtor (s : String) : M heap unit :=
  let! r := decrement_refs (data_ s) in
  if decide (r < 1)%Z then delete (data_ s) else ret tt.

(** [String::String( const String& other )] *)
Definition copy_ctor (other : String) : M heap String :=
  let! d := load (data_ other) in
  let! s :=
    (if decide (IntAtomicCompare (refs d) 0 > 0)%Z then
       increment_refs (data_ other) ;;;
       ret (mkString (data_ other))
     else
       let! p := new_StringBuf_clone sizeof_StringBuf (data_ other) 0 in
       ret (mkString p)) in
  incr_nCopies ;;;
  ret s.

(** [String::Clear] *)
Definition Clear (s : String) : M heap String :=
  let! r := decrement_refs (data_ s) in
  if decide (r < 1)%Z then
    StringBuf_Clear (data_ s) ;;;
    update (data_ s) (λ d, set_refs d 1) ;;;
    ret s
  else
    let! p := new_StringBuf sizeof_StringBuf in
    ret (mkString p).

(** [String::EnsureUnique] *)
Definition EnsureUnique (s : String) (n : nat) : M heap String :=
  let! d := load (data_ s) in
  if decide (IntAtomicCompare (refs d) 1 > 0)%Z then
    let! newdata := new_StringBuf_clone sizeof_StringBuf (data_ s) n in
    let! r := decrement_refs (data_ s) in
    if decide (r < 1)%Z then
      delete newdata ;;;
      update (data_ s) (λ d, set_refs d 1) ;;;
      ret s
    else
      ret (mkString newdata)
  else
    Reserve (data_ s) n ;;;
    update (data_ s) (λ d, set_refs d 1) ;;;
    ret s.

Definition String : members := mkMembers dtor copy_ctor Clear EnsureUnique.

End namespace.

End COW_AtomicInt.

(** ** COW_CritSec and COW_Mutex: a lock in every [StringBuf]

    [Lock<T> l( p->cs )] takes the lock that is the BAGGAGE of the
    [StringBuf] at [p], and [l.Unlock()] gives it back. Every path of the
    functions below calls [l.Unlock()] itself, so that the destructor of
    [l] finds [bLocked_] false and does nothing. *)

Module Lock.
Import COW.

Definition ctor (p : Z) : M heap unit :=
  update p (λ d, set_baggage d (baggage d + 1)).

Definition Unlock (p : Z) : M heap unit :=
  update p (λ d, set_baggage d (baggage d - 1)).

End Lock.

Module COW_CritSec.
Import COW.

Section namespace.

Variable sizeof_StringBuf : nat.

(** [String::~String] *)
Definition dtor (s : String) : M heap unit :=
  Lock.ctor (data_ s) ;;;
  let! d := load (data_ s) in
  store (data_ s) (set_refs d (refs d - 1)) ;;;
  let bDelete := bool_decide (refs d - 1 < 1)%Z in
  Lock.Unlock (data_ s) ;;;
  if bDelete then delete (data_ s) else ret tt.

(** [String::String( const String& other )] *)
Definition copy_ctor (other : String) : M heap String :=
  Lock.ctor (data_ other) ;;;
  let! d := load (data_ other) in
  let! s :=
    (if decide (refs d > 0)%Z then
       update (data_ other) (λ d, set_refs d (refs d + 1)) ;;;
       Lock.Unlock (data_ other) ;;;
       ret (mkString (data_ other))
     else
       Lock.Unlock (data_ other) ;;;
       let! p := new_StringBuf_clone sizeof_StringBuf (data_ other) 0 in
       ret (mkString p)) in
  incr_nCopies ;;;
  ret s.

(** [String::Clear] *)
Definition Clear (s : String) : M heap String :=
  Lock.ctor (data_ s) ;;;
  let! d := load (data_ s) in
  if decide (refs d > 1)%Z then
    update (data_ s) (λ d, set_refs d (refs d - 1)) ;;;
    Lock.Unlock (data_ s) ;;;
    let! p := new_StringBuf sizeof_StringBuf in
    ret (mkString p)
  else
    Lock.Unlock (data_ s) ;;;
    StringBuf_Clear (data_ s) ;;;
    update (data_ s) (λ d, set_refs d 1) ;;;
    ret s.

(** [String::EnsureUnique] *)
Definition EnsureUnique (s : String) (n : nat) : M heap String :=
  Lock.ctor (data_ s) ;;;
  let! d := load (data_ s) in
  if decide (refs d > 1)%Z then
    let! newdata := new_StringBuf_clone sizeof_StringBuf (data_ s) n in
    update (data_ s) (λ d, set_refs d (refs d - 1)) ;;;
    Lock.Unlock (data_ s) ;;;
    ret (mkString newdata)
  else
    Lock.Unlock (data_ s) ;;;
    Reserve (data_ s) n ;;;
    update (data_ s) (λ d, set_refs d 1) ;;;
    ret s.

Definition String : members := mkMembers dtor copy_ctor Clear EnsureUnique.

End namespace.

End COW_CritSec.

Module COW_Mutex.
Import COW.

Section namespace.

Variable sizeof_StringBuf : nat.

(** [String::~String] *)
Definition dtor (s : String) : M heap unit :=
  Lock.ctor (data_ s) ;;;
  let! d := load (data_ s) in
  store (data_ s) (set_refs d (refs d - 1)) ;;;
  let bDelete := bool_decide (refs d - 1 < 1)%Z in
  Lock.Unlock (data_ s) ;;;
  if bDelete then delete (data_ s) else ret tt.

(** [String::String( const String& other )] *)
Definition copy_ctor (other : String) : M heap String :=
  Lock.ctor (data_ other) ;;;
  let! d := load (data_ other) in
  let! s :=
    (if decide (refs d > 0)%Z then
       update (data_ other) (λ d, set_refs d (refs d + 1)) ;;;
       Lock.Unlock (data_ other) ;;;
       ret (mkString (data_ other))
     else
       Lock.Unlock (data_ other) ;;;
       let! p := new_StringBuf_clone sizeof_StringBuf (data_ other) 0 in
       ret (mkString p)) in
  incr_nCopies ;;;
  ret s.

(** [String::Clear] *)
Definition Clear (s : String) : M heap String :=
  Lock.ctor (data_ s) ;;;
  let! d := load (data_ s) in
  if decide (refs d > 1)%Z then
    update (data_ s) (λ d, set_refs d (refs d - 1)) ;;;
    Lock.Unlock (data_ s) ;;;
    let! p := new_StringBuf sizeof_StringBuf in
    ret (mkString p)
  else
    Lock.Unlock (data_ s) ;;;
    StringBuf_Clear (data_ s) ;;;
    update (data_ s) (λ d, set_refs d 1) ;;;
    ret s.

(** [String::EnsureUnique] *)
Definition EnsureUnique (s : String) (n : nat) : M heap String :=
  Lock.ctor (data_ s) ;;;
  let! d := load (data_ s) in
  if decide (refs d > 1)%Z then
    let! newdata := new_StringBuf_clone sizeof_StringBuf (data_ s) n in
    update (data_ s) (λ d, set_refs d (refs d - 1)) ;;;
    Lock.Unlock (data_ s) ;;;
    ret (mkString newdata)
  else
    Lock.Unlock (data_ s) ;;;
    Reserve (data_ s) n ;;;
    update (data_ s) (λ d, set_refs d 1) ;;;
    ret s.

Definition String : members := mkMembers dtor copy_ctor Clear EnsureUnique.

End namespace.

End COW_Mutex.

(** ** The four namespaces that include common-test.h *)

Inductive variant : Type := Unsafe | AtomicInt | CritSec | Mutex.

Definition String_of (sizeof_StringBuf : nat) (v : variant) : COW.members :=
  match v with
  | Unsafe => COW_Unsafe.String sizeof_StringBuf
  | AtomicInt => COW_AtomicInt.String sizeof_StringBuf
  | CritSec => COW_CritSec.String sizeof_StringBuf
  | Mutex => COW_Mutex.String sizeof_StringBuf
  end.

(** ** Notions used to state the properties of the COW namespaces *)

Module COW_props.
Import COW.

(** A [StringBuf] whose fields agree with its array. *)
Definition buf_wf (d : StringBuf) : Prop :=
  used d ≤ len d ∧
  match buf d with
  | Some a => length a = len d
  | None => len d = 0
  end.

(** A heap whose arena is well formed, has blocks large enough for a
    [StringBuf], and holds every live [StringBuf] in a block in use. *)
Definition heap_wf (sizeof_StringBuf : nat) (h : heap) : Prop :=
  FastArena.wf (fa h) ∧
  sizeof_StringBuf ≤ FastArena.n_ (fa h) ∧
  ∀ p d, objs h !! p = Some d →
    buf_wf d ∧
    ∃ i, i < FastArena.size ∧ p = FastArena.payload (fa h) i
         ∧ FastArena.in_use (fa h) i.

(** What [Length()] returns for [s] and the characters below it. *)
Definition contents (h : heap) (s : String) : option (nat * list cell) :=
  match objs h !! data_ s with
  | Some d => Some (used d, take (used d) (default [] (buf d)))
  | None => None
  end.

(** The [StringBuf] that [Reserve(n)] makes of [d] when it has to grow, as the
    proofs below find it. *)
Definition grown (d : StringBuf) (n : nat) : StringBuf :=
  let newlen := round4 (needed_for (len d) n) in
  set_len (set_buf d (Some (take (used d) (default [] (buf d))
                            ++ replicate (newlen - used d) Uninit))) newlen.

(** The [StringBuf] that [StringBuf( X, n )] constructs, as the proofs below
    find it. *)
Definition cloned (X : StringBuf) (n : nat) : StringBuf :=
  let L := round4 (Nat.max (len X) n) in
  mkStringBuf (if decide (L = 0) then None else Some (replicate L Uninit))
              L (used X) 1 0.

(** The [StringBuf] that [Reserve(n)] leaves, and the one that the store
    [buf[used++] = c] of [Append] leaves. *)
Definition reserved (d : StringBuf) (n : nat) : StringBuf :=
  if decide (len d < n) then grown d n else d.

Definition appended (d : StringBuf) (c : ascii) : StringBuf :=
  set_used (set_buf d (Some (<[used d := Char c]> (default [] (buf d)))))
           (used d + 1).

(** The state [EnsureUnique(n)] leaves when the buffer is shared: a clone
    in a new block, and one reference less on the old buffer. *)
Definition detached (h1 : heap) (h : heap) (q p : Z) (d : StringBuf) (n : nat) : heap :=
  set_objs
    (set_nAllocs h1
       (nAllocs h + if decide (round4 (Nat.max (len d) n) = 0) then 0%Z else 1%Z))
    (<[q := set_refs d (refs d - 1)]> (<[p := cloned d n]> (objs h))).

(** The capacity the specification gives to a clone of the [StringBuf]
    at [q]. *)
Definition clone_capacity_as_specified : Prop :=
  ∀ (sz : nat) (h h' : heap) (q p : Z) (X : StringBuf) (n : nat),
    heap_wf sz h → objs h !! q = Some X →
    new_StringBuf_clone sz q n h = Ok (p, h') →
    ∃ d, objs h' !! p = Some d ∧ len d = round4 (Nat.max (len X * 3 / 2) n).

(** The state a namespace is in after [String s; s.Append('X');], for
    a [StringBuf] of 16 bytes and an arena at address 4096: the only
    [StringBuf] sits in the first block, at address 4100. *)
Definition buf_X : StringBuf :=
  mkStringBuf (Some [Char "X"; Uninit; Uninit; Uninit]) 4 1 1 0.

Definition heap_X : heap :=
  {| fa := FastArena.set_hdr (FastArena.ctor 4096 16)
             (<[0 := 1%Z]> (FastArena.hdr (FastArena.ctor 4096 16)));
     objs := {[ 4100%Z := buf_X ]};
     nCopies := 0;
     nAllocs := 1 |}.

(** The same with a [StringBuf] of capacity 8. *)
Definition buf_X8 : StringBuf :=
  mkStringBuf (Some (Char "X" :: replicate 7 Uninit)) 8 1 1 0.

Definition heap_X8 : heap :=
  {| fa := fa heap_X; objs := {[ 4100%Z := buf_X8 ]};
     nCopies := 0; nAllocs := 2 |}.

(** The state after [String s; s.Append('X'); String s2( s );]: both
    strings hold the address 4100. *)
Definition heap_shared : heap :=
  {| fa := fa heap_X; objs := {[ 4100%Z := set_refs buf_X 2 ]};
     nCopies := 1; nAllocs := 1 |}.

(** The state after [String s; s.Append('X'); s[0];]. *)
Definition heap_unshareable : heap :=
  {| fa := fa heap_X; objs := {[ 4100%Z := set_refs buf_X (-1) ]};
     nCopies := 0; nAllocs := 1 |}.

(** The specification on a buffer made unshareable: a copy made after an
    indexed access and any operation other than [Clear], here an [Append],
    is a deep one. *)
Definition unshareable_persists_as_specified : Prop :=
  ∀ (sz : nat) (v : variant) (h h1 h2 h3 : heap) (s s1 s2 s3 : String)
    (n : nat) (r : charref) (c : ascii),
    heap_wf sz h →
    index (String_of sz v) s n h = Ok ((s1, r), h1) →
    Append (String_of sz v) s1 c h1 = Ok (s2, h2) →
    copy_ctor (String_of sz v) s2 h2 = Ok (s3, h3) →
    data_ s3 ≠ data_ s2.

(** The heap a computation ends in, [h] if it does not return. *)
Definition heap_after {A : Type} (o : outcome (A * heap)) (h : heap) : heap :=
  match o with
  | Ok (_, h') => h'
  | _ => h
  end.

End COW_props.

(** ** COW_AtomicInt2: control data and characters in one buffer *)

Module COW_AtomicInt2.

Record StringBuf : Type := mkStringBuf { len : nat; used : nat; refs : Z }.

(** A buffer of [sizeof(StringBuf)+len] chars: the [StringBuf] that sits
    in its initial bytes and the chars [BUF] after it. *)
Record glom : Type := mkGlom { head : StringBuf; BUF : list cell }.

Definition LEN (x : glom) : nat := len (head x).
Definition USED (x : glom) : nat := used (head x).
Definition REFS (x : glom) : Z := refs (head x).

Definition set_LEN (x : glom) (v : nat) : glom :=
  mkGlom (mkStringBuf v (USED x) (REFS x)) (BUF x).
Definition set_USED (x : glom) (v : nat) : glom :=
  mkGlom (mkStringBuf (LEN x) v (REFS x)) (BUF x).
Definition set_REFS (x : glom) (v : Z) : glom :=
  mkGlom (mkStringBuf (LEN x) (USED x) v) (BUF x).
Definition set_BUF (x : glom) (v : list cell) : glom := mkGlom (head x) v.

(** The buffers the namespace has allocated and not deleted, and its two
    static counters. *)
Record heap : Type := mkHeap {
  mem : gmap positive glom;
  nCopies : Z;
  nAllocs : Z
}.

Definition set_mem (h : heap) (m : gmap positive glom) : heap :=
  {| mem := m; nCopies := nCopies h; nAllocs := nAllocs h |}.
Definition set_nCopies (h : heap) (x : Z) : heap :=
  {| mem := mem h; nCopies := x; nAllocs := nAllocs h |}.
Definition set_nAllocs (h : heap) (x : Z) : heap :=
  {| mem := mem h; nCopies := nCopies h; nAllocs := x |}.

Definition start : heap := {| mem := ∅; nCopies := 0; nAllocs := 0 |}.

(** [class String]: its only member, a [char*]. *)
Record String : Type := mkString { data_ : positive }.

(** A [char&] at [BUF(obj)+off]. *)
Record charref : Type := mkRef { obj : positive; off : nat }.

Definition load (p : positive) : M heap glom :=
  λ h, match mem h !! p with
       | Some x => Ok (x, h)
       | None => Undef
       end.

Definition store (p : positive) (x : glom) : M heap unit :=
  λ h, match mem h !! p with
       | Some _ => Ok (tt, set_mem h (<[p := x]> (mem h)))
       | None => Undef
       end.

Definition update (p : positive) (f : glom → glom) : M heap unit :=
  let! x := load p in store p (f x).

(** [new char[...]], holding [x] once the statements that follow the
    allocation have filled it in: the address is one not in use. *)
Definition new_chars (x : glom) : M heap positive :=
  λ h, let p := fresh (dom (mem h)) in
       Ok (p, set_mem h (<[p := x]> (mem h))).

(** [delete[] p] *)
Definition delete_chars (p : positive) : M heap unit :=
  load p ;;;
  modify (λ h, set_mem h (delete p (mem h))).

Definition incr_nAllocs : M heap unit := modify (λ h, set_nAllocs h (nAllocs h + 1)%Z).
Definition incr_nCopies : M heap unit := modify (λ h, set_nCopies h (nCopies h + 1)%Z).

Definition decrement_REFS (p : positive) : M heap Z :=
  let! x := load p in
  store p (set_REFS x (IntAtomicDecrement (REFS x))) ;;;
  ret (IntAtomicDecrement (REFS x)).

Definition increment_REFS (p : positive) : M heap Z :=
  let! x := load p in
  store p (set_REFS x (IntAtomicIncrement (REFS x))) ;;;
  ret (IntAtomicIncrement (REFS x)).

(** [String::String()] *)
Definition String_ctor : M heap String :=
  let! p := new_chars (mkGlom (mkStringBuf 0 0 1) []) in
  incr_nAllocs ;;;
  ret (mkString p).

(** [String::~String] *)
Definition dtor (s : String) : M heap unit :=
  let! r := decrement_REFS (data_ s) in
  if decide (r < 1)%Z then delete_chars (data_ s) else ret tt.

(** [String::Clone]: the [memcpy] takes the [StringBuf] and the first
    [USED(data)] chars of the old buffer into the new one. *)
Definition Clone (data : positive) (n : nat) : M heap positive :=
  let! x := load data in
  let needed := needed_for (LEN x) n in
  let newlen := round4 needed in
  incr_nAllocs ;;;
  let! cs := defined (memcpy (replicate newlen Uninit) (BUF x) (USED x)) in
  let! newdata := new_chars (mkGlom (head x) cs) in
  update newdata (λ y, set_LEN y newlen) ;;;
  update newdata (λ y, set_REFS y 1) ;;;
  ret newdata.

(** [String::String( const String& other )] *)
Definition copy_ctor (other : String) : M heap String :=
  let! x := load (data_ other) in
  let! s :=
    (if decide (IntAtomicCompare (REFS x) 0 > 0)%Z then
       increment_REFS (data_ other) ;;;
       ret (mkString (data_ other))
     else
       let! p := Clone (data_ other) 0 in
       ret (mkString p)) in
  incr_nCopies ;;;
  ret s.

(** [String::Swap] *)
Definition Swap (s other : String) : String * String := (other, s).

(** [String::Clear]: [tmp] is destroyed when the function returns. *)
Definition Clear (s : String) : M heap String :=
  let! tmp := String_ctor in
  let '(s, tmp) := Swap s tmp in
  dtor tmp ;;;
  ret s.

(** [String::Reserve] *)
Definition Reserve (s : String) (n : nat) : M heap String :=
  let! x := load (data_ s) in
  if decide (LEN x < n) then
    let! newdata := Clone (data_ s) n in
    delete_chars (data_ s) ;;;
    ret (mkString newdata)
  else ret s.

(** [String::EnsureUnique] *)
Definition EnsureUnique (s : String) (n : nat) : M heap String :=
  let! x := load (data_ s) in
  if decide (IntAtomicCompare (REFS x) 1 > 0)%Z then
    let! newdata := Clone (data_ s) n in
    let! r := decrement_REFS (data_ s) in
    if decide (r < 1)%Z then
      delete_chars newdata ;;;
      update (data_ s) (λ y, set_REFS y 1) ;;;
      ret s
    else
      ret (mkString newdata)
  else
    let! s := Reserve s n in
    update (data_ s) (λ y, set_REFS y 1) ;;;
    ret s.

(** [String::EnsureUnshareable] *)
Definition EnsureUnshareable (s : String) (n : nat) : M heap String :=
  let! s := EnsureUnique s n in
  update (data_ s) (λ y, set_REFS y (-1)) ;;;
  ret s.

(** [String::Append] *)
Definition Append (s : String) (c : ascii) : M heap String :=
  let! x := load (data_ s) in
  let! s := EnsureUnique s (USED x + 1) in
  let! x := load (data_ s) in
  if decide (USED x < length (BUF x))
  then store (data_ s) (set_USED (set_BUF x (<[USED x := Char c]> (BUF x))) (USED x + 1)) ;;;
       ret s
  else undefined.

(** [String::Length] *)
Definition Length (s : String) : M heap nat :=
  let! x := load (data_ s) in ret (USED x).

(** [String::operator[]] *)
Definition index (s : String) (n : nat) : M heap (String * charref) :=
  let! x := load (data_ s) in
  let! s := EnsureUnshareable s (LEN x) in
  ret (s, mkRef (data_ s) n).

Definition read (r : charref) : M heap cell :=
  let! x := load (obj r) in defined (BUF x !! off r).

Definition write (r : charref) (c : ascii) : M heap unit :=
  let! x := load (obj r) in
  if decide (off r < length (BUF x))
  then store (obj r) (set_BUF x (<[off r := Char c]> (BUF x)))
  else undefined.

(** What [Length()] returns for [s] and the characters below it. *)
Definition contents (h : heap) (s : String) : option (nat * list cell) :=
  match mem h !! data_ s with
  | Some x => Some (USED x, take (USED x) (BUF x))
  | None => None
  end.

(** A buffer whose [StringBuf] agrees with its chars. *)
Definition glom_wf (x : glom) : Prop :=
  USED x ≤ LEN x ∧ length (BUF x) = LEN x.

(** The buffer [Clone( data, n )] makes of the buffer [x] at [data], as
    the proofs below find it. *)
Definition cloned (x : glom) (n : nat) : glom :=
  let newlen := round4 (needed_for (LEN x) n) in
  mkGlom (mkStringBuf newlen (USED x) 1)
         (take (USED x) (BUF x) ++ replicate (newlen - USED x) Uninit).

(** The states after [String s; s.Append('X');], after a copy of [s] has
    been made, and after [s[0]] instead. *)
Definition glom_X : glom :=
  mkGlom (mkStringBuf 4 1 1) [Char "X"; Uninit; Uninit; Uninit].

Definition heap_X : heap :=
  {| mem := {[ 2%positive := glom_X ]}; nCopies := 0; nAllocs := 2 |}.

Definition heap_shared : heap :=
  {| mem := {[ 2%positive := set_REFS glom_X 2 ]}; nCopies := 1; nAllocs := 2 |}.

Definition heap_unshareable : heap :=
  {| mem := {[ 2%positive := set_REFS glom_X (-1) ]}; nCopies := 0; nAllocs := 2 |}.

(** The buffer that the store [BUF(data_)[USED(data_)++] = c] of [Append]
    leaves. *)
Definition appended (x : glom) (c : ascii) : glom :=
  set_USED (set_BUF x (<[USED x := Char c]> (BUF x))) (USED x + 1).

End COW_AtomicInt2.

(** ** Plain: the non-COW string *)

Module Plain.

(** [buf_] is [None] for the null pointer and otherwise the contents of
    the array: every [String] has an array of its own. *)
Record String : Type := mkString {
  buf_ : option (list cell);
  len_ : nat;
  used_ : nat
}.

(** The static counters of the class. *)
Record counters : Type := mkCounters { nCopies : Z; nAllocs : Z }.

Definition incr_nAllocs : M counters unit :=
  modify (λ k, mkCounters (nCopies k) (nAllocs k + 1)).
Definition incr_nCopies : M counters unit :=
  modify (λ k, mkCounters (nCopies k + 1) (nAllocs k)).

(** A [char&] at [buf+off]. *)
Record charref : Type := mkRef { base : option (list cell); off : nat }.

(** [String::String()] *)
Definition String_ctor : String := mkString None 0 0.

(** [String::String( const String& other )] *)
Definition copy_ctor (other : String) : M counters String :=
  let! b := defined (memcpy_ptr (Some (replicate (len_ other) Uninit))
                                (buf_ other) (used_ other)) in
  incr_nCopies ;;;
  incr_nAllocs ;;;
  ret (mkString b (len_ other) (used_ other)).

(** [String::Clear] *)
Definition Clear (s : String) : String := mkString None 0 0.

(** [String::Reserve] *)
Definition Reserve (s : String) (n : nat) : M counters String :=
  if decide (len_ s < n) then
    let needed := needed_for (len_ s) n in
    let newlen := round4 needed in
    let! newbuf :=
      (if decide (newlen = 0) then ret None
       else (incr_nAllocs ;;; ret (Some (replicate newlen Uninit)))) in
    let! newbuf :=
      (match buf_ s with
       | Some old =>
           match newbuf with
           | Some nb => let! r := defined (memcpy nb old (used_ s)) in ret (Some r)
           | None => undefined
           end
       | None => ret newbuf
       end) in
    ret (mkString newbuf newlen (used_ s))
  else ret s.

(** [String::Append] *)
Definition Append (s : String) (c : ascii) : M counters String :=
  let! s := Reserve s (used_ s + 1) in
  match buf_ s with
  | Some a =>
      if decide (used_ s < length a)
      then ret (mkString (Some (<[used_ s := Char c]> a)) (len_ s) (used_ s + 1))
      else undefined
  | None => undefined
  end.

(** [String::Length] *)
Definition Length (s : String) : nat := used_ s.

(** [String::operator[]] *)
Definition index (s : String) (n : nat) : charref := mkRef (buf_ s) n.

Definition read (r : charref) : option cell :=
  match base r with
  | Some a => a !! off r
  | None => None
  end.

End Plain.

(** ** Plain_FastAlloc: the non-COW string on the fixed-block allocator *)

Module Plain_FastAlloc.

(** [buf_] is an address in the arena, or 0. *)
Record String : Type := mkString { buf_ : Z; len_ : nat; used_ : nat }.

(** The static members of the class, [blocks] being what the payloads of
    the blocks handed out by [fa] hold. *)
Record heap : Type := mkHeap {
  fa : FastArena.t;
  blocks : gmap Z (list cell);
  nCopies : Z;
  nAllocs : Z
}.

Definition set_fa (h : heap) (a : FastArena.t) : heap :=
  {| fa := a; blocks := blocks h; nCopies := nCopies h; nAllocs := nAllocs h |}.
Definition set_blocks (h : heap) (b : gmap Z (list cell)) : heap :=
  {| fa := fa h; blocks := b; nCopies := nCopies h; nAllocs := nAllocs h |}.
Definition set_nCopies (h : heap) (x : Z) : heap :=
  {| fa := fa h; blocks := blocks h; nCopies := x; nAllocs := nAllocs h |}.
Definition set_nAllocs (h : heap) (x : Z) : heap :=
  {| fa := fa h; blocks := blocks h; nCopies := nCopies h; nAllocs := x |}.

(** [FastArena String::fa( "Plain_FastAlloc" )]: blocks of 3000 bytes. *)
Definition start (base : Z) : heap :=
  {| fa := FastArena.ctor base 3000; blocks := ∅; nCopies := 0; nAllocs := 0 |}.

Definition incr_nAllocs : M heap unit := modify (λ h, set_nAllocs h (nAllocs h + 1)%Z).
Definition incr_nCopies : M heap unit := modify (λ h, set_nCopies h (nCopies h + 1)%Z).

(** A [char&] at [buf+off]. *)
Record charref : Type := mkRef { base : Z; off : nat }.

(** [(char* )fa.Allocate(n)]: the payload of the block is [n_] chars that
    the program has not written. *)
Definition Allocate (n : nat) : M heap Z :=
  λ h, match FastArena.Allocate (fa h) n with
       | Ok (p, a) =>
           Ok (p, set_blocks (set_fa h a)
                    (<[p := replicate (FastArena.n_ a) Uninit]> (blocks h)))
       | bad_alloc => bad_alloc
       | Undef => Undef
       end.

(** [fa.Deallocate(p)] *)
Definition Deallocate (p : Z) : M heap unit :=
  λ h, match FastArena.Deallocate (fa h) p with
       | Ok a => Ok (tt, set_blocks (set_fa h a) (delete p (blocks h)))
       | bad_alloc => bad_alloc
       | Undef => Undef
       end.

(** The chars at a [char*]. *)
Definition chars_at (p : Z) : M heap (list cell) :=
  λ h, match blocks h !! p with
       | Some a => Ok (a, h)
       | None => Undef
       end.

Definition set_chars (p : Z) (a : list cell) : M heap unit :=
  λ h, match blocks h !! p with
       | Some _ => Ok (tt, set_blocks h (<[p := a]> (blocks h)))
       | None => Undef
       end.

(** [memcpy( dst, src, n )] between two addresses. *)
Definition memcpy_at (dst src : Z) (n : nat) : M heap unit :=
  if decide (n = 0) then ret tt
  else
    let! d := chars_at dst in
    let! s := chars_at src in
    let! r := defined (memcpy d s n) in
    set_chars dst r.

(** [String::String()] *)
Definition String_ctor : String := mkString 0 0 0.

(** [String::~String] *)
Definition dtor (s : String) : M heap unit := Deallocate (buf_ s).

(** [String::String( const String& other )] *)
Definition copy_ctor (other : String) : M heap String :=
  let! p := Allocate (len_ other) in
  memcpy_at p (buf_ other) (used_ other) ;;;
  incr_nCopies ;;;
  incr_nAllocs ;;;
  ret (mkString p (len_ other) (used_ other)).

(** [String::Clear] *)
Definition Clear (s : String) : M heap String :=
  Deallocate (buf_ s) ;;;
  ret (mkString 0 0 0).

(** [String::Reserve] *)
Definition Reserve (s : String) (n : nat) : M heap String :=
  if decide (len_ s < n) then
    let needed := needed_for (len_ s) n in
    let newlen := round4 needed in
    let! newbuf :=
      (if decide (newlen = 0) then ret 0%Z
       else (incr_nAllocs ;;; Allocate newlen)) in
    (if decide (buf_ s = 0%Z) then ret tt
     else memcpy_at newbuf (buf_ s) (used_ s)) ;;;
    Deallocate (buf_ s) ;;;
    ret (mkString newbuf newlen (used_ s))
  else ret s.

(** [String::Append] *)
Definition Append (s : String) (c : ascii) : M heap String :=
  let! s := Reserve s (used_ s + 1) in
  let! a := chars_at (buf_ s) in
  if decide (used_ s < length a)
  then set_chars (buf_ s) (<[used_ s := Char c]> a) ;;;
       ret (mkString (buf_ s) (len_ s) (used_ s + 1))
  else undefined.

(** [String::Length] *)
Definition Length (s : String) : nat := used_ s.

(** [String::operator[]] *)
Definition index (s : String) (n : nat) : charref := mkRef (buf_ s) n.

Definition read (r : charref) : M heap cell :=
  let! a := chars_at (base r) in defined (a !! off r).

End Plain_FastAlloc.

(** ** StdString and AtlString: the wrappers of the library strings

    [std::string] and [ATL::CStringA] are classes of the C++ library and
    of ATL: test.cpp holds the two wrappers, not the classes. Each wrapper
    is embedded over a library string that is given by the members the
    wrapper calls, and what is proved of a wrapper assumes of those
    members the contract that the library documents for them, which is
    stated with them. The counters [nCopies] and [nAllocs] of the two
    wrappers are never written. *)

Module StdString.

(** The members of [std::string] that the wrapper calls, on the values of
    a type [T]. A member that allocates can throw; [subscript t n] is the
    [char] that the reference [t[n]] designates, [Undef] when the standard
    leaves the access undefined. *)
Record std_string (T : Type) : Type := mk_std_string {
  basic_string : T;                      (* basic_string() *)
  copy : T → outcome T;                  (* basic_string( const basic_string& ) *)
  clear : T → T;                         (* clear() *)
  append : T → ascii → outcome T;        (* operator+=( char ) *)
  size : T → nat;                        (* size() *)
  subscript : T → nat → outcome ascii    (* operator[]( size_type ) *)
}.

Arguments basic_string {T} _.
Arguments copy {T} _ _.
Arguments clear {T} _ _.
Arguments append {T} _ _ _.
Arguments size {T} _ _.
Arguments subscript {T} _ _ _.

(** The contract of the C++ standard for these members: a
    default-constructed string is empty; [operator+=], when it returns,
    has added its argument behind the characters there were; and
    [operator[]] throws nothing. *)
Record contract {T : Type} (L : std_string T) : Prop := mk_contract {
  size_basic_string : size L (basic_string L) = 0;
  append_returns : ∀ t c t',
    append L t c = Ok t' →
    size L t' = size L t + 1
    ∧ subscript L t' (size L t) = Ok c
    ∧ ∀ n, n < size L t → subscript L t' n = subscript L t n;
  subscript_throws_nothing : ∀ t n, subscript L t n ≠ bad_alloc
}.

Section wrapper.

Context {T : Type}.
Variable L : std_string T.

(** [class String]: its only member, [std::string _s]. *)
Record String : Type := mkString { _s : T }.

(** [String::String()] *)
Definition String_ctor : String := mkString (basic_string L).

(** [String::String( const String& other ) : _s(other._s)] *)
Definition copy_ctor (other : String) : outcome String :=
  match copy L (_s other) with
  | Ok t => Ok (mkString t)
  | bad_alloc => bad_alloc
  | Undef => Undef
  end.

(** [String::Clear] *)
Definition Clear (s : String) : String := mkString (clear L (_s s)).

(** [String::Append]: [_s += c] *)
Definition Append (s : String) (c : ascii) : outcome String :=
  match append L (_s s) c with
  | Ok t => Ok (mkString t)
  | bad_alloc => bad_alloc
  | Undef => Undef
  end.

(** [String::Length] *)
Definition Length (s : String) : nat := size L (_s s).

(** [String::operator[]]: [return _s[n]] *)
Definition index (s : String) (n : nat) : outcome ascii := subscript L (_s s) n.

End wrapper.

Arguments String T : clear implicits.

(** A string library over lists of characters that meets the contract:
    [t[size()]] is the terminating [char()], an access beyond it is
    undefined. *)
Definition list_string : std_string (list ascii) :=
  {| basic_string := [];
     copy := λ t, Ok t;
     clear := λ _, [];
     append := λ t c, Ok (t ++ [c]);
     size := length;
     subscript := λ t n,
       match t !! n with
       | Some c => Ok c
       | None => if decide (n = length t) then Ok "000"%char else Undef
       end |}.

End StdString.

Module AtlString.

(** What a member of [CStringA] does: it returns, or it throws a
    [CAtlException] through [AtlThrow( hr )]. *)
Inductive result (A : Type) : Type :=
| Returns (a : A)
| AtlThrow (hr : Z).

Arguments Returns {A} a.
Arguments AtlThrow {A} hr.

(** The HRESULT 0x80070057, as the [long] it is. *)
Definition E_INVALIDARG : Z := (-2147024809)%Z.

(** The members of [ATL::CStringA] that the wrapper calls, on the values
    of a type [T]. *)
Record CStringA (T : Type) : Type := mk_CStringA {
  CStringA_ctor : T;                (* CStringA() *)
  copy : T → result T;              (* CStringA( const CStringA& ) *)
  Empty : T → T;                    (* Empty() *)
  append : T → ascii → result T;    (* operator+=( char ) *)
  GetLength : T → Z;                (* int GetLength() *)
  GetAt : T → Z → result ascii      (* char GetAt( int ) *)
}.

Arguments CStringA_ctor {T} _.
Arguments copy {T} _ _.
Arguments Empty {T} _ _.
Arguments append {T} _ _ _.
Arguments GetLength {T} _ _.
Arguments GetAt {T} _ _ _.

(** The contract of ATL for these members: a default-constructed string
    is empty; [operator+=], when it returns, has added its argument behind
    the characters there were; and [GetAt( iChar )] validates its
    argument: it throws [E_INVALIDARG] when [iChar] is negative or greater
    than [GetLength()]. *)
Record contract {T : Type} (L : CStringA T) : Prop := mk_contract {
  GetLength_ctor : GetLength L (CStringA_ctor L) = 0%Z;
  append_returns : ∀ t c t',
    append L t c = Returns t' →
    GetLength L t' = (GetLength L t + 1)%Z
    ∧ GetAt L t' (GetLength L t) = Returns c
    ∧ ∀ i, (0 ≤ i < GetLength L t)%Z → GetAt L t' i = GetAt L t i;
  GetAt_validates : ∀ t i,
    (i < 0 ∨ GetLength L t < i)%Z → GetAt L t i = AtlThrow E_INVALIDARG
}.

(** [static_cast<int>(n)] of a [size_t]: the low 32 bits, as a signed
    number. *)
Definition static_cast_int (n : nat) : Z :=
  ((Z.of_nat n + 2 ^ 31) `mod` 2 ^ 32 - 2 ^ 31)%Z.

(** The conversion of an [int] to [size_t]. The harness is a Win32
    program: [size_t] has 32 bits there. *)
Definition to_size_t (i : Z) : nat := Z.to_nat (i `mod` 2 ^ 32).

Section wrapper.

Context {T : Type}.
Variable L : CStringA T.

(** [class String]: its only member, [ATL::CStringA _s]. *)
Record String : Type := mkString { _s : T }.

(** [String::String()] *)
Definition String_ctor : String := mkString (CStringA_ctor L).

(** [String::String( const String& other ) : _s(other._s)] *)
Definition copy_ctor (other : String) : result String :=
  match copy L (_s other) with
  | Returns t => Returns (mkString t)
  | AtlThrow hr => AtlThrow hr
  end.

(** [String::Clear]: [_s.Empty()] *)
Definition Clear (s : String) : String := mkString (Empty L (_s s)).

(** [String::Append]: [_s += c] *)
Definition Append (s : String) (c : ascii) : result String :=
  match append L (_s s) c with
  | Returns t => Returns (mkString t)
  | AtlThrow hr => AtlThrow hr
  end.

(** [String::Length]: [return _s.GetLength()] *)
Definition Length (s : String) : nat := to_size_t (GetLength L (_s s)).

(** [String::operator[]]: [return _s.GetAt(static_cast<int>(n))] *)
Definition index (s : String) (n : nat) : result ascii :=
  GetAt L (_s s) (static_cast_int n).

End wrapper.

Arguments String T : clear implicits.

(** A string library over lists of characters that meets the contract:
    [GetAt( GetLength() )] is the terminating 0. *)
Definition list_CStringA : CStringA (list ascii) :=
  {| CStringA_ctor := [];
     copy := λ t, Returns t;
     Empty := λ _, [];
     append := λ t c, Returns (t ++ [c]);
     GetLength := λ t, Z.of_nat (length t);
     GetAt := λ t i,
       if decide (i < 0 ∨ Z.of_nat (length t) < i)%Z then AtlThrow E_INVALIDARG
       else Returns (nth (Z.to_nat i) t "000"%char) |}.


End AtlString.

(** ** Building a string character by character and reading it back *)

Module round_trip.

(** [s.Append(c1); ...; s.Append(ck);], and [s[i]; s[i+1]; ...] for [k]
    positions from [i] on, each read through the reference returned. *)
Fixpoint COW_appends (v : COW.members) (s : COW.String) (cs : list ascii)
  : M COW.heap COW.String :=
  match cs with
  | [] => ret s
  | c :: cs' => let! s := COW.Append v s c in COW_appends v s cs'
  end.

Fixpoint COW_reads (v : COW.members) (s : COW.String) (i k : nat)
  : M COW.heap (list cell) :=
  match k with
  | 0 => ret []
  | S k' =>
      let! p := COW.index v s i in
      let! x := COW.read p.2 in
      let! xs := COW_reads v p.1 (S i) k' in
      ret (x :: xs)
  end.

Fixpoint AtomicInt2_appends (s : COW_AtomicInt2.String) (cs : list ascii)
  : M COW_AtomicInt2.heap COW_AtomicInt2.String :=
  match cs with
  | [] => ret s
  | c :: cs' => let! s := COW_AtomicInt2.Append s c in AtomicInt2_appends s cs'
  end.

Fixpoint AtomicInt2_reads (s : COW_AtomicInt2.String) (i k : nat)
  : M COW_AtomicInt2.heap (list cell) :=
  match k with
  | 0 => ret []
  | S k' =>
      let! p := COW_AtomicInt2.index s i in
      let! x := COW_AtomicInt2.read p.2 in
      let! xs := AtomicInt2_reads p.1 (S i) k' in
      ret (x :: xs)
  end.

Fixpoint Plain_appends (s : Plain.String) (cs : list ascii)
  : M Plain.counters Plain.String :=
  match cs with
  | [] => ret s
  | c :: cs' => let! s := Plain.Append s c in Plain_appends s cs'
  end.

Fixpoint Plain_reads (s : Plain.String) (i k : nat) : list (option cell) :=
  match k with
  | 0 => []
  | S k' => Plain.read (Plain.index s i) :: Plain_reads s (S i) k'
  end.

Fixpoint FastAlloc_appends (s : Plain_FastAlloc.String) (cs : list ascii)
  : M Plain_FastAlloc.heap Plain_FastAlloc.String :=
  match cs with
  | [] => ret s
  | c :: cs' => let! s := Plain_FastAlloc.Append s c in FastAlloc_appends s cs'
  end.

Fixpoint FastAlloc_reads (s : Plain_FastAlloc.String) (i k : nat)
  : M Plain_FastAlloc.heap (list cell) :=
  match k with
  | 0 => ret []
  | S k' =>
      let! x := Plain_FastAlloc.read (Plain_FastAlloc.index s i) in
      let! xs := FastAlloc_reads s (S i) k' in
      ret (x :: xs)
  end.

Fixpoint StdString_appends {T : Type} (L : StdString.std_string T)
         (s : StdString.String T) (cs : list ascii)
  : outcome (StdString.String T) :=
  match cs with
  | [] => Ok s
  | c :: cs' =>
      match StdString.Append L s c with
      | Ok s' => StdString_appends L s' cs'
      | bad_alloc => bad_alloc
      | Undef => Undef
      end
  end.

Fixpoint AtlString_appends {T : Type} (L : AtlString.CStringA T)
         (s : AtlString.String T) (cs : list ascii)
  : AtlString.result (AtlString.String T) :=
  match cs with
  | [] => AtlString.Returns s
  | c :: cs' =>
      match AtlString.Append L s c with
      | AtlString.Returns s' => AtlString_appends L s' cs'
      | AtlString.AtlThrow hr => AtlString.AtlThrow hr
      end
  end.

(** A string alone on its buffer that holds the characters [cs]. *)
Definition COW_holds (h : COW.heap) (q : Z) (cs : list ascii) : Prop :=
  ∃ d, COW.objs h !! q = Some d ∧ (COW.refs d ≤ 1)%Z ∧ COW_props.buf_wf d
       ∧ COW.used d = length cs
       ∧ take (COW.used d) (default [] (COW.buf d)) = Char <$> cs.

Definition AtomicInt2_holds (h : COW_AtomicInt2.heap) (q : positive)
           (cs : list ascii) : Prop :=
  ∃ x, COW_AtomicInt2.mem h !! q = Some x ∧ (COW_AtomicInt2.REFS x ≤ 1)%Z
       ∧ COW_AtomicInt2.glom_wf x
       ∧ COW_AtomicInt2.USED x = length cs
       ∧ take (COW_AtomicInt2.USED x) (COW_AtomicInt2.BUF x) = Char <$> cs.

Definition Plain_holds (s : Plain.String) (cs : list ascii) : Prop :=
  Plain.used_ s ≤ Plain.len_ s
  ∧ match Plain.buf_ s with
    | Some a => length a = Plain.len_ s
    | None => Plain.len_ s = 0
    end
  ∧ Plain.used_ s = length cs
  ∧ take (Plain.used_ s) (default [] (Plain.buf_ s)) = Char <$> cs.

(** In Plain_FastAlloc the string is empty and has no block, or has a
    block in use whose payload starts with [cs]. *)
Definition FastAlloc_holds (h : Plain_FastAlloc.heap) (s : Plain_FastAlloc.String)
           (cs : list ascii) : Prop :=
  FastArena.wf (Plain_FastAlloc.fa h)
  ∧ Plain_FastAlloc.used_ s = length cs
  ∧ Plain_FastAlloc.used_ s ≤ Plain_FastAlloc.len_ s
  ∧ ((Plain_FastAlloc.buf_ s = 0%Z ∧ Plain_FastAlloc.len_ s = 0)
     ∨ ∃ i a, i < FastArena.size
              ∧ Plain_FastAlloc.buf_ s = FastArena.payload (Plain_FastAlloc.fa h) i
              ∧ FastArena.in_use (Plain_FastAlloc.fa h) i
              ∧ Plain_FastAlloc.blocks h !! Plain_FastAlloc.buf_ s = Some a
              ∧ Plain_FastAlloc.len_ s ≤ length a
              ∧ take (Plain_FastAlloc.used_ s) a = Char <$> cs).

End round_trip.

(** ** How the capacity grows, and a string alone in its arena *)

Module growth.

(** The capacity of a string once [k] characters have been appended to an
    empty one, one at a time: each [Append] calls [Reserve( used+1 )]. *)
Fixpoint capacity (k : nat) : nat :=
  match k with
  | 0 => 0
  | S k' =>
      let len := capacity k' in
      if decide (len < k' + 1) then round4 (needed_for len (k' + 1)) else len
  end.

(** In Plain_FastAlloc: the block of the string [s] has 1 in its header,
    and every other block of the arena has 0. *)
Definition alone (h : Plain_FastAlloc.heap) (s : Plain_FastAlloc.String) : Prop :=
  ∀ j, j < FastArena.size →
    FastArena.hdr (Plain_FastAlloc.fa h) !! j
    = Some (if decide (FastArena.payload (Plain_FastAlloc.fa h) j
                       = Plain_FastAlloc.buf_ s)
            then 1%Z else 0%Z).

(** The strings whose buffers are at the addresses [ps] have the arena to
    themselves: the header of a block is 1 when its payload is one of
    these buffers, and 0 otherwise. *)
Definition owned (h : Plain_FastAlloc.heap) (ps : list Z) : Prop :=
  ∀ j, j < FastArena.size →
    FastArena.hdr (Plain_FastAlloc.fa h) !! j
    = Some (if decide (FastArena.payload (Plain_FastAlloc.fa h) j ∈ ps)
            then 1%Z else 0%Z).

End growth.

(** ** Sequences of public operations and what they let a caller observe *)

Module script.

(** The public operations, on strings numbered in the order in which they
    are constructed. *)
Inductive op : Type :=
| Construct                      (* String s; *)
| Copy (i : nat)                 (* String s( s_i ); *)
| Destroy (i : nat)              (* s_i.~String() *)
| Clear (i : nat)                (* s_i.Clear() *)
| Append (i : nat) (c : ascii)   (* s_i.Append( c ) *)
| Index (i n : nat)              (* the value of s_i[n] *)
| Length (i : nat).              (* s_i.Length() *)

(** The results a caller can see. *)
Inductive obs : Type :=
| length_is (n : nat)
| char_is (x : cell).

(** The public interface of one [String] class, over a heap [H]; [at_] is
    [operator[]] followed by a read of the reference it returns. *)
Record String_class (H S : Type) : Type := mkClass {
  ctor : M H S;
  copy : S → M H S;
  dtor : S → M H unit;
  clear : S → M H S;
  append : S → ascii → M H S;
  length_ : S → M H nat;
  at_ : S → nat → M H (S * cell)
}.

Arguments ctor {H S} _.
Arguments copy {H S} _ _.
Arguments dtor {H S} _ _.
Arguments clear {H S} _ _.
Arguments append {H S} _ _ _.
Arguments length_ {H S} _ _.
Arguments at_ {H S} _ _ _.

Section run.

Context {H S : Type}.
Variable C : String_class H S.

(** The strings constructed so far, [None] once destroyed. Using a string
    that does not exist is undefined. *)
Definition live (env : list (option S)) (i : nat) : M H S :=
  match env !! i with
  | Some (Some s) => ret s
  | _ => undefined
  end.

Definition step (o : op) (env : list (option S)) : M H (list (option S) * list obs) :=
  match o with
  | Construct =>
      let! s := ctor C in ret (env ++ [Some s], [])
  | Copy i =>
      let! s := live env i in
      let! s' := copy C s in ret (env ++ [Some s'], [])
  | Destroy i =>
      let! s := live env i in
      dtor C s ;;; ret (<[i := None]> env, [])
  | Clear i =>
      let! s := live env i in
      let! s' := clear C s in ret (<[i := Some s']> env, [])
  | Append i c =>
      let! s := live env i in
      let! s' := append C s c in ret (<[i := Some s']> env, [])
  | Index i n =>
      let! s := live env i in
      let! r := at_ C s n in ret (<[i := Some r.1]> env, [char_is r.2])
  | Length i =>
      let! s := live env i in
      let! n := length_ C s in ret (env, [length_is n])
  end.

Fixpoint run (p : list op) (env : list (option S)) : M H (list obs) :=
  match p with
  | [] => ret []
  | o :: p' =>
      let! r := step o env in
      let! os := run p' r.1 in
      ret (r.2 ++ os)
  end.

(** The strings a program leaves. *)
Fixpoint exec (p : list op) (env : list (option S)) : M H (list (option S)) :=
  match p with
  | [] => ret env
  | o :: p' => let! r := step o env in exec p' r.1
  end.

(** What a program lets its caller observe, from the heap [h]. *)
Definition observations (p : list op) (h : H) : outcome (list obs) :=
  match run p [] h with
  | Ok (os, _) => Ok os
  | bad_alloc => bad_alloc
  | Undef => Undef
  end.

End run.

Definition COW_class (sizeof_StringBuf : nat) (v : variant)
  : String_class COW.heap COW.String :=
  let S := String_of sizeof_StringBuf v in
  {| ctor := COW.String_ctor sizeof_StringBuf;
     copy := COW.copy_ctor S;
     dtor := COW.dtor S;
     clear := COW.Clear S;
     append := COW.Append S;
     length_ := COW.Length;
     at_ := λ s n, let! r := COW.index S s n in
                   let! x := COW.read r.2 in ret (r.1, x) |}.

Definition AtomicInt2_class
  : String_class COW_AtomicInt2.heap COW_AtomicInt2.String :=
  {| ctor := COW_AtomicInt2.String_ctor;
     copy := COW_AtomicInt2.copy_ctor;
     dtor := COW_AtomicInt2.dtor;
     clear := COW_AtomicInt2.Clear;
     append := COW_AtomicInt2.Append;
     length_ := COW_AtomicInt2.Length;
     at_ := λ s n, let! r := COW_AtomicInt2.index s n in
                   let! x := COW_AtomicInt2.read r.2 in ret (r.1, x) |}.

(** [String s; s.Append('X'); String s2( s ); s2[0]] *)
Definition read_a_copy : list op :=
  [Construct; Append 0 "X"; Copy 0; Index 1 0].

End script.

(** ** Reference counts account for the strings *)

Module accounting.

Section counting.

(** Strings [S] that hold, at the address [data s], a buffer [V] with the
    reference count [refs]. *)
Context {K : Type} `{Countable K} {S V : Type}.
Variable data : S → K.
Variable refs : V → Z.

(** The number of strings of [env] that hold the buffer at [q]. *)
Definition holds_buf (o : option S) (q : K) : nat :=
  match o with
  | Some s => if decide (data s = q) then 1 else 0
  | None => 0
  end.

Fixpoint owners (env : list (option S)) (q : K) : nat :=
  match env with
  | [] => 0
  | o :: env' => holds_buf o q + owners env' q
  end.

(** Every buffer is held by a string, and its [refs] is the number of
    strings that hold it, or -1 when a single string holds it; every string
    holds a buffer. *)
Definition counted (env : list (option S)) (o : gmap K V) : Prop :=
  (∀ q d, o !! q = Some d →
     1 ≤ owners env q
     ∧ (refs d = Z.of_nat (owners env q)
        ∨ (refs d = (-1)%Z ∧ owners env q = 1)))
  ∧ (∀ q, 1 ≤ owners env q → is_Some (o !! q)).

End counting.

(** The invariant of the states that the public operations reach, in the
    namespaces that include common-test.h and in COW_AtomicInt2. *)
Definition accounted (sizeof_StringBuf : nat)
           (env : list (option COW.String)) (h : COW.heap) : Prop :=
  COW_props.heap_wf sizeof_StringBuf h
  ∧ counted COW.data_ COW.refs env (COW.objs h).

Definition AtomicInt2_accounted (env : list (option COW_AtomicInt2.String))
           (h : COW_AtomicInt2.heap) : Prop :=
  map_Forall (λ _ x, COW_AtomicInt2.glom_wf x) (COW_AtomicInt2.mem h)
  ∧ counted COW_AtomicInt2.data_ COW_AtomicInt2.REFS env (COW_AtomicInt2.mem h).

End accounting.

(** ** The blocks of the arena and the locks, between operations *)

Module resources.

(** Every block of the arena has 1 in its header when a [StringBuf] lives
    in it and 0 when none does. *)
Definition arena_tight (h : COW.heap) : Prop :=
  ∀ i, i < FastArena.size →
    FastArena.hdr (COW.fa h) !! i
    = Some (if decide (FastArena.payload (COW.fa h) i ∈ dom (COW.objs h))
            then 1%Z else 0%Z).

(** No lock of a [StringBuf] is held. *)
Definition unlocked (h : COW.heap) : Prop :=
  map_Forall (λ _ d, COW.baggage d = 0) (COW.objs h).

(** Every string has been destroyed. *)
Definition all_destroyed {S : Type} (env : list (option S)) : Prop :=
  Forall (λ o, o = None) env.

(** How a member function that returns changes the heap [h] into [h']:
    the lock of every [StringBuf] it leaves is free or held as often as one
    was before; and it leaves the arena and the set of addresses of the
    [StringBuf]s as they were, or takes a block by [operator new] for a new
    [StringBuf], or gives the block of a [StringBuf] back by
    [operator delete]. *)
Definition changes_like (sizeof_StringBuf : nat) (h h' : COW.heap) : Prop :=
  (∀ r d', COW.objs h' !! r = Some d' →
     COW.baggage d' = 0
     ∨ ∃ r0 d0, COW.objs h !! r0 = Some d0 ∧ COW.baggage d' = COW.baggage d0)
  ∧ ((COW.fa h' = COW.fa h ∧ dom (COW.objs h') = dom (COW.objs h))
     ∨ (∃ p h1, COW.operator_new sizeof_StringBuf h = Ok (p, h1)
                ∧ COW.fa h' = COW.fa h1
                ∧ dom (COW.objs h') = {[p]} ∪ dom (COW.objs h))
     ∨ (∃ i, i < FastArena.size
             ∧ FastArena.payload (COW.fa h) i ∈ dom (COW.objs h)
             ∧ COW.fa h'
               = FastArena.set_hdr (COW.fa h)
                   (alter IntAtomicDecrement i (FastArena.hdr (COW.fa h)))
             ∧ dom (COW.objs h')
               = dom (COW.objs h) ∖ {[FastArena.payload (COW.fa h) i]})).

End resources.

(** ** The test harness of test.cpp, compiled with TEST_MUTATING_COPY_2A *)

(** ** Two namespaces side by side

    Every namespace has an arena of its own, at an address of its own and
    with blocks of its own size: [sizeof(StringBuf)] depends on BAGGAGE. *)

Module side_by_side.

(** Two heaps are alike, over the arenas [a] and [a0] as they were
    constructed, when the same blocks are in use in both, the [StringBuf]
    in block [i] of one is equal to the [StringBuf] in block [i] of the
    other, and the counters agree. *)
Definition alike (a a0 : FastArena.t) (h h0 : COW.heap) : Prop :=
  (∃ hd, COW.fa h = FastArena.set_hdr a hd
         ∧ COW.fa h0 = FastArena.set_hdr a0 hd)
  ∧ COW.nCopies h = COW.nCopies h0
  ∧ COW.nAllocs h = COW.nAllocs h0
  ∧ ∀ i, i < FastArena.size →
      COW.objs h !! FastArena.payload a i
      = COW.objs h0 !! FastArena.payload a0 i.

(** Two strings whose [StringBuf]s are in the same block, or two strings
    that have been destroyed. *)
Definition same_place (a a0 : FastArena.t) (o o0 : option COW.String) : Prop :=
  match o, o0 with
  | Some s, Some s0 =>
      ∃ i, i < FastArena.size
           ∧ COW.data_ s = FastArena.payload a i
           ∧ COW.data_ s0 = FastArena.payload a0 i
  | None, None => True
  | _, _ => False
  end.

(** Observations that agree: the same length, the same character, or two
    reads of a [char] that was never written, to which the code gives no
    value that could be compared. *)
Inductive same_obs : script.obs → script.obs → Prop :=
| same_length (n : nat) :
    same_obs (script.length_is n) (script.length_is n)
| same_char (c : ascii) :
    same_obs (script.char_is (Char c)) (script.char_is (Char c))
| both_unwritten :
    same_obs (script.char_is Uninit) (script.char_is Uninit).

(** Two runs that end in the same way. *)
Definition agree (a a0 : FastArena.t)
           (r r0 : outcome (list script.obs * COW.heap)) : Prop :=
  match r, r0 with
  | Ok (os, h), Ok (os0, h0) => Forall2 same_obs os os0 ∧ alike a a0 h h0
  | bad_alloc, bad_alloc => True
  | Undef, Undef => True
  | _, _ => False
  end.

(** [String s; s.Append('X'); s[0]; String s2( s ); s2.Length()] *)
Definition read_then_copy : list script.op :=
  [script.Construct; script.Append 0 "X"; script.Index 0 0; script.Copy 0;
   script.Length 1].

End side_by_side.

Module harness.

(** The [long counter] of [Test]: a value, or no known value once a [char]
    that the program never wrote has been added to it. *)
Inductive long_value : Type :=
| Indeterminate
| Long (z : Z).

(** The value a [char] has as an integer, [char] being a signed type on
    the platform of the program. *)
Definition char_value (c : ascii) : Z :=
  let n := Z.of_nat (nat_of_ascii c) in
  if decide (n < 128)%Z then n else (n - 256)%Z.

(** [counter += x] for the char [x] that [s2[0]] gave. The [long] has 32
    bits; going beyond them is undefined. *)
Definition add_char {H : Type} (counter : long_value) (x : cell) : M H long_value :=
  match counter, x with
  | Long z, Char c =>
      let r := (z + char_value c)%Z in
      if decide (- 2 ^ 31 ≤ r < 2 ^ 31)%Z then ret (Long r) else undefined
  | _, _ => ret Indeterminate
  end.

(** [for( char c = 'a'; c <= 'y'; ++c )] *)
Definition letters : list ascii := ascii_of_nat <$> seq 97 25.

Section Test.

Context {H S : Type}.
Variable C : script.String_class H S.

(** [S::nAllocs = 0; S::nCopies = 0;], and the values of [S::nCopies] and
    [S::nAllocs]. *)
Variable reset : H → H.
Variable counters : H → Z * Z.

(** [for( i = 0; i < l; ++i ) s.Append( 'X' );] *)
Fixpoint initialize (l : nat) (s : S) : M H S :=
  match l with
  | 0 => ret s
  | Datatypes.S l' => let! s := script.append C s "X" in initialize l' s
  end.

(** The body of the inner loop: [S s2( s );], the access or the [Append]
    that [i % 3] selects, and the destructor of [s2] at the end of the
    block. *)
Definition body (i : nat) (c : ascii) (s : S) (counter : long_value)
  : M H long_value :=
  let! s2 := script.copy C s in
  let! r :=
    (if decide (i mod 3 = 0) then
       let! r := script.at_ C s2 0 in
       let! counter := add_char counter r.2 in
       ret (r.1, counter)
     else if decide (i mod 3 = 1) then
       let! s2 := script.append C s2 c in
       ret (s2, counter)
     else ret (s2, counter)) in
  script.dtor C r.1 ;;;
  ret r.2.

Fixpoint inner (i : nat) (cs : list ascii) (s : S) (counter : long_value)
  : M H long_value :=
  match cs with
  | [] => ret counter
  | c :: cs' =>
      let! counter := body i c s counter in
      inner i cs' s counter
  end.

(** [for( i = 0; i < n; ++i )]: the [k] rounds from [i] on. *)
Fixpoint outer (k i : nat) (s : S) (counter : long_value) : M H long_value :=
  match k with
  | 0 => ret counter
  | Datatypes.S k' =>
      let! counter := inner i letters s counter in
      outer k' (Datatypes.S i) s counter
  end.

(** [Test( s, n, l )]: the string as the caller finds it afterwards and the
    counter that is written to test.out. The time that [Test] measures
    and returns is not part of the embedding. *)
Definition Test (s : S) (n l : Z) : M H (S * long_value) :=
  let! s := initialize (Z.to_nat l) s in
  modify reset ;;;
  let! counter := outer (Z.to_nat (n ÷ 25)) 0 s (Long 0) in
  ret (s, counter).

(** The block [RUN_TEST( TEST_NAME )] of [main]: the counter written by
    [Test], and the [copies:] and [allocs:] figures printed. *)
Definition RUN_TEST (nLoops nLen : Z) : M H (long_value * (Z * Z)) :=
  let! testString := script.ctor C in
  let! r := Test testString nLoops nLen in
  let! k := (λ h, Ok (counters h, h)) in
  script.dtor C r.1 ;;;
  ret (r.2, k).

End Test.

Definition COW_reset (h : COW.heap) : COW.heap :=
  COW.set_nCopies (COW.set_nAllocs h 0) 0.
Definition COW_counters (h : COW.heap) : Z * Z := (COW.nCopies h, COW.nAllocs h).

Definition AtomicInt2_reset (h : COW_AtomicInt2.heap) : COW_AtomicInt2.heap :=
  COW_AtomicInt2.set_nCopies (COW_AtomicInt2.set_nAllocs h 0) 0.
Definition AtomicInt2_counters (h : COW_AtomicInt2.heap) : Z * Z :=
  (COW_AtomicInt2.nCopies h, COW_AtomicInt2.nAllocs h).

(** [RUN_TEST] in the four namespaces of common-test.h and in
    COW_AtomicInt2. *)
Definition RUN_TEST_COW (sizeof_StringBuf : nat) (v : variant) (nLoops nLen : Z)
  : M COW.heap (long_value * (Z * Z)) :=
  RUN_TEST (script.COW_class sizeof_StringBuf v) COW_reset COW_counters nLoops nLen.

Definition RUN_TEST_AtomicInt2 (nLoops nLen : Z)
  : M COW_AtomicInt2.heap (long_value * (Z * Z)) :=
  RUN_TEST script.AtomicInt2_class AtomicInt2_reset AtomicInt2_counters nLoops nLen.

(** Plain and Plain_FastAlloc as classes. The destructor of Plain,
    [delete[] buf_], has nothing to do in the embedding, where the array
    of a Plain string is part of the string. *)
Definition Plain_class : script.String_class Plain.counters Plain.String :=
  {| script.ctor := ret Plain.String_ctor;
     script.copy := Plain.copy_ctor;
     script.dtor := λ _, ret tt;
     script.clear := λ s, ret (Plain.Clear s);
     script.append := Plain.Append;
     script.length_ := λ s, ret (Plain.Length s);
     script.at_ := λ s n, let! x := defined (Plain.read (Plain.index s n)) in
                          ret (s, x) |}.

Definition Plain_reset (k : Plain.counters) : Plain.counters := Plain.mkCounters 0 0.
Definition Plain_counters (k : Plain.counters) : Z * Z :=
  (Plain.nCopies k, Plain.nAllocs k).

Definition FastAlloc_class
  : script.String_class Plain_FastAlloc.heap Plain_FastAlloc.String :=
  {| script.ctor := ret Plain_FastAlloc.String_ctor;
     script.copy := Plain_FastAlloc.copy_ctor;
     script.dtor := Plain_FastAlloc.dtor;
     script.clear := Plain_FastAlloc.Clear;
     script.append := Plain_FastAlloc.Append;
     script.length_ := λ s, ret (Plain_FastAlloc.Length s);
     script.at_ := λ s n,
       let! x := Plain_FastAlloc.read (Plain_FastAlloc.index s n) in
       ret (s, x) |}.

Definition FastAlloc_reset (h : Plain_FastAlloc.heap) : Plain_FastAlloc.heap :=
  Plain_FastAlloc.set_nCopies (Plain_FastAlloc.set_nAllocs h 0) 0.
Definition FastAlloc_counters (h : Plain_FastAlloc.heap) : Z * Z :=
  (Plain_FastAlloc.nCopies h, Plain_FastAlloc.nAllocs h).

Definition RUN_TEST_Plain (nLoops nLen : Z)
  : M Plain.counters (long_value * (Z * Z)) :=
  RUN_TEST Plain_class Plain_reset Plain_counters nLoops nLen.

Definition RUN_TEST_Plain_FastAlloc (nLoops nLen : Z)
  : M Plain_FastAlloc.heap (long_value * (Z * Z)) :=
  RUN_TEST FastAlloc_class FastAlloc_reset FastAlloc_counters nLoops nLen.

End harness.

(** The specification on COW_AtomicInt2: a program that returns in both
    namespaces lets its caller observe the same in both. *)
Definition AtomicInt2_equivalent_as_specified : Prop :=
  ∀ (sizeof_StringBuf : nat) (base : Z) (p : list script.op)
    (os os2 : list script.obs),
    (0 < base)%Z →
    script.observations (script.COW_class sizeof_StringBuf AtomicInt) p
      (COW.start sizeof_StringBuf base) = Ok os →
    script.observations script.AtomicInt2_class p COW_AtomicInt2.start = Ok os2 →
    os2 = os.

(** ** Tactics of the proofs: rewriting the lookups that running a member
    function leaves *)

Ltac heap_step :=
  first
    [ rewrite lookup_insert_eq
    | rewrite lookup_insert_ne by congruence
    | match goal with
      | H : ?o !! ?q = _ |- context [?o !! ?q] => rewrite H
      end
    | progress simpl
    | progress unfold bind, ret, COW.load, COW.store, COW.update, modify,
        COW.construct, COW.incr_nAllocs, COW.incr_nCopies, undefined,
        COW.set_objs, COW.set_nAllocs, COW.set_nCopies, COW.set_fa,
        COW.set_buf, COW.set_len, COW.set_used, COW.set_refs, COW.set_baggage ].
Ltac heap_simpl := repeat heap_step.

Ltac glom_step :=
  first
    [ rewrite lookup_insert_eq
    | rewrite lookup_insert_ne by congruence
    | rewrite lookup_delete_ne by congruence
    | match goal with
      | H : ?o !! ?q = _ |- context [?o !! ?q] => rewrite H
      end
    | progress simpl
    | progress unfold bind, ret, modify, undefined, defined,
        COW_AtomicInt2.load, COW_AtomicInt2.store, COW_AtomicInt2.update,
        COW_AtomicInt2.new_chars, COW_AtomicInt2.delete_chars,
        COW_AtomicInt2.incr_nAllocs, COW_AtomicInt2.incr_nCopies,
        COW_AtomicInt2.decrement_REFS, COW_AtomicInt2.increment_REFS,
        COW_AtomicInt2.set_mem, COW_AtomicInt2.set_nAllocs,
        COW_AtomicInt2.set_nCopies, COW_AtomicInt2.set_LEN,
        COW_AtomicInt2.set_USED, COW_AtomicInt2.set_REFS,
        COW_AtomicInt2.set_BUF, COW_AtomicInt2.LEN, COW_AtomicInt2.USED,
        COW_AtomicInt2.REFS ].
Ltac glom_simpl := repeat glom_step.

(** The two runs of a step that starts with [live]: [Hl] and [Hl0] say what
    [live] gives in each. *)
Ltac both_live Hl Hl0 :=
  unfold bind at 1; rewrite Hl; cbn beta iota;
  match goal with
  | |- context [bind (script.live ?e ?i) ?k ?h0] =>
      change (bind (script.live e i) k h0)
        with (match script.live e i h0 with
              | Ok (x, h') => k x h'
              | bad_alloc => bad_alloc
              | Undef => Undef
              end)
  end; rewrite Hl0; cbn beta iota.


(** * Part II: properties *)

(** ** The fixed-block allocator *)

Section FastArena_facts.

Import FastArena.

Lemma scan_le (hs : list Z) : scan hs ≤ length hs.
Proof.
  induction hs as [|h hs IH]; simpl; [lia|].
  destruct (decide (h = 0%Z)); lia.
Qed.

Lemma scan_stops_at_zero (hs : list Z) :
  scan hs < length hs → hs !! scan hs = Some 0%Z.
Proof.
  induction hs as [|h hs IH]; simpl; [lia|].
  destruct (decide (h = 0%Z)) as [->|Hh]; simpl; [done|].
  intros Hlt. apply IH. lia.
Qed.

Lemma scan_steps_over_nonzero (hs : list Z) (j : nat) :
  j < scan hs → ∃ h, hs !! j = Some h ∧ h ≠ 0%Z.
Proof.
  revert j. induction hs as [|h hs IH]; simpl; intros j Hj; [lia|].
  destruct (decide (h = 0%Z)) as [->|Hh]; [lia|].
  destruct j as [|j]; simpl; [eauto|]. apply IH. lia.
Qed.

Lemma scan_end_iff (hs : list Z) :
  scan hs = length hs ↔ ∀ i, i < length hs → ∃ h, hs !! i = Some h ∧ h ≠ 0%Z.
Proof.
  split.
  - intros Heq i Hi. apply scan_steps_over_nonzero. lia.
  - intros Hall. pose proof (scan_le hs) as Hle.
    destruct (decide (scan hs = length hs)) as [|Hne]; [done|].
    assert (Hlt : scan hs < length hs) by lia.
    destruct (Hall _ Hlt) as (h & Hh & Hnz).
    rewrite (scan_stops_at_zero hs Hlt) in Hh. congruence.
Qed.

Lemma limit_le_block (a : t) (i : nat) : (limit a ≤ block a i)%Z ↔ size ≤ i.
Proof.
  unfold limit, block.
  rewrite <- Z.add_le_mono_l, <- Nat2Z.inj_le.
  assert (0 < stride a) by (unfold stride, sizeof_long; lia).
  rewrite <- Nat.mul_le_mono_pos_l by assumption.
  reflexivity.
Qed.

Lemma ctor_wf (base : Z) (n : nat) : (0 < base)%Z → wf (ctor base n).
Proof. intros Hb. split; [apply length_replicate | exact Hb]. Qed.

Lemma ctor_n_ (base : Z) (n : nat) : n ≤ n_ (ctor base n).
Proof. unfold ctor; cbn [n_]. destruct (decide (n = 0)); lia. Qed.

Lemma Allocate_Ok_inv (a : t) (n : nat) (p : Z) (a' : t) :
  wf a → Allocate a n = Ok (p, a') →
  ∃ i, i < size ∧ is_free a i ∧ p = payload a i
       ∧ a' = set_hdr a (<[i := 1%Z]> (hdr a)) ∧ n ≤ n_ a.
Proof.
  intros [Hlen Hbase]. unfold Allocate.
  destruct (decide (n_ a < n)); [done|].
  destruct (decide (limit a ≤ block a (scan (hdr a)))%Z) as [|Hin]; [done|].
  intros [= <- <-]. rewrite limit_le_block in Hin.
  assert (Hlt : scan (hdr a) < length (hdr a)) by lia.
  pose proof (scan_stops_at_zero _ Hlt) as Hz.
  exists (scan (hdr a)). split_and!; [lia | exact Hz | done | | lia].
  f_equal. apply list_eq. intros j.
  destruct (decide (j = scan (hdr a))) as [->|Hne].
  - rewrite list_lookup_alter_eq, list_lookup_insert_eq by lia. by rewrite Hz.
  - by rewrite list_lookup_alter_ne, list_lookup_insert_ne.
Qed.

(** When [Allocate] throws, and what it returns when it does not. *)
Lemma Allocate_outcome (a : t) (n : nat) :
  wf a →
  (Allocate a n = bad_alloc ↔ n_ a < n ∨ exhausted a) ∧
  (¬ (n_ a < n ∨ exhausted a) →
   ∃ i, i < size ∧ is_free a i
        ∧ Allocate a n = Ok (payload a i, set_hdr a (<[i := 1%Z]> (hdr a)))
        ∧ in_use (set_hdr a (<[i := 1%Z]> (hdr a))) i).
Proof.
  intros Hwf. pose proof Hwf as [Hlen Hbase].
  assert (Hex : exhausted a ↔ scan (hdr a) = length (hdr a)).
  { rewrite scan_end_iff, Hlen. reflexivity. }
  assert (Hthrow : Allocate a n = bad_alloc ↔ n_ a < n ∨ exhausted a).
  { unfold Allocate. destruct (decide (n_ a < n)) as [|Hn]; [tauto|].
    destruct (decide (limit a ≤ block a (scan (hdr a)))%Z) as [Hl|Hl];
      rewrite limit_le_block in Hl; pose proof (scan_le (hdr a)).
    - split; [intros _; right; apply Hex; lia | done].
    - split; [done|]. intros [?|He]; [lia|]. apply Hex in He. lia. }
  split; [exact Hthrow|].
  intros Hno. destruct (Allocate a n) as [[p a']| |] eqn:HA.
  - destruct (Allocate_Ok_inv a n p a' Hwf HA) as (i & Hi & Hfree & -> & -> & _).
    exists i. split_and!; [done..|].
    exists 1%Z. split; [|done]. simpl. apply list_lookup_insert_eq. lia.
  - exfalso. apply Hno, Hthrow. reflexivity.
  - exfalso. unfold Allocate in HA. repeat case_decide; discriminate.
Qed.

(** C8. On a well-formed arena [Allocate(n)] throws [bad_alloc] exactly
    when [n] exceeds the block capacity [n_] or the header of every one of
    the [size] blocks is non-zero (in use). Otherwise it returns, for a
    block [i] whose header was 0 (free), the pointer [p] four bytes past
    the start of that block: [p] is not null, the [n_] bytes from [p] on
    lie within the arena and are enough for the [n] asked for; the header
    of block [i] is now 1 (in use) and nothing else of the arena has
    changed. *)
Theorem Allocate_throws_iff (a : t) (n : nat) :
  wf a →
  let all_in_use := ∀ i, i < size → ∃ x, hdr a !! i = Some x ∧ x ≠ 0%Z in
  (Allocate a n = bad_alloc ↔ n_ a < n ∨ all_in_use) ∧
  (¬ (n_ a < n ∨ all_in_use) →
   ∃ (i : nat) (p : Z) (a' : t),
     Allocate a n = Ok (p, a')
     ∧ i < size
     ∧ hdr a !! i = Some 0%Z
     ∧ p = (buf_ a + (Z.of_nat (n_ a) + 4) * Z.of_nat i + 4)%Z
     ∧ p ≠ 0%Z
     ∧ (buf_ a < p)%Z
     ∧ (p + Z.of_nat (n_ a) ≤ buf_ a + (Z.of_nat (n_ a) + 4) * Z.of_nat size)%Z
     ∧ n ≤ n_ a
     ∧ hdr a' !! i = Some 1%Z
     ∧ (∀ j, j ≠ i → hdr a' !! j = hdr a !! j)
     ∧ n_ a' = n_ a
     ∧ buf_ a' = buf_ a).
Proof.
  intros Hwf all_in_use. destruct (Allocate_outcome a n Hwf) as [Hthrow Hok].
  split; [exact Hthrow|].
  intros Hno. destruct (Hok Hno) as (i & Hi & Hfree & HA & _).
  destruct Hwf as [Hlen Hbase].
  exists i, (payload a i), (set_hdr a (<[i := 1%Z]> (hdr a))).
  split_and!; try done.
  - unfold payload, block, stride, sizeof_long. lia.
  - unfold payload, block, stride, sizeof_long. lia.
  - unfold payload, block, stride, sizeof_long. lia.
  - unfold payload, block, stride, sizeof_long, size in *. nia.
  - destruct (decide (n_ a < n)) as [Hn|Hn]; [|lia]. exfalso. apply Hno. by left.
  - simpl. apply list_lookup_insert_eq. lia.
  - intros j Hj. simpl. by apply list_lookup_insert_ne.
Qed.

Lemma Allocate_throws_iff_witness :
  let a := ctor 4096 16 in
  let all_in_use := ∀ i, i < size → ∃ x, hdr a !! i = Some x ∧ x ≠ 0%Z in
  (Allocate a 16 = bad_alloc ↔ n_ a < 16 ∨ all_in_use) ∧
  (¬ (n_ a < 16 ∨ all_in_use) →
   ∃ (i : nat) (p : Z) (a' : t),
     Allocate a 16 = Ok (p, a')
     ∧ i < size
     ∧ hdr a !! i = Some 0%Z
     ∧ p = (buf_ a + (Z.of_nat (n_ a) + 4) * Z.of_nat i + 4)%Z
     ∧ p ≠ 0%Z
     ∧ (buf_ a < p)%Z
     ∧ (p + Z.of_nat (n_ a) ≤ buf_ a + (Z.of_nat (n_ a) + 4) * Z.of_nat size)%Z
     ∧ 16 ≤ n_ a
     ∧ hdr a' !! i = Some 1%Z
     ∧ (∀ j, j ≠ i → hdr a' !! j = hdr a !! j)
     ∧ n_ a' = n_ a
     ∧ buf_ a' = buf_ a).
Proof.
  apply (Allocate_throws_iff (ctor 4096 16) 16).
  split; [reflexivity | simpl; lia].
Defined.

Lemma header_at_block (a : t) (i : nat) :
  i < size → header_at a (payload a i - Z.of_nat sizeof_long) = Some i.
Proof.
  intros Hi. unfold header_at, payload, block.
  assert (Hs : (0 < Z.of_nat (stride a))%Z) by (unfold stride, sizeof_long; lia).
  replace (buf_ a + Z.of_nat (stride a * i) + Z.of_nat sizeof_long
           - Z.of_nat sizeof_long - buf_ a)%Z
    with (Z.of_nat i * Z.of_nat (stride a))%Z by lia.
  rewrite Z.mod_mul, Z.div_mul by lia.
  rewrite decide_True by lia. by rewrite Nat2Z.id.
Qed.

Lemma payload_in_range (a : t) (i : nat) :
  wf a → i < size →
  payload a i ≠ 0%Z ∧ ¬ (payload a i < buf_ a ∨ limit a < payload a i)%Z.
Proof.
  intros [_ Hb] Hi. unfold payload, limit, block, stride, sizeof_long, size in *.
  split; nia.
Qed.

Lemma payload_inj (a : t) (i j : nat) : payload a i = payload a j → i = j.
Proof. unfold payload, block, stride, sizeof_long. nia. Qed.

Lemma Deallocate_payload (a : t) (i : nat) :
  wf a → i < size →
  Deallocate a (payload a i) = Ok (set_hdr a (alter IntAtomicDecrement i (hdr a))).
Proof.
  intros Hwf Hi. destruct (payload_in_range a i Hwf Hi) as [Hnz Hin].
  unfold Deallocate. rewrite decide_False, decide_False by done.
  by rewrite header_at_block.
Qed.

(** C9 as the specification has it fails: a pointer to a block that is
    not in use is inside the arena, and [Deallocate] leaves the header of
    that block at -1, which [Allocate] takes for a block in use. *)
Lemma Deallocate_not_as_specified : ¬ Deallocate_as_specified.
Proof.
  intros Hspec.
  destruct (Hspec (ctor 4096 16) 4100%Z) as (_ & _ & Hin).
  { split; [reflexivity | simpl; lia]. }
  destruct Hin as (a' & Hd & Hfree); [lia | split; vm_compute; congruence |].
  vm_compute in Hd. injection Hd as <-. vm_compute in Hfree. discriminate.
Qed.

(** C9, amended. [Deallocate(p)] changes nothing when [p] is null; it
    throws [bad_alloc] for every other [p] below [buf_] or above the end
    address of the arena; and for the address [Allocate] returned for a
    block whose header is 1 it sets that header to 0, so that the block is
    free, touches no other header and does not throw. *)
Theorem Deallocate_amended (a : t) (p : Z) :
  wf a →
  (p = 0%Z → Deallocate a p = Ok a) ∧
  (p ≠ 0%Z → (p < buf_ a ∨ limit a < p)%Z → Deallocate a p = bad_alloc) ∧
  (∀ i, i < size → p = payload a i → hdr a !! i = Some 1%Z →
        Deallocate a p = Ok (set_hdr a (<[i := 0%Z]> (hdr a)))
        ∧ is_free (set_hdr a (<[i := 0%Z]> (hdr a))) i).
Proof.
  intros Hwf. split_and!.
  - intros ->. reflexivity.
  - intros Hnz Hout. unfold Deallocate. by rewrite decide_False, decide_True.
  - intros i Hi -> Hh. rewrite Deallocate_payload by done.
    assert (Hlt : i < length (hdr a)) by (destruct Hwf as [-> _]; done).
    assert (Heq : alter IntAtomicDecrement i (hdr a) = <[i := 0%Z]> (hdr a)).
    { apply list_eq. intros j. destruct (decide (j = i)) as [->|Hne].
      - rewrite list_lookup_alter_eq, list_lookup_insert_eq by lia. by rewrite Hh.
      - by rewrite list_lookup_alter_ne, list_lookup_insert_ne. }
    rewrite Heq. split; [done|]. unfold is_free; simpl.
    by apply list_lookup_insert_eq.
Qed.

Lemma Deallocate_amended_witness :
  let a := set_hdr (ctor 4096 16) (<[0 := 1%Z]> (hdr (ctor 4096 16))) in
  (4100%Z = 0%Z → Deallocate a 4100 = Ok a) ∧
  (4100%Z ≠ 0%Z → (4100 < buf_ a ∨ limit a < 4100)%Z → Deallocate a 4100 = bad_alloc) ∧
  (∀ i, i < size → 4100%Z = payload a i → hdr a !! i = Some 1%Z →
        Deallocate a 4100 = Ok (set_hdr a (<[i := 0%Z]> (hdr a)))
        ∧ is_free (set_hdr a (<[i := 0%Z]> (hdr a))) i).
Proof.
  intros a. apply (Deallocate_amended a 4100).
  split; [reflexivity | simpl; lia].
Defined.

End FastArena_facts.


(** ** The shared buffer [StringBuf] *)


Section StringBuf_facts.

Import COW COW_props.

Lemma memcpy_fresh (newlen : nat) (old : list cell) (k : nat) :
  k ≤ length old → k ≤ newlen →
  memcpy (replicate newlen Uninit) old k
  = Some (take k old ++ replicate (newlen - k) Uninit).
Proof.
  intros Hold Hnew. unfold memcpy.
  rewrite decide_True by (rewrite length_replicate; lia).
  by rewrite drop_replicate.
Qed.

Lemma round4_ge (n : nat) : n ≤ round4 n.
Proof. unfold round4. destruct (decide (n = 0)); lia. Qed.

Lemma round4_pos (n : nat) : 0 < n → 0 < round4 n.
Proof. unfold round4. destruct (decide (n = 0)); lia. Qed.

Lemma needed_for_ge (l n : nat) : l ≤ needed_for l n ∧ n ≤ needed_for l n.
Proof. unfold needed_for. lia. Qed.

Lemma grown_wf (d : StringBuf) (n : nat) : buf_wf d → buf_wf (grown d n).
Proof.
  intros [Hu Hb]. pose proof (round4_ge (needed_for (len d) n)).
  pose proof (needed_for_ge (len d) n).
  split; simpl; [lia|].
  rewrite length_app, length_take, length_replicate.
  destruct (buf d) as [a|]; simpl in *; lia.
Qed.

Lemma Reserve_grows (h : heap) (q : Z) (d : StringBuf) (n : nat) :
  objs h !! q = Some d → buf_wf d → len d < n →
  Reserve q n h
  = Ok (tt, set_objs (set_nAllocs h (nAllocs h + 1)) (<[q := grown d n]> (objs h))).
Proof.
  intros Hq [Hu Hb] Hn. destruct h as [a o nc na]. simpl in Hq.
  pose proof (round4_ge (needed_for (len d) n)).
  pose proof (needed_for_ge (len d) n).
  unfold Reserve, bind, load, store, incr_nAllocs, modify, ret. simpl. rewrite Hq.
  rewrite decide_True by done.
  rewrite decide_False by (pose proof (round4_pos (needed_for (len d) n)); lia).
  unfold grown. destruct (buf d) as [old|] eqn:Hbuf; simpl.
  - rewrite memcpy_fresh by lia. simpl. by rewrite Hq.
  - rewrite Hq. replace (used d) with 0 by lia. simpl. by rewrite Nat.sub_0_r.
Qed.

Lemma Reserve_enough (h : heap) (q : Z) (d : StringBuf) (n : nat) :
  objs h !! q = Some d → n ≤ len d → Reserve q n h = Ok (tt, h).
Proof.
  intros Hq Hn. unfold Reserve, bind, load. rewrite Hq.
  by rewrite decide_False by lia.
Qed.

(** [operator new] on a well-formed heap. *)
Lemma operator_new_Ok (sz : nat) (h h1 : heap) (p : Z) :
  heap_wf sz h → operator_new sz h = Ok (p, h1) →
  objs h !! p = None ∧ objs h1 = objs h ∧ nAllocs h1 = nAllocs h
  ∧ nCopies h1 = nCopies h ∧
  ∃ i, i < FastArena.size ∧ FastArena.is_free (fa h) i
       ∧ p = FastArena.payload (fa h) i
       ∧ fa h1 = FastArena.set_hdr (fa h) (<[i := 1%Z]> (FastArena.hdr (fa h))).
Proof.
  intros (Hfa & Hsz & Hobjs). unfold operator_new.
  destruct (FastArena.Allocate (fa h) sz) as [[p' a']| |] eqn:HA; [|done..].
  intros [= -> <-].
  destruct (Allocate_Ok_inv _ _ _ _ Hfa HA) as (i & Hi & Hfree & -> & -> & _).
  split_and!; [|done..|by exists i].
  destruct (objs h !! FastArena.payload (fa h) i) as [d|] eqn:Hd; [|done].
  destruct (Hobjs _ _ Hd) as (_ & j & Hj & Hpj & h0 & Hh0 & Hnz).
  apply payload_inj in Hpj as <-. unfold FastArena.is_free in Hfree. congruence.
Qed.

Lemma operator_new_succeeds (sz : nat) (h : heap) :
  heap_wf sz h → ¬ FastArena.exhausted (fa h) →
  ∃ p h1, operator_new sz h = Ok (p, h1).
Proof.
  intros (Hfa & Hsz & _) Hne.
  destruct (Allocate_outcome (fa h) sz Hfa) as [_ Hok].
  destruct Hok as (i & _ & _ & HA & _); [intros [?|?]; [lia|done]|].
  unfold operator_new. rewrite HA. eauto.
Qed.

Lemma needed_for_0 (n : nat) : needed_for 0 n = n.
Proof. unfold needed_for. simpl. lia. Qed.

Lemma new_StringBuf_clone_run (sz : nat) (h h1 : heap) (q p : Z)
      (X : StringBuf) (n : nat) :
  heap_wf sz h → objs h !! q = Some X → operator_new sz h = Ok (p, h1) →
  new_StringBuf_clone sz q n h
  = Ok (p, set_objs
             (set_nAllocs h1
                (nAllocs h + if decide (round4 (Nat.max (len X) n) = 0)
                             then 0%Z else 1%Z))
             (<[p := cloned X n]> (objs h))).
Proof.
  intros Hwf Hq Hnew.
  destruct (operator_new_Ok _ _ _ _ Hwf Hnew) as (Hp & Ho & Hna & Hnc & _).
  assert (Hpq : p ≠ q) by congruence.
  unfold new_StringBuf_clone, bind at 1. rewrite Hnew.
  destruct h1 as [a1 o1 nc1 na1]. simpl in Ho, Hna, Hnc. subst o1 na1 nc1.
  set (m := Nat.max (len X) n).
  unfold construct, bind, modify, load, store, update, ret. simpl.
  rewrite lookup_insert_ne, Hq by done.
  destruct (decide (0 < m)) as [Hm|Hm].
  - rewrite (Reserve_grows _ p (mkStringBuf None 0 0 1 0) m); simpl;
      [|by rewrite lookup_insert_eq|split; simpl; lia|done].
    unfold memcpy_ptr, defined. heap_simpl.
    rewrite !insert_insert_eq.
    unfold cloned. fold m. unfold grown; simpl. rewrite needed_for_0.
    rewrite !decide_False by (pose proof (round4_pos m); lia).
    by rewrite Nat.sub_0_r.
  - assert (m = 0) as Hm0 by lia.
    rewrite (Reserve_enough _ p (mkStringBuf None 0 0 1 0) m); simpl;
      [|by rewrite lookup_insert_eq|lia].
    unfold memcpy_ptr, defined. heap_simpl.
    rewrite !insert_insert_eq.
    unfold cloned. fold m. rewrite Hm0. simpl.
    by rewrite Z.add_0_r.
Qed.

Lemma new_StringBuf_clone_throws (sz : nat) (h : heap) (q : Z) (n : nat) :
  operator_new sz h = bad_alloc → new_StringBuf_clone sz q n h = bad_alloc.
Proof. intros Hnew. unfold new_StringBuf_clone, bind at 1. by rewrite Hnew. Qed.

End StringBuf_facts.


(** ** The clone constructor of [StringBuf] *)

Section clone_facts.

Import COW COW_props.

Lemma heap_X_reached :
  (let! s := String_ctor 16 in Append (COW_Unsafe.String 16) s "X")
    (start 16 4096)
  = Ok (mkString 4100, heap_X).
Proof. vm_compute. reflexivity. Qed.

Lemma heap_X_wf : heap_wf 16 heap_X.
Proof.
  split_and!; [split; [reflexivity | simpl; lia] | simpl; lia |].
  intros p d Hpd. simpl in Hpd. apply lookup_singleton_Some in Hpd as [<- <-].
  split; [split; simpl; [lia | reflexivity] |].
  exists 0. split_and!; [unfold FastArena.size; lia | reflexivity |].
  exists 1%Z. split; [reflexivity | lia].
Qed.

Lemma heap_X8_wf : heap_wf 16 heap_X8.
Proof.
  split_and!; [split; [reflexivity | simpl; lia] | simpl; lia |].
  intros p d Hpd. simpl in Hpd. apply lookup_singleton_Some in Hpd as [<- <-].
  split; [split; simpl; [lia | reflexivity] |].
  exists 0. split_and!; [unfold FastArena.size; lia | reflexivity |].
  exists 1%Z. split; [reflexivity | lia].
Qed.

(** On a well-formed heap with a free block the clone constructor returns,
    and the [StringBuf] it leaves is [cloned X n]: no cell of its array
    has been written. *)
Lemma new_StringBuf_clone_result (sz : nat) (h : heap) (q : Z)
      (X : StringBuf) (n : nat) :
  heap_wf sz h → objs h !! q = Some X → ¬ FastArena.exhausted (fa h) →
  ∃ p h', new_StringBuf_clone sz q n h = Ok (p, h')
          ∧ objs h !! p = None
          ∧ objs h' = <[p := cloned X n]> (objs h)
          ∧ nCopies h' = nCopies h.
Proof.
  intros Hwf Hq Hne.
  destruct (operator_new_succeeds sz h Hwf Hne) as (p & h1 & Hnew).
  destruct (operator_new_Ok _ _ _ _ Hwf Hnew) as (Hp & _ & _ & Hnc & _).
  exists p. eexists. split; [by apply new_StringBuf_clone_run|done].
Qed.

Lemma new_StringBuf_clone_Ok_inv (sz : nat) (h h' : heap) (q p : Z)
      (X : StringBuf) (n : nat) :
  heap_wf sz h → objs h !! q = Some X →
  new_StringBuf_clone sz q n h = Ok (p, h') →
  objs h !! p = None ∧ objs h' = <[p := cloned X n]> (objs h)
  ∧ nCopies h' = nCopies h.
Proof.
  intros Hwf Hq Hrun.
  destruct (operator_new sz h) as [[p1 h1]| |] eqn:Hnew.
  - rewrite (new_StringBuf_clone_run sz h h1 q p1 X n Hwf Hq Hnew) in Hrun.
    destruct (operator_new_Ok _ _ _ _ Hwf Hnew) as (Hp & _ & _ & Hnc & _).
    by injection Hrun as <- <-.
  - by rewrite new_StringBuf_clone_throws in Hrun.
  - unfold new_StringBuf_clone, bind at 1 in Hrun. by rewrite Hnew in Hrun.
Qed.

(** C1, at the failing input: cloning the [StringBuf] of the string "X"
    gives a [StringBuf] with [used] 1 and [refs] 1 whose first cell was never
    written, where the original holds 'X'. *)
Theorem clone_copies_no_byte :
  ∃ h', new_StringBuf_clone 16 4100 0 heap_X = Ok (4120%Z, h')
        ∧ objs h' !! 4100%Z = Some buf_X
        ∧ objs h' !! 4120%Z
          = Some (mkStringBuf (Some [Uninit; Uninit; Uninit; Uninit]) 4 1 1 0)
        ∧ default [] (buf buf_X) !! 0 = Some (Char "X").
Proof.
  eexists. split; [vm_compute; reflexivity|].
  split_and!; reflexivity.
Qed.

Lemma round4_spec (m : nat) :
  m ≤ round4 m < m + 4 ∧ round4 m `mod` 4 = 0.
Proof.
  unfold round4. destruct (decide (m = 0)) as [->|]; [|lia].
  split; [lia | reflexivity].
Qed.

(** C5 as the specification has it fails: the clone of a [StringBuf] of
    capacity 8 has capacity 8, not 12. *)
Lemma clone_capacity_not_as_specified : ¬ clone_capacity_as_specified.
Proof.
  intros Hspec.
  destruct (Hspec 16 heap_X8
              (heap_after (new_StringBuf_clone 16 4100 0 heap_X8) heap_X8)
              4100%Z 4120%Z buf_X8 0 heap_X8_wf)
    as (d & Hd & Hlen); [reflexivity | vm_compute; reflexivity |].
  vm_compute in Hd. injection Hd as <-. vm_compute in Hlen. discriminate.
Qed.

(** C5, amended. The clone constructor [StringBuf(X, n)] gives the new
    buffer the capacity [max(X.len, n)] rounded up to the next multiple
    of 4: the factor 1.5 of [Reserve] applies to the capacity of the buffer
    under construction, which is 0. *)
Theorem clone_capacity (sz : nat) (h h' : heap) (q p : Z) (X : StringBuf) (n : nat) :
  heap_wf sz h → objs h !! q = Some X →
  new_StringBuf_clone sz q n h = Ok (p, h') →
  ∃ d, objs h' !! p = Some d
       ∧ len d = round4 (Nat.max (len X) n)
       ∧ Nat.max (len X) n ≤ len d < Nat.max (len X) n + 4
       ∧ len d `mod` 4 = 0.
Proof.
  intros Hwf Hq Hrun.
  destruct (new_StringBuf_clone_Ok_inv _ _ _ _ _ _ _ Hwf Hq Hrun) as (_ & Ho & _).
  exists (cloned X n). rewrite Ho, lookup_insert_eq.
  pose proof (round4_spec (Nat.max (len X) n)) as [Hr Hm].
  repeat split; simpl; first [done | lia].
Qed.

Lemma clone_capacity_witness :
  ∃ d, objs (heap_after (new_StringBuf_clone 16 4100 0 heap_X8) heap_X8) !! 4120%Z
       = Some d
       ∧ len d = round4 (Nat.max (len buf_X8) 0)
       ∧ Nat.max (len buf_X8) 0 ≤ len d < Nat.max (len buf_X8) 0 + 4
       ∧ len d `mod` 4 = 0.
Proof.
  apply (clone_capacity 16 heap_X8 _ 4100 4120 buf_X8 0 heap_X8_wf);
    [reflexivity | vm_compute; reflexivity].
Defined.

End clone_facts.


(** ** The two paths of [EnsureUnique], in each of the four namespaces *)

Section EnsureUnique_facts.

Import COW COW_props.

Lemma heap_wf_store (sz : nat) (h : heap) (q : Z) (d d' : StringBuf) :
  heap_wf sz h → objs h !! q = Some d → buf_wf d' →
  heap_wf sz (set_objs h (<[q := d']> (objs h))).
Proof.
  intros (Hfa & Hsz & Hobjs) Hq Hd'. split_and!; [done..|].
  intros p x. simpl. rewrite lookup_insert. case_decide as Hpq.
  - intros [= <-]. subst p. split; [done|]. by destruct (Hobjs _ _ Hq).
  - apply Hobjs.
Qed.

(** The state [EnsureUnique(n)] leaves when the buffer is not shared. *)
Lemma EnsureUnique_unshared (sz : nat) (v : variant) (h : heap) (q : Z)
      (d : StringBuf) (n : nat) :
  objs h !! q = Some d → (refs d ≤ 1)%Z → buf_wf d →
  EnsureUnique (String_of sz v) (mkString q) n h
  = Ok (mkString q,
        if decide (len d < n)
        then set_objs (set_nAllocs h (nAllocs h + 1))
                      (<[q := set_refs (grown d n) 1]> (objs h))
        else set_objs h (<[q := set_refs d 1]> (objs h))).
Proof.
  intros Hq Hr Hwf.
  assert (Hcmp : ¬ (IntAtomicCompare (refs d) 1 > 0)%Z).
  { unfold IntAtomicCompare. repeat case_decide; lia. }
  destruct h as [a o nc na], d as [b l u r g]. simpl in *.
  destruct v; simpl;
    unfold COW_Unsafe.EnsureUnique, COW_AtomicInt.EnsureUnique,
      COW_CritSec.EnsureUnique, COW_Mutex.EnsureUnique, Lock.ctor, Lock.Unlock;
    heap_simpl;
    rewrite ?(decide_False (P := (r > 1)%Z)) by lia;
    rewrite ?(decide_False (P := (IntAtomicCompare r 1 > 0)%Z)) by done;
    heap_simpl;
    rewrite ?Nat.add_sub, ?insert_insert_eq, ?(insert_id o q _ Hq);
    (destruct (decide (l < n)) as [Hn|Hn];
     [ erewrite Reserve_grows by (simpl; first [eassumption | lia])
     | erewrite Reserve_enough by (simpl; first [eassumption | lia]) ]);
    heap_simpl; by rewrite ?insert_insert_eq.
Qed.

Lemma operator_new_set_objs (sz : nat) (h : heap) (o : gmap Z StringBuf) :
  operator_new sz (set_objs h o)
  = match operator_new sz h with
    | Ok (p, h1) => Ok (p, set_objs h1 o)
    | bad_alloc => bad_alloc
    | Undef => Undef
    end.
Proof.
  unfold operator_new. simpl.
  by destruct (FastArena.Allocate (fa h) sz) as [[p a]| |].
Qed.

Lemma EnsureUnique_shared (sz : nat) (v : variant) (h : heap) (q : Z)
      (d : StringBuf) (n : nat) :
  heap_wf sz h → objs h !! q = Some d → (refs d > 1)%Z →
  EnsureUnique (String_of sz v) (mkString q) n h
  = match operator_new sz h with
    | Ok (p, h1) => Ok (mkString p, detached h1 h q p d n)
    | bad_alloc => bad_alloc
    | Undef => Undef
    end.
Proof.
  intros Hwf Hq Hr.
  assert (Hcmp : (IntAtomicCompare (refs d) 1 > 0)%Z).
  { unfold IntAtomicCompare. repeat case_decide; lia. }
  assert (Hbw : buf_wf d) by (by destruct Hwf as (_ & _ & Ho); destruct (Ho _ _ Hq)).
  set (dl := set_baggage d (baggage d + 1)).
  assert (Hwfl : heap_wf sz (set_objs h (<[q := dl]> (objs h)))).
  { by apply (heap_wf_store sz h q d dl). }
  assert (Hql : objs (set_objs h (<[q := dl]> (objs h))) !! q = Some dl).
  { simpl. by rewrite lookup_insert_eq. }
  destruct (operator_new sz h) as [[p h1]| |] eqn:Hnew.
  - destruct (operator_new_Ok _ _ _ _ Hwf Hnew) as (Hp & Ho & Hna & Hnc & _).
    assert (Hpq : p ≠ q) by congruence.
    assert (Hnewl : operator_new sz (set_objs h (<[q := dl]> (objs h)))
                    = Ok (p, set_objs h1 (<[q := dl]> (objs h)))).
    { by rewrite operator_new_set_objs, Hnew. }
    unfold detached.
    destruct v; simpl;
      unfold COW_Unsafe.EnsureUnique, COW_AtomicInt.EnsureUnique,
        COW_CritSec.EnsureUnique, COW_Mutex.EnsureUnique,
        COW_AtomicInt.decrement_refs, Lock.ctor, Lock.Unlock.
    + unfold bind at 1, load. simpl. rewrite Hq. rewrite decide_True by lia.
      unfold bind at 1.
      rewrite (new_StringBuf_clone_run sz h h1 q p d n Hwf Hq Hnew).
      destruct h1 as [a1 o1 nc1 na1], d as [b l u r g]; simpl in *; subst.
      heap_simpl. rewrite insert_insert_ne by done. done.
    + unfold bind at 1, load. simpl. rewrite Hq. rewrite decide_True by done.
      unfold bind at 1.
      rewrite (new_StringBuf_clone_run sz h h1 q p d n Hwf Hq Hnew).
      destruct h1 as [a1 o1 nc1 na1], d as [b l u r g]; simpl in *; subst.
      heap_simpl. unfold IntAtomicDecrement.
      rewrite decide_False by lia. heap_simpl.
      rewrite insert_insert_ne by done. done.
    + unfold bind at 1, update, bind at 1, load, store. simpl. rewrite Hq. simpl.
      rewrite Hq. fold dl.
      change {| fa := fa h; objs := <[q:=dl]> (objs h); nCopies := nCopies h;
                nAllocs := nAllocs h |}
        with (set_objs h (<[q := dl]> (objs h))).
      unfold bind at 1. rewrite Hql. simpl. rewrite decide_True by lia.
      unfold bind at 1.
      rewrite (new_StringBuf_clone_run sz _ _ q p dl n Hwfl Hql Hnewl).
      destruct h1 as [a1 o1 nc1 na1], d as [b l u r g]; simpl in *; subst.
      heap_simpl. rewrite Nat.add_sub, !insert_insert_eq.
      rewrite (insert_insert_ne _ p q) by done. by rewrite !insert_insert_eq.
    + unfold bind at 1, update, bind at 1, load, store. simpl. rewrite Hq. simpl.
      rewrite Hq. fold dl.
      change {| fa := fa h; objs := <[q:=dl]> (objs h); nCopies := nCopies h;
                nAllocs := nAllocs h |}
        with (set_objs h (<[q := dl]> (objs h))).
      unfold bind at 1. rewrite Hql. simpl. rewrite decide_True by lia.
      unfold bind at 1.
      rewrite (new_StringBuf_clone_run sz _ _ q p dl n Hwfl Hql Hnewl).
      destruct h1 as [a1 o1 nc1 na1], d as [b l u r g]; simpl in *; subst.
      heap_simpl. rewrite Nat.add_sub, !insert_insert_eq.
      rewrite (insert_insert_ne _ p q) by done. by rewrite !insert_insert_eq.
  - assert (Hnewl : operator_new sz (set_objs h (<[q := dl]> (objs h))) = bad_alloc).
    { by rewrite operator_new_set_objs, Hnew. }
    destruct v; simpl;
      unfold COW_Unsafe.EnsureUnique, COW_AtomicInt.EnsureUnique,
        COW_CritSec.EnsureUnique, COW_Mutex.EnsureUnique, Lock.ctor.
    + unfold bind at 1, load. simpl. rewrite Hq. rewrite decide_True by lia.
      unfold bind at 1. by rewrite new_StringBuf_clone_throws.
    + unfold bind at 1, load. simpl. rewrite Hq. rewrite decide_True by done.
      unfold bind at 1. by rewrite new_StringBuf_clone_throws.
    + unfold bind at 1, update, bind at 1, load, store. simpl. rewrite Hq. simpl.
      rewrite Hq. fold dl.
      change {| fa := fa h; objs := <[q:=dl]> (objs h); nCopies := nCopies h;
                nAllocs := nAllocs h |}
        with (set_objs h (<[q := dl]> (objs h))).
      unfold bind at 1. rewrite Hql. simpl. rewrite decide_True by lia.
      unfold bind at 1. by rewrite new_StringBuf_clone_throws.
    + unfold bind at 1, update, bind at 1, load, store. simpl. rewrite Hq. simpl.
      rewrite Hq. fold dl.
      change {| fa := fa h; objs := <[q:=dl]> (objs h); nCopies := nCopies h;
                nAllocs := nAllocs h |}
        with (set_objs h (<[q := dl]> (objs h))).
      unfold bind at 1. rewrite Hql. simpl. rewrite decide_True by lia.
      unfold bind at 1. by rewrite new_StringBuf_clone_throws.
  - exfalso. unfold operator_new in Hnew.
    destruct (FastArena.Allocate (fa h) sz) as [[p a]| |] eqn:HA; try done.
    unfold FastArena.Allocate in HA. repeat case_decide; discriminate.
Qed.

End EnsureUnique_facts.


(** ** COW_AtomicInt2: [Clone] and the two paths of [EnsureUnique] *)


Section AtomicInt2_facts.

Import COW_AtomicInt2.

Lemma fresh_not_live (h : heap) : mem h !! fresh (dom (mem h)) = None.
Proof. apply not_elem_of_dom. apply is_fresh. Qed.

Lemma cloned_wf (x : glom) (n : nat) : glom_wf x → glom_wf (cloned x n).
Proof.
  intros [Hu Hl]. pose proof (round4_ge (needed_for (LEN x) n)).
  pose proof (needed_for_ge (LEN x) n).
  split; unfold cloned, LEN, USED in *; simpl; [lia|].
  rewrite length_app, length_take, length_replicate. lia.
Qed.

Lemma Clone_run (h : heap) (q : positive) (x : glom) (n : nat) :
  mem h !! q = Some x → glom_wf x →
  Clone q n h
  = Ok (fresh (dom (mem h)),
        set_mem (set_nAllocs h (nAllocs h + 1))
                (<[fresh (dom (mem h)) := cloned x n]> (mem h))).
Proof.
  intros Hq [Hu Hl]. pose proof (round4_ge (needed_for (LEN x) n)).
  pose proof (needed_for_ge (LEN x) n).
  destruct h as [m nc na], x as [[l u r] b]. unfold LEN, USED in *. simpl in *.
  unfold Clone. glom_simpl.
  rewrite memcpy_fresh by lia. glom_simpl.
  by rewrite !insert_insert_eq.
Qed.

(** The state [EnsureUnique(n)] leaves when the buffer is not shared:
    the string may have moved to a larger buffer. *)
Lemma EnsureUnique_unshared2 (h : heap) (q : positive) (x : glom) (n : nat) :
  mem h !! q = Some x → (REFS x ≤ 1)%Z → glom_wf x →
  EnsureUnique (mkString q) n h
  = if decide (LEN x < n)
    then Ok (mkString (fresh (dom (mem h))),
             set_mem (set_nAllocs h (nAllocs h + 1))
                     (<[fresh (dom (mem h)) := cloned x n]> (delete q (mem h))))
    else Ok (mkString q, set_mem h (<[q := set_REFS x 1]> (mem h))).
Proof.
  intros Hq Hr Hwf.
  assert (Hcmp : ¬ (IntAtomicCompare (REFS x) 1 > 0)%Z).
  { unfold IntAtomicCompare. repeat case_decide; lia. }
  pose proof (fresh_not_live h) as Hf.
  assert (Hne : fresh (dom (mem h)) ≠ q) by congruence.
  pose proof (Clone_run h q x n Hq Hwf) as HC.
  destruct h as [m nc na]. simpl in *.
  unfold EnsureUnique, Reserve. unfold bind at 1, load. simpl. rewrite Hq.
  rewrite decide_False by done.
  unfold bind at 1, bind at 1, load. simpl. rewrite Hq.
  destruct (decide (LEN x < n)) as [Hn|Hn].
  - unfold bind at 1. rewrite HC. glom_simpl.
    rewrite delete_insert_ne by done. by rewrite insert_insert_eq.
  - glom_simpl. done.
Qed.

(** The state [EnsureUnique(n)] leaves when the buffer is shared. *)
Lemma EnsureUnique_shared2 (h : heap) (q : positive) (x : glom) (n : nat) :
  mem h !! q = Some x → (REFS x > 1)%Z → glom_wf x →
  EnsureUnique (mkString q) n h
  = Ok (mkString (fresh (dom (mem h))),
        set_mem (set_nAllocs h (nAllocs h + 1))
          (<[q := set_REFS x (REFS x - 1)]>
             (<[fresh (dom (mem h)) := cloned x n]> (mem h)))).
Proof.
  intros Hq Hr Hwf.
  assert (Hcmp : (IntAtomicCompare (REFS x) 1 > 0)%Z).
  { unfold IntAtomicCompare. repeat case_decide; lia. }
  pose proof (fresh_not_live h) as Hf.
  assert (Hne : fresh (dom (mem h)) ≠ q) by congruence.
  pose proof (Clone_run h q x n Hq Hwf) as HC.
  destruct h as [m nc na]. simpl in *.
  unfold EnsureUnique. unfold bind at 1, load. simpl. rewrite Hq.
  rewrite decide_True by done.
  unfold bind at 1. rewrite HC. glom_simpl.
  unfold IntAtomicDecrement. rewrite decide_False by (unfold REFS in Hr; lia).
  done.
Qed.

End AtomicInt2_facts.


(** ** Copy construction *)

Section copy_facts.

Import COW COW_props.

Lemma IntAtomicCompare_gt (i v : Z) : (IntAtomicCompare i v > 0)%Z ↔ (i > v)%Z.
Proof. unfold IntAtomicCompare. repeat case_decide; lia. Qed.

(** Copying a string whose buffer is shareable, in the four namespaces of
    common-test.h. *)
Lemma copy_ctor_shares (sz : nat) (v : variant) (h : heap) (s : String)
      (d : StringBuf) :
  objs h !! data_ s = Some d → (refs d > 0)%Z →
  copy_ctor (String_of sz v) s h
  = Ok (mkString (data_ s),
        set_nCopies
          (set_objs h (<[data_ s := set_refs d (refs d + 1)]> (objs h)))
          (nCopies h + 1)).
Proof.
  intros Hq Hr. pose proof (proj2 (IntAtomicCompare_gt (refs d) 0) Hr) as Hcmp.
  destruct h as [a o nc na], d as [b l u r g], s as [q]. simpl in *.
  destruct v; simpl;
    unfold COW_Unsafe.copy_ctor, COW_AtomicInt.copy_ctor,
      COW_CritSec.copy_ctor, COW_Mutex.copy_ctor,
      COW_AtomicInt.increment_refs, Lock.ctor, Lock.Unlock;
    heap_simpl;
    rewrite ?(decide_True (P := (r > 0)%Z)) by lia;
    rewrite ?(decide_True (P := (IntAtomicCompare r 0 > 0)%Z)) by done;
    heap_simpl;
    by rewrite ?Nat.add_sub, ?insert_insert_eq.
Qed.

(** The same in COW_AtomicInt2. *)
Lemma copy_ctor_shares2 (h : COW_AtomicInt2.heap) (s : COW_AtomicInt2.String)
      (x : COW_AtomicInt2.glom) :
  COW_AtomicInt2.mem h !! COW_AtomicInt2.data_ s = Some x →
  (COW_AtomicInt2.REFS x > 0)%Z →
  COW_AtomicInt2.copy_ctor s h
  = Ok (COW_AtomicInt2.mkString (COW_AtomicInt2.data_ s),
        COW_AtomicInt2.set_nCopies
          (COW_AtomicInt2.set_mem h
             (<[COW_AtomicInt2.data_ s
                := COW_AtomicInt2.set_REFS x (COW_AtomicInt2.REFS x + 1)]>
                (COW_AtomicInt2.mem h)))
          (COW_AtomicInt2.nCopies h + 1)).
Proof.
  intros Hq Hr.
  pose proof (proj2 (IntAtomicCompare_gt (COW_AtomicInt2.REFS x) 0) Hr) as Hcmp.
  destruct h as [m nc na], x as [[l u r] b], s as [q].
  unfold COW_AtomicInt2.REFS in *. simpl in *.
  unfold COW_AtomicInt2.copy_ctor. glom_simpl.
  rewrite decide_True by done. glom_simpl. done.
Qed.

(** C6. In each of the five COW namespaces, copy-constructing from a
    string [s] whose buffer has [refs > 0] returns, leaves [nAllocs] as it
    was, adds exactly 1 to [nCopies], and gives the copy the [data_] of
    [s]; the [refs] stored in that buffer is afterwards 1 more than it
    was, the other members of the buffer are as they were, and no other
    buffer and nothing of the arena has changed. The reference count is a
    32-bit [long] and the counter an [int]: the statement is for values
    that the increment does not take out of their range. *)
Theorem copy_of_shareable_string :
  (∀ (sz : nat) (v : variant) (h : heap) (s : String) (d : StringBuf),
     objs h !! data_ s = Some d → (refs d > 0)%Z →
     (refs d < 2 ^ 31 - 1)%Z → (nCopies h < 2 ^ 31 - 1)%Z →
     ∃ s2 h' d', copy_ctor (String_of sz v) s h = Ok (s2, h')
       ∧ nAllocs h' = nAllocs h
       ∧ nCopies h' = (nCopies h + 1)%Z
       ∧ data_ s2 = data_ s
       ∧ objs h' !! data_ s = Some d'
       ∧ refs d' = (refs d + 1)%Z
       ∧ buf d' = buf d ∧ len d' = len d ∧ used d' = used d
       ∧ baggage d' = baggage d
       ∧ (∀ q, q ≠ data_ s → objs h' !! q = objs h !! q)
       ∧ fa h' = fa h)
  ∧
  (∀ (h : COW_AtomicInt2.heap) (s : COW_AtomicInt2.String)
     (x : COW_AtomicInt2.glom),
     COW_AtomicInt2.mem h !! COW_AtomicInt2.data_ s = Some x →
     (COW_AtomicInt2.refs (COW_AtomicInt2.head x) > 0)%Z →
     (COW_AtomicInt2.refs (COW_AtomicInt2.head x) < 2 ^ 31 - 1)%Z →
     (COW_AtomicInt2.nCopies h < 2 ^ 31 - 1)%Z →
     ∃ s2 h' x', COW_AtomicInt2.copy_ctor s h = Ok (s2, h')
       ∧ COW_AtomicInt2.nAllocs h' = COW_AtomicInt2.nAllocs h
       ∧ COW_AtomicInt2.nCopies h' = (COW_AtomicInt2.nCopies h + 1)%Z
       ∧ COW_AtomicInt2.data_ s2 = COW_AtomicInt2.data_ s
       ∧ COW_AtomicInt2.mem h' !! COW_AtomicInt2.data_ s = Some x'
       ∧ COW_AtomicInt2.refs (COW_AtomicInt2.head x')
         = (COW_AtomicInt2.refs (COW_AtomicInt2.head x) + 1)%Z
       ∧ COW_AtomicInt2.len (COW_AtomicInt2.head x')
         = COW_AtomicInt2.len (COW_AtomicInt2.head x)
       ∧ COW_AtomicInt2.used (COW_AtomicInt2.head x')
         = COW_AtomicInt2.used (COW_AtomicInt2.head x)
       ∧ COW_AtomicInt2.BUF x' = COW_AtomicInt2.BUF x
       ∧ (∀ q, q ≠ COW_AtomicInt2.data_ s →
            COW_AtomicInt2.mem h' !! q = COW_AtomicInt2.mem h !! q)).
Proof.
  split.
  - intros sz v h s d Hq Hr _ _. eexists _, _, (set_refs d (refs d + 1)).
    split; [by apply (copy_ctor_shares sz v h s d)|]. simpl.
    split_and!; try done.
    + apply lookup_insert_eq.
    + intros q Hne. by apply lookup_insert_ne.
  - intros h s x Hq Hr _ _.
    eexists _, _, (COW_AtomicInt2.set_REFS x (COW_AtomicInt2.REFS x + 1)).
    split; [by apply (copy_ctor_shares2 h s x)|]. simpl.
    split_and!; try done.
    + apply lookup_insert_eq.
    + intros q Hne. by apply lookup_insert_ne.
Qed.

End copy_facts.


(** ** [Append], [operator[]] and copies, in the namespaces of common-test.h *)

Section String_facts.

Import COW COW_props.

Lemma bind_Ok {S A B : Type} (m : M S A) (k : A → M S B) (s : S) (r : B * S) :
  bind m k s = Ok r → ∃ a s', m s = Ok (a, s') ∧ k a s' = Ok r.
Proof.
  unfold bind. destruct (m s) as [[a s']| |]; [|done..]. eauto.
Qed.

Lemma heap_wf_buf (sz : nat) (h : heap) (q : Z) (d : StringBuf) :
  heap_wf sz h → objs h !! q = Some d → buf_wf d.
Proof. intros (_ & _ & Ho) Hq. by destruct (Ho _ _ Hq). Qed.

Lemma reserved_wf (d : StringBuf) (n : nat) : buf_wf d → buf_wf (reserved d n).
Proof. unfold reserved. case_decide; [apply grown_wf | done]. Qed.

Lemma reserved_len (d : StringBuf) (n : nat) : n ≤ len (reserved d n).
Proof.
  unfold reserved. case_decide; simpl; [|lia].
  pose proof (round4_ge (needed_for (len d) n)).
  pose proof (needed_for_ge (len d) n). lia.
Qed.

Lemma reserved_used (d : StringBuf) (n : nat) : used (reserved d n) = used d.
Proof. unfold reserved. by case_decide. Qed.

Lemma reserved_take (d : StringBuf) (n : nat) :
  buf_wf d →
  take (used d) (default [] (buf (reserved d n)))
  = take (used d) (default [] (buf d)).
Proof.
  intros [Hu Hb]. unfold reserved. case_decide; [|done]. simpl.
  rewrite take_app_le; [by rewrite take_take, Nat.min_id|].
  rewrite length_take. destruct (buf d); simpl in *; lia.
Qed.

(** [EnsureUnique] on a buffer that is not shared, in one equation. *)
Lemma EnsureUnique_unshared_eq (sz : nat) (v : variant) (h : heap) (q : Z)
      (d : StringBuf) (n : nat) :
  objs h !! q = Some d → (refs d ≤ 1)%Z → buf_wf d →
  EnsureUnique (String_of sz v) (mkString q) n h
  = Ok (mkString q,
        set_objs
          (set_nAllocs h (nAllocs h + if decide (len d < n) then 1%Z else 0%Z))
          (<[q := set_refs (reserved d n) 1]> (objs h))).
Proof.
  intros Hq Hr Hwf. rewrite (EnsureUnique_unshared sz v h q d n Hq Hr Hwf).
  unfold reserved. destruct h as [a o nc na]. simpl.
  case_decide; simpl; [done|]. by rewrite Z.add_0_r.
Qed.

(** [Append] on a string whose buffer is not shared. *)
Lemma Append_unshared (sz : nat) (v : variant) (h : heap) (q : Z)
      (d : StringBuf) (c : ascii) :
  objs h !! q = Some d → (refs d ≤ 1)%Z → buf_wf d →
  Append (String_of sz v) (mkString q) c h
  = Ok (mkString q,
        set_objs
          (set_nAllocs h (nAllocs h + if decide (len d < used d + 1)
                                      then 1%Z else 0%Z))
          (<[q := appended (set_refs (reserved d (used d + 1)) 1) c]> (objs h))).
Proof.
  intros Hq Hr Hwf.
  pose proof (reserved_wf d (used d + 1) Hwf) as [Hu' Hb'].
  pose proof (reserved_len d (used d + 1)) as Hl'.
  pose proof (reserved_used d (used d + 1)) as Hused.
  unfold Append. cbn [data_]. unfold bind at 1, load. rewrite Hq.
  unfold bind at 1. rewrite (EnsureUnique_unshared_eq sz v h q d _ Hq Hr Hwf).
  destruct h as [a o nc na]. heap_simpl.
  destruct (buf (reserved d (used d + 1))) as [arr|] eqn:Harr; [|simpl in *; lia].
  rewrite Hused. rewrite decide_True by lia. heap_simpl.
  rewrite insert_insert_eq. unfold appended. heap_simpl.
  by rewrite ?Harr, ?Hused.
Qed.

(** [Append] on a string whose buffer is shared. *)
Lemma Append_shared (sz : nat) (v : variant) (h : heap) (q : Z)
      (d : StringBuf) (c : ascii) :
  heap_wf sz h → objs h !! q = Some d → (refs d > 1)%Z →
  Append (String_of sz v) (mkString q) c h
  = match operator_new sz h with
    | Ok (p, h1) =>
        Ok (mkString p,
            set_objs (detached h1 h q p d (used d + 1))
              (<[p := appended (cloned d (used d + 1)) c]>
                 (objs (detached h1 h q p d (used d + 1)))))
    | bad_alloc => bad_alloc
    | Undef => Undef
    end.
Proof.
  intros Hwf Hq Hr.
  unfold Append. cbn [data_]. unfold bind at 1, load. rewrite Hq.
  unfold bind at 1. rewrite (EnsureUnique_shared sz v h q d _ Hwf Hq Hr).
  destruct (operator_new sz h) as [[p h1]| |] eqn:Hnew; [|done..].
  destruct (operator_new_Ok _ _ _ _ Hwf Hnew) as (Hp & _).
  assert (Hpq : p ≠ q) by congruence.
  pose proof (round4_ge (Nat.max (len d) (used d + 1))) as Hge.
  unfold detached. destruct h1 as [a1 o1 nc1 na1]. heap_simpl.
  rewrite decide_False by lia. heap_simpl.
  rewrite decide_True by (rewrite length_replicate; lia). heap_simpl.
  unfold appended, cloned. heap_simpl.
  by rewrite decide_False by lia.
Qed.

(** [operator[]] on a string whose buffer is not shared. *)
Lemma index_unshared (sz : nat) (v : variant) (h : heap) (q : Z)
      (d : StringBuf) (n : nat) :
  objs h !! q = Some d → (refs d ≤ 1)%Z → buf_wf d →
  index (String_of sz v) (mkString q) n h
  = Ok ((mkString q, mkRef q n),
        set_objs h (<[q := set_refs d (-1)]> (objs h))).
Proof.
  intros Hq Hr Hwf.
  unfold index, EnsureUnshareable. cbn [data_]. unfold bind at 1, load. rewrite Hq.
  unfold bind at 1, bind at 1.
  rewrite (EnsureUnique_unshared_eq sz v h q d _ Hq Hr Hwf).
  unfold reserved. rewrite !decide_False by lia.
  destruct h as [a o nc na], d as [b l u r g]. heap_simpl.
  by rewrite insert_insert_eq, Z.add_0_r.
Qed.

(** [operator[]] on a string whose buffer is shared. *)
Lemma index_shared (sz : nat) (v : variant) (h : heap) (q : Z)
      (d : StringBuf) (n : nat) :
  heap_wf sz h → objs h !! q = Some d → (refs d > 1)%Z →
  index (String_of sz v) (mkString q) n h
  = match operator_new sz h with
    | Ok (p, h1) =>
        Ok ((mkString p, mkRef p n),
            set_objs (detached h1 h q p d (len d))
              (<[p := set_refs (cloned d (len d)) (-1)]>
                 (objs (detached h1 h q p d (len d)))))
    | bad_alloc => bad_alloc
    | Undef => Undef
    end.
Proof.
  intros Hwf Hq Hr.
  unfold index, EnsureUnshareable. cbn [data_]. unfold bind at 1, load. rewrite Hq.
  unfold bind at 1, bind at 1.
  rewrite (EnsureUnique_shared sz v h q d _ Hwf Hq Hr).
  destruct (operator_new sz h) as [[p h1]| |] eqn:Hnew; [|done..].
  destruct (operator_new_Ok _ _ _ _ Hwf Hnew) as (Hp & _).
  assert (Hpq : p ≠ q) by congruence.
  unfold detached. destruct h1 as [a1 o1 nc1 na1]. heap_simpl. done.
Qed.

Lemma new_StringBuf_clone_eq (sz : nat) (h : heap) (q : Z) (X : StringBuf)
      (n : nat) :
  heap_wf sz h → objs h !! q = Some X →
  new_StringBuf_clone sz q n h
  = match operator_new sz h with
    | Ok (p, h1) =>
        Ok (p, set_objs
                 (set_nAllocs h1
                    (nAllocs h + if decide (round4 (Nat.max (len X) n) = 0)
                                 then 0%Z else 1%Z))
                 (<[p := cloned X n]> (objs h)))
    | bad_alloc => bad_alloc
    | Undef => Undef
    end.
Proof.
  intros Hwf Hq. destruct (operator_new sz h) as [[p h1]| |] eqn:Hnew.
  - by apply new_StringBuf_clone_run.
  - by apply new_StringBuf_clone_throws.
  - unfold new_StringBuf_clone, bind at 1. by rewrite Hnew.
Qed.

(** Copying a string whose buffer is not shareable. *)
Lemma copy_ctor_clones (sz : nat) (v : variant) (h : heap) (q : Z)
      (d : StringBuf) :
  heap_wf sz h → objs h !! q = Some d → (refs d ≤ 0)%Z →
  copy_ctor (String_of sz v) (mkString q) h
  = match operator_new sz h with
    | Ok (p, h1) =>
        Ok (mkString p,
            set_nCopies
              (set_objs
                 (set_nAllocs h1
                    (nAllocs h + if decide (round4 (Nat.max (len d) 0) = 0)
                                 then 0%Z else 1%Z))
                 (<[p := cloned d 0]> (objs h)))
              (nCopies h + 1))
    | bad_alloc => bad_alloc
    | Undef => Undef
    end.
Proof.
  intros Hwf Hq Hr.
  assert (Hcmp : ¬ (IntAtomicCompare (refs d) 0 > 0)%Z).
  { rewrite IntAtomicCompare_gt. lia. }
  pose proof (new_StringBuf_clone_eq sz h q d 0 Hwf Hq) as Hclone.
  assert (Hnc : ∀ p h1, operator_new sz h = Ok (p, h1) → nCopies h1 = nCopies h).
  { intros p h1 Hnew. by destruct (operator_new_Ok _ _ _ _ Hwf Hnew) as (_ & _ & _ & ? & _). }
  destruct h as [a o nc na], d as [b l u r g]. simpl in *.
  destruct v; simpl;
    unfold COW_Unsafe.copy_ctor, COW_AtomicInt.copy_ctor,
      COW_CritSec.copy_ctor, COW_Mutex.copy_ctor, Lock.ctor, Lock.Unlock;
    heap_simpl;
    rewrite ?(decide_False (P := (r > 0)%Z)) by lia;
    rewrite ?(decide_False (P := (IntAtomicCompare r 0 > 0)%Z)) by done;
    heap_simpl;
    rewrite ?Nat.add_sub, ?insert_insert_eq, ?(insert_id o q _ Hq);
    rewrite Hclone;
    (destruct (operator_new sz _) as [[p [a1 o1 nc1 na1]]| |] eqn:Hnew; [|done..]);
    specialize (Hnc _ _ eq_refl); simpl in Hnc; subst nc1; by heap_simpl.
Qed.

End String_facts.


(** ** [Append], [operator[]] and copies, in COW_AtomicInt2 *)

Section AtomicInt2_String_facts.

Import COW_AtomicInt2.

Lemma cloned_len (x : glom) (n : nat) :
  glom_wf x → n ≤ LEN (cloned x n) ∧ LEN x ≤ LEN (cloned x n)
              ∧ length (BUF (cloned x n)) = LEN (cloned x n)
              ∧ USED (cloned x n) = USED x.
Proof.
  intros Hwf. destruct (cloned_wf x n Hwf) as [Hu Hl].
  pose proof (round4_ge (needed_for (LEN x) n)).
  pose proof (needed_for_ge (LEN x) n).
  unfold cloned, LEN, USED in *. simpl in *. lia.
Qed.

Lemma cloned_take (x : glom) (n : nat) :
  glom_wf x → take (USED x) (BUF (cloned x n)) = take (USED x) (BUF x).
Proof.
  intros [Hu Hl]. unfold cloned. simpl.
  rewrite take_app_le; [by rewrite take_take, Nat.min_id|].
  rewrite length_take. lia.
Qed.

Lemma copy_ctor_clones2 (h : heap) (q : positive) (x : glom) :
  mem h !! q = Some x → (REFS x ≤ 0)%Z → glom_wf x →
  copy_ctor (mkString q) h
  = Ok (mkString (fresh (dom (mem h))),
        set_nCopies
          (set_mem (set_nAllocs h (nAllocs h + 1))
                   (<[fresh (dom (mem h)) := cloned x 0]> (mem h)))
          (nCopies h + 1)).
Proof.
  intros Hq Hr Hwf.
  assert (Hcmp : ¬ (IntAtomicCompare (REFS x) 0 > 0)%Z).
  { rewrite IntAtomicCompare_gt. lia. }
  pose proof (Clone_run h q x 0 Hq Hwf) as HC.
  destruct h as [m nc na]. simpl in *.
  unfold copy_ctor. cbn [data_]. unfold bind at 1, load. simpl. rewrite Hq.
  rewrite decide_False by done.
  unfold bind at 1, bind at 1. rewrite HC. by glom_simpl.
Qed.

Lemma index_unshared2 (h : heap) (q : positive) (x : glom) (n : nat) :
  mem h !! q = Some x → (REFS x ≤ 1)%Z → glom_wf x →
  index (mkString q) n h
  = Ok ((mkString q, mkRef q n), set_mem h (<[q := set_REFS x (-1)]> (mem h))).
Proof.
  intros Hq Hr Hwf.
  unfold index, EnsureUnshareable. cbn [data_]. unfold bind at 1, load. rewrite Hq.
  unfold bind at 1, bind at 1.
  rewrite (EnsureUnique_unshared2 h q x _ Hq Hr Hwf).
  rewrite decide_False by lia.
  destruct h as [m nc na], x as [[l u r] b]. glom_simpl.
  by rewrite insert_insert_eq.
Qed.

Lemma index_shared2 (h : heap) (q : positive) (x : glom) (n : nat) :
  mem h !! q = Some x → (REFS x > 1)%Z → glom_wf x →
  index (mkString q) n h
  = Ok ((mkString (fresh (dom (mem h))), mkRef (fresh (dom (mem h))) n),
        set_mem (set_nAllocs h (nAllocs h + 1))
          (<[fresh (dom (mem h)) := set_REFS (cloned x (LEN x)) (-1)]>
             (<[q := set_REFS x (REFS x - 1)]>
                (<[fresh (dom (mem h)) := cloned x (LEN x)]> (mem h))))).
Proof.
  intros Hq Hr Hwf.
  pose proof (fresh_not_live h) as Hf.
  assert (Hne : fresh (dom (mem h)) ≠ q) by congruence.
  unfold index, EnsureUnshareable. cbn [data_]. unfold bind at 1, load. rewrite Hq.
  unfold bind at 1, bind at 1.
  rewrite (EnsureUnique_shared2 h q x _ Hq Hr Hwf).
  destruct h as [m nc na]. simpl in *. glom_simpl. done.
Qed.

Lemma Append_shared2 (h : heap) (q : positive) (x : glom) (c : ascii) :
  mem h !! q = Some x → (REFS x > 1)%Z → glom_wf x →
  Append (mkString q) c h
  = Ok (mkString (fresh (dom (mem h))),
        set_mem (set_nAllocs h (nAllocs h + 1))
          (<[fresh (dom (mem h)) := appended (cloned x (USED x + 1)) c]>
             (<[q := set_REFS x (REFS x - 1)]>
                (<[fresh (dom (mem h)) := cloned x (USED x + 1)]> (mem h))))).
Proof.
  intros Hq Hr Hwf.
  pose proof (fresh_not_live h) as Hf.
  assert (Hne : fresh (dom (mem h)) ≠ q) by congruence.
  destruct (cloned_len x (USED x + 1) Hwf) as (Hn & Hl & Hb & Hu).
  unfold Append. cbn [data_]. unfold bind at 1, load. rewrite Hq.
  unfold bind at 1.
  rewrite (EnsureUnique_shared2 h q x _ Hq Hr Hwf).
  destruct h as [m nc na]. simpl in Hq, Hf, Hne.
  unfold bind at 1, load. cbn [data_ mem set_mem set_nAllocs].
  rewrite lookup_insert_ne, lookup_insert_eq by done.
  rewrite decide_True by lia.
  unfold bind, store, ret. cbn [data_ mem set_mem set_nAllocs].
  rewrite lookup_insert_ne, lookup_insert_eq by done. done.
Qed.

Lemma Append_unshared2 (h : heap) (q : positive) (x : glom) (c : ascii) :
  mem h !! q = Some x → (REFS x ≤ 1)%Z → glom_wf x →
  Append (mkString q) c h
  = if decide (LEN x < USED x + 1)
    then Ok (mkString (fresh (dom (mem h))),
             set_mem (set_nAllocs h (nAllocs h + 1))
               (<[fresh (dom (mem h))
                  := appended (set_REFS (cloned x (USED x + 1)) 1) c]>
                  (delete q (mem h))))
    else Ok (mkString q,
             set_mem h (<[q := appended (set_REFS x 1) c]> (mem h))).
Proof.
  intros Hq Hr Hwf.
  pose proof (fresh_not_live h) as Hf.
  assert (Hne : fresh (dom (mem h)) ≠ q) by congruence.
  destruct (cloned_len x (USED x + 1) Hwf) as (Hn & Hl & Hb & Hu).
  pose proof Hwf as [Hux Hlx].
  unfold Append. cbn [data_]. unfold bind at 1, load. rewrite Hq.
  unfold bind at 1.
  rewrite (EnsureUnique_unshared2 h q x _ Hq Hr Hwf).
  destruct h as [m nc na]. simpl in Hq, Hf, Hne.
  destruct (decide (LEN x < USED x + 1)) as [Hg|Hg].
  - unfold bind at 1, load. cbn [data_ mem set_mem set_nAllocs].
    rewrite lookup_insert_eq.
    rewrite decide_True by lia.
    unfold bind, store, ret. cbn [data_ mem set_mem set_nAllocs].
    rewrite lookup_insert_eq. rewrite insert_insert_eq.
    unfold appended, set_REFS, set_USED, set_BUF, USED, LEN, REFS in *.
    simpl. done.
  - unfold bind at 1, load. cbn [data_ mem set_mem set_nAllocs].
    rewrite lookup_insert_eq.
    rewrite decide_True by (unfold set_REFS, USED, LEN in *; simpl; lia).
    unfold bind, store, ret. cbn [data_ mem set_mem set_nAllocs].
    rewrite lookup_insert_eq. rewrite insert_insert_eq. done.
Qed.

End AtomicInt2_String_facts.


(** ** Buffers made unshareable *)

Section unshareable_facts.

Import COW COW_props.

Lemma heap_unshareable_wf : heap_wf 16 heap_unshareable.
Proof.
  split_and!; [split; [reflexivity | simpl; lia] | simpl; lia |].
  intros p d Hpd. simpl in Hpd. apply lookup_singleton_Some in Hpd as [<- <-].
  split; [split; simpl; [lia | reflexivity] |].
  exists 0. split_and!; [unfold FastArena.size; lia | reflexivity |].
  exists 1%Z. split; [reflexivity | lia].
Qed.

(** C3 as the specification has it fails: after [s[0]] an [Append] that
    finds room in the buffer puts [refs] back to 1, and the next copy
    shares the buffer. *)
Lemma unshareable_does_not_persist : ¬ unshareable_persists_as_specified.
Proof.
  intros Hspec.
  apply (Hspec 16 Unsafe heap_X
           (heap_after (index (String_of 16 Unsafe) (mkString 4100) 0 heap_X) heap_X)
           (heap_after
              ((let! p := index (String_of 16 Unsafe) (mkString 4100) 0 in
                Append (String_of 16 Unsafe) p.1 "Y") heap_X) heap_X)
           (heap_after
              ((let! p := index (String_of 16 Unsafe) (mkString 4100) 0 in
                let! s := Append (String_of 16 Unsafe) p.1 "Y" in
                copy_ctor (String_of 16 Unsafe) s) heap_X) heap_X)
           (mkString 4100) (mkString 4100) (mkString 4100) (mkString 4100)
           0 (mkRef 4100 0) "Y"%char heap_X_wf);
    vm_compute; reflexivity.
Qed.

(** The common part of C3, for the namespaces of common-test.h. *)
Lemma unshareable_common (sz : nat) (v : variant) (h : heap) (s : String)
      (d : StringBuf) :
  heap_wf sz h → objs h !! data_ s = Some d →
  (∀ n s1 r h1,
     index (String_of sz v) s n h = Ok ((s1, r), h1) →
     ∃ d1, objs h1 !! data_ s1 = Some d1 ∧ refs d1 = (-1)%Z) ∧
  (refs d = (-1)%Z →
   (∀ s2 h2,
      copy_ctor (String_of sz v) s h = Ok (s2, h2) →
      data_ s2 ≠ data_ s ∧ objs h !! data_ s2 = None
      ∧ objs h2 = <[data_ s2 := cloned d 0]> (objs h)) ∧
   (¬ FastArena.exhausted (fa h) →
    ∃ s2 h2, copy_ctor (String_of sz v) s h = Ok (s2, h2)) ∧
   Length s h = Ok (used d, h) ∧
   (∀ n, ∃ h1,
      index (String_of sz v) s n h = Ok ((s, mkRef (data_ s) n), h1)
      ∧ objs h1 = objs h) ∧
   (∀ c, ∃ h1 d1,
      Append (String_of sz v) s c h = Ok (s, h1)
      ∧ objs h1 !! data_ s = Some d1 ∧ refs d1 = 1%Z)).
Proof.
  intros Hwf Hq. destruct s as [q]. cbn [data_] in *.
  pose proof (heap_wf_buf sz h q d Hwf Hq) as Hbw.
  split.
  - intros n s1 r h1 Hrun.
    destruct (decide (refs d ≤ 1)%Z) as [Hr|Hr].
    + rewrite (index_unshared sz v h q d n Hq Hr Hbw) in Hrun.
      injection Hrun as <- <- <-. eexists. simpl.
      by rewrite lookup_insert_eq.
    + assert (Hr' : (refs d > 1)%Z) by lia.
      rewrite (index_shared sz v h q d n Hwf Hq Hr') in Hrun.
      destruct (operator_new sz h) as [[p h0]| |]; [|done..].
      injection Hrun as <- <- <-. eexists. simpl.
      by rewrite lookup_insert_eq.
  - intros Hr. split_and!.
    + intros s2 h2 Hrun.
      rewrite (copy_ctor_clones sz v h q d Hwf Hq) in Hrun by lia.
      destruct (operator_new sz h) as [[p h0]| |] eqn:Hnew; [|done..].
      destruct (operator_new_Ok _ _ _ _ Hwf Hnew) as (Hp & _).
      injection Hrun as <- <-. simpl. split_and!; [congruence | done..].
    + intros Hne.
      destruct (operator_new_succeeds sz h Hwf Hne) as (p & h0 & Hnew).
      rewrite (copy_ctor_clones sz v h q d Hwf Hq) by lia.
      rewrite Hnew. eauto.
    + unfold Length, bind, load, ret. simpl. by rewrite Hq.
    + intros n. eexists. rewrite (index_unshared sz v h q d n Hq) by (done || lia).
      split; [done|]. simpl. apply insert_id. rewrite Hq, <- Hr. by destruct d.
    + intros c. eexists _, _.
      rewrite (Append_unshared sz v h q d c Hq) by (done || lia).
      split; [done|]. simpl. by rewrite lookup_insert_eq.
Qed.

(** The common part of C3, for COW_AtomicInt2. *)
Lemma unshareable_AtomicInt2 (h : COW_AtomicInt2.heap)
      (s : COW_AtomicInt2.String) (x : COW_AtomicInt2.glom) :
  COW_AtomicInt2.mem h !! COW_AtomicInt2.data_ s = Some x →
  COW_AtomicInt2.glom_wf x →
  (∀ n s1 r h1,
     COW_AtomicInt2.index s n h = Ok ((s1, r), h1) →
     ∃ x1, COW_AtomicInt2.mem h1 !! COW_AtomicInt2.data_ s1 = Some x1
           ∧ COW_AtomicInt2.REFS x1 = (-1)%Z) ∧
  (COW_AtomicInt2.REFS x = (-1)%Z →
   (∃ s2 h2,
      COW_AtomicInt2.copy_ctor s h = Ok (s2, h2)
      ∧ COW_AtomicInt2.data_ s2 ≠ COW_AtomicInt2.data_ s
      ∧ COW_AtomicInt2.mem h !! COW_AtomicInt2.data_ s2 = None
      ∧ COW_AtomicInt2.mem h2
        = <[COW_AtomicInt2.data_ s2 := COW_AtomicInt2.cloned x 0]>
            (COW_AtomicInt2.mem h)) ∧
   COW_AtomicInt2.Length s h = Ok (COW_AtomicInt2.USED x, h) ∧
   (∀ n, ∃ h1,
      COW_AtomicInt2.index s n h
      = Ok ((s, COW_AtomicInt2.mkRef (COW_AtomicInt2.data_ s) n), h1)
      ∧ COW_AtomicInt2.mem h1 = COW_AtomicInt2.mem h) ∧
   (∀ c, ∃ s1 h1 x1,
      COW_AtomicInt2.Append s c h = Ok (s1, h1)
      ∧ COW_AtomicInt2.mem h1 !! COW_AtomicInt2.data_ s1 = Some x1
      ∧ COW_AtomicInt2.REFS x1 = 1%Z)).
Proof.
  intros Hq Hwf. destruct s as [q]. cbn [COW_AtomicInt2.data_] in *.
  pose proof (fresh_not_live h) as Hf.
  split.
  - intros n s1 r h1 Hrun.
    destruct (decide (COW_AtomicInt2.REFS x ≤ 1)%Z) as [Hr|Hr].
    + rewrite (index_unshared2 h q x n Hq Hr Hwf) in Hrun.
      injection Hrun as <- <- <-. eexists. simpl.
      by rewrite lookup_insert_eq.
    + assert (Hr' : (COW_AtomicInt2.REFS x > 1)%Z) by lia.
      rewrite (index_shared2 h q x n Hq Hr' Hwf) in Hrun.
      injection Hrun as <- <- <-. eexists. simpl.
      by rewrite lookup_insert_eq.
  - intros Hr. split_and!.
    + eexists _, _. rewrite (copy_ctor_clones2 h q x Hq) by (done || lia).
      split; [done|]. simpl. split_and!; [congruence | done..].
    + unfold COW_AtomicInt2.Length, bind, COW_AtomicInt2.load, ret. simpl.
      by rewrite Hq.
    + intros n. eexists. rewrite (index_unshared2 h q x n Hq) by (done || lia).
      split; [done|]. simpl. apply insert_id. rewrite Hq, <- Hr.
      by destruct x as [[]].
    + intros c. rewrite (Append_unshared2 h q x c Hq) by (done || lia).
      case_decide; eexists _, _, _; (split; [done|]); simpl;
        by rewrite lookup_insert_eq.
Qed.

(** C3, amended. In each of the five COW namespaces an indexed access
    leaves [refs] of the buffer of the string at -1. While [refs] is -1,
    every copy construction from the string builds a [StringBuf] in a block
    of its own and leaves the buffer of the string as it is; [Length] and
    further indexed accesses leave the buffer as it is; an [Append] puts
    [refs] back to 1, after which the buffer is shared by the next copy. *)
Theorem unshareable_until_Append :
  (∀ (sz : nat) (v : variant) (h : heap) (s : String) (d : StringBuf),
     heap_wf sz h → objs h !! data_ s = Some d →
     (∀ n s1 r h1,
        index (String_of sz v) s n h = Ok ((s1, r), h1) →
        ∃ d1, objs h1 !! data_ s1 = Some d1 ∧ refs d1 = (-1)%Z) ∧
     (refs d = (-1)%Z →
      (∀ s2 h2,
         copy_ctor (String_of sz v) s h = Ok (s2, h2) →
         data_ s2 ≠ data_ s ∧ objs h !! data_ s2 = None
         ∧ objs h2 = <[data_ s2 := cloned d 0]> (objs h)) ∧
      (¬ FastArena.exhausted (fa h) →
       ∃ s2 h2, copy_ctor (String_of sz v) s h = Ok (s2, h2)) ∧
      Length s h = Ok (used d, h) ∧
      (∀ n, ∃ h1,
         index (String_of sz v) s n h = Ok ((s, mkRef (data_ s) n), h1)
         ∧ objs h1 = objs h) ∧
      (∀ c, ∃ h1 d1,
         Append (String_of sz v) s c h = Ok (s, h1)
         ∧ objs h1 !! data_ s = Some d1 ∧ refs d1 = 1%Z)))
  ∧
  (∀ (h : COW_AtomicInt2.heap) (s : COW_AtomicInt2.String)
     (x : COW_AtomicInt2.glom),
     COW_AtomicInt2.mem h !! COW_AtomicInt2.data_ s = Some x →
     COW_AtomicInt2.glom_wf x →
     (∀ n s1 r h1,
        COW_AtomicInt2.index s n h = Ok ((s1, r), h1) →
        ∃ x1, COW_AtomicInt2.mem h1 !! COW_AtomicInt2.data_ s1 = Some x1
              ∧ COW_AtomicInt2.REFS x1 = (-1)%Z) ∧
     (COW_AtomicInt2.REFS x = (-1)%Z →
      (∃ s2 h2,
         COW_AtomicInt2.copy_ctor s h = Ok (s2, h2)
         ∧ COW_AtomicInt2.data_ s2 ≠ COW_AtomicInt2.data_ s
         ∧ COW_AtomicInt2.mem h !! COW_AtomicInt2.data_ s2 = None
         ∧ COW_AtomicInt2.mem h2
           = <[COW_AtomicInt2.data_ s2 := COW_AtomicInt2.cloned x 0]>
               (COW_AtomicInt2.mem h)) ∧
      COW_AtomicInt2.Length s h = Ok (COW_AtomicInt2.USED x, h) ∧
      (∀ n, ∃ h1,
         COW_AtomicInt2.index s n h
         = Ok ((s, COW_AtomicInt2.mkRef (COW_AtomicInt2.data_ s) n), h1)
         ∧ COW_AtomicInt2.mem h1 = COW_AtomicInt2.mem h) ∧
      (∀ c, ∃ s1 h1 x1,
         COW_AtomicInt2.Append s c h = Ok (s1, h1)
         ∧ COW_AtomicInt2.mem h1 !! COW_AtomicInt2.data_ s1 = Some x1
         ∧ COW_AtomicInt2.REFS x1 = 1%Z))).
Proof.
  split.
  - intros sz v h s d. apply unshareable_common.
  - intros h s x. apply unshareable_AtomicInt2.
Qed.

End unshareable_facts.


(** ** Copy-on-write isolation *)

Section isolation_facts.

Import COW COW_props.

Lemma contents_insert_ne (h : heap) (o : gmap Z StringBuf) (s : String)
      (p : Z) (d : StringBuf) :
  p ≠ data_ s →
  contents (set_objs h (<[p := d]> o)) s = contents (set_objs h o) s.
Proof. intros Hne. unfold contents. simpl. by rewrite lookup_insert_ne. Qed.

Lemma contents_refs (h h' : heap) (s : String) (d : StringBuf) (r : Z) :
  objs h !! data_ s = Some d → objs h' !! data_ s = Some (set_refs d r) →
  contents h' s = contents h s.
Proof. intros Hq Hq'. unfold contents. by rewrite Hq, Hq'. Qed.

Lemma write_Ok (r : charref) (c : ascii) (h h' : heap) :
  write r c h = Ok (tt, h') →
  ∃ d a, objs h !! obj r = Some d ∧ buf d = Some a
         ∧ h' = set_objs h (<[obj r := set_buf d (Some (<[off r := Char c]> a))]>
                              (objs h)).
Proof.
  unfold write, bind, load, store.
  destruct (objs h !! obj r) as [d|] eqn:Hd; [|done].
  destruct (buf d) as [a|] eqn:Ha; [|done].
  case_decide; [|done]. rewrite Hd. intros [= <-]. eauto.
Qed.

Lemma write_Ok2 (r : COW_AtomicInt2.charref) (c : ascii)
      (h h' : COW_AtomicInt2.heap) :
  COW_AtomicInt2.write r c h = Ok (tt, h') →
  ∃ x, COW_AtomicInt2.mem h !! COW_AtomicInt2.obj r = Some x
       ∧ h' = COW_AtomicInt2.set_mem h
                (<[COW_AtomicInt2.obj r
                   := COW_AtomicInt2.set_BUF x
                        (<[COW_AtomicInt2.off r := Char c]> (COW_AtomicInt2.BUF x))]>
                   (COW_AtomicInt2.mem h)).
Proof.
  unfold COW_AtomicInt2.write, bind, COW_AtomicInt2.load, COW_AtomicInt2.store.
  destruct (COW_AtomicInt2.mem h !! COW_AtomicInt2.obj r) as [x|] eqn:Hx; [|done].
  case_decide; [|done]. rewrite Hx. intros [= <-]. eauto.
Qed.

(** Isolation in the namespaces of common-test.h. *)
Lemma isolation_common (sz : nat) (v : variant) (h : heap) (s1 s2 : String)
      (d : StringBuf) :
  heap_wf sz h → data_ s1 = data_ s2 → objs h !! data_ s2 = Some d →
  (refs d > 1)%Z →
  (∀ c s2' h',
     Append (String_of sz v) s2 c h = Ok (s2', h') →
     data_ s2' ≠ data_ s1 ∧ contents h' s1 = contents h s1) ∧
  (∀ n s2' r h',
     index (String_of sz v) s2 n h = Ok ((s2', r), h') →
     data_ s2' ≠ data_ s1 ∧ obj r = data_ s2' ∧ contents h' s1 = contents h s1
     ∧ ∀ c h'', write r c h' = Ok (tt, h'') → contents h'' s1 = contents h s1) ∧
  (¬ FastArena.exhausted (fa h) →
   (∀ c, ∃ s2' h', Append (String_of sz v) s2 c h = Ok (s2', h')) ∧
   (∀ n, ∃ s2' r h', index (String_of sz v) s2 n h = Ok ((s2', r), h'))).
Proof.
  intros Hwf Hs Hq Hr. destruct s1 as [q], s2 as [q2]. cbn [data_] in *. subst q2.
  split_and!.
  - intros c s2' h' Hrun.
    rewrite (Append_shared sz v h q d c Hwf Hq Hr) in Hrun.
    destruct (operator_new sz h) as [[p h0]| |] eqn:Hnew; [|done..].
    destruct (operator_new_Ok _ _ _ _ Hwf Hnew) as (Hp & _).
    assert (Hpq : p ≠ q) by congruence.
    injection Hrun as <- <-. split; [done|].
    apply (contents_refs h _ (mkString q) d (refs d - 1)); [done|].
    simpl. by rewrite lookup_insert_ne, lookup_insert_eq.
  - intros n s2' r h' Hrun.
    rewrite (index_shared sz v h q d n Hwf Hq Hr) in Hrun.
    destruct (operator_new sz h) as [[p h0]| |] eqn:Hnew; [|done..].
    destruct (operator_new_Ok _ _ _ _ Hwf Hnew) as (Hp & _).
    assert (Hpq : p ≠ q) by congruence.
    injection Hrun as <- <- <-. split_and!; [done..| |].
    + apply (contents_refs h _ (mkString q) d (refs d - 1)); [done|].
      simpl. by rewrite lookup_insert_ne, lookup_insert_eq.
    + intros c h'' Hw. apply write_Ok in Hw as (d' & a' & _ & _ & ->).
      apply (contents_refs h _ (mkString q) d (refs d - 1)); [done|].
      simpl. by rewrite !lookup_insert_ne, lookup_insert_eq by done.
  - intros Hne.
    destruct (operator_new_succeeds sz h Hwf Hne) as (p & h0 & Hnew).
    split.
    + intros c. rewrite (Append_shared sz v h q d c Hwf Hq Hr), Hnew. eauto.
    + intros n. rewrite (index_shared sz v h q d n Hwf Hq Hr), Hnew. eauto.
Qed.

(** Isolation in COW_AtomicInt2. *)
Lemma isolation_AtomicInt2 (h : COW_AtomicInt2.heap)
      (s1 s2 : COW_AtomicInt2.String) (x : COW_AtomicInt2.glom) :
  COW_AtomicInt2.data_ s1 = COW_AtomicInt2.data_ s2 →
  COW_AtomicInt2.mem h !! COW_AtomicInt2.data_ s2 = Some x →
  COW_AtomicInt2.glom_wf x → (COW_AtomicInt2.REFS x > 1)%Z →
  (∀ c, ∃ s2' h',
     COW_AtomicInt2.Append s2 c h = Ok (s2', h')
     ∧ COW_AtomicInt2.data_ s2' ≠ COW_AtomicInt2.data_ s1
     ∧ COW_AtomicInt2.contents h' s1 = COW_AtomicInt2.contents h s1) ∧
  (∀ n, ∃ s2' r h',
     COW_AtomicInt2.index s2 n h = Ok ((s2', r), h')
     ∧ COW_AtomicInt2.data_ s2' ≠ COW_AtomicInt2.data_ s1
     ∧ COW_AtomicInt2.obj r = COW_AtomicInt2.data_ s2'
     ∧ COW_AtomicInt2.contents h' s1 = COW_AtomicInt2.contents h s1
     ∧ ∀ c h'', COW_AtomicInt2.write r c h' = Ok (tt, h'') →
                COW_AtomicInt2.contents h'' s1 = COW_AtomicInt2.contents h s1).
Proof.
  intros Hs Hq Hwf Hr. destruct s1 as [q], s2 as [q2].
  cbn [COW_AtomicInt2.data_] in *. subst q2.
  pose proof (fresh_not_live h) as Hf.
  assert (Hne : fresh (dom (COW_AtomicInt2.mem h)) ≠ q) by congruence.
  split.
  - intros c. eexists _, _.
    rewrite (Append_shared2 h q x c Hq Hr Hwf). split; [done|].
    split; [done|]. unfold COW_AtomicInt2.contents. simpl.
    by rewrite lookup_insert_ne, lookup_insert_eq, Hq.
  - intros n. eexists _, _, _.
    rewrite (index_shared2 h q x n Hq Hr Hwf). split; [done|].
    split_and!; [done..| |].
    + unfold COW_AtomicInt2.contents. simpl.
      by rewrite lookup_insert_ne, lookup_insert_eq, Hq.
    + intros c h'' Hw. apply write_Ok2 in Hw as (x' & _ & ->).
      unfold COW_AtomicInt2.contents. simpl.
      by rewrite !lookup_insert_ne, lookup_insert_eq, Hq by done.
Qed.

(** C4. In each of the five COW namespaces, when [s1] and [s2] hold the
    same buffer, with a [refs] that counts both, an [Append] to [s2], an
    indexed access to [s2], and a store through the reference that access
    returned each leave [s1] with the [Length] and the characters below it
    that it had: [s2] has moved to a buffer of its own. *)
Theorem copy_on_write_isolation :
  (∀ (sz : nat) (v : variant) (h : heap) (s1 s2 : String) (d : StringBuf),
     heap_wf sz h → data_ s1 = data_ s2 → objs h !! data_ s2 = Some d →
     (refs d > 1)%Z →
     (∀ c s2' h',
        Append (String_of sz v) s2 c h = Ok (s2', h') →
        data_ s2' ≠ data_ s1 ∧ contents h' s1 = contents h s1) ∧
     (∀ n s2' r h',
        index (String_of sz v) s2 n h = Ok ((s2', r), h') →
        data_ s2' ≠ data_ s1 ∧ obj r = data_ s2'
        ∧ contents h' s1 = contents h s1
        ∧ ∀ c h'', write r c h' = Ok (tt, h'') →
                   contents h'' s1 = contents h s1) ∧
     (¬ FastArena.exhausted (fa h) →
      (∀ c, ∃ s2' h', Append (String_of sz v) s2 c h = Ok (s2', h')) ∧
      (∀ n, ∃ s2' r h', index (String_of sz v) s2 n h = Ok ((s2', r), h'))))
  ∧
  (∀ (h : COW_AtomicInt2.heap) (s1 s2 : COW_AtomicInt2.String)
     (x : COW_AtomicInt2.glom),
     COW_AtomicInt2.data_ s1 = COW_AtomicInt2.data_ s2 →
     COW_AtomicInt2.mem h !! COW_AtomicInt2.data_ s2 = Some x →
     COW_AtomicInt2.glom_wf x → (COW_AtomicInt2.REFS x > 1)%Z →
     (∀ c, ∃ s2' h',
        COW_AtomicInt2.Append s2 c h = Ok (s2', h')
        ∧ COW_AtomicInt2.data_ s2' ≠ COW_AtomicInt2.data_ s1
        ∧ COW_AtomicInt2.contents h' s1 = COW_AtomicInt2.contents h s1) ∧
     (∀ n, ∃ s2' r h',
        COW_AtomicInt2.index s2 n h = Ok ((s2', r), h')
        ∧ COW_AtomicInt2.data_ s2' ≠ COW_AtomicInt2.data_ s1
        ∧ COW_AtomicInt2.obj r = COW_AtomicInt2.data_ s2'
        ∧ COW_AtomicInt2.contents h' s1 = COW_AtomicInt2.contents h s1
        ∧ ∀ c h'', COW_AtomicInt2.write r c h' = Ok (tt, h'') →
                   COW_AtomicInt2.contents h'' s1
                   = COW_AtomicInt2.contents h s1)).
Proof.
  split.
  - intros sz v h s1 s2 d. apply isolation_common.
  - intros h s1 s2 x. apply isolation_AtomicInt2.
Qed.

End isolation_facts.


(** ** Round trips: appending characters and reading them back *)

Section round_trip_facts.

Import round_trip.

Lemma take_snoc_insert (a : list cell) (n : nat) (x : cell) :
  n < length a → take (n + 1) (<[n := x]> a) = take n a ++ [x].
Proof.
  intros Hn. rewrite Nat.add_1_r.
  rewrite (take_S_r _ _ x) by (by apply list_lookup_insert_eq).
  by rewrite take_insert_ge by lia.
Qed.

Lemma lookup_of_take (a : list cell) (cs : list ascii) (n i : nat) :
  take n a = Char <$> cs → n = length cs → i < n →
  ∃ c, cs !! i = Some c ∧ a !! i = Some (Char c).
Proof.
  intros Ht Hn Hi. destruct (lookup_lt_is_Some_2 cs i) as [c Hc]; [lia|].
  exists c. split; [done|].
  rewrite <- (lookup_take_lt a n i) by done.
  by rewrite Ht, list_lookup_fmap, Hc.
Qed.

(** *** The namespaces of common-test.h *)

Lemma COW_holds_ctor (sz : nat) (h h0 : COW.heap) (s0 : COW.String) :
  COW.String_ctor sz h = Ok (s0, h0) → COW_holds h0 (COW.data_ s0) [].
Proof.
  unfold COW.String_ctor, COW.new_StringBuf. intros Hrun.
  apply bind_Ok in Hrun as (p & h1 & Hrun & Hret). injection Hret as <- <-.
  apply bind_Ok in Hrun as (p' & h2 & Hnew & Hrun).
  apply bind_Ok in Hrun as ([] & h3 & Hc & Hret). injection Hret as <- <-.
  unfold COW.construct, modify in Hc. injection Hc as <-.
  eexists. simpl. rewrite lookup_insert_eq.
  split_and!; [done | simpl; lia | split; simpl; [lia|done] | done..].
Qed.

Lemma COW_holds_Append (sz : nat) (v : variant) (h : COW.heap) (q : Z)
      (cs : list ascii) (c : ascii) :
  COW_holds h q cs →
  ∃ h', COW.Append (String_of sz v) (COW.mkString q) c h = Ok (COW.mkString q, h')
        ∧ COW_holds h' q (cs ++ [c]).
Proof.
  intros (d & Hq & Hr & Hwf & Hu & Ht).
  eexists. split; [by apply Append_unshared|].
  pose proof (reserved_wf d (COW.used d + 1) Hwf) as [Hu' Hb'].
  pose proof (reserved_len d (COW.used d + 1)) as Hl'.
  pose proof (reserved_used d (COW.used d + 1)) as Hused.
  pose proof (reserved_take d (COW.used d + 1) Hwf) as Htake.
  destruct (COW.buf (COW_props.reserved d (COW.used d + 1))) as [arr|] eqn:Harr;
    [|simpl in *; lia].
  simpl in Htake, Hb'.
  eexists. simpl. rewrite lookup_insert_eq. split; [done|].
  unfold COW_props.appended. simpl. rewrite Harr, Hused. simpl.
  split_and!.
  - lia.
  - split; simpl; [lia|]. by rewrite length_insert.
  - rewrite length_app. simpl. lia.
  - rewrite take_snoc_insert by lia.
    by rewrite Htake, Ht, fmap_app.
Qed.

Lemma COW_holds_appends (sz : nat) (v : variant) (cs cs0 : list ascii)
      (h : COW.heap) (q : Z) :
  COW_holds h q cs0 →
  ∃ h', COW_appends (String_of sz v) (COW.mkString q) cs h
        = Ok (COW.mkString q, h')
        ∧ COW_holds h' q (cs0 ++ cs).
Proof.
  revert cs0 h. induction cs as [|c cs IH]; intros cs0 h Hh; simpl.
  - exists h. by rewrite app_nil_r.
  - destruct (COW_holds_Append sz v h q cs0 c Hh) as (h1 & HA & Hh1).
    destruct (IH _ _ Hh1) as (h2 & HB & Hh2).
    exists h2. unfold bind. rewrite HA, HB. by rewrite <- app_assoc in Hh2.
Qed.

Lemma COW_holds_reads (sz : nat) (v : variant) (cs : list ascii) (k i : nat)
      (h : COW.heap) (q : Z) :
  COW_holds h q cs → i + k ≤ length cs →
  ∃ h', COW_reads (String_of sz v) (COW.mkString q) i k h
        = Ok (Char <$> take k (drop i cs), h').
Proof.
  revert i h. induction k as [|k IH]; intros i h Hh Hik; simpl.
  - by exists h.
  - destruct Hh as (d & Hq & Hr & Hwf & Hu & Ht).
    destruct (lookup_of_take (default [] (COW.buf d)) cs (COW.used d) i Ht Hu)
      as (c & Hc & Hac); [lia|].
    set (h1 := COW.set_objs h (<[q := COW.set_refs d (-1)]> (COW.objs h))).
    assert (Hh1 : COW_holds h1 q cs).
    { exists (COW.set_refs d (-1)). simpl. rewrite lookup_insert_eq.
      split_and!; [done | simpl; lia | done..]. }
    destruct (IH (S i) h1 Hh1) as (h2 & HR); [lia|].
    exists h2. unfold bind at 1.
    rewrite (index_unshared sz v h q d i Hq Hr Hwf). fold h1. simpl.
    unfold bind at 1, COW.read, bind at 1, COW.load. simpl.
    rewrite lookup_insert_eq. simpl.
    destruct (COW.buf d) as [a|]; [|done]. simpl in Hac. rewrite Hac.
    unfold ret at 1. unfold bind. rewrite HR. unfold ret.
    by rewrite (drop_S _ _ _ Hc).
Qed.

Lemma COW_round_trip (sz : nat) (v : variant) (h h0 : COW.heap)
      (s0 : COW.String) (cs : list ascii) :
  COW.String_ctor sz h = Ok (s0, h0) →
  ∃ h1 h2,
    COW_appends (String_of sz v) s0 cs h0 = Ok (s0, h1)
    ∧ COW.Length s0 h1 = Ok (length cs, h1)
    ∧ COW_reads (String_of sz v) s0 0 (length cs) h1 = Ok (Char <$> cs, h2).
Proof.
  intros Hctor. apply COW_holds_ctor in Hctor. destruct s0 as [q].
  destruct (COW_holds_appends sz v cs [] _ q Hctor) as (h1 & HA & Hh1).
  simpl in Hh1.
  destruct (COW_holds_reads sz v cs (length cs) 0 h1 q Hh1) as (h2 & HR); [lia|].
  exists h1, h2. split_and!; [done| |].
  - destruct Hh1 as (d & Hq & _ & _ & Hu & _).
    unfold COW.Length, bind, COW.load, ret. simpl. by rewrite Hq, Hu.
  - by rewrite HR, drop_0, firstn_all.
Qed.

(** *** COW_AtomicInt2 *)

Lemma AtomicInt2_holds_ctor (h : COW_AtomicInt2.heap) :
  ∃ s0 h0, COW_AtomicInt2.String_ctor h = Ok (s0, h0)
           ∧ AtomicInt2_holds h0 (COW_AtomicInt2.data_ s0) [].
Proof.
  eexists _, _. split; [reflexivity|].
  eexists. simpl. rewrite lookup_insert_eq.
  split_and!; [done | vm_compute; discriminate | split; vm_compute; done | done..].
Qed.

Lemma AtomicInt2_holds_Append (h : COW_AtomicInt2.heap) (q : positive)
      (cs : list ascii) (c : ascii) :
  AtomicInt2_holds h q cs →
  ∃ q' h', COW_AtomicInt2.Append (COW_AtomicInt2.mkString q) c h
           = Ok (COW_AtomicInt2.mkString q', h')
           ∧ AtomicInt2_holds h' q' (cs ++ [c]).
Proof.
  intros (x & Hq & Hr & Hwf & Hu & Ht).
  rewrite (Append_unshared2 h q x c Hq Hr Hwf).
  destruct (cloned_len x (COW_AtomicInt2.USED x + 1) Hwf) as (Hn & Hl & Hb & Hcu).
  pose proof (cloned_take x (COW_AtomicInt2.USED x + 1) Hwf) as Hct.
  destruct Hwf as [Hux Hlx]. clear Hq.
  destruct x as [[l u r] b].
  unfold AtomicInt2_holds, COW_AtomicInt2.appended, COW_AtomicInt2.glom_wf,
    COW_AtomicInt2.cloned, COW_AtomicInt2.set_USED, COW_AtomicInt2.set_BUF,
    COW_AtomicInt2.set_REFS, COW_AtomicInt2.REFS, COW_AtomicInt2.USED,
    COW_AtomicInt2.LEN in *.
  cbn [COW_AtomicInt2.head COW_AtomicInt2.BUF COW_AtomicInt2.len
       COW_AtomicInt2.used COW_AtomicInt2.refs] in *.
  case_decide as Hg; eexists _, _; (split; [done|]); eexists;
    cbn [COW_AtomicInt2.mem COW_AtomicInt2.set_mem COW_AtomicInt2.set_nAllocs];
    rewrite lookup_insert_eq; (split; [done|]);
    cbn [COW_AtomicInt2.head COW_AtomicInt2.BUF COW_AtomicInt2.len
         COW_AtomicInt2.used COW_AtomicInt2.refs];
    rewrite length_insert;
    rewrite ?length_app, ?length_take, ?length_replicate in *; cbn [length].
  - split_and!; [lia | lia | lia | lia |].
    rewrite take_snoc_insert
      by (rewrite length_app, length_take, length_replicate; lia).
    by rewrite Hct, Ht, fmap_app.
  - split_and!; [lia | lia | lia | lia |].
    rewrite take_snoc_insert by lia.
    by rewrite Ht, fmap_app.
Qed.

Lemma AtomicInt2_holds_appends (cs cs0 : list ascii)
      (h : COW_AtomicInt2.heap) (q : positive) :
  AtomicInt2_holds h q cs0 →
  ∃ q' h', AtomicInt2_appends (COW_AtomicInt2.mkString q) cs h
           = Ok (COW_AtomicInt2.mkString q', h')
           ∧ AtomicInt2_holds h' q' (cs0 ++ cs).
Proof.
  revert cs0 h q. induction cs as [|c cs IH]; intros cs0 h q Hh; simpl.
  - exists q, h. by rewrite app_nil_r.
  - destruct (AtomicInt2_holds_Append h q cs0 c Hh) as (q1 & h1 & HA & Hh1).
    destruct (IH _ _ _ Hh1) as (q2 & h2 & HB & Hh2).
    exists q2, h2. unfold bind. rewrite HA, HB. by rewrite <- app_assoc in Hh2.
Qed.

Lemma AtomicInt2_holds_reads (cs : list ascii) (k i : nat)
      (h : COW_AtomicInt2.heap) (q : positive) :
  AtomicInt2_holds h q cs → i + k ≤ length cs →
  ∃ h', AtomicInt2_reads (COW_AtomicInt2.mkString q) i k h
        = Ok (Char <$> take k (drop i cs), h').
Proof.
  revert i h. induction k as [|k IH]; intros i h Hh Hik; simpl.
  - by exists h.
  - destruct Hh as (x & Hq & Hr & Hwf & Hu & Ht).
    destruct (lookup_of_take (COW_AtomicInt2.BUF x) cs (COW_AtomicInt2.USED x) i Ht Hu)
      as (c & Hc & Hac); [lia|].
    set (h1 := COW_AtomicInt2.set_mem h
                 (<[q := COW_AtomicInt2.set_REFS x (-1)]> (COW_AtomicInt2.mem h))).
    assert (Hh1 : AtomicInt2_holds h1 q cs).
    { exists (COW_AtomicInt2.set_REFS x (-1)). simpl. rewrite lookup_insert_eq.
      split_and!; [done | unfold COW_AtomicInt2.REFS; simpl; lia | done..]. }
    destruct (IH (S i) h1 Hh1) as (h2 & HR); [lia|].
    exists h2. unfold bind at 1.
    rewrite (index_unshared2 h q x i Hq Hr Hwf). fold h1. simpl.
    unfold bind at 1, COW_AtomicInt2.read, bind at 1, COW_AtomicInt2.load. simpl.
    rewrite lookup_insert_eq. simpl. rewrite Hac. simpl.
    unfold ret at 1. unfold bind. rewrite HR. unfold ret.
    by rewrite (drop_S _ _ _ Hc).
Qed.

Lemma AtomicInt2_round_trip (h : COW_AtomicInt2.heap) (cs : list ascii) :
  ∃ s0 h0 s h1 h2,
    COW_AtomicInt2.String_ctor h = Ok (s0, h0)
    ∧ AtomicInt2_appends s0 cs h0 = Ok (s, h1)
    ∧ COW_AtomicInt2.Length s h1 = Ok (length cs, h1)
    ∧ AtomicInt2_reads s 0 (length cs) h1 = Ok (Char <$> cs, h2).
Proof.
  destruct (AtomicInt2_holds_ctor h) as ([q0] & h0 & Hctor & Hh0).
  destruct (AtomicInt2_holds_appends cs [] h0 q0 Hh0) as (q & h1 & HA & Hh1).
  simpl in Hh1.
  destruct (AtomicInt2_holds_reads cs (length cs) 0 h1 q Hh1) as (h2 & HR); [lia|].
  exists (COW_AtomicInt2.mkString q0), h0, (COW_AtomicInt2.mkString q), h1, h2.
  split_and!; [done..| |].
  - destruct Hh1 as (x & Hq & _ & _ & Hu & _).
    unfold COW_AtomicInt2.Length, bind, COW_AtomicInt2.load, ret. simpl.
    by rewrite Hq, Hu.
  - by rewrite HR, drop_0, firstn_all.
Qed.

(** *** Plain *)

Lemma Plain_holds_Reserve (s : Plain.String) (cs : list ascii) (n : nat)
      (k : Plain.counters) :
  Plain_holds s cs →
  ∃ s' k', Plain.Reserve s n k = Ok (s', k')
           ∧ Plain_holds s' cs ∧ n ≤ Plain.len_ s'.
Proof.
  intros (Hu & Hb & Hl & Ht). unfold Plain.Reserve.
  case_decide as Hn; [|exists s, k; split; [done|]; split; [done | lia]].
  pose proof (round4_ge (needed_for (Plain.len_ s) n)).
  pose proof (needed_for_ge (Plain.len_ s) n).
  rewrite decide_False by (pose proof (round4_pos (needed_for (Plain.len_ s) n)); lia).
  unfold bind, Plain.incr_nAllocs, modify, ret, defined.
  destruct (Plain.buf_ s) as [old|] eqn:Hold; simpl in *.
  - rewrite memcpy_fresh by lia. eexists _, _. split; [done|].
    split; [|simpl; lia]. split_and!; simpl; [lia| |done|].
    + rewrite length_app, length_take, length_replicate. lia.
    + rewrite take_app_le by (rewrite length_take; lia).
      by rewrite take_take, Nat.min_id.
  - eexists _, _. split; [done|].
    split; [|simpl; lia]. split_and!; simpl; [lia| |done|].
    + by rewrite length_replicate.
    + assert (Plain.used_ s = 0) as -> by lia. simpl.
      destruct cs; [done | simpl in *; lia].
Qed.

Lemma Plain_holds_Append (s : Plain.String) (cs : list ascii) (c : ascii)
      (k : Plain.counters) :
  Plain_holds s cs →
  ∃ s' k', Plain.Append s c k = Ok (s', k') ∧ Plain_holds s' (cs ++ [c]).
Proof.
  intros Hh.
  destruct (Plain_holds_Reserve s cs (Plain.used_ s + 1) k Hh)
    as (s1 & k1 & HR & (Hu & Hb & Hl & Ht) & Hn).
  assert (Hsame : Plain.used_ s1 = Plain.used_ s).
  { destruct Hh as (_ & _ & Hl0 & _). lia. }
  unfold Plain.Append, bind at 1. rewrite HR.
  destruct (Plain.buf_ s1) as [a|] eqn:Ha; simpl in *; [|lia].
  rewrite decide_True by lia. eexists _, _. split; [done|].
  split_and!; simpl.
  - lia.
  - by rewrite length_insert.
  - rewrite length_app. simpl. lia.
  - rewrite take_snoc_insert by lia. by rewrite Ht, fmap_app.
Qed.

Lemma Plain_holds_appends (cs cs0 : list ascii) (s : Plain.String)
      (k : Plain.counters) :
  Plain_holds s cs0 →
  ∃ s' k', Plain_appends s cs k = Ok (s', k') ∧ Plain_holds s' (cs0 ++ cs).
Proof.
  revert cs0 s k. induction cs as [|c cs IH]; intros cs0 s k Hh; simpl.
  - exists s, k. by rewrite app_nil_r.
  - destruct (Plain_holds_Append s cs0 c k Hh) as (s1 & k1 & HA & Hh1).
    destruct (IH _ _ k1 Hh1) as (s2 & k2 & HB & Hh2).
    exists s2, k2. unfold bind. rewrite HA, HB. by rewrite <- app_assoc in Hh2.
Qed.

Lemma Plain_holds_reads (s : Plain.String) (cs : list ascii) (k i : nat) :
  Plain_holds s cs → i + k ≤ length cs →
  Plain_reads s i k = (λ c, Some (Char c)) <$> take k (drop i cs).
Proof.
  intros (Hu & Hb & Hl & Ht). revert i.
  induction k as [|k IH]; intros i Hik; simpl; [done|].
  destruct (lookup_of_take (default [] (Plain.buf_ s)) cs (Plain.used_ s) i Ht Hl)
    as (c & Hc & Hac); [lia|].
  rewrite (drop_S _ _ _ Hc). simpl. rewrite IH by lia. f_equal.
  unfold Plain.read, Plain.index. simpl.
  destruct (Plain.buf_ s); [done|]. simpl in Hac. by rewrite lookup_nil in Hac.
Qed.

Lemma Plain_round_trip (k : Plain.counters) (cs : list ascii) :
  ∃ s k', Plain_appends Plain.String_ctor cs k = Ok (s, k')
          ∧ Plain.Length s = length cs
          ∧ Plain_reads s 0 (length cs) = (λ c, Some (Char c)) <$> cs.
Proof.
  assert (H0 : Plain_holds Plain.String_ctor []) by (by split_and!).
  destruct (Plain_holds_appends cs [] _ k H0) as (s & k' & HA & Hh).
  simpl in Hh. exists s, k'. split_and!; [done| |].
  - by destruct Hh as (_ & _ & ? & _).
  - rewrite (Plain_holds_reads s cs) by (done || lia).
    by rewrite drop_0, firstn_all.
Qed.

End round_trip_facts.


(** *** Plain_FastAlloc *)

Section FastAlloc_facts.

Import round_trip.
Import Plain_FastAlloc.

Lemma FastAlloc_Allocate_Ok (n : nat) (h h' : heap) (p : Z) :
  FastArena.wf (fa h) → Allocate n h = Ok (p, h') →
  ∃ i, i < FastArena.size ∧ FastArena.is_free (fa h) i
       ∧ p = FastArena.payload (fa h) i ∧ n ≤ FastArena.n_ (fa h)
       ∧ h' = set_blocks
                (set_fa h (FastArena.set_hdr (fa h)
                             (<[i := 1%Z]> (FastArena.hdr (fa h)))))
                (<[p := replicate (FastArena.n_ (fa h)) Uninit]> (blocks h)).
Proof.
  intros Hwf. unfold Allocate.
  destruct (FastArena.Allocate (fa h) n) as [[p' a']| |] eqn:HA; [|done..].
  intros [= -> <-].
  destruct (Allocate_Ok_inv _ _ _ _ Hwf HA) as (i & Hi & Hfree & -> & -> & Hn).
  exists i. by split_and!.
Qed.

Lemma FastAlloc_Deallocate_payload (h : heap) (i : nat) :
  FastArena.wf (fa h) → i < FastArena.size →
  Deallocate (FastArena.payload (fa h) i) h
  = Ok (tt, set_blocks
              (set_fa h (FastArena.set_hdr (fa h)
                           (alter IntAtomicDecrement i (FastArena.hdr (fa h)))))
              (delete (FastArena.payload (fa h) i) (blocks h))).
Proof.
  intros Hwf Hi. unfold Deallocate. by rewrite Deallocate_payload.
Qed.

Lemma set_hdr_wf (a : FastArena.t) (hs : list Z) :
  FastArena.wf a → length hs = length (FastArena.hdr a) →
  FastArena.wf (FastArena.set_hdr a hs).
Proof. intros [Hl Hb] Hhs. split; simpl; [congruence | done]. Qed.

Lemma memcpy_at_run (h : heap) (dst src : Z) (d s r : list cell) (n : nat) :
  blocks h !! dst = Some d → blocks h !! src = Some s →
  memcpy d s n = Some r → n ≠ 0 →
  memcpy_at dst src n h = Ok (tt, set_blocks h (<[dst := r]> (blocks h))).
Proof.
  intros Hd Hs Hr Hn. unfold memcpy_at. rewrite decide_False by done.
  unfold bind, chars_at, set_chars, defined, ret. by rewrite Hd, Hs, Hr, Hd.
Qed.

(** [Reserve] keeps the string and its characters, when it returns. *)
Lemma FastAlloc_holds_Reserve (h h' : heap) (s s' : String) (cs : list ascii)
      (n : nat) :
  FastAlloc_holds h s cs → Reserve s n h = Ok (s', h') →
  FastAlloc_holds h' s' cs ∧ n ≤ len_ s' ∧ used_ s' = used_ s.
Proof.
  intros (Hwf & Hu & Hul & Hblk). unfold Reserve.
  case_decide as Hn; [|intros [= <- <-]; split; [by split_and!|lia]].
  pose proof (round4_ge (needed_for (len_ s) n)) as Hr4.
  pose proof (needed_for_ge (len_ s) n) as Hnf.
  rewrite decide_False by lia.
  set (newlen := round4 (needed_for (len_ s) n)) in *.
  intros Hrun.
  apply bind_Ok in Hrun as (p & h1 & Hal & Hrun).
  apply bind_Ok in Hal as ([] & h0 & Hinc & Hal).
  unfold incr_nAllocs, modify in Hinc. injection Hinc as <-.
  apply FastAlloc_Allocate_Ok in Hal as (i' & Hi' & Hfree & Hp & Hcap & ->);
    [|done].
  simpl in Hfree, Hp, Hcap.
  set (a := fa h) in *.
  set (a' := FastArena.set_hdr a (<[i' := 1%Z]> (FastArena.hdr a))).
  assert (Hwf' : FastArena.wf a').
  { apply set_hdr_wf; [done | by rewrite length_insert]. }
  assert (Hpnz : p ≠ 0%Z).
  { subst p. by destruct (payload_in_range a i' Hwf Hi'). }
  assert (Hi'use : FastArena.hdr a' !! i' = Some 1%Z).
  { simpl. apply list_lookup_insert_eq. destruct Hwf as [-> _]. done. }
  apply bind_Ok in Hrun as ([] & h2 & Hcpy & Hrun).
  apply bind_Ok in Hrun as ([] & h3 & Hde & Hret).
  injection Hret as <- <-. simpl.
  destruct Hblk as [[Hb0 Hl0]|(i & arr & Hi & Hb & Hiuse & Harr & Hla & Htake)].
  - (* the string had no block *)
    rewrite Hb0 in Hcpy, Hde. rewrite decide_True in Hcpy by done.
    injection Hcpy as <-. unfold Deallocate in Hde. simpl in Hde.
    injection Hde as <-. simpl.
    split; [|lia]. split_and!; simpl; [done | done | lia |].
    right. exists i', (replicate (FastArena.n_ a) Uninit).
    split_and!; [done | done | by exists 1%Z | | by rewrite length_replicate |].
    + by rewrite lookup_delete_ne, lookup_insert_eq.
    + assert (used_ s = 0) as -> by lia.
      destruct cs; [done | simpl in *; lia].
  - (* the string moves from block [i] to block [i'] *)
    assert (Hii' : i ≠ i').
    { intros ->. destruct Hiuse as (x & Hx & Hxnz).
      unfold FastArena.is_free in Hfree. congruence. }
    assert (Hbp : buf_ s ≠ p).
    { rewrite Hb, Hp. intros Heq. by apply payload_inj in Heq. }
    assert (Hbnz : buf_ s ≠ 0%Z).
    { rewrite Hb. by destruct (payload_in_range a i Hwf Hi). }
    rewrite decide_False in Hcpy by done.
    assert (Hcopied : ∃ r, length r = FastArena.n_ a
                           ∧ take (used_ s) r = take (used_ s) arr
                           ∧ h2 = set_blocks
                                    (set_fa (set_nAllocs h (nAllocs h + 1)) a')
                                    (<[p := r]> (blocks h))).
    { destruct (decide (used_ s = 0)) as [Hu0|Hu0].
      - unfold memcpy_at in Hcpy. rewrite decide_True in Hcpy by done.
        injection Hcpy as <-. exists (replicate (FastArena.n_ a) Uninit).
        split_and!; [by rewrite length_replicate | by rewrite Hu0 | done].
      - erewrite memcpy_at_run in Hcpy;
          [ | simpl; apply lookup_insert_eq
            | simpl; rewrite lookup_insert_ne by done; exact Harr
            | apply memcpy_fresh; simpl; fold a; lia
            | done ].
        injection Hcpy as <-.
        eexists. split_and!; [| |simpl; by rewrite insert_insert_eq].
        + rewrite length_app, length_take, length_replicate. simpl. fold a. lia.
        + rewrite take_app_le by (rewrite length_take; lia).
          by rewrite take_take, Nat.min_id. }
    destruct Hcopied as (r & Hlr & Htr & ->).
    set (h2 := set_blocks (set_fa (set_nAllocs h (nAllocs h + 1)) a')
                          (<[p := r]> (blocks h))) in *.
    pose proof (FastAlloc_Deallocate_payload h2 i Hwf' Hi) as HD.
    rewrite Hb in Hde.
    change (Deallocate (FastArena.payload (fa h2) i) h2 = Ok (tt, h3)) in Hde.
    rewrite HD in Hde. injection Hde as <-. simpl.
    split; [|lia]. split_and!; simpl; [|done|lia|].
    + apply set_hdr_wf; [done|]. by rewrite length_alter.
    + right. exists i', r. split_and!; [done | done | | | lia | congruence].
      * exists 1%Z. split; [|done]. cbn [FastArena.hdr FastArena.set_hdr].
        rewrite list_lookup_alter_ne by done.
        apply list_lookup_insert_eq. destruct Hwf as [-> _]. done.
      * change (FastArena.payload a' i) with (FastArena.payload a i).
        rewrite <- Hb. by rewrite lookup_delete_ne, lookup_insert_eq.
Qed.

(** [Reserve] returns when the arena has a block for it, and throws when
    it has none. *)
Lemma FastAlloc_Reserve_returns (h : heap) (s : String) (cs : list ascii)
      (n : nat) (p : Z) (a' : FastArena.t) :
  FastAlloc_holds h s cs → len_ s < n →
  FastArena.Allocate (fa h) (round4 (needed_for (len_ s) n)) = Ok (p, a') →
  ∃ s' h', Reserve s n h = Ok (s', h').
Proof.
  intros (Hwf & Hu & Hul & Hblk) Hn HA.
  pose proof (round4_ge (needed_for (len_ s) n)) as Hr4.
  pose proof (needed_for_ge (len_ s) n) as Hnf.
  destruct (Allocate_Ok_inv _ _ _ _ Hwf HA) as (i' & Hi' & Hfree & -> & -> & Hcap).
  set (a := fa h) in *.
  set (a' := FastArena.set_hdr a (<[i' := 1%Z]> (FastArena.hdr a))) in *.
  assert (Hwf' : FastArena.wf a').
  { apply set_hdr_wf; [done | by rewrite length_insert]. }
  unfold Reserve. rewrite decide_True, decide_False by lia.
  unfold bind at 1, bind at 1, incr_nAllocs, modify, Allocate.
  cbn [fa set_nAllocs]. fold a. rewrite HA.
  set (h1 := set_blocks (set_fa (set_nAllocs h (nAllocs h + 1)) a')
               (<[FastArena.payload a i' := replicate (FastArena.n_ a') Uninit]>
                  (blocks (set_nAllocs h (nAllocs h + 1))))).
  destruct Hblk as [[Hb0 Hl0]|(i & arr & Hi & Hb & Hiuse & Harr & Hla & Htake)].
  - rewrite Hb0. rewrite decide_True by done.
    unfold bind, ret, Deallocate. simpl. eauto.
  - assert (Hii' : i ≠ i').
    { intros ->. destruct Hiuse as (x & Hx & Hxnz).
      unfold FastArena.is_free in Hfree. congruence. }
    assert (Hbp : buf_ s ≠ FastArena.payload a i').
    { rewrite Hb. intros Heq. by apply payload_inj in Heq. }
    assert (Hbnz : buf_ s ≠ 0%Z).
    { rewrite Hb. by destruct (payload_in_range a i Hwf Hi). }
    rewrite decide_False by done.
    assert (Hcpy : ∃ h2, memcpy_at (FastArena.payload a i') (buf_ s) (used_ s) h1
                         = Ok (tt, h2) ∧ fa h2 = a').
    { destruct (decide (used_ s = 0)) as [Hu0|Hu0].
      - unfold memcpy_at. rewrite decide_True by done. by exists h1.
      - eexists. split.
        + eapply memcpy_at_run;
            [ simpl; apply lookup_insert_eq
            | simpl; rewrite lookup_insert_ne by done; exact Harr
            | apply memcpy_fresh; simpl; fold a; lia
            | done ].
        + reflexivity. }
    destruct Hcpy as (h2 & Hcpy & Hfa2).
    unfold bind at 1. rewrite Hcpy.
    assert (Hwf2 : FastArena.wf (fa h2)) by (by rewrite Hfa2).
    pose proof (FastAlloc_Deallocate_payload h2 i Hwf2 Hi) as HD.
    rewrite Hfa2 in HD at 1.
    change (FastArena.payload a' i) with (FastArena.payload a i) in HD.
    rewrite <- Hb in HD. unfold bind, ret. rewrite HD. eauto.
Qed.

Lemma FastAlloc_Reserve_throws (h : heap) (s : String) (n : nat) :
  len_ s < n →
  FastArena.Allocate (fa h) (round4 (needed_for (len_ s) n)) = bad_alloc →
  Reserve s n h = bad_alloc.
Proof.
  intros Hn HA.
  pose proof (round4_ge (needed_for (len_ s) n)) as Hr4.
  pose proof (needed_for_ge (len_ s) n) as Hnf.
  unfold Reserve. rewrite decide_True, decide_False by lia.
  unfold bind at 1, bind at 1, incr_nAllocs, modify, Allocate.
  cbn [fa set_nAllocs]. by rewrite HA.
Qed.

Lemma FastAlloc_holds_Append (h h' : heap) (s s' : String) (cs : list ascii)
      (c : ascii) :
  FastAlloc_holds h s cs → Append s c h = Ok (s', h') →
  FastAlloc_holds h' s' (cs ++ [c]).
Proof.
  intros Hh Hrun. unfold Append in Hrun.
  apply bind_Ok in Hrun as (s1 & h1 & HR & Hrun).
  destruct (FastAlloc_holds_Reserve _ _ _ _ _ _ Hh HR)
    as ((Hwf & Hu & Hul & Hblk) & Hn & Hsame).
  apply bind_Ok in Hrun as (a & h2 & Hch & Hrun).
  unfold chars_at in Hch.
  destruct (blocks h1 !! buf_ s1) as [a1|] eqn:Ha1; [|done].
  injection Hch as <- <-. case_decide as Hlt; [|done].
  apply bind_Ok in Hrun as ([] & h3 & Hset & Hret). injection Hret as <- <-.
  unfold set_chars in Hset. rewrite Ha1 in Hset. injection Hset as <-.
  destruct Hblk as [[Hb0 Hl0]|(i & arr & Hi & Hb & Hiuse & Harr & Hla & Htake)];
    [lia|].
  injection Harr as <-.
  split_and!; simpl; [done | rewrite length_app; simpl; lia | lia |].
  right. exists i, (<[used_ s1 := Char c]> a1).
  split_and!; [done | done | done | by rewrite lookup_insert_eq
              | by rewrite length_insert |].
  rewrite take_snoc_insert by lia. by rewrite Htake, fmap_app.
Qed.

(** What an [Append] does in Plain_FastAlloc: it throws [bad_alloc] when
    the string has to grow and the arena has no block of the capacity
    asked for, or no free block; otherwise it returns. *)
Lemma FastAlloc_Append_outcome (h : heap) (s : String) (cs : list ascii)
      (c : ascii) :
  FastAlloc_holds h s cs →
  let newlen := round4 (needed_for (len_ s) (used_ s + 1)) in
  let no_block := len_ s < used_ s + 1
                  ∧ (FastArena.n_ (fa h) < newlen ∨ FastArena.exhausted (fa h)) in
  (no_block → Append s c h = bad_alloc)
  ∧ (¬ no_block →
     ∃ s' h', Append s c h = Ok (s', h') ∧ FastAlloc_holds h' s' (cs ++ [c])).
Proof.
  intros Hh newlen. pose proof Hh as (Hwf & Hu & Hul & Hblk).
  destruct (Allocate_outcome (fa h) newlen Hwf) as [Hthrow Hok].
  assert (Hfin : ∀ s1 h1, Reserve s (used_ s + 1) h = Ok (s1, h1) →
                 ∃ s' h', Append s c h = Ok (s', h')
                          ∧ FastAlloc_holds h' s' (cs ++ [c])).
  { intros s1 h1 HR.
    destruct (FastAlloc_holds_Reserve _ _ _ _ _ _ Hh HR)
      as ((Hwf1 & Hu1 & Hul1 & Hblk1) & Hn1 & Hsame).
    destruct Hblk1 as [[Hb0 Hl0]|(i & arr & Hi & Hb & Hiuse & Harr & Hla & Htake)];
      [lia|].
    assert (HA : Append s c h
                 = Ok (mkString (buf_ s1) (len_ s1) (used_ s1 + 1),
                       set_blocks h1 (<[buf_ s1 := <[used_ s1 := Char c]> arr]>
                                        (blocks h1)))).
    { unfold Append, bind at 1. rewrite HR.
      unfold bind at 1, chars_at. rewrite Harr.
      rewrite decide_True by lia.
      unfold bind, set_chars, ret. by rewrite Harr. }
    eexists _, _. split; [exact HA|].
    by apply (FastAlloc_holds_Append h _ s _ cs c Hh). }
  split; intros Hcase.
  - destruct Hcase as [Hgrow Hno].
    unfold Append, bind at 1.
    rewrite FastAlloc_Reserve_throws; [done | done | by apply Hthrow].
  - destruct (decide (len_ s < used_ s + 1)) as [Hgrow|Hgrow].
    + destruct Hok as (i & _ & _ & HA & _); [tauto|].
      destruct (FastAlloc_Reserve_returns h s cs _ _ _ Hh Hgrow HA)
        as (s1 & h1 & HR).
      by apply (Hfin s1 h1).
    + apply (Hfin s h). unfold Reserve. by rewrite decide_False.
Qed.

Lemma FastAlloc_holds_appends (cs cs0 : list ascii) (h h' : heap)
      (s s' : String) :
  FastAlloc_holds h s cs0 → FastAlloc_appends s cs h = Ok (s', h') →
  FastAlloc_holds h' s' (cs0 ++ cs).
Proof.
  revert cs0 h s. induction cs as [|c cs IH]; intros cs0 h s Hh Hrun; simpl in *.
  - injection Hrun as <- <-. by rewrite app_nil_r.
  - apply bind_Ok in Hrun as (s1 & h1 & HA & Hrun).
    replace (cs0 ++ c :: cs) with ((cs0 ++ [c]) ++ cs)
      by (by rewrite <- app_assoc).
    eapply IH; [|done].
    by eapply FastAlloc_holds_Append.
Qed.

Lemma FastAlloc_holds_reads (cs : list ascii) (k i : nat) (h : heap) (s : String) :
  FastAlloc_holds h s cs → i + k ≤ length cs →
  FastAlloc_reads s i k h = Ok (Char <$> take k (drop i cs), h).
Proof.
  intros (Hwf & Hu & Hul & Hblk). revert i.
  induction k as [|k IH]; intros i Hik; simpl; [done|].
  destruct Hblk as [[Hb0 Hl0]|(j & arr & Hj & Hb & Hjuse & Harr & Hla & Htake)];
    [lia|].
  destruct (lookup_of_take arr cs (used_ s) i Htake Hu) as (c & Hc & Hac); [lia|].
  unfold bind at 1, read, bind at 1, chars_at, index. simpl.
  rewrite Harr. unfold defined. rewrite Hac. unfold ret at 1.
  unfold bind. rewrite IH by lia. unfold ret.
  by rewrite (drop_S _ _ _ Hc).
Qed.

Lemma FastAlloc_start_holds (base : Z) :
  (0 < base)%Z → FastAlloc_holds (start base) String_ctor [].
Proof.
  intros Hb. split_and!; [by apply ctor_wf | done | done | by left].
Qed.

Lemma FastAlloc_round_trip (h h1 : heap) (s : String) (cs : list ascii) :
  FastArena.wf (fa h) →
  FastAlloc_appends String_ctor cs h = Ok (s, h1) →
  Length s = length cs
  ∧ FastAlloc_reads s 0 (length cs) h1 = Ok (Char <$> cs, h1).
Proof.
  intros Hwf Hrun.
  assert (H0 : FastAlloc_holds h String_ctor []).
  { split_and!; [done | done | done | by left]. }
  pose proof (FastAlloc_holds_appends cs [] h h1 _ s H0 Hrun) as Hh. simpl in Hh.
  split; [by destruct Hh as (_ & ? & _)|].
  rewrite (FastAlloc_holds_reads cs (length cs) 0 h1 s Hh) by lia.
  by rewrite drop_0, firstn_all.
Qed.

(** With blocks of 3000 bytes the 2841st [Append] asks the arena for 4260
    bytes. *)
Lemma FastAlloc_2841st_Append_throws :
  FastAlloc_appends String_ctor (replicate 2841 "X"%char) (start 4096) = bad_alloc.
Proof. vm_compute. reflexivity. Qed.

End FastAlloc_facts.


(** ** The claims on all variants *)

Section variants.

Import round_trip script.

(** *** The wrappers of the library strings *)

Lemma list_string_contract : StdString.contract StdString.list_string.
Proof.
  split.
  - reflexivity.
  - intros t c t' [= <-]. simpl. split_and!.
    + rewrite length_app. simpl. lia.
    + rewrite lookup_app_r by lia. by rewrite Nat.sub_diag.
    + intros n Hn. destruct (lookup_lt_is_Some_2 t n Hn) as [x Hx].
      by rewrite lookup_app_l, Hx by lia.
  - intros t n. simpl. destruct (t !! n); [done|]. by case_decide.
Qed.

Lemma list_CStringA_contract : AtlString.contract AtlString.list_CStringA.
Proof.
  split.
  - reflexivity.
  - intros t c t' [= <-]. simpl. split_and!.
    + rewrite length_app. simpl. lia.
    + rewrite decide_False by (rewrite length_app; simpl; lia).
      rewrite Nat2Z.id, app_nth2 by lia. by rewrite Nat.sub_diag.
    + intros i Hi. rewrite !decide_False by (rewrite ?length_app; simpl; lia).
      by rewrite app_nth1 by lia.
  - intros t i Hi. simpl. by rewrite decide_True.
Qed.

Lemma StdString_appends_hold {T : Type} (L : StdString.std_string T)
      (cs cs0 : list ascii) (s s' : StdString.String T) :
  StdString.contract L →
  StdString.size L (StdString._s s) = length cs0 →
  (∀ i c, cs0 !! i = Some c → StdString.subscript L (StdString._s s) i = Ok c) →
  StdString_appends L s cs = Ok s' →
  StdString.size L (StdString._s s') = length (cs0 ++ cs)
  ∧ ∀ i c, (cs0 ++ cs) !! i = Some c
           → StdString.subscript L (StdString._s s') i = Ok c.
Proof.
  intros HL. revert cs0 s. induction cs as [|c cs IH]; intros cs0 s Hsz Hsub; simpl.
  - intros [= <-]. by rewrite app_nil_r.
  - unfold StdString.Append.
    destruct (StdString.append L (StdString._s s) c) as [t| |] eqn:Happ; [|done..].
    destruct (StdString.append_returns L HL _ _ _ Happ) as (Hsz' & Hlast & Hkeep).
    intros Hrun.
    replace (cs0 ++ c :: cs) with ((cs0 ++ [c]) ++ cs) by by rewrite <- app_assoc.
    apply (IH (cs0 ++ [c]) (StdString.mkString t)); [| |done]; simpl.
    + rewrite length_app. simpl. lia.
    + intros i x Hix.
      destruct (decide (i < length cs0)) as [Hi|Hi].
      * rewrite lookup_app_l in Hix by done. rewrite Hkeep by lia. by apply Hsub.
      * rewrite lookup_app_r in Hix by lia.
        destruct (i - length cs0) as [|j] eqn:Hj; [|done].
        injection Hix as <-. assert (i = length cs0) as -> by lia.
        by rewrite <- Hsz.
Qed.

Lemma StdString_round_trip {T : Type} (L : StdString.std_string T)
      (cs : list ascii) (s : StdString.String T) :
  StdString.contract L →
  StdString_appends L (StdString.String_ctor L) cs = Ok s →
  StdString.Length L s = length cs
  ∧ ∀ i c, cs !! i = Some c → StdString.index L s i = Ok c.
Proof.
  intros HL Hrun.
  apply (StdString_appends_hold L cs [] (StdString.String_ctor L) s HL); [| |done].
  - apply (StdString.size_basic_string L HL).
  - intros i c Hic. done.
Qed.

Lemma static_cast_int_small (n : nat) :
  (Z.of_nat n < 2 ^ 31)%Z → AtlString.static_cast_int n = Z.of_nat n.
Proof. unfold AtlString.static_cast_int. lia. Qed.

Lemma AtlString_appends_hold {T : Type} (L : AtlString.CStringA T)
      (cs cs0 : list ascii) (s s' : AtlString.String T) :
  AtlString.contract L →
  AtlString.GetLength L (AtlString._s s) = Z.of_nat (length cs0) →
  (∀ i c, cs0 !! i = Some c
          → AtlString.GetAt L (AtlString._s s) (Z.of_nat i) = AtlString.Returns c) →
  AtlString_appends L s cs = AtlString.Returns s' →
  AtlString.GetLength L (AtlString._s s') = Z.of_nat (length (cs0 ++ cs))
  ∧ ∀ i c, (cs0 ++ cs) !! i = Some c
           → AtlString.GetAt L (AtlString._s s') (Z.of_nat i) = AtlString.Returns c.
Proof.
  intros HL. revert cs0 s. induction cs as [|c cs IH]; intros cs0 s Hsz Hsub; simpl.
  - intros [= <-]. by rewrite app_nil_r.
  - unfold AtlString.Append.
    destruct (AtlString.append L (AtlString._s s) c) as [t|hr] eqn:Happ; [|done].
    destruct (AtlString.append_returns L HL _ _ _ Happ) as (Hsz' & Hlast & Hkeep).
    intros Hrun.
    replace (cs0 ++ c :: cs) with ((cs0 ++ [c]) ++ cs) by by rewrite <- app_assoc.
    apply (IH (cs0 ++ [c]) (AtlString.mkString t)); [| |done]; simpl.
    + rewrite length_app. simpl. lia.
    + intros i x Hix.
      destruct (decide (i < length cs0)) as [Hi|Hi].
      * rewrite lookup_app_l in Hix by done. rewrite Hkeep by lia. by apply Hsub.
      * rewrite lookup_app_r in Hix by lia.
        destruct (i - length cs0) as [|j] eqn:Hj; [|done].
        injection Hix as <-. assert (i = length cs0) as -> by lia.
        by rewrite <- Hsz.
Qed.

Lemma AtlString_round_trip {T : Type} (L : AtlString.CStringA T)
      (cs : list ascii) (s : AtlString.String T) :
  AtlString.contract L →
  (Z.of_nat (length cs) < 2 ^ 31)%Z →
  AtlString_appends L (AtlString.String_ctor L) cs = AtlString.Returns s →
  AtlString.Length L s = length cs
  ∧ ∀ i c, cs !! i = Some c → AtlString.index L s i = AtlString.Returns c.
Proof.
  intros HL Hlen Hrun.
  destruct (AtlString_appends_hold L cs [] (AtlString.String_ctor L) s HL)
    as [Hsz Hsub]; [| |done|].
  - apply (AtlString.GetLength_ctor L HL).
  - intros i c Hic. done.
  - simpl in Hsz, Hsub. split.
    + unfold AtlString.Length, AtlString.to_size_t. rewrite Hsz. lia.
    + intros i c Hic. unfold AtlString.index.
      pose proof (lookup_lt_Some _ _ _ Hic).
      rewrite static_cast_int_small by lia. by apply Hsub.
Qed.

(** C7. A sequence of characters appended one at a time to a newly
    constructed string is read back by the indexed reads at the positions
    below its length, in order, and [Length] is the number of characters:
    whatever growth of the capacity the appends went through, no
    character written earlier is altered. In the four namespaces of
    common-test.h, in COW_AtomicInt2 and in Plain every append returns,
    [new char[n]] being taken to succeed; in Plain_FastAlloc, whose arena
    can refuse a block, and in StdString and AtlString, whose library
    string can throw, the statement is for the sequences whose appends
    all return. StdString and AtlString are taken over any library string
    that meets the contract of [std::string] and of [CStringA]; an
    AtlString holds fewer than 2^31 characters. *)
Theorem appended_characters_read_back :
  (∀ (sz : nat) (v : variant) (h h0 : COW.heap) (s0 : COW.String)
     (cs : list ascii),
     COW.String_ctor sz h = Ok (s0, h0) →
     ∃ h1 h2,
       COW_appends (String_of sz v) s0 cs h0 = Ok (s0, h1)
       ∧ COW.Length s0 h1 = Ok (length cs, h1)
       ∧ COW_reads (String_of sz v) s0 0 (length cs) h1 = Ok (Char <$> cs, h2))
  ∧
  (∀ (h : COW_AtomicInt2.heap) (cs : list ascii),
     ∃ s0 h0 s h1 h2,
       COW_AtomicInt2.String_ctor h = Ok (s0, h0)
       ∧ AtomicInt2_appends s0 cs h0 = Ok (s, h1)
       ∧ COW_AtomicInt2.Length s h1 = Ok (length cs, h1)
       ∧ AtomicInt2_reads s 0 (length cs) h1 = Ok (Char <$> cs, h2))
  ∧
  (∀ (k : Plain.counters) (cs : list ascii),
     ∃ s k',
       Plain_appends Plain.String_ctor cs k = Ok (s, k')
       ∧ Plain.Length s = length cs
       ∧ Plain_reads s 0 (length cs) = (λ c, Some (Char c)) <$> cs)
  ∧
  (∀ (h h1 : Plain_FastAlloc.heap) (s : Plain_FastAlloc.String)
     (cs : list ascii),
     FastArena.wf (Plain_FastAlloc.fa h) →
     FastAlloc_appends Plain_FastAlloc.String_ctor cs h = Ok (s, h1) →
     Plain_FastAlloc.Length s = length cs
     ∧ FastAlloc_reads s 0 (length cs) h1 = Ok (Char <$> cs, h1))
  ∧
  (∀ (T : Type) (L : StdString.std_string T) (cs : list ascii)
     (s : StdString.String T),
     StdString.contract L →
     StdString_appends L (StdString.String_ctor L) cs = Ok s →
     StdString.Length L s = length cs
     ∧ ∀ i c, cs !! i = Some c → StdString.index L s i = Ok c)
  ∧
  (∀ (T : Type) (L : AtlString.CStringA T) (cs : list ascii)
     (s : AtlString.String T),
     AtlString.contract L →
     (Z.of_nat (length cs) < 2 ^ 31)%Z →
     AtlString_appends L (AtlString.String_ctor L) cs = AtlString.Returns s →
     AtlString.Length L s = length cs
     ∧ ∀ i c, cs !! i = Some c → AtlString.index L s i = AtlString.Returns c).
Proof.
  split_and!.
  - intros sz v h h0 s0 cs. apply COW_round_trip.
  - intros h cs. apply AtomicInt2_round_trip.
  - intros k cs. apply Plain_round_trip.
  - intros h h1 s cs. apply FastAlloc_round_trip.
  - intros T L cs s. apply StdString_round_trip.
  - intros T L cs s. apply AtlString_round_trip.
Qed.

Lemma appended_characters_read_back_witness :
  (∃ h1 h2,
     COW_appends (String_of 16 Mutex) (COW.mkString 4100) ["H"; "i"]%char
       (COW_props.heap_after (COW.String_ctor 16 (COW.start 16 4096)) (COW.start 16 4096))
     = Ok (COW.mkString 4100, h1)
     ∧ COW.Length (COW.mkString 4100) h1 = Ok (2, h1)
     ∧ COW_reads (String_of 16 Mutex) (COW.mkString 4100) 0 2 h1
       = Ok ([Char "H"; Char "i"], h2))
  ∧
  (let h1 := match FastAlloc_appends Plain_FastAlloc.String_ctor ["H"; "i"]%char
                     (Plain_FastAlloc.start 4096) with
             | Ok (_, h1) => h1
             | _ => Plain_FastAlloc.start 4096
             end in
   Plain_FastAlloc.Length (Plain_FastAlloc.mkString 4100 4 2) = 2
   ∧ FastAlloc_reads (Plain_FastAlloc.mkString 4100 4 2) 0 2 h1
     = Ok ([Char "H"; Char "i"], h1))
  ∧
  (StdString.Length StdString.list_string (StdString.mkString ["H"; "i"]%char) = 2
   ∧ ∀ i c, ["H"; "i"]%char !! i = Some c
            → StdString.index StdString.list_string
                (StdString.mkString ["H"; "i"]%char) i = Ok c)
  ∧
  (AtlString.Length AtlString.list_CStringA (AtlString.mkString ["H"; "i"]%char) = 2
   ∧ ∀ i c, ["H"; "i"]%char !! i = Some c
            → AtlString.index AtlString.list_CStringA
                (AtlString.mkString ["H"; "i"]%char) i = AtlString.Returns c).
Proof.
  destruct appended_characters_read_back as (HC & _ & _ & HF & HS & HA).
  split; [|split; [|split]].
  - apply (HC 16 Mutex (COW.start 16 4096) _ (COW.mkString 4100) ["H"; "i"]%char).
    vm_compute. reflexivity.
  - apply (HF (Plain_FastAlloc.start 4096) _ _ ["H"; "i"]%char).
    + split; [reflexivity | simpl; lia].
    + vm_compute. reflexivity.
  - apply (HS _ StdString.list_string ["H"; "i"]%char
              (StdString.mkString ["H"; "i"]%char) list_string_contract).
    reflexivity.
  - apply (HA _ AtlString.list_CStringA ["H"; "i"]%char
              (AtlString.mkString ["H"; "i"]%char) list_CStringA_contract).
    + simpl. lia.
    + reflexivity.
Defined.

(** *** Indexed access *)










(** C2, at the failing input [String s; s.Append('X'); String s2( s );
    s2[0]]: COW_AtomicInt2 reads the 'X' that [Clone] copied, COW_AtomicInt
    a cell that the clone constructor of [StringBuf] never wrote. *)
Theorem AtomicInt2_reads_what_AtomicInt_lost :
  observations AtomicInt2_class read_a_copy COW_AtomicInt2.start
  = Ok [char_is (Char "X")]
  ∧ observations (COW_class 16 AtomicInt) read_a_copy (COW.start 16 4096)
    = Ok [char_is Uninit].
Proof. split; vm_compute; reflexivity. Qed.

Lemma AtomicInt2_not_equivalent : ¬ AtomicInt2_equivalent_as_specified.
Proof.
  intros Hspec.
  assert (H2 : observations AtomicInt2_class read_a_copy COW_AtomicInt2.start
               = Ok [char_is (Char "X")]) by (vm_compute; reflexivity).
  assert (H1 : observations (COW_class 16 AtomicInt) read_a_copy (COW.start 16 4096)
               = Ok [char_is Uninit]) by (vm_compute; reflexivity).
  specialize (Hspec 16 4096%Z read_a_copy _ _ ltac:(lia) H1 H2). discriminate.
Qed.

(** The theorems on the COW namespaces, at the strings "X" of the sample
    heaps. *)
Lemma copy_of_shareable_string_witness :
  (∃ s2 h' d', COW.copy_ctor (String_of 16 CritSec) (COW.mkString 4100)
                 COW_props.heap_X = Ok (s2, h')
     ∧ COW.nAllocs h' = COW.nAllocs COW_props.heap_X
     ∧ COW.nCopies h' = (COW.nCopies COW_props.heap_X + 1)%Z
     ∧ COW.data_ s2 = 4100%Z
     ∧ COW.objs h' !! 4100%Z = Some d'
     ∧ COW.refs d' = (COW.refs COW_props.buf_X + 1)%Z
     ∧ COW.buf d' = COW.buf COW_props.buf_X
     ∧ COW.len d' = COW.len COW_props.buf_X
     ∧ COW.used d' = COW.used COW_props.buf_X
     ∧ COW.baggage d' = COW.baggage COW_props.buf_X
     ∧ (∀ q, q ≠ 4100%Z → COW.objs h' !! q = COW.objs COW_props.heap_X !! q)
     ∧ COW.fa h' = COW.fa COW_props.heap_X)
  ∧
  (∃ s2 h' x', COW_AtomicInt2.copy_ctor (COW_AtomicInt2.mkString 2)
                 COW_AtomicInt2.heap_X = Ok (s2, h')
     ∧ COW_AtomicInt2.nAllocs h' = COW_AtomicInt2.nAllocs COW_AtomicInt2.heap_X
     ∧ COW_AtomicInt2.nCopies h'
       = (COW_AtomicInt2.nCopies COW_AtomicInt2.heap_X + 1)%Z
     ∧ COW_AtomicInt2.data_ s2 = 2%positive
     ∧ COW_AtomicInt2.mem h' !! 2%positive = Some x'
     ∧ COW_AtomicInt2.refs (COW_AtomicInt2.head x')
       = (COW_AtomicInt2.refs (COW_AtomicInt2.head COW_AtomicInt2.glom_X) + 1)%Z
     ∧ COW_AtomicInt2.len (COW_AtomicInt2.head x')
       = COW_AtomicInt2.len (COW_AtomicInt2.head COW_AtomicInt2.glom_X)
     ∧ COW_AtomicInt2.used (COW_AtomicInt2.head x')
       = COW_AtomicInt2.used (COW_AtomicInt2.head COW_AtomicInt2.glom_X)
     ∧ COW_AtomicInt2.BUF x' = COW_AtomicInt2.BUF COW_AtomicInt2.glom_X
     ∧ (∀ q, q ≠ 2%positive →
          COW_AtomicInt2.mem h' !! q
          = COW_AtomicInt2.mem COW_AtomicInt2.heap_X !! q)).
Proof.
  destruct copy_of_shareable_string as [HC HA]. split.
  - apply (HC 16 CritSec COW_props.heap_X (COW.mkString 4100) COW_props.buf_X);
      [reflexivity | simpl; lia..].
  - apply (HA COW_AtomicInt2.heap_X (COW_AtomicInt2.mkString 2)
              COW_AtomicInt2.glom_X); [reflexivity | simpl; lia..].
Defined.

Lemma heap_shared_wf : COW_props.heap_wf 16 COW_props.heap_shared.
Proof.
  split_and!; [split; [reflexivity | simpl; lia] | simpl; lia |].
  intros p d Hpd. simpl in Hpd. apply lookup_singleton_Some in Hpd as [<- <-].
  split; [split; simpl; [lia | reflexivity] |].
  exists 0. split_and!; [unfold FastArena.size; lia | reflexivity |].
  exists 1%Z. split; [reflexivity | lia].
Qed.

Lemma glom_X_wf (r : Z) : COW_AtomicInt2.glom_wf (COW_AtomicInt2.set_REFS COW_AtomicInt2.glom_X r).
Proof. split; vm_compute; [lia | reflexivity]. Qed.

Lemma copy_on_write_isolation_witness :
  (∀ c s2' h',
     COW.Append (String_of 16 AtomicInt) (COW.mkString 4100) c COW_props.heap_shared
     = Ok (s2', h') →
     COW.data_ s2' ≠ 4100%Z
     ∧ COW_props.contents h' (COW.mkString 4100)
       = COW_props.contents COW_props.heap_shared (COW.mkString 4100))
  ∧
  (∀ c, ∃ s2' h',
     COW_AtomicInt2.Append (COW_AtomicInt2.mkString 2) c COW_AtomicInt2.heap_shared
     = Ok (s2', h')
     ∧ COW_AtomicInt2.data_ s2' ≠ 2%positive
     ∧ COW_AtomicInt2.contents h' (COW_AtomicInt2.mkString 2)
       = COW_AtomicInt2.contents COW_AtomicInt2.heap_shared
           (COW_AtomicInt2.mkString 2)).
Proof.
  destruct copy_on_write_isolation as [HC HA]. split.
  - apply (HC 16 AtomicInt COW_props.heap_shared (COW.mkString 4100)
              (COW.mkString 4100) (COW.set_refs COW_props.buf_X 2)
              heap_shared_wf); [reflexivity | reflexivity | simpl; lia].
  - apply (HA COW_AtomicInt2.heap_shared (COW_AtomicInt2.mkString 2)
              (COW_AtomicInt2.mkString 2)
              (COW_AtomicInt2.set_REFS COW_AtomicInt2.glom_X 2));
      [reflexivity | reflexivity | apply glom_X_wf | vm_compute; reflexivity].
Defined.

Lemma unshareable_until_Append_witness :
  (∀ s2 h2,
     COW.copy_ctor (String_of 16 Unsafe) (COW.mkString 4100)
       COW_props.heap_unshareable = Ok (s2, h2) →
     COW.data_ s2 ≠ 4100%Z
     ∧ COW.objs COW_props.heap_unshareable !! COW.data_ s2 = None
     ∧ COW.objs h2
       = <[COW.data_ s2 := COW_props.cloned (COW.set_refs COW_props.buf_X (-1)) 0]>
           (COW.objs COW_props.heap_unshareable))
  ∧
  (∃ s2 h2,
     COW_AtomicInt2.copy_ctor (COW_AtomicInt2.mkString 2)
       COW_AtomicInt2.heap_unshareable = Ok (s2, h2)
     ∧ COW_AtomicInt2.data_ s2 ≠ 2%positive
     ∧ COW_AtomicInt2.mem COW_AtomicInt2.heap_unshareable
         !! COW_AtomicInt2.data_ s2 = None
     ∧ COW_AtomicInt2.mem h2
       = <[COW_AtomicInt2.data_ s2
           := COW_AtomicInt2.cloned
                (COW_AtomicInt2.set_REFS COW_AtomicInt2.glom_X (-1)) 0]>
           (COW_AtomicInt2.mem COW_AtomicInt2.heap_unshareable)).
Proof.
  destruct unshareable_until_Append as [HC HA]. split.
  - apply (HC 16 Unsafe COW_props.heap_unshareable (COW.mkString 4100)
              (COW.set_refs COW_props.buf_X (-1)) heap_unshareable_wf);
      reflexivity.
  - apply (HA COW_AtomicInt2.heap_unshareable (COW_AtomicInt2.mkString 2)
              (COW_AtomicInt2.set_REFS COW_AtomicInt2.glom_X (-1)));
      [reflexivity | apply glom_X_wf | reflexivity].
Defined.

End variants.


(** ** Counting the strings that hold a buffer *)

Section counting_facts.

Import accounting.

Context {K : Type} `{Countable K} {S V : Type}.
Variable data : S → K.
Variable refs : V → Z.

Lemma owners_app (env env' : list (option S)) (q : K) :
  owners data (env ++ env') q = owners data env q + owners data env' q.
Proof. induction env as [|o env IH]; simpl; [done|]. rewrite IH. lia. Qed.

Lemma owners_insert (env : list (option S)) (i : nat) (o o' : option S) (q : K) :
  env !! i = Some o →
  owners data (<[i := o']> env) q + holds_buf data o q
  = owners data env q + holds_buf data o' q.
Proof.
  revert i. induction env as [|x env IH]; intros [|i] Hi; simpl in *; try done.
  - injection Hi as ->. lia.
  - specialize (IH i Hi). lia.
Qed.

Lemma owners_lookup (env : list (option S)) (i : nat) (s : S) :
  env !! i = Some (Some s) → 1 ≤ owners data env (data s).
Proof.
  revert i. induction env as [|x env IH]; intros [|i] Hi; simpl in *; try done.
  - injection Hi as ->. simpl. rewrite decide_True by done. lia.
  - specialize (IH i Hi). lia.
Qed.

Lemma owners_two (env : list (option S)) (i j : nat) (s1 s2 : S) :
  i ≠ j → env !! i = Some (Some s1) → env !! j = Some (Some s2) →
  data s1 = data s2 → 2 ≤ owners data env (data s2).
Proof.
  intros Hij Hi Hj Hd.
  pose proof (owners_insert env i (Some s1) None (data s2) Hi) as H1.
  assert (Hj' : <[i := None]> env !! j = Some (Some s2)).
  { by rewrite list_lookup_insert_ne. }
  pose proof (owners_lookup _ _ _ Hj') as H2.
  simpl in H1. rewrite decide_True in H1 by done. lia.
Qed.

Lemma counted_absent (env : list (option S)) (o : gmap K V) (p : K) :
  counted data refs env o → o !! p = None → owners data env p = 0.
Proof.
  intros [_ Hlive] Hp. destruct (decide (1 ≤ owners data env p)) as [Hge|]; [|lia].
  destruct (Hlive p Hge) as [d Hd]. congruence.
Qed.

Lemma counted_positive (env : list (option S)) (o : gmap K V) (q : K) (d : V) :
  counted data refs env o → o !! q = Some d → (refs d > 0)%Z →
  refs d = Z.of_nat (owners data env q).
Proof. intros [Hc _] Hq Hr. destruct (Hc q d Hq) as (_ & [?|[? _]]); [done | lia]. Qed.

Lemma counted_single (env : list (option S)) (o : gmap K V) (q : K) (d : V) :
  counted data refs env o → o !! q = Some d → (refs d ≤ 1)%Z →
  owners data env q = 1.
Proof. intros [Hc _] Hq Hr. destruct (Hc q d Hq) as (? & [?|[_ ?]]); lia. Qed.

(** *** How the operations change the counts *)

(** A new string on a new buffer. *)
Lemma counted_new (env : list (option S)) (o o' : gmap K V) (s' : S) (dp : V) :
  counted data refs env o → o !! data s' = None → o' !! data s' = Some dp →
  (refs dp = 1 ∨ refs dp = -1)%Z → (∀ r, r ≠ data s' → o' !! r = o !! r) →
  counted data refs (env ++ [Some s']) o'.
Proof.
  intros Hc Hp Hp' Hrefs Hsame. pose proof (counted_absent _ _ _ Hc Hp) as H0.
  destruct Hc as [Hc Hlive]. split.
  - intros r d Hr. rewrite owners_app. simpl.
    destruct (decide (data s' = r)) as [<-|Hne].
    + rewrite H0. replace d with dp by congruence. lia.
    + rewrite Hsame in Hr by done. destruct (Hc r d Hr). split; [lia|].
      by rewrite !Nat.add_0_r.
  - intros r. rewrite owners_app. simpl.
    destruct (decide (data s' = r)) as [<-|Hne]; [by rewrite Hp'|].
    rewrite Hsame by done. intros ?. apply Hlive. lia.
Qed.

(** A new string on a buffer that has strings already. *)
Lemma counted_share (env : list (option S)) (o o' : gmap K V) (s' : S) (d d' : V) :
  counted data refs env o → o !! data s' = Some d → (refs d > 0)%Z →
  o' !! data s' = Some d' → refs d' = (refs d + 1)%Z →
  (∀ r, r ≠ data s' → o' !! r = o !! r) →
  counted data refs (env ++ [Some s']) o'.
Proof.
  intros Hc Hq Hr Hq' Hrefs Hsame.
  pose proof (counted_positive _ _ _ _ Hc Hq Hr) as Hn.
  destruct Hc as [Hc Hlive]. split.
  - intros r x Hx. rewrite owners_app. simpl.
    destruct (decide (data s' = r)) as [<-|Hne].
    + replace x with d' by congruence. lia.
    + rewrite Hsame in Hx by done. destruct (Hc r x Hx). split; [lia|].
      by rewrite !Nat.add_0_r.
  - intros r. rewrite owners_app. simpl.
    destruct (decide (data s' = r)) as [<-|Hne]; [by rewrite Hq'|].
    rewrite Hsame by done. intros ?. apply Hlive. lia.
Qed.

(** A string goes and leaves its buffer to the others. *)
Lemma counted_release_keep (env : list (option S)) (o o' : gmap K V)
      (i : nat) (s : S) (d d' : V) :
  counted data refs env o → env !! i = Some (Some s) → o !! data s = Some d →
  ¬ (refs d - 1 < 1)%Z → o' !! data s = Some d' → refs d' = (refs d - 1)%Z →
  (∀ r, r ≠ data s → o' !! r = o !! r) →
  counted data refs (<[i := None]> env) o'.
Proof.
  intros Hc Hi Hq Hr Hq' Hrefs Hsame.
  pose proof (counted_positive _ _ _ _ Hc Hq ltac:(lia)) as Hn.
  destruct Hc as [Hc Hlive]. split.
  - intros r x Hx.
    pose proof (owners_insert env i _ None r Hi) as Hins. simpl in Hins.
    destruct (decide (data s = r)) as [<-|Hne].
    + replace x with d' by congruence. lia.
    + rewrite Hsame in Hx by done. destruct (Hc r x Hx).
      replace (owners data (<[i := None]> env) r) with (owners data env r) by lia.
      done.
  - intros r Hge.
    pose proof (owners_insert env i _ None r Hi) as Hins. simpl in Hins.
    destruct (decide (data s = r)) as [<-|Hne]; [by rewrite Hq'|].
    rewrite Hsame by done. apply Hlive. lia.
Qed.

(** The last string of a buffer goes, and the buffer with it. *)
Lemma counted_release_delete (env : list (option S)) (o o' : gmap K V)
      (i : nat) (s : S) (d : V) :
  counted data refs env o → env !! i = Some (Some s) → o !! data s = Some d →
  (refs d - 1 < 1)%Z → o' !! data s = None →
  (∀ r, r ≠ data s → o' !! r = o !! r) →
  counted data refs (<[i := None]> env) o'.
Proof.
  intros Hc Hi Hq Hr Hq' Hsame.
  pose proof (counted_single _ _ _ _ Hc Hq ltac:(lia)) as Hn.
  destruct Hc as [Hc Hlive]. split.
  - intros r x Hx.
    pose proof (owners_insert env i _ None r Hi) as Hins. simpl in Hins.
    destruct (decide (data s = r)) as [<-|Hne]; [congruence|].
    rewrite Hsame in Hx by done. destruct (Hc r x Hx).
    replace (owners data (<[i := None]> env) r) with (owners data env r) by lia.
    done.
  - intros r Hge.
    pose proof (owners_insert env i _ None r Hi) as Hins. simpl in Hins.
    destruct (decide (data s = r)) as [<-|Hne]; [lia|].
    rewrite Hsame by done. apply Hlive. lia.
Qed.

(** A string leaves a buffer it shares for a new one. *)
Lemma counted_detach (env : list (option S)) (o o' : gmap K V)
      (i : nat) (s s' : S) (d d' dp : V) :
  counted data refs env o → env !! i = Some (Some s) → o !! data s = Some d →
  (refs d > 1)%Z → o !! data s' = None → o' !! data s = Some d' →
  refs d' = (refs d - 1)%Z → o' !! data s' = Some dp →
  (refs dp = 1 ∨ refs dp = -1)%Z →
  (∀ r, r ≠ data s' → r ≠ data s → o' !! r = o !! r) →
  counted data refs (<[i := Some s']> env) o'.
Proof.
  intros Hc Hi Hq Hr Hp Hq' Hrefs Hp' Hrp Hsame.
  pose proof (counted_positive _ _ _ _ Hc Hq ltac:(lia)) as Hn.
  pose proof (counted_absent _ _ _ Hc Hp) as H0.
  assert (Hpq : data s' ≠ data s) by congruence.
  destruct Hc as [Hc Hlive]. split.
  - intros r x Hx.
    pose proof (owners_insert env i _ (Some s') r Hi) as Hins. simpl in Hins.
    destruct (decide (data s = r)) as [<-|Hne].
    + rewrite decide_False in Hins by done.
      replace x with d' by congruence. lia.
    + destruct (decide (data s' = r)) as [<-|Hne'].
      * replace x with dp by congruence. lia.
      * rewrite Hsame in Hx by done. destruct (Hc r x Hx).
        replace (owners data (<[i := Some s']> env) r) with (owners data env r)
          by lia. done.
  - intros r Hge.
    pose proof (owners_insert env i _ (Some s') r Hi) as Hins. simpl in Hins.
    destruct (decide (data s = r)) as [<-|Hne]; [by rewrite Hq'|].
    destruct (decide (data s' = r)) as [<-|Hne']; [by rewrite Hp'|].
    rewrite Hsame by done. apply Hlive. lia.
Qed.

(** The only string of a buffer moves with it to a new address. *)
Lemma counted_move (env : list (option S)) (o o' : gmap K V)
      (i : nat) (s s' : S) (d dp : V) :
  counted data refs env o → env !! i = Some (Some s) → o !! data s = Some d →
  (refs d ≤ 1)%Z → o !! data s' = None → o' !! data s = None →
  o' !! data s' = Some dp → (refs dp = 1 ∨ refs dp = -1)%Z →
  (∀ r, r ≠ data s' → r ≠ data s → o' !! r = o !! r) →
  counted data refs (<[i := Some s']> env) o'.
Proof.
  intros Hc Hi Hq Hr Hp Hq' Hp' Hrp Hsame.
  pose proof (counted_single _ _ _ _ Hc Hq Hr) as Hn.
  pose proof (counted_absent _ _ _ Hc Hp) as H0.
  assert (Hpq : data s' ≠ data s) by congruence.
  destruct Hc as [Hc Hlive]. split.
  - intros r x Hx.
    pose proof (owners_insert env i _ (Some s') r Hi) as Hins. simpl in Hins.
    destruct (decide (data s = r)) as [<-|Hne]; [congruence|].
    destruct (decide (data s' = r)) as [<-|Hne'].
    + replace x with dp by congruence. lia.
    + rewrite Hsame in Hx by done. destruct (Hc r x Hx).
      replace (owners data (<[i := Some s']> env) r) with (owners data env r)
        by lia. done.
  - intros r Hge.
    pose proof (owners_insert env i _ (Some s') r Hi) as Hins. simpl in Hins.
    destruct (decide (data s = r)) as [<-|Hne].
    + rewrite decide_False in Hins by done. lia.
    + destruct (decide (data s' = r)) as [<-|Hne']; [by rewrite Hp'|].
      rewrite Hsame by done. apply Hlive. lia.
Qed.

(** The only string of a buffer changes it where it is. *)
Lemma counted_inplace (env : list (option S)) (o o' : gmap K V) (q : K) (d d' : V) :
  counted data refs env o → o !! q = Some d → (refs d ≤ 1)%Z → o' !! q = Some d' →
  (refs d' = 1 ∨ refs d' = -1)%Z → (∀ r, r ≠ q → o' !! r = o !! r) →
  counted data refs env o'.
Proof.
  intros Hc Hq Hr Hq' Hrefs Hsame.
  pose proof (counted_single _ _ _ _ Hc Hq Hr) as Hn.
  destruct Hc as [Hc Hlive]. split.
  - intros r x Hx. destruct (decide (q = r)) as [<-|Hne].
    + replace x with d' by congruence. lia.
    + rewrite Hsame in Hx by done. by apply Hc.
  - intros r Hge. destruct (decide (q = r)) as [<-|Hne]; [by rewrite Hq'|].
    rewrite Hsame by done. by apply Hlive.
Qed.

(** Two strings on one buffer find a count above 1 in it. *)
Lemma counted_shared (env : list (option S)) (o : gmap K V) (i j : nat)
      (s1 s2 : S) :
  counted data refs env o → i ≠ j →
  env !! i = Some (Some s1) → env !! j = Some (Some s2) → data s1 = data s2 →
  ∃ d, o !! data s2 = Some d ∧ (refs d > 1)%Z.
Proof.
  intros [Hc Hlive] Hij Hi Hj Hd.
  pose proof (owners_two env i j s1 s2 Hij Hi Hj Hd) as H2.
  destruct (Hlive (data s2)) as [d Hq]; [lia|].
  exists d. split; [done|]. destruct (Hc _ _ Hq) as (_ & [?|[_ ?]]); lia.
Qed.

End counting_facts.


(** ** Reference counting is sound: the states the public operations reach *)

Section accounting_facts.

Import COW COW_props accounting.

(** *** The remaining member functions, in one equation each *)

Lemma String_ctor_eq (sz : nat) (h : heap) :
  String_ctor sz h
  = match operator_new sz h with
    | Ok (p, h1) =>
        Ok (mkString p, set_objs h1 (<[p := mkStringBuf None 0 0 1 0]> (objs h1)))
    | bad_alloc => bad_alloc
    | Undef => Undef
    end.
Proof.
  unfold String_ctor, new_StringBuf, bind.
  by destruct (operator_new sz h) as [[p h1]| |].
Qed.

Lemma operator_delete_live (sz : nat) (h : heap) (q : Z) (d : StringBuf)
      (o : gmap Z StringBuf) :
  heap_wf sz h → objs h !! q = Some d →
  ∃ i, i < FastArena.size ∧ q = FastArena.payload (fa h) i
       ∧ operator_delete q (set_objs h o)
         = Ok (tt, set_fa (set_objs h o)
                     (FastArena.set_hdr (fa h)
                        (alter IntAtomicDecrement i (FastArena.hdr (fa h))))).
Proof.
  intros (Hfa & _ & Ho) Hq. destruct (Ho _ _ Hq) as (_ & i & Hi & -> & _).
  exists i. split_and!; [done..|].
  unfold operator_delete. simpl. by rewrite Deallocate_payload.
Qed.

(** [~String]: the last string to go deletes the [StringBuf]. *)
Lemma dtor_eq (sz : nat) (v : variant) (h : heap) (q : Z) (d : StringBuf) :
  heap_wf sz h → objs h !! q = Some d →
  ∃ i, i < FastArena.size ∧ q = FastArena.payload (fa h) i
       ∧ dtor (String_of sz v) (mkString q) h
         = if decide (refs d - 1 < 1)%Z
           then Ok (tt, set_fa (set_objs h (base.delete q (objs h)))
                          (FastArena.set_hdr (fa h)
                             (alter IntAtomicDecrement i (FastArena.hdr (fa h)))))
           else Ok (tt, set_objs h (<[q := set_refs d (refs d - 1)]> (objs h))).
Proof.
  intros Hwf Hq.
  destruct (operator_delete_live sz h q d (base.delete q (objs h)) Hwf Hq)
    as (i & Hi & Hqi & Hdel).
  exists i. split_and!; [done..|].
  destruct h as [a o nc na], d as [b l u r g]. simpl in *.
  destruct v; simpl;
    unfold COW_Unsafe.dtor, COW_AtomicInt.dtor, COW_CritSec.dtor,
      COW_Mutex.dtor, COW_AtomicInt.decrement_refs, Lock.ctor, Lock.Unlock,
      IntAtomicDecrement, COW.delete;
    heap_simpl;
    rewrite ?Nat.add_sub, ?insert_insert_eq;
    (destruct (decide (r - 1 < 1)%Z) as [Hr|Hr];
     [ rewrite ?bool_decide_eq_true_2 by done
     | rewrite ?bool_decide_eq_false_2 by done ]);
    heap_simpl; rewrite ?delete_insert_eq; try done;
    unfold set_objs in Hdel; simpl in Hdel; by rewrite Hdel.
Qed.

(** [Clear]: a string on a shared buffer leaves it for an empty one. *)
Lemma Clear_eq (sz : nat) (v : variant) (h : heap) (q : Z) (d : StringBuf) :
  objs h !! q = Some d →
  Clear (String_of sz v) (mkString q) h
  = if decide (refs d > 1)%Z
    then match operator_new sz h with
         | Ok (p, h1) =>
             Ok (mkString p,
                 set_objs h1 (<[p := mkStringBuf None 0 0 1 0]>
                                (<[q := set_refs d (refs d - 1)]> (objs h))))
         | bad_alloc => bad_alloc
         | Undef => Undef
         end
    else Ok (mkString q,
             set_objs h (<[q := mkStringBuf None 0 0 1 (baggage d)]> (objs h))).
Proof.
  intros Hq.
  pose proof (operator_new_set_objs sz h) as Hnew.
  destruct h as [a o nc na], d as [b l u r g]. simpl in *.
  destruct v; simpl;
    unfold COW_Unsafe.Clear, COW_AtomicInt.Clear, COW_CritSec.Clear,
      COW_Mutex.Clear, COW_AtomicInt.decrement_refs, Lock.ctor, Lock.Unlock,
      IntAtomicDecrement, StringBuf_Clear, new_StringBuf;
    heap_simpl;
    rewrite ?Nat.add_sub, ?insert_insert_eq;
    (destruct (decide (r > 1)%Z) as [Hr|Hr];
     [ rewrite ?(decide_False (P := (r - 1 < 1)%Z)) by lia
     | rewrite ?(decide_True (P := (r - 1 < 1)%Z)) by lia ]);
    heap_simpl; rewrite ?Nat.add_sub, ?insert_insert_eq; try done;
    match goal with
    | |- context [operator_new sz (mkHeap a ?o' nc na)] =>
        change (mkHeap a o' nc na) with (set_objs (mkHeap a o nc na) o');
        rewrite Hnew
    end;
    by destruct (operator_new sz _) as [[p [a1 o1 nc1 na1]]| |].
Qed.

(** *** How the operations keep the heap well formed *)

Lemma heap_wf_update (sz : nat) (h h' : heap) :
  heap_wf sz h → fa h' = fa h →
  (∀ r x, objs h' !! r = Some x → buf_wf x ∧ is_Some (objs h !! r)) →
  heap_wf sz h'.
Proof.
  intros (Hfa & Hsz & Ho) Ha Hlive. rewrite <- Ha in Hfa, Hsz.
  split_and!; [done..|]. intros r x Hx.
  destruct (Hlive r x Hx) as [Hbw [y Hy]]. split; [done|].
  rewrite Ha. by destruct (Ho r y Hy).
Qed.

Lemma heap_wf_alloc (sz : nat) (h h1 h' : heap) (p : Z) :
  heap_wf sz h → operator_new sz h = Ok (p, h1) → fa h' = fa h1 →
  (∀ r x, objs h' !! r = Some x → buf_wf x ∧ (r = p ∨ is_Some (objs h !! r))) →
  heap_wf sz h'.
Proof.
  intros Hwf Hnew Ha Hlive.
  destruct (operator_new_Ok _ _ _ _ Hwf Hnew)
    as (_ & _ & _ & _ & i & Hi & Hfree & -> & Hfa1).
  destruct Hwf as (Hfa & Hsz & Ho). unfold heap_wf. rewrite Ha, Hfa1.
  assert (Hlen : i < length (FastArena.hdr (fa h))) by (destruct Hfa as [-> _]; done).
  split_and!.
  - apply set_hdr_wf; [done | by rewrite length_insert].
  - done.
  - intros r x Hx. destruct (Hlive r x Hx) as [Hbw Hr]. split; [done|].
    destruct Hr as [->|[y Hy]].
    + exists i. split_and!; [done | done |].
      exists 1%Z. split; [by apply list_lookup_insert_eq | done].
    + destruct (Ho r y Hy) as (_ & j & Hj & -> & z & Hz & Hznz).
      exists j. split_and!; [done | done |].
      destruct (decide (j = i)) as [->|Hne].
      * exists 1%Z. split; [by apply list_lookup_insert_eq | done].
      * exists z. split; [|done]. simpl. by rewrite list_lookup_insert_ne.
Qed.

Lemma heap_wf_free (sz : nat) (h h' : heap) (i : nat) :
  heap_wf sz h → i < FastArena.size →
  fa h' = FastArena.set_hdr (fa h)
            (alter IntAtomicDecrement i (FastArena.hdr (fa h))) →
  (∀ r x, objs h' !! r = Some x →
          buf_wf x ∧ r ≠ FastArena.payload (fa h) i ∧ is_Some (objs h !! r)) →
  heap_wf sz h'.
Proof.
  intros (Hfa & Hsz & Ho) Hi Ha Hlive. unfold heap_wf. rewrite Ha.
  split_and!.
  - apply set_hdr_wf; [done | by rewrite length_alter].
  - done.
  - intros r x Hx. destruct (Hlive r x Hx) as (Hbw & Hne & [y Hy]).
    split; [done|].
    destruct (Ho r y Hy) as (_ & j & Hj & -> & z & Hz & Hznz).
    exists j. split_and!; [done | done |].
    exists z. split; [|done]. simpl. rewrite list_lookup_alter_ne; [done|].
    intros ->. done.
Qed.

Lemma cloned_buf_wf (d : StringBuf) (n : nat) : buf_wf d → buf_wf (cloned d n).
Proof.
  intros [Hu Hb]. pose proof (round4_ge (Nat.max (len d) n)).
  split; unfold cloned; simpl; [lia|].
  case_decide; [done|]. by rewrite length_replicate.
Qed.

Lemma appended_buf_wf (d : StringBuf) (c : ascii) :
  buf_wf d → used d < len d → buf_wf (appended d c).
Proof.
  intros [Hu Hb] Hlt. split; unfold appended; simpl; [lia|].
  rewrite length_insert. destruct (buf d); simpl in *; [done | lia].
Qed.

Lemma set_refs_buf_wf (d : StringBuf) (k : Z) : buf_wf d → buf_wf (set_refs d k).
Proof. by intros [? ?]. Qed.

Lemma accounted_live (sz : nat) (env : list (option String)) (h : heap)
      (i : nat) (q : Z) :
  accounted sz env h → env !! i = Some (Some (mkString q)) →
  ∃ d, objs h !! q = Some d ∧ buf_wf d.
Proof.
  intros [Hwf [_ Hlive]] Hi.
  destruct (Hlive q (owners_lookup data_ env i _ Hi)) as [d Hd].
  exists d. split; [done | by eapply heap_wf_buf].
Qed.

(** *** Each operation keeps the counts right *)

Lemma accounted_ctor (sz : nat) (env : list (option String)) (h h' : heap)
      (s : String) :
  accounted sz env h → String_ctor sz h = Ok (s, h') →
  accounted sz (env ++ [Some s]) h'.
Proof.
  intros [Hwf Hc]. rewrite String_ctor_eq.
  destruct (operator_new sz h) as [[p h1]| |] eqn:Hnew; [|done..].
  intros [= <- <-].
  destruct (operator_new_Ok _ _ _ _ Hwf Hnew) as (Hp & Ho1 & _).
  split.
  - apply (heap_wf_alloc sz h h1 _ p Hwf Hnew); [done|].
    intros r x Hx. cbn in Hx. rewrite Ho1 in Hx.
    apply lookup_insert_Some in Hx as [[<- <-]|[Hne Hx]].
    + split; [by split | by left].
    + split; [by eapply heap_wf_buf | right; eauto].
  - cbn. rewrite Ho1.
    eapply (counted_new data_ refs env (objs h) _ (mkString p));
      [done | done | apply lookup_insert_eq | by left |].
    intros r Hr. by rewrite lookup_insert_ne.
Qed.

Lemma accounted_copy (sz : nat) (v : variant) (env : list (option String))
      (h h' : heap) (i : nat) (s s' : String) :
  accounted sz env h → env !! i = Some (Some s) →
  copy_ctor (String_of sz v) s h = Ok (s', h') →
  accounted sz (env ++ [Some s']) h'.
Proof.
  intros Hacc Hi. destruct s as [q].
  destruct (accounted_live _ _ _ _ _ Hacc Hi) as (d & Hq & Hbw).
  destruct Hacc as [Hwf Hc].
  destruct (decide (refs d > 0)%Z) as [Hr|Hr].
  - rewrite (copy_ctor_shares sz v h (mkString q) d Hq Hr).
    intros [= <- <-]. split.
    + apply (heap_wf_update sz h); [done | done |].
      intros r x Hx. cbn in Hx.
      apply lookup_insert_Some in Hx as [[<- <-]|[Hne Hx]].
      * split; [by apply set_refs_buf_wf | eauto].
      * split; [by eapply heap_wf_buf | eauto].
    + cbn. eapply (counted_share data_ refs env (objs h) _ (mkString q) d);
        [done | done | done | apply lookup_insert_eq | done |].
      intros r Hne. by rewrite lookup_insert_ne.
  - rewrite (copy_ctor_clones sz v h q d Hwf Hq) by lia.
    destruct (operator_new sz h) as [[p h1]| |] eqn:Hnew; [|done..].
    intros [= <- <-].
    destruct (operator_new_Ok _ _ _ _ Hwf Hnew) as (Hp & Ho1 & _).
    split.
    + apply (heap_wf_alloc sz h h1 _ p Hwf Hnew); [done|].
      intros r x Hx. cbn in Hx.
      apply lookup_insert_Some in Hx as [[<- <-]|[Hne Hx]].
      * split; [by apply cloned_buf_wf | by left].
      * split; [by eapply heap_wf_buf | right; eauto].
    + cbn. eapply (counted_new data_ refs env (objs h) _ (mkString p));
      [done | done | apply lookup_insert_eq | by left |].
      intros r Hne. by rewrite lookup_insert_ne.
Qed.

Lemma accounted_dtor (sz : nat) (v : variant) (env : list (option String))
      (h h' : heap) (i : nat) (s : String) (u : unit) :
  accounted sz env h → env !! i = Some (Some s) →
  dtor (String_of sz v) s h = Ok (u, h') →
  accounted sz (<[i := None]> env) h'.
Proof.
  intros Hacc Hi. destruct s as [q].
  destruct (accounted_live _ _ _ _ _ Hacc Hi) as (d & Hq & Hbw).
  destruct Hacc as [Hwf Hc].
  destruct (dtor_eq sz v h q d Hwf Hq) as (j & Hj & Hpay & ->).
  case_decide as Hr; intros [= <- <-]; split.
  - apply (heap_wf_free sz h _ j Hwf Hj); [reflexivity|].
    intros r x Hx. cbn in Hx. apply lookup_delete_Some in Hx as [Hne Hx].
    split_and!; [by eapply heap_wf_buf | congruence | eauto].
  - cbn. eapply (counted_release_delete data_ refs env (objs h) _ i (mkString q) d);
      [done | done | done | done | apply lookup_delete_eq |].
    intros r Hne. by rewrite lookup_delete_ne.
  - apply (heap_wf_update sz h); [done | done |].
    intros r x Hx. cbn in Hx.
    apply lookup_insert_Some in Hx as [[<- <-]|[Hne Hx]].
    + split; [by apply set_refs_buf_wf | eauto].
    + split; [by eapply heap_wf_buf | eauto].
  - cbn. eapply (counted_release_keep data_ refs env (objs h) _ i (mkString q) d);
      [done | done | done | done | apply lookup_insert_eq | done |].
    intros r Hne. by rewrite lookup_insert_ne.
Qed.

Lemma accounted_detach (sz : nat) (env : list (option String)) (h h1 : heap)
      (i : nat) (q p : Z) (d dp : StringBuf) (o' : gmap Z StringBuf) (h' : heap) :
  accounted sz env h → env !! i = Some (Some (mkString q)) →
  objs h !! q = Some d → (refs d > 1)%Z →
  operator_new sz h = Ok (p, h1) → buf_wf dp → (refs dp = 1 ∨ refs dp = -1)%Z →
  fa h' = fa h1 →
  objs h' = <[p := dp]> (<[q := set_refs d (refs d - 1)]> o') →
  (∀ r, r ≠ p → r ≠ q → o' !! r = objs h !! r) →
  accounted sz (<[i := Some (mkString p)]> env) h'.
Proof.
  intros [Hwf Hc] Hi Hq Hr Hnew Hdp Hrp Hfa Ho' Hsame.
  destruct (operator_new_Ok _ _ _ _ Hwf Hnew) as (Hp & Ho1 & _).
  assert (Hpq : p ≠ q) by congruence.
  split.
  - apply (heap_wf_alloc sz h h1 _ p Hwf Hnew); [done|].
    intros r x Hx. rewrite Ho' in Hx.
    apply lookup_insert_Some in Hx as [[<- <-]|[Hne Hx]]; [by split; [|left]|].
    apply lookup_insert_Some in Hx as [[<- <-]|[Hne' Hx]].
    + split; [|right; eauto]. apply set_refs_buf_wf. by eapply heap_wf_buf.
    + rewrite Hsame in Hx by done. split; [by eapply heap_wf_buf | right; eauto].
  - rewrite Ho'.
    eapply (counted_detach data_ refs env (objs h) _ i (mkString q) (mkString p) d
              (set_refs d (refs d - 1)) dp);
      [done | done | done | done | done | | done | apply lookup_insert_eq | done |].
    + rewrite lookup_insert_ne by done. apply lookup_insert_eq.
    + intros r Hn1 Hn2. rewrite !lookup_insert_ne by done. by apply Hsame.
Qed.

Lemma accounted_inplace (sz : nat) (env : list (option String)) (h h' : heap)
      (i : nat) (q : Z) (d d' : StringBuf) :
  accounted sz env h → env !! i = Some (Some (mkString q)) →
  objs h !! q = Some d → (refs d ≤ 1)%Z →
  buf_wf d' → (refs d' = 1 ∨ refs d' = -1)%Z →
  fa h' = fa h → objs h' = <[q := d']> (objs h) →
  accounted sz (<[i := Some (mkString q)]> env) h'.
Proof.
  intros [Hwf Hc] Hi Hq Hr Hd' Hrd Hfa Ho'.
  rewrite list_insert_id by done. split.
  - apply (heap_wf_update sz h); [done | done |].
    intros r x Hx. rewrite Ho' in Hx.
    apply lookup_insert_Some in Hx as [[<- <-]|[Hne Hx]]; [eauto|].
    split; [by eapply heap_wf_buf | eauto].
  - rewrite Ho'.
    eapply (counted_inplace data_ refs env (objs h) _ q d d');
      [done | done | done | apply lookup_insert_eq | done |].
    intros r Hne. by rewrite lookup_insert_ne.
Qed.

Lemma accounted_Clear (sz : nat) (v : variant) (env : list (option String))
      (h h' : heap) (i : nat) (s s' : String) :
  accounted sz env h → env !! i = Some (Some s) →
  Clear (String_of sz v) s h = Ok (s', h') →
  accounted sz (<[i := Some s']> env) h'.
Proof.
  intros Hacc Hi. destruct s as [q].
  destruct (accounted_live _ _ _ _ _ Hacc Hi) as (d & Hq & Hbw).
  rewrite (Clear_eq sz v h q d Hq). case_decide as Hr.
  - destruct (operator_new sz h) as [[p h1]| |] eqn:Hnew; [|done..].
    intros [= <- <-].
    eapply (accounted_detach sz env h h1 i q p d (mkStringBuf None 0 0 1 0));
      [done | done | done | done | done | by split | by left | done | done | done].
  - intros [= <- <-].
    eapply (accounted_inplace sz env h _ i q d (mkStringBuf None 0 0 1 (baggage d)));
      [done | done | done | lia | by split | by left | done | done].
Qed.

Lemma accounted_Append (sz : nat) (v : variant) (env : list (option String))
      (h h' : heap) (i : nat) (s s' : String) (c : ascii) :
  accounted sz env h → env !! i = Some (Some s) →
  Append (String_of sz v) s c h = Ok (s', h') →
  accounted sz (<[i := Some s']> env) h'.
Proof.
  intros Hacc Hi. destruct s as [q].
  destruct (accounted_live _ _ _ _ _ Hacc Hi) as (d & Hq & Hbw).
  destruct (decide (refs d > 1)%Z) as [Hr|Hr].
  - rewrite (Append_shared sz v h q d c (proj1 Hacc) Hq Hr).
    destruct (operator_new sz h) as [[p h1]| |] eqn:Hnew; [|done..].
    intros [= <- <-].
    eapply (accounted_detach sz env h h1 i q p d
              (appended (cloned d (used d + 1)) c) (<[p := cloned d (used d + 1)]> (objs h)));
      [done | done | done | done | done | | by left | done | | ].
    + apply appended_buf_wf; [by apply cloned_buf_wf|].
      pose proof (round4_ge (Nat.max (len d) (used d + 1))).
      unfold cloned; simpl. lia.
    + unfold detached. cbn. done.
    + intros r Hn1 Hn2. by rewrite lookup_insert_ne.
  - rewrite (Append_unshared sz v h q d c Hq) by (done || lia).
    intros [= <- <-].
    eapply (accounted_inplace sz env h _ i q d
              (appended (set_refs (reserved d (used d + 1)) 1) c));
      [done | done | done | lia | | by left | done | done].
    pose proof (reserved_len d (used d + 1)). pose proof (reserved_used d (used d + 1)).
    apply appended_buf_wf; [by apply set_refs_buf_wf, reserved_wf|].
    simpl. lia.
Qed.

Lemma accounted_index (sz : nat) (v : variant) (env : list (option String))
      (h h' : heap) (i n : nat) (s : String) (r : String * charref) :
  accounted sz env h → env !! i = Some (Some s) →
  index (String_of sz v) s n h = Ok (r, h') →
  accounted sz (<[i := Some r.1]> env) h'.
Proof.
  intros Hacc Hi. destruct s as [q].
  destruct (accounted_live _ _ _ _ _ Hacc Hi) as (d & Hq & Hbw).
  destruct (decide (refs d > 1)%Z) as [Hr|Hr].
  - rewrite (index_shared sz v h q d n (proj1 Hacc) Hq Hr).
    destruct (operator_new sz h) as [[p h1]| |] eqn:Hnew; [|done..].
    intros [= <- <-].
    eapply (accounted_detach sz env h h1 i q p d
              (set_refs (cloned d (len d)) (-1)) (<[p := cloned d (len d)]> (objs h)));
      [done | done | done | done | done | | by right | done | | ].
    + by apply set_refs_buf_wf, cloned_buf_wf.
    + unfold detached. cbn. done.
    + intros r Hn1 Hn2. by rewrite lookup_insert_ne.
  - rewrite (index_unshared sz v h q d n Hq) by (done || lia).
    intros [= <- <-].
    eapply (accounted_inplace sz env h _ i q d (set_refs d (-1)));
      [done | done | done | lia | by apply set_refs_buf_wf | by right | done | done].
Qed.

Lemma live_Ok (env : list (option String)) (i : nat) (s : String) (h h' : heap) :
  script.live env i h = Ok (s, h') → env !! i = Some (Some s) ∧ h' = h.
Proof.
  unfold script.live. destruct (env !! i) as [[s0|]|]; [|done..].
  by intros [= -> ->].
Qed.

Lemma read_Ok (r : charref) (x : cell) (h h' : heap) :
  read r h = Ok (x, h') → h' = h.
Proof.
  unfold read, bind, load. destruct (objs h !! obj r) as [d|]; [|done].
  destruct (buf d) as [a|]; [|done]. destruct (a !! off r); [|done].
  by intros [= _ ->].
Qed.

Lemma Length_Ok (s : String) (n : nat) (h h' : heap) :
  Length s h = Ok (n, h') → h' = h.
Proof.
  unfold Length, bind, load. destruct (objs h !! data_ s) as [d|]; [|done].
  by intros [= _ ->].
Qed.

(** One operation of a program keeps the counts right. *)
Lemma accounted_step (sz : nat) (v : variant) (o : script.op)
      (env env' : list (option String)) (os : list script.obs) (h h' : heap) :
  accounted sz env h →
  script.step (script.COW_class sz v) o env h = Ok ((env', os), h') →
  accounted sz env' h'.
Proof.
  intros Hacc. destruct o as [|i|i|i|i c|i n|i]; cbn [script.step].
  - intros H. apply bind_Ok in H as (s & h1 & Hs & [= <- _ <-]).
    by eapply accounted_ctor.
  - intros H. apply bind_Ok in H as (s & h0 & Hl & H).
    apply live_Ok in Hl as [Hi ->].
    apply bind_Ok in H as (s' & h1 & Hs & [= <- _ <-]).
    exact (accounted_copy sz v _ _ _ _ _ _ Hacc Hi Hs).
  - intros H. apply bind_Ok in H as (s & h0 & Hl & H).
    apply live_Ok in Hl as [Hi ->].
    apply bind_Ok in H as (u & h1 & Hs & [= <- _ <-]).
    exact (accounted_dtor sz v _ _ _ _ _ _ Hacc Hi Hs).
  - intros H. apply bind_Ok in H as (s & h0 & Hl & H).
    apply live_Ok in Hl as [Hi ->].
    apply bind_Ok in H as (s' & h1 & Hs & [= <- _ <-]).
    exact (accounted_Clear sz v _ _ _ _ _ _ Hacc Hi Hs).
  - intros H. apply bind_Ok in H as (s & h0 & Hl & H).
    apply live_Ok in Hl as [Hi ->].
    apply bind_Ok in H as (s' & h1 & Hs & [= <- _ <-]).
    exact (accounted_Append sz v _ _ _ _ _ _ _ Hacc Hi Hs).
  - intros H. apply bind_Ok in H as (s & h0 & Hl & H).
    apply live_Ok in Hl as [Hi ->].
    apply bind_Ok in H as (r & h1 & Hs & [= <- _ <-]).
    cbn in Hs. apply bind_Ok in Hs as (r0 & h2 & Hidx & Hs).
    apply bind_Ok in Hs as (x & h3 & Hrd & [= <- <-]).
    apply read_Ok in Hrd as ->.
    exact (accounted_index sz v _ _ _ _ _ _ _ Hacc Hi Hidx).
  - intros H. apply bind_Ok in H as (s & h0 & Hl & H).
    apply live_Ok in Hl as [Hi ->].
    apply bind_Ok in H as (n & h1 & Hs & [= <- _ <-]).
    cbn in Hs. by apply Length_Ok in Hs as ->.
Qed.

(** A program keeps the counts right. *)
Lemma accounted_exec (sz : nat) (v : variant) (p : list script.op)
      (env env' : list (option String)) (h h' : heap) :
  accounted sz env h →
  script.exec (script.COW_class sz v) p env h = Ok (env', h') →
  accounted sz env' h'.
Proof.
  revert env h. induction p as [|o p IH]; intros env h Hacc; cbn [script.exec].
  - by intros [= <- <-].
  - intros H. apply bind_Ok in H as ([env1 os] & h1 & Hstep & H).
    eapply IH; [|exact H]. by eapply accounted_step.
Qed.

Lemma accounted_start (sz : nat) (base : Z) :
  (0 < base)%Z → accounted sz [] (start sz base).
Proof.
  intros Hb. split.
  - split_and!.
    + by apply ctor_wf.
    + apply ctor_n_.
    + intros p d Hp. cbn in Hp. by rewrite lookup_empty in Hp.
  - split.
    + intros q d Hq. cbn in Hq. by rewrite lookup_empty in Hq.
    + intros q Hq. simpl in Hq. lia.
Qed.

Lemma heap_shared_accounted :
  accounted 16 [Some (mkString 4100); Some (mkString 4100)] heap_shared.
Proof.
  apply (accounted_exec 16 Unsafe
           [script.Construct; script.Append 0 "X"; script.Copy 0] []
           _ (start 16 4096)); [apply accounted_start; lia|].
  vm_compute. reflexivity.
Qed.

(** X1. In the four namespaces of common-test.h reference counting is
    sound: every state that a program of public operations reaches from
    the empty heap is well formed, and each [refs] in it is the number of
    strings that hold the buffer, or -1 on a buffer held by one string. *)
Theorem programs_keep_reference_counts (sz : nat) (v : variant) (base : Z)
      (p : list script.op) (env : list (option String)) (h : heap) :
  (0 < base)%Z →
  script.exec (script.COW_class sz v) p [] (start sz base) = Ok (env, h) →
  accounted sz env h.
Proof.
  intros Hb. apply (accounted_exec sz v p [] env). by apply accounted_start.
Qed.

Lemma programs_keep_reference_counts_witness :
  accounted 16 [Some (mkString 4100); Some (mkString 4100)] heap_shared.
Proof.
  apply (programs_keep_reference_counts 16 Mutex 4096
           [script.Construct; script.Append 0 "X"; script.Copy 0]).
  - lia.
  - vm_compute. reflexivity.
Defined.

(** Two strings that hold the same buffer find a [refs] above 1 in it. *)
Lemma shared_buffer_is_counted (sz : nat) (env : list (option String))
      (h : heap) (i j : nat) (s1 s2 : String) :
  accounted sz env h → i ≠ j →
  env !! i = Some (Some s1) → env !! j = Some (Some s2) →
  data_ s1 = data_ s2 →
  heap_wf sz h ∧ ∃ d, objs h !! data_ s2 = Some d ∧ (refs d > 1)%Z.
Proof.
  intros [Hwf Hc] Hij Hi Hj Hd. split; [done|].
  by apply (counted_shared data_ refs env (objs h) i j s1 s2).
Qed.

End accounting_facts.


(** ** Reference counting is sound in COW_AtomicInt2 *)

Section AtomicInt2_accounting_facts.

Import COW_AtomicInt2 accounting.

(** *** The remaining member functions *)

Lemma String_ctor_run2 (h : heap) :
  ∃ h', String_ctor h = Ok (mkString (fresh (dom (mem h))), h')
        ∧ mem h' = <[fresh (dom (mem h)) := mkGlom (mkStringBuf 0 0 1) []]> (mem h).
Proof. by eexists. Qed.

Lemma dtor_run2 (h : heap) (q : positive) (x : glom) :
  mem h !! q = Some x →
  ∃ h', dtor (mkString q) h = Ok (tt, h')
        ∧ mem h' = if decide (REFS x - 1 < 1)%Z then delete q (mem h)
                   else <[q := set_REFS x (REFS x - 1)]> (mem h).
Proof.
  intros Hq. destruct h as [m nc na], x as [[l u r] b]. simpl in Hq.
  unfold dtor. glom_simpl. unfold IntAtomicDecrement.
  destruct (decide (r - 1 < 1)%Z); glom_simpl; eexists; (split; [done|]); simpl;
    [by rewrite delete_insert_eq | done].
Qed.

Lemma Clear_run2 (h : heap) (q : positive) (x : glom) :
  mem h !! q = Some x →
  ∃ h', Clear (mkString q) h = Ok (mkString (fresh (dom (mem h))), h')
        ∧ mem h' !! fresh (dom (mem h)) = Some (mkGlom (mkStringBuf 0 0 1) [])
        ∧ mem h' !! q = (if decide (REFS x - 1 < 1)%Z then None
                         else Some (set_REFS x (REFS x - 1)))
        ∧ ∀ r, r ≠ fresh (dom (mem h)) → r ≠ q → mem h' !! r = mem h !! r.
Proof.
  intros Hq. pose proof (fresh_not_live h) as Hf.
  assert (Hne : fresh (dom (mem h)) ≠ q) by congruence.
  destruct (String_ctor_run2 h) as (h1 & Hctor & Hm1).
  assert (Hq1 : mem h1 !! q = Some x) by (by rewrite Hm1, lookup_insert_ne).
  destruct (dtor_run2 h1 q x Hq1) as (h2 & Hdtor & Hm2).
  exists h2. unfold Clear, bind. rewrite Hctor. unfold Swap. cbn [fst snd].
  fold (bind (dtor (mkString q)) (λ _, ret (mkString (fresh (dom (mem h))))) h1).
  unfold bind. rewrite Hdtor. split; [done|]. rewrite Hm2, Hm1.
  case_decide.
  - split_and!.
    + rewrite lookup_delete_ne by done. apply lookup_insert_eq.
    + apply lookup_delete_eq.
    + intros r Hr1 Hr2. by rewrite lookup_delete_ne, lookup_insert_ne.
  - split_and!.
    + rewrite lookup_insert_ne by done. apply lookup_insert_eq.
    + apply lookup_insert_eq.
    + intros r Hr1 Hr2. by rewrite !lookup_insert_ne.
Qed.

Lemma set_REFS_wf (x : glom) (k : Z) : glom_wf x → glom_wf (set_REFS x k).
Proof. by intros [? ?]. Qed.

Lemma appended_wf (x : glom) (c : ascii) :
  glom_wf x → USED x < LEN x → glom_wf (appended x c).
Proof.
  intros [Hu Hl] Hlt. destruct x as [[l u r] b].
  unfold glom_wf, appended, set_USED, set_BUF, USED, LEN in *. simpl in *.
  rewrite length_insert. lia.
Qed.

Lemma accounted_live2 (env : list (option String)) (h : heap) (i : nat)
      (q : positive) :
  AtomicInt2_accounted env h → env !! i = Some (Some (mkString q)) →
  ∃ x, mem h !! q = Some x ∧ glom_wf x.
Proof.
  intros [Hwf [_ Hlive]] Hi.
  destruct (Hlive q (owners_lookup data_ env i _ Hi)) as [x Hx].
  exists x. split; [done|]. by apply (map_Forall_lookup_1 _ _ _ _ Hwf Hx).
Qed.

(** *** The four ways in which an operation changes the buffers *)

Lemma accounted_new2 (env : list (option String)) (h h' : heap) (p : positive)
      (dp : glom) :
  AtomicInt2_accounted env h → mem h !! p = None → glom_wf dp →
  (REFS dp = 1 ∨ REFS dp = -1)%Z → mem h' = <[p := dp]> (mem h) →
  AtomicInt2_accounted (env ++ [Some (mkString p)]) h'.
Proof.
  intros [Hwf Hc] Hp Hdp Hr Hm. unfold AtomicInt2_accounted. rewrite Hm. split.
  - by apply map_Forall_insert_2.
  - eapply (counted_new data_ REFS env (mem h) _ (mkString p));
      [done | done | apply lookup_insert_eq | done |].
    intros r Hne. by rewrite lookup_insert_ne.
Qed.

Lemma accounted_detach2 (env : list (option String)) (h h' : heap) (i : nat)
      (q p : positive) (x dp : glom) :
  AtomicInt2_accounted env h → env !! i = Some (Some (mkString q)) →
  mem h !! q = Some x → (REFS x > 1)%Z → mem h !! p = None →
  glom_wf dp → (REFS dp = 1 ∨ REFS dp = -1)%Z →
  mem h' !! p = Some dp → mem h' !! q = Some (set_REFS x (REFS x - 1)) →
  (∀ r, r ≠ p → r ≠ q → mem h' !! r = mem h !! r) →
  AtomicInt2_accounted (<[i := Some (mkString p)]> env) h'.
Proof.
  intros [Hwf Hc] Hi Hq Hr Hp Hdp Hrp Hp' Hq' Hsame. split.
  - apply map_Forall_lookup_2. intros r y Hy.
    destruct (decide (r = p)) as [->|Hn1]; [congruence|].
    destruct (decide (r = q)) as [->|Hn2].
    + replace y with (set_REFS x (REFS x - 1)) by congruence.
      apply set_REFS_wf. by apply (map_Forall_lookup_1 _ _ _ _ Hwf Hq).
    + rewrite Hsame in Hy by done. by apply (map_Forall_lookup_1 _ _ _ _ Hwf Hy).
  - by eapply (counted_detach data_ REFS env (mem h) _ i (mkString q) (mkString p) x
                 (set_REFS x (REFS x - 1)) dp).
Qed.

Lemma accounted_move2 (env : list (option String)) (h h' : heap) (i : nat)
      (q p : positive) (x dp : glom) :
  AtomicInt2_accounted env h → env !! i = Some (Some (mkString q)) →
  mem h !! q = Some x → (REFS x ≤ 1)%Z → mem h !! p = None →
  glom_wf dp → (REFS dp = 1 ∨ REFS dp = -1)%Z →
  mem h' !! p = Some dp → mem h' !! q = None →
  (∀ r, r ≠ p → r ≠ q → mem h' !! r = mem h !! r) →
  AtomicInt2_accounted (<[i := Some (mkString p)]> env) h'.
Proof.
  intros [Hwf Hc] Hi Hq Hr Hp Hdp Hrp Hp' Hq' Hsame. split.
  - apply map_Forall_lookup_2. intros r y Hy.
    destruct (decide (r = p)) as [->|Hn1]; [congruence|].
    destruct (decide (r = q)) as [->|Hn2]; [congruence|].
    rewrite Hsame in Hy by done. by apply (map_Forall_lookup_1 _ _ _ _ Hwf Hy).
  - by eapply (counted_move data_ REFS env (mem h) _ i (mkString q) (mkString p) x dp).
Qed.

Lemma accounted_inplace2 (env : list (option String)) (h h' : heap) (i : nat)
      (q : positive) (x x' : glom) :
  AtomicInt2_accounted env h → env !! i = Some (Some (mkString q)) →
  mem h !! q = Some x → (REFS x ≤ 1)%Z →
  glom_wf x' → (REFS x' = 1 ∨ REFS x' = -1)%Z →
  mem h' = <[q := x']> (mem h) →
  AtomicInt2_accounted (<[i := Some (mkString q)]> env) h'.
Proof.
  intros [Hwf Hc] Hi Hq Hr Hx' Hrx Hm.
  rewrite list_insert_id by done. unfold AtomicInt2_accounted. rewrite Hm. split.
  - by apply map_Forall_insert_2.
  - eapply (counted_inplace data_ REFS env (mem h) _ q x x');
      [done | done | done | apply lookup_insert_eq | done |].
    intros r Hne. by rewrite lookup_insert_ne.
Qed.

(** *** Each operation keeps the counts right *)

Lemma accounted_ctor2 (env : list (option String)) (h h' : heap) (s : String) :
  AtomicInt2_accounted env h → String_ctor h = Ok (s, h') →
  AtomicInt2_accounted (env ++ [Some s]) h'.
Proof.
  intros Hacc. destruct (String_ctor_run2 h) as (h1 & -> & Hm).
  intros [= <- <-].
  by apply (accounted_new2 env h h1 _ (mkGlom (mkStringBuf 0 0 1) []) Hacc
              (fresh_not_live h)); [split | left |].
Qed.

Lemma accounted_copy2 (env : list (option String)) (h h' : heap) (i : nat)
      (s s' : String) :
  AtomicInt2_accounted env h → env !! i = Some (Some s) →
  copy_ctor s h = Ok (s', h') →
  AtomicInt2_accounted (env ++ [Some s']) h'.
Proof.
  intros Hacc Hi. destruct s as [q].
  destruct (accounted_live2 _ _ _ _ Hacc Hi) as (x & Hq & Hwx).
  destruct (decide (REFS x > 0)%Z) as [Hr|Hr].
  - rewrite (copy_ctor_shares2 h (mkString q) x Hq Hr). intros [= <- <-].
    destruct Hacc as [Hwf Hc]. split.
    + cbn. apply map_Forall_insert_2; [by apply set_REFS_wf | done].
    + cbn. eapply (counted_share data_ REFS env (mem h) _ (mkString q) x);
        [done | done | done | apply lookup_insert_eq | done |].
      intros r Hne. by rewrite lookup_insert_ne.
  - rewrite (copy_ctor_clones2 h q x Hq) by (done || lia). intros [= <- <-].
    by apply (accounted_new2 env h _ _ (cloned x 0) Hacc (fresh_not_live h));
      [apply cloned_wf | left |].
Qed.

Lemma accounted_dtor2 (env : list (option String)) (h h' : heap) (i : nat)
      (s : String) (u : unit) :
  AtomicInt2_accounted env h → env !! i = Some (Some s) →
  dtor s h = Ok (u, h') →
  AtomicInt2_accounted (<[i := None]> env) h'.
Proof.
  intros Hacc Hi. destruct s as [q].
  destruct (accounted_live2 _ _ _ _ Hacc Hi) as (x & Hq & Hwx).
  destruct (dtor_run2 h q x Hq) as (h1 & -> & Hm). intros [= <- <-].
  destruct Hacc as [Hwf Hc]. unfold AtomicInt2_accounted. rewrite Hm.
  case_decide as Hr; split.
  - by apply map_Forall_delete.
  - eapply (counted_release_delete data_ REFS env (mem h) _ i (mkString q) x);
      [done | done | done | done | apply lookup_delete_eq |].
    intros r Hne. by rewrite lookup_delete_ne.
  - apply map_Forall_insert_2; [by apply set_REFS_wf | done].
  - eapply (counted_release_keep data_ REFS env (mem h) _ i (mkString q) x);
      [done | done | done | done | apply lookup_insert_eq | done |].
    intros r Hne. by rewrite lookup_insert_ne.
Qed.

Lemma accounted_Clear2 (env : list (option String)) (h h' : heap) (i : nat)
      (s s' : String) :
  AtomicInt2_accounted env h → env !! i = Some (Some s) →
  Clear s h = Ok (s', h') →
  AtomicInt2_accounted (<[i := Some s']> env) h'.
Proof.
  intros Hacc Hi. destruct s as [q].
  destruct (accounted_live2 _ _ _ _ Hacc Hi) as (x & Hq & Hwx).
  destruct (Clear_run2 h q x Hq) as (h1 & -> & Hp' & Hq' & Hsame).
  intros [= <- <-]. pose proof (fresh_not_live h) as Hf.
  case_decide as Hr.
  - by apply (accounted_move2 env h h1 i q _ x (mkGlom (mkStringBuf 0 0 1) []));
      [| | | lia | | split | left | | |].
  - by apply (accounted_detach2 env h h1 i q _ x (mkGlom (mkStringBuf 0 0 1) []));
      [| | | lia | | split | left | | |].
Qed.

Lemma accounted_Append2 (env : list (option String)) (h h' : heap) (i : nat)
      (s s' : String) (c : ascii) :
  AtomicInt2_accounted env h → env !! i = Some (Some s) →
  Append s c h = Ok (s', h') →
  AtomicInt2_accounted (<[i := Some s']> env) h'.
Proof.
  intros Hacc Hi. destruct s as [q].
  destruct (accounted_live2 _ _ _ _ Hacc Hi) as (x & Hq & Hwx).
  pose proof (fresh_not_live h) as Hf.
  assert (Hne : fresh (dom (mem h)) ≠ q) by congruence.
  destruct (cloned_len x (USED x + 1) Hwx) as (Hn & Hl & Hb & Hu).
  assert (Happ : ∀ k, glom_wf (appended (set_REFS (cloned x (USED x + 1)) k) c)).
  { intros k. apply appended_wf; [by apply set_REFS_wf, cloned_wf|].
    change (USED (cloned x (USED x + 1)) < LEN (cloned x (USED x + 1))). lia. }
  destruct (decide (REFS x > 1)%Z) as [Hr|Hr].
  - rewrite (Append_shared2 h q x c Hq Hr Hwx). intros [= <- <-].
    apply (accounted_detach2 env h _ i q _ x (appended (cloned x (USED x + 1)) c));
      [done | done | done | done | done | | by left | | |].
    + apply appended_wf; [by apply cloned_wf | lia].
    + cbn. apply lookup_insert_eq.
    + cbn. rewrite lookup_insert_ne by done. apply lookup_insert_eq.
    + intros r Hn1 Hn2. cbn. by rewrite !lookup_insert_ne.
  - rewrite (Append_unshared2 h q x c Hq) by (done || lia).
    case_decide as Hg; intros [= <- <-].
    + apply (accounted_move2 env h _ i q _ x
               (appended (set_REFS (cloned x (USED x + 1)) 1) c));
        [done | done | done | lia | done | done | by left | | |].
      * cbn. apply lookup_insert_eq.
      * cbn. rewrite lookup_insert_ne by done. apply lookup_delete_eq.
      * intros r Hn1 Hn2. cbn. by rewrite lookup_insert_ne, lookup_delete_ne.
    + apply (accounted_inplace2 env h _ i q x (appended (set_REFS x 1) c));
        [done | done | done | lia | | by left | done].
      apply appended_wf; [by apply set_REFS_wf|].
      destruct Hwx. change (USED x < LEN x). lia.
Qed.

Lemma accounted_index2 (env : list (option String)) (h h' : heap) (i n : nat)
      (s : String) (r : String * charref) :
  AtomicInt2_accounted env h → env !! i = Some (Some s) →
  index s n h = Ok (r, h') →
  AtomicInt2_accounted (<[i := Some r.1]> env) h'.
Proof.
  intros Hacc Hi. destruct s as [q].
  destruct (accounted_live2 _ _ _ _ Hacc Hi) as (x & Hq & Hwx).
  pose proof (fresh_not_live h) as Hf.
  assert (Hne : fresh (dom (mem h)) ≠ q) by congruence.
  destruct (decide (REFS x > 1)%Z) as [Hr|Hr].
  - rewrite (index_shared2 h q x n Hq Hr Hwx). intros [= <- <-].
    apply (accounted_detach2 env h _ i q _ x (set_REFS (cloned x (LEN x)) (-1)));
      [done | done | done | done | done | | by right | | |].
    + by apply set_REFS_wf, cloned_wf.
    + cbn. apply lookup_insert_eq.
    + cbn. rewrite lookup_insert_ne by done. apply lookup_insert_eq.
    + intros r Hn1 Hn2. cbn. by rewrite !lookup_insert_ne.
  - rewrite (index_unshared2 h q x n Hq) by (done || lia). intros [= <- <-].
    apply (accounted_inplace2 env h _ i q x (set_REFS x (-1)));
      [done | done | done | lia | by apply set_REFS_wf | by right | done].
Qed.

Lemma live_Ok2 (env : list (option String)) (i : nat) (s : String) (h h' : heap) :
  script.live env i h = Ok (s, h') → env !! i = Some (Some s) ∧ h' = h.
Proof.
  unfold script.live. destruct (env !! i) as [[s0|]|]; [|done..].
  by intros [= -> ->].
Qed.

Lemma read_Ok2 (r : charref) (x : cell) (h h' : heap) :
  read r h = Ok (x, h') → h' = h.
Proof.
  unfold read, bind, load. destruct (mem h !! obj r) as [d|]; [|done].
  unfold defined. destruct (BUF d !! off r); [|done]. by intros [= _ ->].
Qed.

Lemma Length_Ok2 (s : String) (n : nat) (h h' : heap) :
  Length s h = Ok (n, h') → h' = h.
Proof.
  unfold Length, bind, load. destruct (mem h !! data_ s) as [d|]; [|done].
  by intros [= _ ->].
Qed.

(** One operation of a program keeps the counts right. *)
Lemma accounted_step2 (o : script.op) (env env' : list (option String))
      (os : list script.obs) (h h' : heap) :
  AtomicInt2_accounted env h →
  script.step script.AtomicInt2_class o env h = Ok ((env', os), h') →
  AtomicInt2_accounted env' h'.
Proof.
  intros Hacc. destruct o as [|i|i|i|i c|i n|i]; cbn [script.step].
  - intros H. apply bind_Ok in H as (s & h1 & Hs & [= <- _ <-]).
    exact (accounted_ctor2 _ _ _ _ Hacc Hs).
  - intros H. apply bind_Ok in H as (s & h0 & Hl & H).
    apply live_Ok2 in Hl as [Hi ->].
    apply bind_Ok in H as (s' & h1 & Hs & [= <- _ <-]).
    exact (accounted_copy2 _ _ _ _ _ _ Hacc Hi Hs).
  - intros H. apply bind_Ok in H as (s & h0 & Hl & H).
    apply live_Ok2 in Hl as [Hi ->].
    apply bind_Ok in H as (u & h1 & Hs & [= <- _ <-]).
    exact (accounted_dtor2 _ _ _ _ _ _ Hacc Hi Hs).
  - intros H. apply bind_Ok in H as (s & h0 & Hl & H).
    apply live_Ok2 in Hl as [Hi ->].
    apply bind_Ok in H as (s' & h1 & Hs & [= <- _ <-]).
    exact (accounted_Clear2 _ _ _ _ _ _ Hacc Hi Hs).
  - intros H. apply bind_Ok in H as (s & h0 & Hl & H).
    apply live_Ok2 in Hl as [Hi ->].
    apply bind_Ok in H as (s' & h1 & Hs & [= <- _ <-]).
    exact (accounted_Append2 _ _ _ _ _ _ _ Hacc Hi Hs).
  - intros H. apply bind_Ok in H as (s & h0 & Hl & H).
    apply live_Ok2 in Hl as [Hi ->].
    apply bind_Ok in H as (r & h1 & Hs & [= <- _ <-]).
    cbn in Hs. apply bind_Ok in Hs as (r0 & h2 & Hidx & Hs).
    apply bind_Ok in Hs as (x & h3 & Hrd & [= <- <-]).
    apply read_Ok2 in Hrd as ->.
    exact (accounted_index2 _ _ _ _ _ _ _ Hacc Hi Hidx).
  - intros H. apply bind_Ok in H as (s & h0 & Hl & H).
    apply live_Ok2 in Hl as [Hi ->].
    apply bind_Ok in H as (n & h1 & Hs & [= <- _ <-]).
    cbn in Hs. by apply Length_Ok2 in Hs as ->.
Qed.

Lemma accounted_exec2 (p : list script.op) (env env' : list (option String))
      (h h' : heap) :
  AtomicInt2_accounted env h →
  script.exec script.AtomicInt2_class p env h = Ok (env', h') →
  AtomicInt2_accounted env' h'.
Proof.
  revert env h. induction p as [|o p IH]; intros env h Hacc; cbn [script.exec].
  - by intros [= <- <-].
  - intros H. apply bind_Ok in H as ([env1 os] & h1 & Hstep & H).
    eapply IH; [|exact H]. by eapply accounted_step2.
Qed.

Lemma heap_shared_accounted2 :
  AtomicInt2_accounted [Some (mkString 2); Some (mkString 2)] heap_shared.
Proof.
  apply (accounted_exec2
           [script.Construct; script.Append 0 "X"; script.Copy 0] [] _ start).
  - split.
    + apply map_Forall_empty.
    + split.
      * intros q d Hq. cbn in Hq. by rewrite lookup_empty in Hq.
      * intros q Hq. simpl in Hq. lia.
  - vm_compute. reflexivity.
Qed.

(** X2. In COW_AtomicInt2 too reference counting is sound: every state
    that a program of public operations reaches from the empty heap has
    well-formed buffers, each with a [REFS] that is the number of strings
    that hold it, or -1 on a buffer held by one string. *)
Theorem AtomicInt2_programs_keep_reference_counts (p : list script.op)
      (env : list (option String)) (h : heap) :
  script.exec script.AtomicInt2_class p [] start = Ok (env, h) →
  AtomicInt2_accounted env h.
Proof.
  apply (accounted_exec2 p [] env). split.
  - apply map_Forall_empty.
  - split.
    + intros q d Hq. cbn in Hq. by rewrite lookup_empty in Hq.
    + intros q Hq. simpl in Hq. lia.
Qed.

Lemma AtomicInt2_programs_keep_reference_counts_witness :
  AtomicInt2_accounted [Some (mkString 2); Some (mkString 2)] heap_shared.
Proof.
  apply (AtomicInt2_programs_keep_reference_counts
           [script.Construct; script.Append 0 "X"; script.Copy 0]).
  vm_compute. reflexivity.
Defined.

(** Two strings that hold the same buffer find a [REFS] above 1 in it. *)
Lemma shared_buffer_is_counted2 (env : list (option String)) (h : heap)
      (i j : nat) (s1 s2 : String) :
  AtomicInt2_accounted env h → i ≠ j →
  env !! i = Some (Some s1) → env !! j = Some (Some s2) →
  data_ s1 = data_ s2 →
  ∃ x, mem h !! data_ s2 = Some x ∧ glom_wf x ∧ (REFS x > 1)%Z.
Proof.
  intros [Hwf Hc] Hij Hi Hj Hd.
  destruct (counted_shared data_ REFS env (mem h) i j s1 s2 Hc Hij Hi Hj Hd)
    as (x & Hx & Hr).
  exists x. split_and!; [done | | done].
  by apply (map_Forall_lookup_1 _ _ _ _ Hwf Hx).
Qed.

End AtomicInt2_accounting_facts.


(** ** The strings of a program do not see each other's changes *)

Section frame_facts.

Import COW COW_props accounting.

(** [Append] and [operator[]] on a string touch its buffer and a new one. *)
Lemma Append_frame (sz : nat) (v : variant) (h h' : heap) (q : Z)
      (d : StringBuf) (c : ascii) (s' : String) :
  heap_wf sz h → objs h !! q = Some d →
  Append (String_of sz v) (mkString q) c h = Ok (s', h') →
  ∀ r, r ≠ q → is_Some (objs h !! r) →
       r ≠ data_ s' ∧ objs h' !! r = objs h !! r.
Proof.
  intros Hwf Hq Hrun r Hne [x Hx].
  destruct (decide (refs d > 1)%Z) as [Hr|Hr].
  - rewrite (Append_shared sz v h q d c Hwf Hq Hr) in Hrun.
    destruct (operator_new sz h) as [[p h1]| |] eqn:Hnew; [|done..].
    destruct (operator_new_Ok _ _ _ _ Hwf Hnew) as (Hp & _).
    assert (Hrp : r ≠ p) by congruence.
    injection Hrun as <- <-. split; [done|].
    unfold detached. cbn. by rewrite !lookup_insert_ne.
  - rewrite (Append_unshared sz v h q d c Hq) in Hrun
      by (lia || by eapply heap_wf_buf).
    injection Hrun as <- <-. split; [done|]. cbn. by rewrite lookup_insert_ne.
Qed.

Lemma index_frame (sz : nat) (v : variant) (h h' : heap) (q : Z)
      (d : StringBuf) (n : nat) (s' : String) (r' : charref) :
  heap_wf sz h → objs h !! q = Some d →
  index (String_of sz v) (mkString q) n h = Ok ((s', r'), h') →
  obj r' = data_ s'
  ∧ ∀ r, r ≠ q → is_Some (objs h !! r) →
         r ≠ data_ s' ∧ objs h' !! r = objs h !! r.
Proof.
  intros Hwf Hq Hrun.
  destruct (decide (refs d > 1)%Z) as [Hr|Hr].
  - rewrite (index_shared sz v h q d n Hwf Hq Hr) in Hrun.
    destruct (operator_new sz h) as [[p h1]| |] eqn:Hnew; [|done..].
    destruct (operator_new_Ok _ _ _ _ Hwf Hnew) as (Hp & _).
    injection Hrun as <- <- <-. split; [done|]. intros r Hne [x Hx].
    assert (Hrp : r ≠ p) by congruence. split; [done|].
    unfold detached. cbn. by rewrite !lookup_insert_ne.
  - rewrite (index_unshared sz v h q d n Hq) in Hrun
      by (lia || by eapply heap_wf_buf).
    injection Hrun as <- <- <-. split; [done|]. intros r Hne [x Hx].
    split; [done|]. cbn. by rewrite lookup_insert_ne.
Qed.

(** X3. Between any two strings that a program has left, in the four
    namespaces of common-test.h: an [Append] to one,
    an indexed access to it and a store through the reference returned
    leave the other with the [Length] and the characters it had, whether
    or not the two held the same buffer. *)
Theorem strings_are_isolated (sz : nat) (v : variant)
      (env : list (option String)) (h : heap) (i j : nat) (s1 s2 : String) :
  accounted sz env h → i ≠ j →
  env !! i = Some (Some s1) → env !! j = Some (Some s2) →
  (∀ c s2' h',
     Append (String_of sz v) s2 c h = Ok (s2', h') →
     data_ s2' ≠ data_ s1 ∧ contents h' s1 = contents h s1) ∧
  (∀ n s2' r h',
     index (String_of sz v) s2 n h = Ok ((s2', r), h') →
     data_ s2' ≠ data_ s1 ∧ obj r = data_ s2' ∧ contents h' s1 = contents h s1
     ∧ ∀ c h'', write r c h' = Ok (tt, h'') → contents h'' s1 = contents h s1).
Proof.
  intros Hacc Hij Hi Hj.
  destruct (decide (data_ s1 = data_ s2)) as [Heq|Hne].
  - destruct (shared_buffer_is_counted sz env h i j s1 s2 Hacc Hij Hi Hj Heq)
      as (Hwf & d & Hq & Hr).
    destruct (isolation_common sz v h s1 s2 d Hwf Heq Hq Hr) as (HA & HI & _).
    by split.
  - destruct s1 as [q1], s2 as [q2]. cbn [data_] in *.
    destruct (accounted_live _ _ _ _ _ Hacc Hi) as (d1 & Hq1 & _).
    destruct (accounted_live _ _ _ _ _ Hacc Hj) as (d2 & Hq2 & _).
    destruct Hacc as [Hwf _]. split.
    + intros c s2' h' Hrun.
      destruct (Append_frame sz v h h' q2 d2 c s2' Hwf Hq2 Hrun q1 Hne)
        as [Hn Hsame]; [by eauto|].
      split; [done|]. unfold contents. cbn [data_]. by rewrite Hsame.
    + intros n s2' r h' Hrun.
      destruct (index_frame sz v h h' q2 d2 n s2' r Hwf Hq2 Hrun) as [Hobj Hfr].
      destruct (Hfr q1 Hne) as [Hn Hsame]; [by eauto|].
      split_and!; [done | done | |].
      * unfold contents. cbn [data_]. by rewrite Hsame.
      * intros c h'' Hw. apply write_Ok in Hw as (d' & a' & _ & _ & ->).
        unfold contents. cbn [data_ objs set_objs].
        rewrite lookup_insert_ne by congruence. by rewrite Hsame.
Qed.

Lemma strings_are_isolated_witness :
  (∀ c s2' h',
     Append (String_of 16 Mutex) (mkString 4100) c heap_shared = Ok (s2', h') →
     data_ s2' ≠ data_ (mkString 4100)
     ∧ contents h' (mkString 4100) = contents heap_shared (mkString 4100)) ∧
  (∀ n s2' r h',
     index (String_of 16 Mutex) (mkString 4100) n heap_shared = Ok ((s2', r), h') →
     data_ s2' ≠ data_ (mkString 4100) ∧ obj r = data_ s2'
     ∧ contents h' (mkString 4100) = contents heap_shared (mkString 4100)
     ∧ ∀ c h'', write r c h' = Ok (tt, h'') →
                contents h'' (mkString 4100) = contents heap_shared (mkString 4100)).
Proof.
  apply (strings_are_isolated 16 Mutex
           [Some (mkString 4100); Some (mkString 4100)] heap_shared 0 1
           (mkString 4100) (mkString 4100)).
  - apply heap_shared_accounted.
  - lia.
  - reflexivity.
  - reflexivity.
Defined.

End frame_facts.

Section AtomicInt2_frame_facts.

Import COW_AtomicInt2 accounting.

Lemma Append_frame2 (h h' : heap) (q : positive) (x : glom) (c : ascii)
      (s' : String) :
  mem h !! q = Some x → glom_wf x →
  Append (mkString q) c h = Ok (s', h') →
  ∀ r, r ≠ q → is_Some (mem h !! r) →
       r ≠ data_ s' ∧ mem h' !! r = mem h !! r.
Proof.
  intros Hq Hwx Hrun r Hne [y Hy]. pose proof (fresh_not_live h) as Hf.
  assert (Hrp : r ≠ fresh (dom (mem h))) by congruence.
  destruct (decide (REFS x > 1)%Z) as [Hr|Hr].
  - rewrite (Append_shared2 h q x c Hq Hr Hwx) in Hrun.
    injection Hrun as <- <-. split; [done|]. cbn. by rewrite !lookup_insert_ne.
  - rewrite (Append_unshared2 h q x c Hq) in Hrun by (done || lia).
    case_decide; injection Hrun as <- <-; (split; [done|]); cbn.
    + by rewrite lookup_insert_ne, lookup_delete_ne.
    + by rewrite lookup_insert_ne.
Qed.

Lemma index_frame2 (h h' : heap) (q : positive) (x : glom) (n : nat)
      (s' : String) (r' : charref) :
  mem h !! q = Some x → glom_wf x →
  index (mkString q) n h = Ok ((s', r'), h') →
  obj r' = data_ s'
  ∧ ∀ r, r ≠ q → is_Some (mem h !! r) →
         r ≠ data_ s' ∧ mem h' !! r = mem h !! r.
Proof.
  intros Hq Hwx Hrun. pose proof (fresh_not_live h) as Hf.
  destruct (decide (REFS x > 1)%Z) as [Hr|Hr].
  - rewrite (index_shared2 h q x n Hq Hr Hwx) in Hrun.
    injection Hrun as <- <- <-. split; [done|]. intros r Hne [y Hy].
    assert (Hrp : r ≠ fresh (dom (mem h))) by congruence.
    split; [done|]. cbn. by rewrite !lookup_insert_ne.
  - rewrite (index_unshared2 h q x n Hq) in Hrun by (done || lia).
    injection Hrun as <- <- <-. split; [done|]. intros r Hne [y Hy].
    split; [done|]. cbn. by rewrite lookup_insert_ne.
Qed.

(** X4. The same between any two strings of a program of COW_AtomicInt2:
    an [Append] to one, an indexed access to it and a store through the
    reference returned leave the other with the [Length] and the
    characters it had. *)
Theorem AtomicInt2_strings_are_isolated (env : list (option String)) (h : heap)
      (i j : nat) (s1 s2 : String) :
  AtomicInt2_accounted env h → i ≠ j →
  env !! i = Some (Some s1) → env !! j = Some (Some s2) →
  (∀ c s2' h',
     Append s2 c h = Ok (s2', h') →
     data_ s2' ≠ data_ s1 ∧ contents h' s1 = contents h s1) ∧
  (∀ n s2' r h',
     index s2 n h = Ok ((s2', r), h') →
     data_ s2' ≠ data_ s1 ∧ obj r = data_ s2' ∧ contents h' s1 = contents h s1
     ∧ ∀ c h'', write r c h' = Ok (tt, h'') → contents h'' s1 = contents h s1).
Proof.
  intros Hacc Hij Hi Hj.
  destruct (decide (data_ s1 = data_ s2)) as [Heq|Hne].
  - destruct (shared_buffer_is_counted2 env h i j s1 s2 Hacc Hij Hi Hj Heq)
      as (x & Hq & Hwx & Hr).
    destruct (isolation_AtomicInt2 h s1 s2 x Heq Hq Hwx Hr) as (HA & HI).
    split.
    + intros c s2' h' Hrun. destruct (HA c) as (s & h0 & Hrun' & Hres).
      rewrite Hrun in Hrun'. by injection Hrun' as <- <-.
    + intros n s2' r h' Hrun. destruct (HI n) as (s & r0 & h0 & Hrun' & Hres).
      rewrite Hrun in Hrun'. by injection Hrun' as <- <- <-.
  - destruct s1 as [q1], s2 as [q2]. cbn [data_] in *.
    destruct (accounted_live2 _ _ _ _ Hacc Hi) as (x1 & Hq1 & _).
    destruct (accounted_live2 _ _ _ _ Hacc Hj) as (x2 & Hq2 & Hw2).
    split.
    + intros c s2' h' Hrun.
      destruct (Append_frame2 h h' q2 x2 c s2' Hq2 Hw2 Hrun q1 Hne)
        as [Hn Hsame]; [by eauto|].
      split; [done|]. unfold contents. cbn [data_]. by rewrite Hsame.
    + intros n s2' r h' Hrun.
      destruct (index_frame2 h h' q2 x2 n s2' r Hq2 Hw2 Hrun) as [Hobj Hfr].
      destruct (Hfr q1 Hne) as [Hn Hsame]; [by eauto|].
      split_and!; [done | done | |].
      * unfold contents. cbn [data_]. by rewrite Hsame.
      * intros c h'' Hw. apply write_Ok2 in Hw as (x' & _ & ->).
        unfold contents. cbn [data_ mem set_mem].
        rewrite lookup_insert_ne by congruence. by rewrite Hsame.
Qed.

Lemma AtomicInt2_strings_are_isolated_witness :
  (∀ c s2' h',
     Append (mkString 2) c heap_shared = Ok (s2', h') →
     data_ s2' ≠ data_ (mkString 2)
     ∧ contents h' (mkString 2) = contents heap_shared (mkString 2)) ∧
  (∀ n s2' r h',
     index (mkString 2) n heap_shared = Ok ((s2', r), h') →
     data_ s2' ≠ data_ (mkString 2) ∧ obj r = data_ s2'
     ∧ contents h' (mkString 2) = contents heap_shared (mkString 2)
     ∧ ∀ c h'', write r c h' = Ok (tt, h'') →
                contents h'' (mkString 2) = contents heap_shared (mkString 2)).
Proof.
  apply (AtomicInt2_strings_are_isolated
           [Some (mkString 2); Some (mkString 2)] heap_shared 0 1
           (mkString 2) (mkString 2)).
  - apply heap_shared_accounted2.
  - lia.
  - reflexivity.
  - reflexivity.
Defined.

End AtomicInt2_frame_facts.


(** * Part III: further properties of the code *)

(** ** The arena: construction, and how [Allocate] and [Deallocate] compose *)

Section FastArena_more_facts.

Import FastArena.

(** X5. The constructor rounds the chunk size up to a multiple of 4 (to 4
    for a size of 0), keeps the address it was given and leaves every one
    of the 100 blocks free: the first [Allocate] of a size that fits
    returns the first block, 4 bytes above the base address. *)
Theorem ctor_leaves_every_block_free (base : Z) (n : nat) :
  (n = 0 → n_ (ctor base n) = 4)
  ∧ (0 < n → n ≤ n_ (ctor base n) < n + 4)
  ∧ n_ (ctor base n) `mod` 4 = 0
  ∧ buf_ (ctor base n) = base
  ∧ (∀ i, i < size → is_free (ctor base n) i)
  ∧ (∀ m, m ≤ n_ (ctor base n) →
       Allocate (ctor base n) m
       = Ok ((base + 4)%Z,
             set_hdr (ctor base n) (<[0 := 1%Z]> (hdr (ctor base n)))))
  ∧ (∀ m, n_ (ctor base n) < m → Allocate (ctor base n) m = bad_alloc).
Proof.
  split_and!.
  - intros ->. reflexivity.
  - intros Hn. unfold ctor; cbn [n_]. rewrite decide_False by lia. lia.
  - unfold ctor; cbn [n_]. case_decide; [done|]. lia.
  - reflexivity.
  - intros i Hi. unfold is_free, ctor; cbn [hdr]. by apply lookup_replicate_2.
  - intros m Hm. unfold Allocate. rewrite decide_False by lia.
    assert (Hscan : scan (hdr (ctor base n)) = 0) by reflexivity.
    rewrite Hscan. rewrite decide_False.
    + f_equal. f_equal. unfold payload, block, sizeof_long. cbn [buf_ ctor].
      rewrite Nat.mul_0_r. lia.
    + rewrite limit_le_block. unfold size. lia.
  - intros m Hm. unfold Allocate. by rewrite decide_True.
Qed.

Lemma alter_free_block (hs : list Z) (i : nat) :
  hs !! i = Some 0%Z →
  alter IntAtomicDecrement i (<[i := 1%Z]> hs) = hs.
Proof.
  intros Hi. assert (Hlt : i < length hs) by (by eapply lookup_lt_Some).
  apply list_eq. intros j. destruct (decide (j = i)) as [->|Hne].
  - rewrite list_lookup_alter_eq, list_lookup_insert_eq by done. by rewrite Hi.
  - by rewrite list_lookup_alter_ne, list_lookup_insert_ne.
Qed.

(** X6. What [Allocate] returns, [Deallocate] takes back: the pointer is
    not null, [Deallocate] of it does not throw, and the arena is again as
    it was before the allocation. *)
Theorem Allocate_Deallocate_round_trip (a a' : t) (n : nat) (p : Z) :
  wf a → Allocate a n = Ok (p, a') →
  p ≠ 0%Z ∧ Deallocate a' p = Ok a.
Proof.
  intros Hwf HA.
  destruct (Allocate_Ok_inv a n p a' Hwf HA) as (i & Hi & Hfree & -> & -> & _).
  destruct (payload_in_range a i Hwf Hi) as [Hnz _]. split; [done|].
  assert (Hwf' : wf (set_hdr a (<[i := 1%Z]> (hdr a)))).
  { destruct Hwf as [Hl Hb]. split; simpl; [by rewrite length_insert | done]. }
  change (payload a i) with (payload (set_hdr a (<[i := 1%Z]> (hdr a))) i).
  rewrite (Deallocate_payload _ i Hwf' Hi). cbn [hdr set_hdr].
  rewrite alter_free_block by exact Hfree.
  by destruct a.
Qed.

Lemma Allocate_Deallocate_round_trip_witness :
  4100%Z ≠ 0%Z
  ∧ Deallocate (set_hdr (ctor 4096 16) (<[0 := 1%Z]> (hdr (ctor 4096 16)))) 4100
    = Ok (ctor 4096 16).
Proof.
  apply (Allocate_Deallocate_round_trip (ctor 4096 16) _ 16 4100).
  - split; [reflexivity | simpl; lia].
  - reflexivity.
Defined.

Lemma Allocate_lowest (a a' : t) (n : nat) (p : Z) :
  wf a → Allocate a n = Ok (p, a') →
  ∃ i, i < size ∧ p = payload a i ∧ is_free a i
       ∧ (∀ j, j < i → in_use a j)
       ∧ (∀ j, j < size → is_free a j → (p ≤ payload a j)%Z).
Proof.
  intros Hwf. pose proof Hwf as [Hlen Hbase]. unfold Allocate.
  destruct (decide (n_ a < n)); [done|].
  destruct (decide (limit a ≤ block a (scan (hdr a)))%Z) as [|Hin]; [done|].
  intros [= <- <-]. rewrite limit_le_block in Hin.
  assert (Hlt : scan (hdr a) < length (hdr a)) by lia.
  assert (Hlow : ∀ j, j < scan (hdr a) → in_use a j).
  { intros j Hj. by apply scan_steps_over_nonzero. }
  exists (scan (hdr a)). split_and!; [lia | done | by apply scan_stops_at_zero | done |].
  intros j Hj Hfree.
  destruct (decide (j < scan (hdr a))) as [Hjl|Hjl].
  - destruct (Hlow j Hjl) as (x & Hx & Hnz). unfold is_free in Hfree. congruence.
  - unfold payload, block, stride, sizeof_long. nia.
Qed.

(** X7. [Allocate] is first fit: the block it returns is the free block
    at the lowest address, and every block below it is in use. *)
Theorem Allocate_returns_the_lowest_free_block (a a' : t) (n : nat) (p : Z) :
  wf a → Allocate a n = Ok (p, a') →
  ∃ i, i < size ∧ p = payload a i ∧ is_free a i
       ∧ (∀ j, j < i → in_use a j)
       ∧ (∀ j, j < size → is_free a j → (p ≤ payload a j)%Z).
Proof. apply Allocate_lowest. Qed.

Lemma Allocate_returns_the_lowest_free_block_witness :
  ∃ i, i < size ∧ 4100%Z = payload (ctor 4096 16) i ∧ is_free (ctor 4096 16) i
       ∧ (∀ j, j < i → in_use (ctor 4096 16) j)
       ∧ (∀ j, j < size → is_free (ctor 4096 16) j
               → (4100 ≤ payload (ctor 4096 16) j)%Z).
Proof.
  apply (Allocate_returns_the_lowest_free_block (ctor 4096 16)
           (set_hdr (ctor 4096 16) (<[0 := 1%Z]> (hdr (ctor 4096 16)))) 16 4100).
  - split; [reflexivity | simpl; lia].
  - reflexivity.
Defined.

(** X8. Two allocations in a row return two blocks that do not overlap:
    the second lies above the first, beyond its [n_] bytes and the header
    that follows them, and both lie inside the array of the arena. *)
Theorem Allocate_twice_does_not_overlap (a a' a'' : t) (n m : nat) (p p' : Z) :
  wf a → Allocate a n = Ok (p, a') → Allocate a' m = Ok (p', a'') →
  (buf_ a + 4 ≤ p)%Z
  ∧ (p + Z.of_nat (n_ a) + 4 ≤ p')%Z
  ∧ (p' + Z.of_nat (n_ a) ≤ limit a)%Z.
Proof.
  intros Hwf HA HA'.
  destruct (Allocate_Ok_inv a n p a' Hwf HA) as (i & Hi & Hfree & -> & -> & _).
  assert (Hwf' : wf (set_hdr a (<[i := 1%Z]> (hdr a)))).
  { destruct Hwf as [Hl Hb]. split; simpl; [by rewrite length_insert | done]. }
  destruct (Allocate_Ok_inv _ m p' a'' Hwf' HA') as (j & Hj & Hfree' & -> & _ & _).
  assert (Hij : i < j).
  { destruct (Allocate_lowest _ _ _ _ Hwf' HA')
      as (j' & _ & Hp & _ & Hlow & _).
    apply payload_inj in Hp. subst j'.
    destruct (decide (i < j)) as [|Hge]; [done|]. exfalso.
    assert (Hlt : i < length (hdr a)) by (destruct Hwf as [-> _]; done).
    destruct (decide (i = j)) as [->|Hne].
    - unfold is_free in Hfree'. simpl in Hfree'.
      rewrite list_lookup_insert_eq in Hfree' by done. discriminate.
    - unfold is_free in Hfree'. simpl in Hfree'.
      rewrite list_lookup_insert_ne in Hfree' by done.
      destruct (Allocate_lowest _ _ _ _ Hwf HA)
        as (i' & _ & Hp' & _ & Hlow' & _).
      apply payload_inj in Hp'. subst i'.
      destruct (Hlow' j) as (x & Hx & Hnz); [lia|]. congruence. }
  unfold payload, limit, block, stride, sizeof_long, size in *. simpl. nia.
Qed.

Lemma Allocate_twice_does_not_overlap_witness :
  (buf_ (ctor 4096 16) + 4 ≤ 4100)%Z
  ∧ (4100 + Z.of_nat (n_ (ctor 4096 16)) + 4 ≤ 4120)%Z
  ∧ (4120 + Z.of_nat (n_ (ctor 4096 16)) ≤ limit (ctor 4096 16))%Z.
Proof.
  apply (Allocate_twice_does_not_overlap (ctor 4096 16)
           (set_hdr (ctor 4096 16) (<[0 := 1%Z]> (hdr (ctor 4096 16))))
           (set_hdr (ctor 4096 16) (<[1 := 1%Z]> (<[0 := 1%Z]> (hdr (ctor 4096 16))))) 16 16 4100 4120).
  - split; [reflexivity | simpl; lia].
  - reflexivity.
  - reflexivity.
Defined.

End FastArena_more_facts.


(** ** One thread: the thread-safe namespaces compute what COW_Unsafe does *)

Section agreement_facts.

Import COW COW_props accounting side_by_side.

Variables (sz sz0 : nat) (v v0 : variant) (a a0 : FastArena.t).

Lemma alike_objs_insert (o o0 : gmap Z StringBuf) (j : nat) (x : StringBuf) :
  (∀ i, i < FastArena.size
        → o !! FastArena.payload a i = o0 !! FastArena.payload a0 i) →
  ∀ i, i < FastArena.size →
       <[FastArena.payload a j := x]> o !! FastArena.payload a i
       = <[FastArena.payload a0 j := x]> o0 !! FastArena.payload a0 i.
Proof.
  intros Ho i Hi. destruct (decide (i = j)) as [->|Hne].
  - by rewrite !lookup_insert_eq.
  - rewrite !lookup_insert_ne by (intros E; by apply payload_inj in E).
    by apply Ho.
Qed.

Lemma alike_objs_delete (o o0 : gmap Z StringBuf) (j : nat) :
  (∀ i, i < FastArena.size
        → o !! FastArena.payload a i = o0 !! FastArena.payload a0 i) →
  ∀ i, i < FastArena.size →
       base.delete (FastArena.payload a j) o !! FastArena.payload a i
       = base.delete (FastArena.payload a0 j) o0 !! FastArena.payload a0 i.
Proof.
  intros Ho i Hi. destruct (decide (i = j)) as [->|Hne].
  - by rewrite !lookup_delete_eq.
  - rewrite !lookup_delete_ne by (intros E; by apply payload_inj in E).
    by apply Ho.
Qed.

(** [operator new] takes the same block in both arenas, or throws in
    both. *)
Lemma operator_new_alike (h h0 : heap) :
  heap_wf sz h → heap_wf sz0 h0 → alike a a0 h h0 →
  (operator_new sz h = bad_alloc ∧ operator_new sz0 h0 = bad_alloc)
  ∨ ∃ i hd,
      i < FastArena.size
      ∧ operator_new sz h
        = Ok (FastArena.payload a i, set_fa h (FastArena.set_hdr a hd))
      ∧ operator_new sz0 h0
        = Ok (FastArena.payload a0 i, set_fa h0 (FastArena.set_hdr a0 hd))
      ∧ objs h !! FastArena.payload a i = None
      ∧ objs h0 !! FastArena.payload a0 i = None.
Proof.
  intros Hwf Hwf0 ((hd & Hfa & Hfa0) & _).
  destruct (operator_new sz h) as [[p h1]| |] eqn:Hnew.
  - right. destruct (operator_new_Ok _ _ _ _ Hwf Hnew) as (Hp & _).
    revert Hnew Hp. unfold operator_new, FastArena.Allocate. rewrite Hfa. simpl.
    destruct (decide (FastArena.n_ a < sz)); [done|].
    destruct (decide (FastArena.limit (FastArena.set_hdr a hd)
                      ≤ FastArena.block (FastArena.set_hdr a hd)
                          (FastArena.scan hd))%Z) as [|Hin]; [done|].
    intros [= <- <-] Hp.
    rewrite limit_le_block in Hin.
    exists (FastArena.scan hd), (alter IntAtomicIncrement (FastArena.scan hd) hd).
    assert (Hnew0 : operator_new sz0 h0
                    = Ok (FastArena.payload a0 (FastArena.scan hd),
                          set_fa h0 (FastArena.set_hdr a0
                            (alter IntAtomicIncrement (FastArena.scan hd) hd)))).
    { unfold operator_new, FastArena.Allocate. rewrite Hfa0. simpl.
      destruct Hwf0 as (_ & Hsz0 & _). rewrite Hfa0 in Hsz0. simpl in Hsz0.
      rewrite decide_False by lia.
      destruct (decide (FastArena.limit (FastArena.set_hdr a0 hd)
                        ≤ FastArena.block (FastArena.set_hdr a0 hd)
                            (FastArena.scan hd))%Z) as [Hin0|Hin0]; [|done].
      rewrite limit_le_block in Hin0. lia. }
    split_and!; [lia | done | done | done |].
    by destruct (operator_new_Ok _ _ _ _ Hwf0 Hnew0) as (Hp0 & _).
  - left. split; [done|].
    revert Hnew. unfold operator_new, FastArena.Allocate. rewrite Hfa, Hfa0. simpl.
    destruct Hwf as (_ & Hsz & _). rewrite Hfa in Hsz. simpl in Hsz.
    destruct Hwf0 as (_ & Hsz0 & _). rewrite Hfa0 in Hsz0. simpl in Hsz0.
    rewrite (decide_False (P := FastArena.n_ a < sz)),
      (decide_False (P := FastArena.n_ a0 < sz0)) by lia.
    destruct (decide (FastArena.limit (FastArena.set_hdr a hd)
                      ≤ FastArena.block (FastArena.set_hdr a hd)
                          (FastArena.scan hd))%Z) as [Hin|Hin]; [|done].
    intros _. rewrite limit_le_block in Hin.
    rewrite decide_True; [done|].
    apply (proj2 (limit_le_block (FastArena.set_hdr a0 hd) (FastArena.scan hd))). lia.
  - exfalso. revert Hnew. unfold operator_new, FastArena.Allocate.
    by repeat case_decide.
Qed.

Lemma alike_lookup (h h0 : heap) (j : nat) (d : StringBuf) :
  alike a a0 h h0 → j < FastArena.size →
  objs h !! FastArena.payload a j = Some d →
  objs h0 !! FastArena.payload a0 j = Some d.
Proof. intros (_ & _ & _ & Ho) Hj Hq. by rewrite <- Ho. Qed.

Lemma String_ctor_alike (h h0 : heap) :
  heap_wf sz h → heap_wf sz0 h0 → alike a a0 h h0 →
  match String_ctor sz h, String_ctor sz0 h0 with
  | Ok (s, h'), Ok (s0, h0') =>
      alike a a0 h' h0' ∧ same_place a a0 (Some s) (Some s0)
  | bad_alloc, bad_alloc => True
  | Undef, Undef => True
  | _, _ => False
  end.
Proof.
  intros Hwf Hwf0 Hal. rewrite !String_ctor_eq.
  destruct (operator_new_alike h h0 Hwf Hwf0 Hal)
    as [[-> ->]|(i & hd & Hi & -> & -> & Hp & Hp0)]; [done|].
  destruct Hal as (_ & Hnc & Hna & Ho).
  split; [|by exists i]. split_and!; simpl; [by eexists | done | done |].
  by apply alike_objs_insert.
Qed.

Lemma copy_ctor_alike (h h0 : heap) (j : nat) (d : StringBuf) :
  heap_wf sz h → heap_wf sz0 h0 → alike a a0 h h0 → j < FastArena.size →
  objs h !! FastArena.payload a j = Some d →
  match copy_ctor (String_of sz v) (mkString (FastArena.payload a j)) h,
        copy_ctor (String_of sz0 v0) (mkString (FastArena.payload a0 j)) h0 with
  | Ok (s, h'), Ok (s0, h0') =>
      alike a a0 h' h0' ∧ same_place a a0 (Some s) (Some s0)
  | bad_alloc, bad_alloc => True
  | Undef, Undef => True
  | _, _ => False
  end.
Proof.
  intros Hwf Hwf0 Hal Hj Hq. pose proof (alike_lookup h h0 j d Hal Hj Hq) as Hq0.
  destruct (decide (refs d > 0)%Z) as [Hr|Hr].
  - rewrite (copy_ctor_shares sz v h (mkString _) d Hq Hr),
      (copy_ctor_shares sz0 v0 h0 (mkString _) d Hq0 Hr).
    destruct Hal as (Hhd & Hnc & Hna & Ho).
    split; [|by exists j]. split_and!; simpl; [done | by rewrite Hnc | done |].
    by apply alike_objs_insert.
  - rewrite (copy_ctor_clones sz v h _ d Hwf Hq),
      (copy_ctor_clones sz0 v0 h0 _ d Hwf0 Hq0) by lia.
    destruct (operator_new_alike h h0 Hwf Hwf0 Hal)
      as [[-> ->]|(i & hd & Hi & -> & -> & Hp & Hp0)]; [done|].
    destruct Hal as (_ & Hnc & Hna & Ho).
    split; [|by exists i].
    split_and!; simpl; [by eexists | by rewrite Hnc | by rewrite Hna |].
    by apply alike_objs_insert.
Qed.

Lemma dtor_alike (h h0 : heap) (j : nat) (d : StringBuf) :
  heap_wf sz h → heap_wf sz0 h0 → alike a a0 h h0 → j < FastArena.size →
  objs h !! FastArena.payload a j = Some d →
  match dtor (String_of sz v) (mkString (FastArena.payload a j)) h,
        dtor (String_of sz0 v0) (mkString (FastArena.payload a0 j)) h0 with
  | Ok (_, h'), Ok (_, h0') => alike a a0 h' h0'
  | bad_alloc, bad_alloc => True
  | Undef, Undef => True
  | _, _ => False
  end.
Proof.
  intros Hwf Hwf0 Hal Hj Hq. pose proof (alike_lookup h h0 j d Hal Hj Hq) as Hq0.
  destruct Hal as ((hd & Hfa & Hfa0) & Hnc & Hna & Ho).
  destruct (dtor_eq sz v h _ d Hwf Hq) as (i & Hi & Hpi & ->).
  destruct (dtor_eq sz0 v0 h0 _ d Hwf0 Hq0) as (i0 & Hi0 & Hpi0 & ->).
  rewrite Hfa in Hpi. rewrite Hfa0 in Hpi0.
  apply (payload_inj a) in Hpi as <-. apply (payload_inj a0) in Hpi0 as <-.
  destruct (decide (refs d - 1 < 1)%Z).
  - rewrite Hfa, Hfa0.
    split_and!; simpl; [by eexists | done | done |]. by apply alike_objs_delete.
  - split_and!; simpl; [by exists hd | done | done |]. by apply alike_objs_insert.
Qed.

Lemma Clear_alike (h h0 : heap) (j : nat) (d : StringBuf) :
  heap_wf sz h → heap_wf sz0 h0 → alike a a0 h h0 → j < FastArena.size →
  objs h !! FastArena.payload a j = Some d →
  match Clear (String_of sz v) (mkString (FastArena.payload a j)) h,
        Clear (String_of sz0 v0) (mkString (FastArena.payload a0 j)) h0 with
  | Ok (s, h'), Ok (s0, h0') =>
      alike a a0 h' h0' ∧ same_place a a0 (Some s) (Some s0)
  | bad_alloc, bad_alloc => True
  | Undef, Undef => True
  | _, _ => False
  end.
Proof.
  intros Hwf Hwf0 Hal Hj Hq. pose proof (alike_lookup h h0 j d Hal Hj Hq) as Hq0.
  rewrite (Clear_eq sz v h _ d Hq), (Clear_eq sz0 v0 h0 _ d Hq0).
  destruct (decide (refs d > 1)%Z).
  - destruct (operator_new_alike h h0 Hwf Hwf0 Hal)
      as [[-> ->]|(i & hd & Hi & -> & -> & Hp & Hp0)]; [done|].
    destruct Hal as (_ & Hnc & Hna & Ho).
    split; [|by exists i]. split_and!; simpl; [by eexists | done | done |].
    by do 2 apply alike_objs_insert.
  - destruct Hal as (Hhd & Hnc & Hna & Ho).
    split; [|by exists j]. split_and!; simpl; [done..|].
    by apply alike_objs_insert.
Qed.

Lemma Append_alike (h h0 : heap) (j : nat) (d : StringBuf) (c : ascii) :
  heap_wf sz h → heap_wf sz0 h0 → alike a a0 h h0 → j < FastArena.size →
  objs h !! FastArena.payload a j = Some d →
  match Append (String_of sz v) (mkString (FastArena.payload a j)) c h,
        Append (String_of sz0 v0) (mkString (FastArena.payload a0 j)) c h0 with
  | Ok (s, h'), Ok (s0, h0') =>
      alike a a0 h' h0' ∧ same_place a a0 (Some s) (Some s0)
  | bad_alloc, bad_alloc => True
  | Undef, Undef => True
  | _, _ => False
  end.
Proof.
  intros Hwf Hwf0 Hal Hj Hq. pose proof (alike_lookup h h0 j d Hal Hj Hq) as Hq0.
  pose proof (heap_wf_buf sz h _ d Hwf Hq) as Hbw.
  destruct (decide (refs d > 1)%Z) as [Hr|Hr].
  - rewrite (Append_shared sz v h _ d c Hwf Hq Hr),
      (Append_shared sz0 v0 h0 _ d c Hwf0 Hq0 Hr).
    destruct (operator_new_alike h h0 Hwf Hwf0 Hal)
      as [[-> ->]|(i & hd & Hi & -> & -> & Hp & Hp0)]; [done|].
    destruct Hal as (_ & Hnc & Hna & Ho).
    split; [|by exists i]. unfold detached.
    split_and!; simpl; [by eexists | done | by rewrite Hna |].
    by do 3 apply alike_objs_insert.
  - rewrite (Append_unshared sz v h _ d c Hq), (Append_unshared sz0 v0 h0 _ d c Hq0)
      by (done || lia).
    destruct Hal as (Hhd & Hnc & Hna & Ho).
    split; [|by exists j]. split_and!; simpl; [done | done | by rewrite Hna |].
    by apply alike_objs_insert.
Qed.

Lemma at_eq (sz' : nat) (v' : variant) (s : String) (n : nat) (h : heap) :
  script.at_ (script.COW_class sz' v') s n h
  = match index (String_of sz' v') s n h with
    | Ok (r, h1) =>
        match read r.2 h1 with
        | Ok (x, h2) => Ok ((r.1, x), h2)
        | bad_alloc => bad_alloc
        | Undef => Undef
        end
    | bad_alloc => bad_alloc
    | Undef => Undef
    end.
Proof.
  cbn [script.at_ script.COW_class]. unfold bind at 1.
  destruct (index (String_of sz' v') s n h) as [[r h1]| |]; [|done..].
  unfold bind. by destruct (read r.2 h1) as [[x h2]| |].
Qed.

Lemma at_alike (h h0 : heap) (j : nat) (d : StringBuf) (n : nat) :
  heap_wf sz h → heap_wf sz0 h0 → alike a a0 h h0 → j < FastArena.size →
  objs h !! FastArena.payload a j = Some d →
  match script.at_ (script.COW_class sz v) (mkString (FastArena.payload a j)) n h,
        script.at_ (script.COW_class sz0 v0)
          (mkString (FastArena.payload a0 j)) n h0 with
  | Ok ((s, x), h'), Ok ((s0, x0), h0') =>
      x = x0 ∧ alike a a0 h' h0' ∧ same_place a a0 (Some s) (Some s0)
  | bad_alloc, bad_alloc => True
  | Undef, Undef => True
  | _, _ => False
  end.
Proof.
  intros Hwf Hwf0 Hal Hj Hq. pose proof (alike_lookup h h0 j d Hal Hj Hq) as Hq0.
  pose proof (heap_wf_buf sz h _ d Hwf Hq) as Hbw.
  rewrite !at_eq.
  destruct (decide (refs d > 1)%Z) as [Hr|Hr].
  - rewrite (index_shared sz v h _ d n Hwf Hq Hr),
      (index_shared sz0 v0 h0 _ d n Hwf0 Hq0 Hr).
    destruct (operator_new_alike h h0 Hwf Hwf0 Hal)
      as [[-> ->]|(i & hd & Hi & -> & -> & Hp & Hp0)]; [done|].
    destruct Hal as (_ & Hnc & Hna & Ho).
    unfold read, bind, load, ret, detached. simpl. rewrite !lookup_insert_eq. simpl.
    destruct (decide (round4 (Nat.max (len d) (len d)) = 0)); simpl; [done|].
    destruct (replicate (round4 (Nat.max (len d) (len d))) Uninit !! n); [|done].
    split; [done|]. split; [|by exists i].
    split_and!; simpl; [by eexists | done | by rewrite Hna |].
    by do 3 apply alike_objs_insert.
  - rewrite (index_unshared sz v h _ d n Hq), (index_unshared sz0 v0 h0 _ d n Hq0)
      by (done || lia).
    destruct Hal as (Hhd & Hnc & Hna & Ho).
    unfold read, bind, load, ret. simpl. rewrite !lookup_insert_eq. simpl.
    destruct (buf d) as [arr|]; [|done].
    destruct (arr !! n); [|done].
    split; [done|]. split; [|by exists j].
    split_and!; simpl; [done..|]. by apply alike_objs_insert.
Qed.

Lemma Length_alike (h h0 : heap) (j : nat) (d : StringBuf) :
  alike a a0 h h0 → j < FastArena.size →
  objs h !! FastArena.payload a j = Some d →
  Length (mkString (FastArena.payload a j)) h = Ok (used d, h)
  ∧ Length (mkString (FastArena.payload a0 j)) h0 = Ok (used d, h0).
Proof.
  intros Hal Hj Hq. pose proof (alike_lookup h h0 j d Hal Hj Hq) as Hq0.
  unfold Length, bind, load. simpl. by rewrite Hq, Hq0.
Qed.

Lemma live_alike (env env0 : list (option String)) (i : nat) (h h0 : heap) :
  Forall2 (same_place a a0) env env0 →
  (script.live env i h = Undef ∧ script.live env0 i h0 = Undef)
  ∨ ∃ j, j < FastArena.size
         ∧ env !! i = Some (Some (mkString (FastArena.payload a j)))
         ∧ env0 !! i = Some (Some (mkString (FastArena.payload a0 j)))
         ∧ script.live env i h = Ok (mkString (FastArena.payload a j), h)
         ∧ script.live env0 i h0 = Ok (mkString (FastArena.payload a0 j), h0).
Proof.
  intros Henv. pose proof (proj1 (Forall2_lookup _ _ _) Henv i) as Hi.
  unfold script.live.
  destruct (env !! i) as [o|], (env0 !! i) as [o0|]; inversion Hi as [? ? Hp|];
    [|by left].
  destruct o as [[q]|], o0 as [[q0]|]; simpl in Hp; [|done..|by left].
  destruct Hp as (j & Hj & Hq & Hq0). simpl in Hq, Hq0. subst q q0.
  right. by exists j.
Qed.

Lemma same_place_insert (env env0 : list (option String)) (i : nat)
      (o o0 : option String) :
  Forall2 (same_place a a0) env env0 → same_place a a0 o o0 →
  Forall2 (same_place a a0) (<[i := o]> env) (<[i := o0]> env0).
Proof. intros Henv Ho. by apply Forall2_insert. Qed.

Lemma step_alike (o : script.op) (env env0 : list (option String)) (h h0 : heap) :
  accounted sz env h → accounted sz0 env0 h0 → alike a a0 h h0 →
  Forall2 (same_place a a0) env env0 →
  match script.step (script.COW_class sz v) o env h,
        script.step (script.COW_class sz0 v0) o env0 h0 with
  | Ok ((env', os), h'), Ok ((env0', os0), h0') =>
      Forall2 same_obs os os0 ∧ alike a a0 h' h0'
      ∧ Forall2 (same_place a a0) env' env0'
  | bad_alloc, bad_alloc => True
  | Undef, Undef => True
  | _, _ => False
  end.
Proof.
  intros Hacc Hacc0 Hal Henv.
  pose proof Hacc as [Hwf _]. pose proof Hacc0 as [Hwf0 _].
  destruct o as [|i|i|i|i c|i n|i]; cbn [script.step].
  - cbn [script.ctor script.COW_class]. unfold bind.
    pose proof (String_ctor_alike h h0 Hwf Hwf0 Hal) as Hs.
    destruct (String_ctor sz h) as [[s h1]| |],
      (String_ctor sz0 h0) as [[s0 h01]| |]; try done.
    destruct Hs as [Hal1 Hs]. unfold ret. split; [constructor|].
    split; [done|]. apply Forall2_app; [done|]. by constructor.
  - destruct (live_alike env env0 i h h0 Henv)
      as [[Hl Hl0]|(j & Hj & Hi & Hi0 & Hl & Hl0)];
      both_live Hl Hl0; [done|].
    destruct (accounted_live _ _ _ _ _ Hacc Hi) as (d & Hq & _).
    cbn [script.copy script.COW_class]. unfold bind.
    pose proof (copy_ctor_alike h h0 j d Hwf Hwf0 Hal Hj Hq) as Hs.
    destruct (copy_ctor (String_of sz v) _ h) as [[s h1]| |],
      (copy_ctor (String_of sz0 v0) _ h0) as [[s0 h01]| |]; try done.
    destruct Hs as [Hal1 Hs]. unfold ret. split; [constructor|].
    split; [done|]. apply Forall2_app; [done|]. by constructor.
  - destruct (live_alike env env0 i h h0 Henv)
      as [[Hl Hl0]|(j & Hj & Hi & Hi0 & Hl & Hl0)];
      both_live Hl Hl0; [done|].
    destruct (accounted_live _ _ _ _ _ Hacc Hi) as (d & Hq & _).
    cbn [script.dtor script.COW_class]. unfold bind.
    pose proof (dtor_alike h h0 j d Hwf Hwf0 Hal Hj Hq) as Hs.
    destruct (dtor (String_of sz v) _ h) as [[s h1]| |],
      (dtor (String_of sz0 v0) _ h0) as [[s0 h01]| |]; try done.
    unfold ret. split; [constructor|].
    split; [done|]. by apply same_place_insert.
  - destruct (live_alike env env0 i h h0 Henv)
      as [[Hl Hl0]|(j & Hj & Hi & Hi0 & Hl & Hl0)];
      both_live Hl Hl0; [done|].
    destruct (accounted_live _ _ _ _ _ Hacc Hi) as (d & Hq & _).
    cbn [script.clear script.COW_class]. unfold bind.
    pose proof (Clear_alike h h0 j d Hwf Hwf0 Hal Hj Hq) as Hs.
    destruct (Clear (String_of sz v) _ h) as [[s h1]| |],
      (Clear (String_of sz0 v0) _ h0) as [[s0 h01]| |]; try done.
    destruct Hs as [Hal1 Hs]. unfold ret. split; [constructor|].
    split; [done|]. by apply same_place_insert.
  - destruct (live_alike env env0 i h h0 Henv)
      as [[Hl Hl0]|(j & Hj & Hi & Hi0 & Hl & Hl0)];
      both_live Hl Hl0; [done|].
    destruct (accounted_live _ _ _ _ _ Hacc Hi) as (d & Hq & _).
    cbn [script.append script.COW_class]. unfold bind.
    pose proof (Append_alike h h0 j d c Hwf Hwf0 Hal Hj Hq) as Hs.
    destruct (Append (String_of sz v) _ c h) as [[s h1]| |],
      (Append (String_of sz0 v0) _ c h0) as [[s0 h01]| |]; try done.
    destruct Hs as [Hal1 Hs]. unfold ret. split; [constructor|].
    split; [done|]. by apply same_place_insert.
  - destruct (live_alike env env0 i h h0 Henv)
      as [[Hl Hl0]|(j & Hj & Hi & Hi0 & Hl & Hl0)];
      both_live Hl Hl0; [done|].
    destruct (accounted_live _ _ _ _ _ Hacc Hi) as (d & Hq & _).
    unfold bind.
    pose proof (at_alike h h0 j d n Hwf Hwf0 Hal Hj Hq) as Hs.
    destruct (script.at_ (script.COW_class sz v) _ n h) as [[[s x] h1]| |],
      (script.at_ (script.COW_class sz0 v0) _ n h0) as [[[s0 x0] h01]| |];
      try done.
    destruct Hs as (<- & Hal1 & Hs). unfold ret. simpl. split.
    + constructor; [|constructor]. destruct x; constructor.
    + split; [done|]. by apply same_place_insert.
  - destruct (live_alike env env0 i h h0 Henv)
      as [[Hl Hl0]|(j & Hj & Hi & Hi0 & Hl & Hl0)];
      both_live Hl Hl0; [done|].
    destruct (accounted_live _ _ _ _ _ Hacc Hi) as (d & Hq & _).
    cbn [script.length_ script.COW_class]. unfold bind.
    destruct (Length_alike h h0 j d Hal Hj Hq) as [-> ->]. unfold ret.
    split; [by repeat constructor|]. by split.
Qed.

Lemma run_alike (p : list script.op) (env env0 : list (option String))
      (h h0 : heap) :
  accounted sz env h → accounted sz0 env0 h0 → alike a a0 h h0 →
  Forall2 (same_place a a0) env env0 →
  agree a a0 (script.run (script.COW_class sz v) p env h)
             (script.run (script.COW_class sz0 v0) p env0 h0).
Proof.
  revert env env0 h h0.
  induction p as [|o p IH]; intros env env0 h h0 Hacc Hacc0 Hal Henv.
  - simpl. unfold ret. by split.
  - cbn [script.run]. unfold bind at 1.
    pose proof (step_alike o env env0 h h0 Hacc Hacc0 Hal Henv) as Hs.
    destruct (script.step (script.COW_class sz v) o env h)
      as [[[env1 os] h1]| |] eqn:Hstep;
      match goal with
      | |- context [bind (script.step ?C o env0) ?k h0] =>
          change (bind (script.step C o env0) k h0)
            with (match script.step C o env0 h0 with
                  | Ok (x, h') => k x h'
                  | bad_alloc => bad_alloc
                  | Undef => Undef
                  end)
      end;
      destruct (script.step (script.COW_class sz0 v0) o env0 h0)
        as [[[env01 os0] h01]| |] eqn:Hstep0; try done.
    destruct Hs as (Hos & Hal1 & Henv1). cbn beta iota. cbn [fst snd].
    pose proof (accounted_step sz v o env env1 os h h1 Hacc Hstep) as Hacc1.
    pose proof (accounted_step sz0 v0 o env0 env01 os0 h0 h01 Hacc0 Hstep0) as Hacc01.
    specialize (IH env1 env01 h1 h01 Hacc1 Hacc01 Hal1 Henv1).
    unfold bind, agree in *.
    destruct (script.run (script.COW_class sz v) p env1 h1) as [[os' h2]| |],
      (script.run (script.COW_class sz0 v0) p env01 h01) as [[os0' h02]| |];
      try done.
    destruct IH as [Hos' Hal2]. unfold ret. split; [|done].
    by apply Forall2_app.
Qed.

End agreement_facts.

Section agreement.

Import COW COW_props accounting side_by_side.

(** X9. Run by one thread, COW_AtomicInt, COW_CritSec and COW_Mutex do
    what COW_Unsafe does, each namespace on the arena of its own, whatever
    the address of the arena and the size of a [StringBuf] in it: every
    program of public operations returns in both, throws in both or goes
    wrong in both; when it returns the lengths observed are the same, a
    read finds the same character in both or a [char] never written in
    both, the same blocks of the two arenas are in use and hold equal
    [StringBuf]s, and the counters agree. In particular the branch of
    [COW_AtomicInt::String::EnsureUnique] that deletes the new buffer again
    is never taken, and a lock does not change what is computed. *)
Theorem thread_safe_namespaces_agree_with_COW_Unsafe (sz sz0 : nat) (v : variant)
      (base base0 : Z) (p : list script.op) :
  (0 < base)%Z → (0 < base0)%Z →
  agree (FastArena.ctor base sz) (FastArena.ctor base0 sz0)
    (script.run (script.COW_class sz v) p [] (start sz base))
    (script.run (script.COW_class sz0 Unsafe) p [] (start sz0 base0)).
Proof.
  intros Hb Hb0. apply run_alike.
  - by apply accounted_start.
  - by apply accounted_start.
  - split_and!; [by exists (replicate FastArena.size 0%Z) | done | done | done].
  - constructor.
Qed.

Lemma thread_safe_namespaces_agree_with_COW_Unsafe_witness :
  agree (FastArena.ctor 4096 20) (FastArena.ctor 8192 16)
    (script.run (script.COW_class 20 Mutex) read_then_copy [] (start 20 4096))
    (script.run (script.COW_class 16 Unsafe) read_then_copy [] (start 16 8192)).
Proof.
  apply (thread_safe_namespaces_agree_with_COW_Unsafe 20 16 Mutex 4096 8192
           read_then_copy); lia.
Defined.

End agreement.



(** ** No block of the arena is lost and no lock is left held *)

Section resources_facts.

Set Warnings "-clear-no-such-hyp".

Import COW COW_props accounting resources.

Lemma reserved_baggage (d : StringBuf) (n : nat) :
  baggage (reserved d n) = baggage d.
Proof. unfold reserved. by case_decide. Qed.

(** The three shapes of [changes_like], from the [StringBuf]s left. *)
Lemma changes_in_place (sz : nat) (h h' : heap) (q : Z) (d d' : StringBuf) :
  objs h !! q = Some d → baggage d' = baggage d →
  fa h' = fa h → objs h' = <[q := d']> (objs h) →
  changes_like sz h h'.
Proof.
  intros Hq Hb Hfa Ho. split.
  - intros r x Hx. rewrite Ho in Hx.
    apply lookup_insert_Some in Hx as [[<- <-]|[_ Hx]]; right; eauto.
  - left. split; [done|]. rewrite Ho, dom_insert_L.
    apply elem_of_dom_2 in Hq. set_solver.
Qed.

Lemma changes_by_new (sz : nat) (h h1 h' : heap) (p : Z) (m : gmap Z StringBuf) :
  heap_wf sz h → operator_new sz h = Ok (p, h1) → fa h' = fa h1 →
  objs h' = m → dom m = {[p]} ∪ dom (objs h) →
  (∀ r x, m !! r = Some x →
     baggage x = 0 ∨ ∃ r0 d0, objs h !! r0 = Some d0 ∧ baggage x = baggage d0) →
  changes_like sz h h'.
Proof.
  intros Hwf Hnew Hfa Ho Hdom Hbag. split.
  - intros r x Hx. rewrite Ho in Hx. by apply Hbag in Hx.
  - right; left. exists p, h1. split_and!; [done | done |]. by rewrite Ho.
Qed.

Lemma String_ctor_changes (sz : nat) (h h' : heap) (s : String) :
  heap_wf sz h → String_ctor sz h = Ok (s, h') → changes_like sz h h'.
Proof.
  intros Hwf. rewrite String_ctor_eq.
  destruct (operator_new sz h) as [[p h1]| |] eqn:Hnew; [|done..].
  intros [= <- <-].
  destruct (operator_new_Ok _ _ _ _ Hwf Hnew) as (Hp & Ho1 & _).
  eapply (changes_by_new sz h h1 _ p (<[p := mkStringBuf None 0 0 1 0]> (objs h1)));
    [done | done | done | reflexivity | |].
  - by rewrite dom_insert_L, Ho1.
  - intros r x Hx. rewrite Ho1 in Hx.
    apply lookup_insert_Some in Hx as [[<- <-]|[_ Hx]]; [by left | right; eauto].
Qed.

Lemma copy_ctor_changes (sz : nat) (v : variant) (h h' : heap) (q : Z)
      (d : StringBuf) (s' : String) :
  heap_wf sz h → objs h !! q = Some d →
  copy_ctor (String_of sz v) (mkString q) h = Ok (s', h') →
  changes_like sz h h'.
Proof.
  intros Hwf Hq. destruct (decide (refs d > 0)%Z) as [Hr|Hr].
  - rewrite (copy_ctor_shares sz v h (mkString q) d Hq Hr). intros [= <- <-].
    by apply (changes_in_place sz h _ q d (set_refs d (refs d + 1))).
  - rewrite (copy_ctor_clones sz v h q d Hwf Hq) by lia.
    destruct (operator_new sz h) as [[p h1]| |] eqn:Hnew; [|done..].
    intros [= <- <-].
    eapply (changes_by_new sz h h1 _ p (<[p := cloned d 0]> (objs h)));
      [done | done | done | reflexivity | |].
    + by rewrite dom_insert_L.
    + intros r x Hx.
      apply lookup_insert_Some in Hx as [[<- <-]|[_ Hx]]; [by left | right; eauto].
Qed.

Lemma dtor_changes (sz : nat) (v : variant) (h h' : heap) (q : Z)
      (d : StringBuf) (u : unit) :
  heap_wf sz h → objs h !! q = Some d →
  dtor (String_of sz v) (mkString q) h = Ok (u, h') →
  changes_like sz h h'.
Proof.
  intros Hwf Hq. destruct (dtor_eq sz v h q d Hwf Hq) as (i & Hi & Hqi & ->).
  case_decide; intros [= <- <-].
  - split.
    + intros r x Hx. cbn in Hx. apply lookup_delete_Some in Hx as [_ Hx].
      right; eauto.
    + right; right. exists i. rewrite <- Hqi. split_and!; [done | | done |].
      * by apply elem_of_dom_2 in Hq.
      * cbn. by rewrite dom_delete_L.
  - by apply (changes_in_place sz h _ q d (set_refs d (refs d - 1))).
Qed.

Lemma detached_changes (sz : nat) (h h1 h' : heap) (q p : Z)
      (d dc dp : StringBuf) :
  heap_wf sz h → objs h !! q = Some d → operator_new sz h = Ok (p, h1) →
  fa h' = fa h1 → baggage dp = 0 →
  objs h' = <[p := dp]> (<[q := set_refs d (refs d - 1)]> (<[p := dc]> (objs h))) →
  changes_like sz h h'.
Proof.
  intros Hwf Hq Hnew Hfa Hdp Ho.
  eapply (changes_by_new sz h h1 h' p); [done | done | done | exact Ho | |].
  - rewrite !dom_insert_L. apply elem_of_dom_2 in Hq. set_solver.
  - intros r x Hx.
    apply lookup_insert_Some in Hx as [[<- <-]|[Hne Hx]]; [by left|].
    apply lookup_insert_Some in Hx as [[<- <-]|[_ Hx]]; [right; eauto|].
    apply lookup_insert_Some in Hx as [[-> _]|[_ Hx]]; [done | right; eauto].
Qed.

Lemma Clear_changes (sz : nat) (v : variant) (h h' : heap) (q : Z)
      (d : StringBuf) (s' : String) :
  heap_wf sz h → objs h !! q = Some d →
  Clear (String_of sz v) (mkString q) h = Ok (s', h') →
  changes_like sz h h'.
Proof.
  intros Hwf Hq. rewrite (Clear_eq sz v h q d Hq). case_decide.
  - destruct (operator_new sz h) as [[p h1]| |] eqn:Hnew; [|done..].
    intros [= <- <-].
    destruct (operator_new_Ok _ _ _ _ Hwf Hnew) as (Hp & _).
    eapply (changes_by_new sz h h1 _ p
              (<[p := mkStringBuf None 0 0 1 0]>
                 (<[q := set_refs d (refs d - 1)]> (objs h))));
      [done | done | done | reflexivity | |].
    + rewrite !dom_insert_L. apply elem_of_dom_2 in Hq. set_solver.
    + intros r x Hx.
      apply lookup_insert_Some in Hx as [[<- <-]|[_ Hx]]; [by left|].
      apply lookup_insert_Some in Hx as [[<- <-]|[_ Hx]]; right; eauto.
  - intros [= <- <-].
    by apply (changes_in_place sz h _ q d (mkStringBuf None 0 0 1 (baggage d))).
Qed.

Lemma Append_changes (sz : nat) (v : variant) (h h' : heap) (q : Z)
      (d : StringBuf) (c : ascii) (s' : String) :
  heap_wf sz h → objs h !! q = Some d →
  Append (String_of sz v) (mkString q) c h = Ok (s', h') →
  changes_like sz h h'.
Proof.
  intros Hwf Hq. pose proof (heap_wf_buf sz h q d Hwf Hq) as Hbw.
  destruct (decide (refs d > 1)%Z) as [Hr|Hr].
  - rewrite (Append_shared sz v h q d c Hwf Hq Hr).
    destruct (operator_new sz h) as [[p h1]| |] eqn:Hnew; [|done..].
    intros [= <- <-].
    by eapply (detached_changes sz h h1 _ q p d (cloned d (used d + 1))
                 (appended (cloned d (used d + 1)) c)).
  - rewrite (Append_unshared sz v h q d c Hq) by (done || lia).
    intros [= <- <-].
    apply (changes_in_place sz h _ q d
             (appended (set_refs (reserved d (used d + 1)) 1) c));
      [done | apply reserved_baggage | done | done].
Qed.

Lemma index_changes (sz : nat) (v : variant) (h h' : heap) (q : Z)
      (d : StringBuf) (n : nat) (r : String * charref) :
  heap_wf sz h → objs h !! q = Some d →
  index (String_of sz v) (mkString q) n h = Ok (r, h') →
  changes_like sz h h'.
Proof.
  intros Hwf Hq. pose proof (heap_wf_buf sz h q d Hwf Hq) as Hbw.
  destruct (decide (refs d > 1)%Z) as [Hr|Hr].
  - rewrite (index_shared sz v h q d n Hwf Hq Hr).
    destruct (operator_new sz h) as [[p h1]| |] eqn:Hnew; [|done..].
    intros [= <- <-].
    by eapply (detached_changes sz h h1 _ q p d (cloned d (len d))
                 (set_refs (cloned d (len d)) (-1))).
  - rewrite (index_unshared sz v h q d n Hq) by (done || lia).
    intros [= <- <-].
    by apply (changes_in_place sz h _ q d (set_refs d (-1))).
Qed.

Lemma changes_none (sz : nat) (h : heap) : changes_like sz h h.
Proof. split; [intros r x Hx; right; eauto | by left]. Qed.

(** One operation of a program changes the heap in one of the three ways. *)
Lemma step_changes (sz : nat) (v : variant) (o : script.op)
      (env env' : list (option String)) (os : list script.obs) (h h' : heap) :
  accounted sz env h →
  script.step (script.COW_class sz v) o env h = Ok ((env', os), h') →
  changes_like sz h h'.
Proof.
  intros Hacc. pose proof Hacc as [Hwf _].
  destruct o as [|i|i|i|i c|i n|i]; cbn [script.step]; intros H.
  - apply bind_Ok in H as (s & h1 & Hs & [= _ _ <-]).
    by apply (String_ctor_changes sz h h1 s).
  - apply bind_Ok in H as ([q] & h0 & Hl & H). apply live_Ok in Hl as [Hi ->].
    destruct (accounted_live _ _ _ _ _ Hacc Hi) as (d & Hq & _).
    apply bind_Ok in H as (s' & h1 & Hs & [= _ _ <-]).
    exact (copy_ctor_changes sz v h h1 q d s' Hwf Hq Hs).
  - apply bind_Ok in H as ([q] & h0 & Hl & H). apply live_Ok in Hl as [Hi ->].
    destruct (accounted_live _ _ _ _ _ Hacc Hi) as (d & Hq & _).
    apply bind_Ok in H as (u & h1 & Hs & [= _ _ <-]).
    exact (dtor_changes sz v h h1 q d u Hwf Hq Hs).
  - apply bind_Ok in H as ([q] & h0 & Hl & H). apply live_Ok in Hl as [Hi ->].
    destruct (accounted_live _ _ _ _ _ Hacc Hi) as (d & Hq & _).
    apply bind_Ok in H as (s' & h1 & Hs & [= _ _ <-]).
    exact (Clear_changes sz v h h1 q d s' Hwf Hq Hs).
  - apply bind_Ok in H as ([q] & h0 & Hl & H). apply live_Ok in Hl as [Hi ->].
    destruct (accounted_live _ _ _ _ _ Hacc Hi) as (d & Hq & _).
    apply bind_Ok in H as (s' & h1 & Hs & [= _ _ <-]).
    exact (Append_changes sz v h h1 q d c s' Hwf Hq Hs).
  - apply bind_Ok in H as ([q] & h0 & Hl & H). apply live_Ok in Hl as [Hi ->].
    destruct (accounted_live _ _ _ _ _ Hacc Hi) as (d & Hq & _).
    apply bind_Ok in H as (r & h1 & Hs & [= _ _ <-]).
    cbn in Hs. apply bind_Ok in Hs as (r0 & h2 & Hidx & Hs).
    apply bind_Ok in Hs as (x & h3 & Hrd & [= _ <-]).
    apply read_Ok in Hrd as ->.
    exact (index_changes sz v h h2 q d n r0 Hwf Hq Hidx).
  - apply bind_Ok in H as (s & h0 & Hl & H). apply live_Ok in Hl as [Hi ->].
    apply bind_Ok in H as (n & h1 & Hs & [= _ _ <-]).
    cbn in Hs. apply Length_Ok in Hs as ->. apply changes_none.
Qed.

(** The headers of the arena follow the [StringBuf]s. *)
Lemma changes_keep_arena_tight (sz : nat) (h h' : heap) :
  heap_wf sz h → arena_tight h → changes_like sz h h' →
  arena_tight h'
  ∧ FastArena.n_ (fa h') = FastArena.n_ (fa h)
  ∧ FastArena.buf_ (fa h') = FastArena.buf_ (fa h).
Proof.
  intros Hwf Ht [_ [[Hfa Hdom]|[(p & h1 & Hnew & Hfa & Hdom)|(i & Hi & Hin & Hfa & Hdom)]]];
    unfold arena_tight.
  - split; [|by rewrite Hfa]. intros j Hj. rewrite Hfa, Hdom. by apply Ht.
  - destruct (operator_new_Ok _ _ _ _ Hwf Hnew) as (Hp & _ & _ & _ & i & Hi & Hfree & -> & Hfa1).
    rewrite Hfa, Hfa1. split; [|done]. intros j Hj. rewrite Hdom.
    change (FastArena.payload (FastArena.set_hdr (fa h) _) j)
      with (FastArena.payload (fa h) j). cbn [FastArena.hdr FastArena.set_hdr].
    assert (Hlen : i < length (FastArena.hdr (fa h))).
    { destruct Hwf as ([-> _] & _). done. }
    destruct (decide (j = i)) as [->|Hne].
    + rewrite list_lookup_insert_eq by done. rewrite decide_True by set_solver. done.
    + rewrite list_lookup_insert_ne by done. rewrite (Ht j Hj).
      assert (Hpne : FastArena.payload (fa h) j ≠ FastArena.payload (fa h) i).
      { intros Heq. by apply payload_inj in Heq. }
      f_equal. repeat case_decide; set_solver.
  - rewrite Hfa. split; [|done]. intros j Hj. rewrite Hdom.
    change (FastArena.payload (FastArena.set_hdr (fa h) _) j)
      with (FastArena.payload (fa h) j). cbn [FastArena.hdr FastArena.set_hdr].
    destruct (decide (j = i)) as [->|Hne].
    + rewrite list_lookup_alter_eq, (Ht i Hi). rewrite decide_True by done.
      rewrite decide_False by set_solver. done.
    + rewrite list_lookup_alter_ne by done. rewrite (Ht j Hj).
      assert (Hpne : FastArena.payload (fa h) j ≠ FastArena.payload (fa h) i).
      { intros Heq. by apply payload_inj in Heq. }
      f_equal. repeat case_decide; set_solver.
Qed.

Lemma changes_keep_unlocked (sz : nat) (h h' : heap) :
  unlocked h → changes_like sz h h' → unlocked h'.
Proof.
  intros Hu [Hbag _]. apply map_Forall_lookup_2. intros r x Hx.
  destruct (Hbag r x Hx) as [?|(r0 & d0 & Hd0 & ->)]; [done|].
  by apply (map_Forall_lookup_1 _ _ _ _ Hu Hd0).
Qed.

Lemma exec_keeps_resources (sz : nat) (v : variant) (p : list script.op)
      (env env' : list (option String)) (h h' : heap) :
  accounted sz env h → arena_tight h → unlocked h →
  script.exec (script.COW_class sz v) p env h = Ok (env', h') →
  accounted sz env' h' ∧ arena_tight h' ∧ unlocked h'
  ∧ FastArena.n_ (fa h') = FastArena.n_ (fa h)
  ∧ FastArena.buf_ (fa h') = FastArena.buf_ (fa h).
Proof.
  revert env h. induction p as [|o p IH]; intros env h Hacc Ht Hu; cbn [script.exec].
  - by intros [= <- <-].
  - intros H. apply bind_Ok in H as ([env1 os] & h1 & Hstep & H).
    pose proof (accounted_step sz v o env env1 os h h1 Hacc Hstep) as Hacc1.
    pose proof (step_changes sz v o env env1 os h h1 Hacc Hstep) as Hch.
    destruct (changes_keep_arena_tight sz h h1 (proj1 Hacc) Ht Hch) as (Ht1 & Hn & Hb).
    pose proof (changes_keep_unlocked sz h h1 Hu Hch) as Hu1.
    destruct (IH env1 h1 Hacc1 Ht1 Hu1 H) as (? & ? & ? & Hn' & Hb').
    split_and!; [done | done | done | congruence | congruence].
Qed.

Lemma start_resources (sz : nat) (base : Z) :
  arena_tight (start sz base) ∧ unlocked (start sz base).
Proof.
  split.
  - intros i Hi. unfold start. cbn [fa objs].
    rewrite dom_empty_L, decide_False by set_solver.
    unfold FastArena.ctor. cbn [FastArena.hdr]. by apply lookup_replicate_2.
  - apply map_Forall_empty.
Qed.

Lemma owners_all_destroyed (env : list (option String)) (q : Z) :
  all_destroyed env → owners data_ env q = 0.
Proof.
  induction 1 as [|o env Ho _ IH]; [done|]. subst o. simpl. exact IH.
Qed.

(** X10. In the four namespaces of common-test.h, whatever a program of
    public operations does, every block of the arena has 1 in its header
    while a [StringBuf] lives in it and 0 otherwise: no block is lost and
    none is given back twice. A program that has destroyed every string it
    made leaves no [StringBuf], and the arena as it was constructed. *)
Theorem programs_leak_no_block (sz : nat) (v : variant) (base : Z)
      (p : list script.op) (env : list (option String)) (h : heap) :
  (0 < base)%Z →
  script.exec (script.COW_class sz v) p [] (start sz base) = Ok (env, h) →
  arena_tight h
  ∧ (all_destroyed env → objs h = ∅ ∧ fa h = FastArena.ctor base sz).
Proof.
  intros Hb Hrun. destruct (start_resources sz base) as [Ht0 Hu0].
  destruct (exec_keeps_resources sz v p [] env _ h (accounted_start sz base Hb)
              Ht0 Hu0 Hrun) as ((Hwf & Hc & Hlive) & Ht & _ & Hn & Hbuf).
  split; [done|]. intros Hall.
  assert (Ho : objs h = ∅).
  { apply map_empty. intros q. destruct (objs h !! q) as [d|] eqn:Hq; [|done].
    destruct (Hc q d Hq) as [Hge _].
    rewrite (owners_all_destroyed env q Hall) in Hge. lia. }
  split; [done|].
  destruct (fa h) as [n b hs] eqn:Hfa. cbn in Hn, Hbuf. subst n b.
  unfold FastArena.ctor. f_equal.
  destruct Hwf as ([Hlen _] & _). rewrite Hfa in Hlen. cbn in Hlen.
  apply list_eq. intros i. destruct (decide (i < FastArena.size)) as [Hi|Hi].
  - pose proof (Ht i Hi) as Hti. rewrite Hfa, Ho in Hti. cbn in Hti.
    rewrite decide_False in Hti by set_solver.
    rewrite Hti. symmetry. by apply lookup_replicate_2.
  - rewrite !lookup_ge_None_2; [done | rewrite length_replicate; lia | lia].
Qed.

Lemma programs_leak_no_block_witness :
  arena_tight (mkHeap (FastArena.ctor 4096 16) ∅ 1 2)
  ∧ (all_destroyed ([None; None] : list (option String)) →
     objs (mkHeap (FastArena.ctor 4096 16) ∅ 1 2) = ∅
     ∧ fa (mkHeap (FastArena.ctor 4096 16) ∅ 1 2) = FastArena.ctor 4096 16).
Proof.
  apply (programs_leak_no_block 16 CritSec 4096
           (script.read_a_copy ++ [script.Destroy 0; script.Destroy 1])).
  - lia.
  - vm_compute. reflexivity.
Defined.

(** X11. In COW_CritSec and COW_Mutex every member function gives back the
    lock it takes: whatever a program of public operations has done, no
    [StringBuf] is left with its lock held. *)
Theorem programs_release_every_lock (sz : nat) (v : variant) (base : Z)
      (p : list script.op) (env : list (option String)) (h : heap) :
  (0 < base)%Z →
  script.exec (script.COW_class sz v) p [] (start sz base) = Ok (env, h) →
  unlocked h.
Proof.
  intros Hb Hrun. destruct (start_resources sz base) as [Ht0 Hu0].
  by destruct (exec_keeps_resources sz v p [] env _ h (accounted_start sz base Hb)
                 Ht0 Hu0 Hrun) as (_ & _ & Hu & _).
Qed.

Lemma programs_release_every_lock_witness : unlocked heap_shared.
Proof.
  apply (programs_release_every_lock 16 Mutex 4096
           [script.Construct; script.Append 0 "X"; script.Copy 0]
           [Some (mkString 4100); Some (mkString 4100)]).
  - lia.
  - vm_compute. reflexivity.
Defined.

End resources_facts.


(** ** Strings that come and go: what a scope leaves behind *)

Section scope_facts.

Import COW COW_props.

Lemma operator_new_run (sz : nat) (h : heap) :
  heap_wf sz h → ¬ FastArena.exhausted (fa h) →
  ∃ i, i < FastArena.size ∧ FastArena.is_free (fa h) i
       ∧ objs h !! FastArena.payload (fa h) i = None
       ∧ operator_new sz h
         = Ok (FastArena.payload (fa h) i,
               set_fa h (FastArena.set_hdr (fa h)
                           (<[i := 1%Z]> (FastArena.hdr (fa h))))).
Proof.
  intros Hwf Hne. destruct (operator_new_succeeds sz h Hwf Hne) as (p & h1 & Hnew).
  destruct (operator_new_Ok _ _ _ _ Hwf Hnew)
    as (Hp & Ho & Hna & Hnc & i & Hi & Hfree & -> & Hfa).
  exists i. split_and!; [done..|]. rewrite Hnew. f_equal. f_equal.
  destruct h as [a o nc na], h1 as [a1 o1 nc1 na1]. simpl in *. by subst.
Qed.

(** The heap after [delete p] of a [StringBuf] that was made in a block
    that was free: the heap before the block was taken. *)
Lemma delete_new_block (h : heap) (i : nat) (x : StringBuf)
      (nc na : Z) :
  FastArena.is_free (fa h) i → objs h !! FastArena.payload (fa h) i = None →
  mkHeap
    (FastArena.set_hdr (fa h)
       (alter IntAtomicDecrement i (<[i := 1%Z]> (FastArena.hdr (fa h)))))
    (base.delete (FastArena.payload (fa h) i)
       (<[FastArena.payload (fa h) i := x]> (objs h)))
    nc na
  = mkHeap (fa h) (objs h) nc na.
Proof.
  intros Hfree Hp. rewrite alter_free_block by exact Hfree.
  rewrite delete_insert_eq, delete_id by done.
  f_equal. by destruct (fa h).
Qed.

(** The heap a deep copy leaves is well formed. *)
Lemma heap_wf_new (sz : nat) (h : heap) (i : nat) (x : StringBuf) (nc na : Z) :
  heap_wf sz h → i < FastArena.size → FastArena.is_free (fa h) i →
  buf_wf x →
  heap_wf sz
    (mkHeap (FastArena.set_hdr (fa h) (<[i := 1%Z]> (FastArena.hdr (fa h))))
            (<[FastArena.payload (fa h) i := x]> (objs h)) nc na).
Proof.
  intros Hwf Hi Hfree Hx. pose proof Hwf as (Hfa & Hsz & Ho).
  assert (Hlen : i < length (FastArena.hdr (fa h))) by (destruct Hfa as [-> _]; done).
  split_and!.
  - apply set_hdr_wf; [done | by rewrite length_insert].
  - done.
  - intros r y Hy. cbn in Hy.
    apply lookup_insert_Some in Hy as [[<- <-]|[Hne Hy]].
    + split; [done|]. exists i. split_and!; [done | done |].
      exists 1%Z. split; [by apply list_lookup_insert_eq | done].
    + destruct (Ho r y Hy) as (Hby & j & Hj & -> & z & Hz & Hznz).
      split; [done|]. exists j. split_and!; [done | done |].
      destruct (decide (j = i)) as [->|Hji].
      * exists 1%Z. split; [by apply list_lookup_insert_eq | done].
      * exists z. split; [|done]. cbn. by rewrite list_lookup_insert_ne.
Qed.

Lemma dtor_last (sz : nat) (v : variant) (h : heap) (i : nat) (x : StringBuf) :
  heap_wf sz h → i < FastArena.size →
  objs h !! FastArena.payload (fa h) i = Some x → (refs x - 1 < 1)%Z →
  dtor (String_of sz v) (mkString (FastArena.payload (fa h) i)) h
  = Ok (tt, mkHeap (FastArena.set_hdr (fa h)
                      (alter IntAtomicDecrement i (FastArena.hdr (fa h))))
                   (base.delete (FastArena.payload (fa h) i) (objs h))
                   (nCopies h) (nAllocs h)).
Proof.
  intros Hwf Hi Hx Hr.
  destruct (dtor_eq sz v h _ x Hwf Hx) as (j & Hj & Hij & ->).
  apply payload_inj in Hij. subst j. by rewrite decide_True.
Qed.



Lemma dtor_eq2 (h : COW_AtomicInt2.heap) (q : positive) (x : COW_AtomicInt2.glom) :
  COW_AtomicInt2.mem h !! q = Some x →
  COW_AtomicInt2.dtor (COW_AtomicInt2.mkString q) h
  = Ok (tt, COW_AtomicInt2.set_mem h
              (if decide (COW_AtomicInt2.REFS x - 1 < 1)%Z
               then base.delete q (COW_AtomicInt2.mem h)
               else <[q := COW_AtomicInt2.set_REFS x (COW_AtomicInt2.REFS x - 1)]>
                      (COW_AtomicInt2.mem h))).
Proof.
  intros Hq. destruct h as [m nc na], x as [[l u r] b]. simpl in Hq.
  unfold COW_AtomicInt2.dtor. glom_simpl. unfold IntAtomicDecrement.
  destruct (decide (r - 1 < 1)%Z); glom_simpl;
    [by rewrite delete_insert_eq | done].
Qed.

Lemma set_refs_same (d : StringBuf) (k : Z) :
  k = refs d → set_refs d k = d.
Proof. intros ->. by destruct d. Qed.





End scope_facts.


(** ** [Clear] and [Append] on any string, shared or not *)

Section Clear_Append_facts.

Import COW COW_props.

Lemma Clear_eq2 (h : COW_AtomicInt2.heap) (q : positive) (x : COW_AtomicInt2.glom) :
  COW_AtomicInt2.mem h !! q = Some x →
  COW_AtomicInt2.Clear (COW_AtomicInt2.mkString q) h
  = Ok (COW_AtomicInt2.mkString (fresh (dom (COW_AtomicInt2.mem h))),
        COW_AtomicInt2.set_nAllocs
          (COW_AtomicInt2.set_mem h
             (if decide (COW_AtomicInt2.REFS x > 1)%Z
              then <[q := COW_AtomicInt2.set_REFS x (COW_AtomicInt2.REFS x - 1)]>
                     (<[fresh (dom (COW_AtomicInt2.mem h))
                        := COW_AtomicInt2.mkGlom (COW_AtomicInt2.mkStringBuf 0 0 1) []]>
                        (COW_AtomicInt2.mem h))
              else base.delete q
                     (<[fresh (dom (COW_AtomicInt2.mem h))
                        := COW_AtomicInt2.mkGlom (COW_AtomicInt2.mkStringBuf 0 0 1) []]>
                        (COW_AtomicInt2.mem h))))
          (COW_AtomicInt2.nAllocs h + 1)).
Proof.
  intros Hq. pose proof (fresh_not_live h) as Hf.
  assert (Hne : fresh (dom (COW_AtomicInt2.mem h)) ≠ q) by congruence.
  destruct h as [m nc na]. cbn in *.
  unfold COW_AtomicInt2.Clear. unfold bind at 1.
  change (COW_AtomicInt2.String_ctor {| COW_AtomicInt2.mem := m; COW_AtomicInt2.nCopies := nc; COW_AtomicInt2.nAllocs := na |})
    with (Ok (COW_AtomicInt2.mkString (fresh (dom m)),
              COW_AtomicInt2.mkHeap (<[fresh (dom m) := COW_AtomicInt2.mkGlom (COW_AtomicInt2.mkStringBuf 0 0 1) []]> m) nc (na + 1))).
  cbn beta iota. unfold COW_AtomicInt2.Swap. cbn beta iota.
  erewrite dtor_eq2 by (cbn; by rewrite lookup_insert_ne).
  unfold ret. cbn. f_equal. f_equal.
  unfold COW_AtomicInt2.set_nAllocs, COW_AtomicInt2.set_mem. cbn.
  f_equal. repeat case_decide; (done || lia).
Qed.

(** X14. [Clear] leaves the string empty, with no characters allocated, and
    shareable again, whatever its buffer was: a buffer the string held
    alone is emptied where it is (in COW_AtomicInt2: deleted, for a new
    one), also when it was marked unshareable; a buffer it shared loses
    one reference and the string gets a new [StringBuf]. [Clear] throws
    only when it needs a new [StringBuf] and the arena has no free block.
    [nCopies] does not change; [nAllocs] does not change in the namespaces
    of common-test.h and goes up by 1 in COW_AtomicInt2. *)
Theorem Clear_leaves_an_empty_shareable_string :
  (∀ (sz : nat) (v : variant) (h : heap) (s : String) (d : StringBuf),
     heap_wf sz h → objs h !! data_ s = Some d →
     ((refs d ≤ 1)%Z ∨ ¬ FastArena.exhausted (fa h) →
      ∃ s' h', Clear (String_of sz v) s h = Ok (s', h'))
     ∧ ((refs d > 1)%Z → FastArena.exhausted (fa h) →
        Clear (String_of sz v) s h = bad_alloc)
     ∧ (∀ s' h',
          Clear (String_of sz v) s h = Ok (s', h') →
          (∃ d', objs h' !! data_ s' = Some d'
                 ∧ buf d' = None ∧ len d' = 0 ∧ used d' = 0 ∧ refs d' = 1%Z)
          ∧ Length s' h' = Ok (0, h')
          ∧ nAllocs h' = nAllocs h ∧ nCopies h' = nCopies h
          ∧ ((refs d > 1)%Z →
             objs h !! data_ s' = None
             ∧ objs h' !! data_ s = Some (set_refs d (refs d - 1)))
          ∧ ((refs d ≤ 1)%Z → s' = s ∧ fa h' = fa h)))
  ∧
  (∀ (h : COW_AtomicInt2.heap) (s : COW_AtomicInt2.String)
     (x : COW_AtomicInt2.glom),
     COW_AtomicInt2.mem h !! COW_AtomicInt2.data_ s = Some x →
     ∃ s' h',
       COW_AtomicInt2.Clear s h = Ok (s', h')
       ∧ COW_AtomicInt2.mem h !! COW_AtomicInt2.data_ s' = None
       ∧ COW_AtomicInt2.mem h' !! COW_AtomicInt2.data_ s'
         = Some (COW_AtomicInt2.mkGlom (COW_AtomicInt2.mkStringBuf 0 0 1) [])
       ∧ COW_AtomicInt2.Length s' h' = Ok (0, h')
       ∧ COW_AtomicInt2.nAllocs h' = (COW_AtomicInt2.nAllocs h + 1)%Z
       ∧ COW_AtomicInt2.nCopies h' = COW_AtomicInt2.nCopies h
       ∧ COW_AtomicInt2.mem h' !! COW_AtomicInt2.data_ s
         = (if decide (COW_AtomicInt2.REFS x > 1)%Z
            then Some (COW_AtomicInt2.set_REFS x (COW_AtomicInt2.REFS x - 1))
            else None)).
Proof.
  split.
  - intros sz v h [q] d Hwf Hq. cbn [data_] in Hq.
    rewrite (Clear_eq sz v h q d Hq). split_and!.
    + intros Hcan. case_decide as Hr; [|eauto].
      destruct Hcan as [?|Hne]; [lia|].
      destruct (operator_new_succeeds sz h Hwf Hne) as (p & h1 & ->). eauto.
    + intros Hr Hex. rewrite decide_True by done.
      destruct (Allocate_outcome (fa h) sz (proj1 Hwf)) as [Hthrow _].
      unfold operator_new. rewrite (proj2 Hthrow); [done | by right].
    + intros s' h'. case_decide as Hr.
      * destruct (operator_new sz h) as [[p h1]| |] eqn:Hnew; [|done..].
        destruct (operator_new_Ok _ _ _ _ Hwf Hnew) as (Hp & _ & Hna & Hnc & _).
        assert (Hpq : p ≠ q) by congruence.
        intros [= <- <-]. cbn [data_ objs set_objs nAllocs nCopies].
        split_and!; [| | done | done | | intros ?; lia].
        -- eexists. split; [apply lookup_insert_eq | done].
        -- unfold Length, bind, load. cbn. by rewrite lookup_insert_eq.
        -- intros _. split; [done|].
           rewrite lookup_insert_ne by done. apply lookup_insert_eq.
      * intros [= <- <-]. cbn [data_ objs set_objs nAllocs nCopies].
        split_and!; [| | done | done | intros ?; lia | done].
        -- eexists. split; [apply lookup_insert_eq | done].
        -- unfold Length, bind, load. cbn. by rewrite lookup_insert_eq.
  - intros h [q] x Hq. cbn [COW_AtomicInt2.data_] in Hq.
    pose proof (fresh_not_live h) as Hf.
    assert (Hne : fresh (dom (COW_AtomicInt2.mem h)) ≠ q) by congruence.
    rewrite (Clear_eq2 h q x Hq). eexists _, _. split; [reflexivity|].
    cbn [COW_AtomicInt2.data_ COW_AtomicInt2.mem COW_AtomicInt2.set_mem
         COW_AtomicInt2.set_nAllocs COW_AtomicInt2.nAllocs COW_AtomicInt2.nCopies].
    assert (Hp : ∀ m : gmap positive COW_AtomicInt2.glom,
              (if decide (COW_AtomicInt2.REFS x > 1)%Z
               then <[q := COW_AtomicInt2.set_REFS x (COW_AtomicInt2.REFS x - 1)]>
                      (<[fresh (dom (COW_AtomicInt2.mem h))
                         := COW_AtomicInt2.mkGlom (COW_AtomicInt2.mkStringBuf 0 0 1) []]> m)
               else base.delete q
                      (<[fresh (dom (COW_AtomicInt2.mem h))
                         := COW_AtomicInt2.mkGlom (COW_AtomicInt2.mkStringBuf 0 0 1) []]> m))
              !! fresh (dom (COW_AtomicInt2.mem h))
              = Some (COW_AtomicInt2.mkGlom (COW_AtomicInt2.mkStringBuf 0 0 1) [])).
    { intros m. case_decide.
      - rewrite lookup_insert_ne by done. apply lookup_insert_eq.
      - rewrite lookup_delete_ne by done. apply lookup_insert_eq. }
    split_and!; [done | apply Hp | | done | done |].
    + unfold COW_AtomicInt2.Length, bind, COW_AtomicInt2.load.
      cbn [COW_AtomicInt2.data_ COW_AtomicInt2.mem COW_AtomicInt2.set_mem
           COW_AtomicInt2.set_nAllocs].
      by rewrite Hp.
    + case_decide; [apply lookup_insert_eq | apply lookup_delete_eq].
Qed.

Lemma Clear_leaves_an_empty_shareable_string_witness :
  (∃ s' h', Clear (String_of 16 AtomicInt) (mkString 4100) heap_unshareable
            = Ok (s', h'))
  ∧
  (∃ s' h',
     COW_AtomicInt2.Clear (COW_AtomicInt2.mkString 2) COW_AtomicInt2.heap_shared
     = Ok (s', h')
     ∧ COW_AtomicInt2.mem COW_AtomicInt2.heap_shared !! COW_AtomicInt2.data_ s' = None
     ∧ COW_AtomicInt2.mem h' !! COW_AtomicInt2.data_ s'
       = Some (COW_AtomicInt2.mkGlom (COW_AtomicInt2.mkStringBuf 0 0 1) [])
     ∧ COW_AtomicInt2.Length s' h' = Ok (0, h')
     ∧ COW_AtomicInt2.nAllocs h' = (COW_AtomicInt2.nAllocs COW_AtomicInt2.heap_shared + 1)%Z
     ∧ COW_AtomicInt2.nCopies h' = COW_AtomicInt2.nCopies COW_AtomicInt2.heap_shared
     ∧ COW_AtomicInt2.mem h' !! 2%positive
       = (if decide (COW_AtomicInt2.REFS (COW_AtomicInt2.set_REFS COW_AtomicInt2.glom_X 2) > 1)%Z
          then Some (COW_AtomicInt2.set_REFS
                       (COW_AtomicInt2.set_REFS COW_AtomicInt2.glom_X 2)
                       (COW_AtomicInt2.REFS
                          (COW_AtomicInt2.set_REFS COW_AtomicInt2.glom_X 2) - 1))
          else None)).
Proof.
  destruct Clear_leaves_an_empty_shareable_string as [HC HA]. split.
  - destruct (HC 16 AtomicInt heap_unshareable (mkString 4100) (set_refs buf_X (-1))
                 heap_unshareable_wf) as (Hret & _); [reflexivity|].
    apply Hret. left. cbn. lia.
  - apply (HA COW_AtomicInt2.heap_shared (COW_AtomicInt2.mkString 2)
              (COW_AtomicInt2.set_REFS COW_AtomicInt2.glom_X 2)).
    reflexivity.
Defined.

Lemma appended_reads (d : StringBuf) (c : ascii) (h : heap) (q : Z) :
  buf_wf d → used d < len d → objs h !! q = Some (appended d c) →
  Length (mkString q) h = Ok (used d + 1, h)
  ∧ read (mkRef q (used d)) h = Ok (Char c, h).
Proof.
  intros [Hu Hb] Hlt Hq. split.
  - unfold Length, bind, load. cbn [data_]. by rewrite Hq.
  - unfold read, bind, load. cbn [obj off]. rewrite Hq.
    unfold appended. cbn [buf set_used set_buf].
    rewrite list_lookup_insert_eq; [done|].
    destruct (buf d); simpl in *; lia.
Qed.

Lemma appended_reads2 (x : COW_AtomicInt2.glom) (c : ascii)
      (h : COW_AtomicInt2.heap) (q : positive) :
  COW_AtomicInt2.glom_wf x → COW_AtomicInt2.USED x < COW_AtomicInt2.LEN x →
  COW_AtomicInt2.mem h !! q = Some (COW_AtomicInt2.appended x c) →
  COW_AtomicInt2.Length (COW_AtomicInt2.mkString q) h
  = Ok (COW_AtomicInt2.USED x + 1, h)
  ∧ COW_AtomicInt2.read (COW_AtomicInt2.mkRef q (COW_AtomicInt2.USED x)) h
    = Ok (Char c, h)
  ∧ COW_AtomicInt2.contents h (COW_AtomicInt2.mkString q)
    = Some (COW_AtomicInt2.USED x + 1,
            take (COW_AtomicInt2.USED x) (COW_AtomicInt2.BUF x) ++ [Char c]).
Proof.
  intros [Hu Hb] Hlt Hq. destruct x as [[l u r] b].
  unfold COW_AtomicInt2.USED, COW_AtomicInt2.LEN in *. cbn in *. split_and!.
  - unfold COW_AtomicInt2.Length, bind, COW_AtomicInt2.load.
    cbn [COW_AtomicInt2.data_]. by rewrite Hq.
  - unfold COW_AtomicInt2.read, bind, COW_AtomicInt2.load.
    cbn [COW_AtomicInt2.obj COW_AtomicInt2.off]. rewrite Hq. cbn.
    rewrite list_lookup_insert_eq by lia. done.
  - unfold COW_AtomicInt2.contents. cbn [COW_AtomicInt2.data_]. rewrite Hq. cbn.
    by rewrite take_snoc_insert by lia.
Qed.

(** X15. [Append( c )] makes the string one character longer and puts [c]
    last, on every string: one that holds its buffer alone, with room or
    without, and one that shares it, which gets a buffer of its own first.
    It throws only when it needs a new [StringBuf] and the arena has no
    free block. In COW_AtomicInt2 the characters before [c] are those the
    string had. *)
Theorem Append_adds_one_character :
  (∀ (sz : nat) (v : variant) (h : heap) (s : String) (d : StringBuf) (c : ascii),
     heap_wf sz h → objs h !! data_ s = Some d →
     ((refs d ≤ 1)%Z ∨ ¬ FastArena.exhausted (fa h) →
      ∃ s' h', Append (String_of sz v) s c h = Ok (s', h'))
     ∧ (∀ s' h',
          Append (String_of sz v) s c h = Ok (s', h') →
          Length s' h' = Ok (used d + 1, h')
          ∧ read (mkRef (data_ s') (used d)) h' = Ok (Char c, h')
          ∧ nCopies h' = nCopies h))
  ∧
  (∀ (h : COW_AtomicInt2.heap) (s : COW_AtomicInt2.String)
     (x : COW_AtomicInt2.glom) (c : ascii),
     COW_AtomicInt2.mem h !! COW_AtomicInt2.data_ s = Some x →
     COW_AtomicInt2.glom_wf x →
     ∃ s' h',
       COW_AtomicInt2.Append s c h = Ok (s', h')
       ∧ COW_AtomicInt2.Length s' h' = Ok (COW_AtomicInt2.USED x + 1, h')
       ∧ COW_AtomicInt2.read
           (COW_AtomicInt2.mkRef (COW_AtomicInt2.data_ s') (COW_AtomicInt2.USED x)) h'
         = Ok (Char c, h')
       ∧ COW_AtomicInt2.contents h' s'
         = Some (COW_AtomicInt2.USED x + 1,
                 take (COW_AtomicInt2.USED x) (COW_AtomicInt2.BUF x) ++ [Char c])
       ∧ COW_AtomicInt2.nCopies h' = COW_AtomicInt2.nCopies h).
Proof.
  split.
  - intros sz v h [q] d c Hwf Hq. cbn [data_] in Hq.
    pose proof (heap_wf_buf sz h q d Hwf Hq) as Hbw.
    destruct (decide (refs d > 1)%Z) as [Hr|Hr].
    + rewrite (Append_shared sz v h q d c Hwf Hq Hr). split.
      * intros [?|Hne]; [lia|].
        destruct (operator_new_succeeds sz h Hwf Hne) as (p & h1 & ->). eauto.
      * intros s' h'.
        destruct (operator_new sz h) as [[p h1]| |] eqn:Hnew; [|done..].
        destruct (operator_new_Ok _ _ _ _ Hwf Hnew) as (_ & _ & _ & Hnc & _).
        intros [= <- <-]. cbn [data_].
        pose proof (round4_ge (Nat.max (len d) (used d + 1))).
        destruct (appended_reads (cloned d (used d + 1)) c
                    (set_objs (detached h1 h q p d (used d + 1))
                       (<[p := appended (cloned d (used d + 1)) c]>
                          (objs (detached h1 h q p d (used d + 1))))) p)
          as [HL HR];
          [by apply cloned_buf_wf | unfold cloned; simpl; lia
          | cbn; apply lookup_insert_eq |].
        split_and!; [done | done | done].
    + rewrite (Append_unshared sz v h q d c Hq) by (done || lia). split; [eauto|].
      intros s' h' [= <- <-]. cbn [data_].
      pose proof (reserved_len d (used d + 1)). pose proof (reserved_used d (used d + 1)) as Hu.
      destruct (appended_reads (set_refs (reserved d (used d + 1)) 1) c
                  (set_objs
                     (set_nAllocs h (nAllocs h + if decide (len d < used d + 1)
                                                 then 1%Z else 0%Z))
                     (<[q := appended (set_refs (reserved d (used d + 1)) 1) c]>
                        (objs h))) q)
        as [HL HR];
        [by apply set_refs_buf_wf, reserved_wf | cbn [used len set_refs]; lia
        | cbn; apply lookup_insert_eq |].
      cbn [used set_refs] in HL, HR. rewrite Hu in HL, HR. by split_and!.
  - intros h [q] x c Hq Hwx. cbn [COW_AtomicInt2.data_] in Hq.
    pose proof (fresh_not_live h) as Hf.
    destruct (cloned_len x (COW_AtomicInt2.USED x + 1) Hwx) as (Hn & Hl & Hb & Hu).
    pose proof (cloned_take x (COW_AtomicInt2.USED x + 1) Hwx) as Htk.
    pose proof (cloned_wf x (COW_AtomicInt2.USED x + 1) Hwx) as Hcw.
    destruct (decide (COW_AtomicInt2.REFS x > 1)%Z) as [Hr|Hr].
    + rewrite (Append_shared2 h q x c Hq Hr Hwx). eexists _, _.
      split; [reflexivity|]. cbn [COW_AtomicInt2.data_].
      match goal with
      | |- COW_AtomicInt2.Length (COW_AtomicInt2.mkString ?p) ?hh = _ ∧ _ =>
          destruct (appended_reads2
                      (COW_AtomicInt2.cloned x (COW_AtomicInt2.USED x + 1)) c hh p)
            as (HL & HR & HC); [done | lia | cbn; apply lookup_insert_eq |]
      end.
      rewrite Hu, Htk in *. by split_and!.
    + rewrite (Append_unshared2 h q x c Hq) by (done || lia). case_decide.
      * eexists _, _. split; [reflexivity|]. cbn [COW_AtomicInt2.data_].
        match goal with
        | |- COW_AtomicInt2.Length (COW_AtomicInt2.mkString ?p) ?hh = _ ∧ _ =>
            destruct (appended_reads2
                        (COW_AtomicInt2.set_REFS
                           (COW_AtomicInt2.cloned x (COW_AtomicInt2.USED x + 1)) 1)
                        c hh p)
              as (HL & HR & HC);
              [ by apply set_REFS_wf
              | change (COW_AtomicInt2.USED
                          (COW_AtomicInt2.cloned x (COW_AtomicInt2.USED x + 1))
                        < COW_AtomicInt2.LEN
                            (COW_AtomicInt2.cloned x (COW_AtomicInt2.USED x + 1)));
                lia
              | cbn; apply lookup_insert_eq |]
        end.
        change (COW_AtomicInt2.USED (COW_AtomicInt2.set_REFS ?y 1))
          with (COW_AtomicInt2.USED y) in *.
        change (COW_AtomicInt2.BUF (COW_AtomicInt2.set_REFS ?y 1))
          with (COW_AtomicInt2.BUF y) in *.
        rewrite Hu, Htk in *. by split_and!.
      * eexists _, _. split; [reflexivity|]. cbn [COW_AtomicInt2.data_].
        match goal with
        | |- COW_AtomicInt2.Length (COW_AtomicInt2.mkString ?p) ?hh = _ ∧ _ =>
            destruct (appended_reads2 (COW_AtomicInt2.set_REFS x 1) c hh p)
              as (HL & HR & HC);
              [ by apply set_REFS_wf
              | change (COW_AtomicInt2.USED x < COW_AtomicInt2.LEN x); lia
              | cbn; apply lookup_insert_eq |]
        end.
        by split_and!.
Qed.

Lemma Append_adds_one_character_witness :
  (∀ s' h',
     Append (String_of 16 CritSec) (mkString 4100) "Y" heap_shared = Ok (s', h') →
     Length s' h' = Ok (used (set_refs buf_X 2) + 1, h')
     ∧ read (mkRef (data_ s') (used (set_refs buf_X 2))) h' = Ok (Char "Y", h')
     ∧ nCopies h' = nCopies heap_shared)
  ∧
  (∃ s' h',
     COW_AtomicInt2.Append (COW_AtomicInt2.mkString 2) "Y" COW_AtomicInt2.heap_shared
     = Ok (s', h')
     ∧ COW_AtomicInt2.Length s' h' = Ok (2, h')
     ∧ COW_AtomicInt2.read (COW_AtomicInt2.mkRef (COW_AtomicInt2.data_ s') 1) h'
       = Ok (Char "Y", h')
     ∧ COW_AtomicInt2.contents h' s' = Some (2, [Char "X"; Char "Y"])
     ∧ COW_AtomicInt2.nCopies h' = COW_AtomicInt2.nCopies COW_AtomicInt2.heap_shared).
Proof.
  destruct Append_adds_one_character as [HC HA]. split.
  - apply (HC 16 CritSec heap_shared (mkString 4100) (set_refs buf_X 2) "Y"%char
              heap_shared_wf).
    reflexivity.
  - apply (HA COW_AtomicInt2.heap_shared (COW_AtomicInt2.mkString 2)
              (COW_AtomicInt2.set_REFS COW_AtomicInt2.glom_X 2) "Y"%char);
      [reflexivity | apply glom_X_wf].
Defined.

End Clear_Append_facts.


(** ** What one string does leaves the others their characters *)

Section survival_facts.

Import COW COW_props accounting.

Lemma dtor_frame (sz : nat) (v : variant) (h h' : heap) (q : Z) (d : StringBuf)
      (u : unit) :
  heap_wf sz h → objs h !! q = Some d →
  dtor (String_of sz v) (mkString q) h = Ok (u, h') →
  (∀ r, r ≠ q → objs h' !! r = objs h !! r)
  ∧ ((refs d > 1)%Z → objs h' !! q = Some (set_refs d (refs d - 1))).
Proof.
  intros Hwf Hq. destruct (dtor_eq sz v h q d Hwf Hq) as (i & _ & _ & ->).
  case_decide; intros [= <- <-]; cbn [objs set_objs set_fa]; split.
  - intros r Hne. by rewrite lookup_delete_ne.
  - intros ?. lia.
  - intros r Hne. by rewrite lookup_insert_ne.
  - intros _. apply lookup_insert_eq.
Qed.

Lemma Clear_frame (sz : nat) (v : variant) (h h' : heap) (q : Z) (d : StringBuf)
      (s' : String) :
  heap_wf sz h → objs h !! q = Some d →
  Clear (String_of sz v) (mkString q) h = Ok (s', h') →
  (∀ r, r ≠ q → is_Some (objs h !! r) →
        r ≠ data_ s' ∧ objs h' !! r = objs h !! r)
  ∧ ((refs d > 1)%Z →
     data_ s' ≠ q ∧ objs h' !! q = Some (set_refs d (refs d - 1))).
Proof.
  intros Hwf Hq. rewrite (Clear_eq sz v h q d Hq). case_decide.
  - destruct (operator_new sz h) as [[p h1]| |] eqn:Hnew; [|done..].
    destruct (operator_new_Ok _ _ _ _ Hwf Hnew) as (Hp & _).
    assert (Hpq : p ≠ q) by congruence.
    intros [= <- <-]. cbn [data_ objs set_objs]. split.
    + intros r Hne [x Hx]. assert (r ≠ p) by congruence.
      split; [done|]. by rewrite !lookup_insert_ne.
    + intros _. split; [done|]. rewrite lookup_insert_ne by done.
      apply lookup_insert_eq.
  - intros [= <- <-]. cbn [data_ objs set_objs]. split.
    + intros r Hne _. split; [done|]. by rewrite lookup_insert_ne.
    + intros ?. lia.
Qed.

Lemma copy_ctor_frame (sz : nat) (v : variant) (h h' : heap) (q : Z)
      (d : StringBuf) (s' : String) :
  heap_wf sz h → objs h !! q = Some d →
  copy_ctor (String_of sz v) (mkString q) h = Ok (s', h') →
  (∀ r, r ≠ q → is_Some (objs h !! r) → objs h' !! r = objs h !! r)
  ∧ ∃ k, objs h' !! q = Some (set_refs d k).
Proof.
  intros Hwf Hq. destruct (decide (refs d > 0)%Z) as [Hr|Hr].
  - rewrite (copy_ctor_shares sz v h (mkString q) d Hq Hr).
    intros [= <- <-]. cbn [data_ objs set_objs set_nCopies]. split.
    + intros r Hne _. by rewrite lookup_insert_ne.
    + eexists. apply lookup_insert_eq.
  - rewrite (copy_ctor_clones sz v h q d Hwf Hq) by lia.
    destruct (operator_new sz h) as [[p h1]| |] eqn:Hnew; [|done..].
    destruct (operator_new_Ok _ _ _ _ Hwf Hnew) as (Hp & _).
    assert (Hpq : p ≠ q) by congruence.
    intros [= <- <-]. cbn [objs set_objs set_nCopies set_nAllocs]. split.
    + intros r Hne [x Hx]. assert (r ≠ p) by congruence.
      by rewrite lookup_insert_ne.
    + exists (refs d). rewrite lookup_insert_ne by done.
      by rewrite set_refs_same.
Qed.

(** X16. Between any two strings that a program has left, in the four
    namespaces of common-test.h: destroying one, clearing it or copying it
    leaves the other with its [StringBuf] alive and with the [Length] and
    the characters it had. A [StringBuf] is never deleted under a string
    that still holds it, and after [Clear] the two share nothing. *)
Theorem other_strings_keep_their_buffer (sz : nat) (v : variant)
      (env : list (option String)) (h : heap) (i j : nat) (s1 s2 : String) :
  accounted sz env h → i ≠ j →
  env !! i = Some (Some s1) → env !! j = Some (Some s2) →
  is_Some (contents h s1)
  ∧ (∀ u h', dtor (String_of sz v) s2 h = Ok (u, h') →
             contents h' s1 = contents h s1)
  ∧ (∀ s' h', Clear (String_of sz v) s2 h = Ok (s', h') →
              data_ s' ≠ data_ s1 ∧ contents h' s1 = contents h s1)
  ∧ (∀ s' h', copy_ctor (String_of sz v) s2 h = Ok (s', h') →
              contents h' s1 = contents h s1).
Proof.
  intros Hacc Hij Hi Hj. destruct s1 as [q1], s2 as [q2].
  destruct (accounted_live _ _ _ _ _ Hacc Hi) as (d1 & Hq1 & _).
  destruct (accounted_live _ _ _ _ _ Hacc Hj) as (d2 & Hq2 & _).
  pose proof Hacc as [Hwf _].
  split; [unfold contents; cbn [data_]; rewrite Hq1; eauto|].
  destruct (decide (q1 = q2)) as [->|Hne].
  - destruct (shared_buffer_is_counted sz env h i j _ _ Hacc Hij Hi Hj eq_refl)
      as (_ & d & Hq & Hr).
    cbn [data_] in Hq. assert (d = d2) as -> by congruence. split_and!.
    + intros u h' Hrun.
      destruct (dtor_frame sz v h h' q2 d2 u Hwf Hq2 Hrun) as [_ Hkeep].
      by apply (contents_refs h h' (mkString q2) d2 (refs d2 - 1)); [|apply Hkeep].
    + intros s' h' Hrun.
      destruct (Clear_frame sz v h h' q2 d2 s' Hwf Hq2 Hrun) as [_ Hkeep].
      destruct (Hkeep Hr) as [Hs' Hq']. split; [done|].
      by apply (contents_refs h h' (mkString q2) d2 (refs d2 - 1)).
    + intros s' h' Hrun.
      destruct (copy_ctor_frame sz v h h' q2 d2 s' Hwf Hq2 Hrun) as [_ [k Hk]].
      by apply (contents_refs h h' (mkString q2) d2 k).
  - split_and!.
    + intros u h' Hrun.
      destruct (dtor_frame sz v h h' q2 d2 u Hwf Hq2 Hrun) as [Hsame _].
      unfold contents. cbn [data_]. by rewrite Hsame.
    + intros s' h' Hrun.
      destruct (Clear_frame sz v h h' q2 d2 s' Hwf Hq2 Hrun) as [Hsame _].
      destruct (Hsame q1 Hne) as [Hs' Hq']; [eauto|]. split; [done|].
      unfold contents. cbn [data_]. by rewrite Hq'.
    + intros s' h' Hrun.
      destruct (copy_ctor_frame sz v h h' q2 d2 s' Hwf Hq2 Hrun) as [Hsame _].
      unfold contents. cbn [data_]. rewrite Hsame; [done | done | eauto].
Qed.

Lemma other_strings_keep_their_buffer_witness :
  is_Some (contents heap_shared (mkString 4100))
  ∧ (∀ u h', dtor (String_of 16 Mutex) (mkString 4100) heap_shared = Ok (u, h') →
             contents h' (mkString 4100) = contents heap_shared (mkString 4100))
  ∧ (∀ s' h', Clear (String_of 16 Mutex) (mkString 4100) heap_shared = Ok (s', h') →
              data_ s' ≠ data_ (mkString 4100)
              ∧ contents h' (mkString 4100) = contents heap_shared (mkString 4100))
  ∧ (∀ s' h', copy_ctor (String_of 16 Mutex) (mkString 4100) heap_shared = Ok (s', h') →
              contents h' (mkString 4100) = contents heap_shared (mkString 4100)).
Proof.
  apply (other_strings_keep_their_buffer 16 Mutex
           [Some (mkString 4100); Some (mkString 4100)] heap_shared 0 1
           (mkString 4100) (mkString 4100)).
  - apply heap_shared_accounted.
  - lia.
  - reflexivity.
  - reflexivity.
Defined.

End survival_facts.

Section AtomicInt2_survival_facts.

Import COW_AtomicInt2 accounting.

Lemma contents_REFS (h h' : heap) (s : String) (x : glom) (k : Z) :
  mem h !! data_ s = Some x → mem h' !! data_ s = Some (set_REFS x k) →
  contents h' s = contents h s.
Proof. intros Hq Hq'. unfold contents. by rewrite Hq, Hq'. Qed.

Lemma set_REFS_same (x : glom) (k : Z) : k = REFS x → set_REFS x k = x.
Proof. intros ->. by destruct x as [[l u r] b]. Qed.

(** X17. The same in COW_AtomicInt2: destroying, clearing or copying one
    string of a program leaves every other string with its buffer alive
    and with the [Length] and the characters it had. *)
Theorem AtomicInt2_other_strings_keep_their_buffer
      (env : list (option String)) (h : heap) (i j : nat) (s1 s2 : String) :
  AtomicInt2_accounted env h → i ≠ j →
  env !! i = Some (Some s1) → env !! j = Some (Some s2) →
  is_Some (contents h s1)
  ∧ (∀ u h', dtor s2 h = Ok (u, h') → contents h' s1 = contents h s1)
  ∧ (∀ s' h', Clear s2 h = Ok (s', h') →
              data_ s' ≠ data_ s1 ∧ contents h' s1 = contents h s1)
  ∧ (∀ s' h', copy_ctor s2 h = Ok (s', h') → contents h' s1 = contents h s1).
Proof.
  intros Hacc Hij Hi Hj. destruct s1 as [q1], s2 as [q2].
  destruct (accounted_live2 _ _ _ _ Hacc Hi) as (x1 & Hq1 & _).
  destruct (accounted_live2 _ _ _ _ Hacc Hj) as (x2 & Hq2 & Hw2).
  pose proof (fresh_not_live h) as Hf.
  assert (Hp1 : fresh (dom (mem h)) ≠ q1) by congruence.
  assert (Hp2 : fresh (dom (mem h)) ≠ q2) by congruence.
  split; [unfold contents; cbn [data_]; rewrite Hq1; eauto|].
  assert (Hshared : q1 = q2 → (REFS x2 > 1)%Z).
  { intros ->.
    destruct (shared_buffer_is_counted2 env h i j _ _ Hacc Hij Hi Hj eq_refl)
      as (x & Hx & _ & Hr). cbn [data_] in Hx. congruence. }
  split_and!.
  - intros u h'. rewrite (dtor_eq2 h q2 x2 Hq2). intros [= <- <-].
    destruct (decide (q1 = q2)) as [->|Hne].
    + pose proof (Hshared eq_refl). rewrite decide_False by lia.
      apply (contents_REFS h _ (mkString q2) x2 (REFS x2 - 1)); [done|].
      cbn. apply lookup_insert_eq.
    + unfold contents. cbn [data_ mem set_mem].
      case_decide; by rewrite ?lookup_delete_ne, ?lookup_insert_ne.
  - intros s' h'. rewrite (Clear_eq2 h q2 x2 Hq2). intros [= <- <-].
    cbn [data_]. split; [done|].
    destruct (decide (q1 = q2)) as [->|Hne].
    + pose proof (Hshared eq_refl). rewrite decide_True by lia.
      apply (contents_REFS h _ (mkString q2) x2 (REFS x2 - 1)); [done|].
      cbn. apply lookup_insert_eq.
    + unfold contents. cbn [data_ mem set_mem set_nAllocs].
      case_decide; by rewrite ?lookup_delete_ne, ?lookup_insert_ne.
  - intros s' h'. destruct (decide (REFS x2 > 0)%Z) as [Hr|Hr].
    + rewrite (copy_ctor_shares2 h (mkString q2) x2 Hq2 Hr). intros [= <- <-].
      destruct (decide (q1 = q2)) as [->|Hne].
      * apply (contents_REFS h _ (mkString q2) x2 (REFS x2 + 1)); [done|].
        cbn. apply lookup_insert_eq.
      * unfold contents. cbn [data_ mem set_mem set_nCopies].
        by rewrite lookup_insert_ne.
    + rewrite (copy_ctor_clones2 h q2 x2 Hq2) by (done || lia).
      intros [= <- <-]. unfold contents.
      cbn [data_ mem set_mem set_nCopies set_nAllocs].
      by rewrite lookup_insert_ne.
Qed.

Lemma AtomicInt2_other_strings_keep_their_buffer_witness :
  is_Some (contents heap_shared (mkString 2))
  ∧ (∀ u h', dtor (mkString 2) heap_shared = Ok (u, h') →
             contents h' (mkString 2) = contents heap_shared (mkString 2))
  ∧ (∀ s' h', Clear (mkString 2) heap_shared = Ok (s', h') →
              data_ s' ≠ data_ (mkString 2)
              ∧ contents h' (mkString 2) = contents heap_shared (mkString 2))
  ∧ (∀ s' h', copy_ctor (mkString 2) heap_shared = Ok (s', h') →
              contents h' (mkString 2) = contents heap_shared (mkString 2)).
Proof.
  apply (AtomicInt2_other_strings_keep_their_buffer
           [Some (mkString 2); Some (mkString 2)] heap_shared 0 1
           (mkString 2) (mkString 2)).
  - apply heap_shared_accounted2.
  - lia.
  - reflexivity.
  - reflexivity.
Defined.

End AtomicInt2_survival_facts.


(** ** The non-COW strings: copies, and how far a string can grow *)

Section Plain_facts.

Import round_trip growth.

(** The copy constructor on a string that holds [cs]. *)
Lemma Plain_copy_holds (s : Plain.String) (cs : list ascii) (k : Plain.counters) :
  Plain_holds s cs →
  ∃ s2,
    Plain.copy_ctor s k
    = Ok (s2, Plain.mkCounters (Plain.nCopies k + 1) (Plain.nAllocs k + 1))
    ∧ Plain_holds s2 cs
    ∧ Plain.len_ s2 = Plain.len_ s ∧ Plain.used_ s2 = Plain.used_ s.
Proof.
  intros (Hu & Hb & Hl & Ht).
  assert (Hcopy : ∃ b, memcpy_ptr (Some (replicate (Plain.len_ s) Uninit))
                         (Plain.buf_ s) (Plain.used_ s) = Some (Some b)
                       ∧ length b = Plain.len_ s
                       ∧ take (Plain.used_ s) b
                         = take (Plain.used_ s) (default [] (Plain.buf_ s))).
  { unfold memcpy_ptr. case_decide as Hu0.
    - eexists. split; [done|]. split; [by rewrite length_replicate|].
      by rewrite Hu0.
    - destruct (Plain.buf_ s) as [a|]; [|lia]. simpl in Hb.
      unfold memcpy. rewrite decide_True by (rewrite length_replicate; lia).
      eexists. split; [done|]. split.
      + rewrite length_app, length_take, length_drop, length_replicate. lia.
      + simpl. rewrite take_app_le by (rewrite length_take; lia).
        by rewrite take_take, Nat.min_id. }
  destruct Hcopy as (b & Hm & Hlb & Htb).
  exists (Plain.mkString (Some b) (Plain.len_ s) (Plain.used_ s)).
  split_and!; [| | done | done].
  - unfold Plain.copy_ctor, bind. rewrite Hm. simpl.
    unfold Plain.incr_nCopies, Plain.incr_nAllocs, modify, ret. by destruct k.
  - split_and!; simpl; [done | done | done | congruence].
Qed.

(** X18. In Plain the copy constructor makes a string with the capacity,
    the [Length] and the characters of its source, also of a source that
    was never appended to; it counts one copy and one allocation. *)
Theorem Plain_copy_holds_the_same_characters (s : Plain.String)
      (cs : list ascii) (k : Plain.counters) :
  Plain_holds s cs →
  ∃ s2,
    Plain.copy_ctor s k
    = Ok (s2, Plain.mkCounters (Plain.nCopies k + 1) (Plain.nAllocs k + 1))
    ∧ Plain.len_ s2 = Plain.len_ s
    ∧ Plain.Length s2 = length cs
    ∧ Plain_reads s2 0 (length cs) = (λ c, Some (Char c)) <$> cs.
Proof.
  intros Hh.
  destruct (Plain_copy_holds s cs k Hh) as (s2 & Hrun & Hh2 & Hlen & Hused).
  exists s2. split_and!; [done | done | by destruct Hh2 as (_ & _ & ? & _) |].
  rewrite (Plain_holds_reads _ cs (length cs) 0 Hh2) by lia.
  by rewrite drop_0, firstn_all.
Qed.

Lemma Plain_copy_holds_the_same_characters_witness :
  ∃ s2,
    Plain.copy_ctor (Plain.mkString (Some [Char "X"; Uninit; Uninit; Uninit]) 4 1)
      (Plain.mkCounters 0 1)
    = Ok (s2, Plain.mkCounters (0 + 1) (1 + 1))
    ∧ Plain.len_ s2 = 4
    ∧ Plain.Length s2 = 1
    ∧ Plain_reads s2 0 1 = [Some (Char "X")].
Proof.
  apply (Plain_copy_holds_the_same_characters
           (Plain.mkString (Some [Char "X"; Uninit; Uninit; Uninit]) 4 1)
           ["X"%char] (Plain.mkCounters 0 1)).
  split_and!; simpl; [lia | reflexivity | reflexivity | reflexivity].
Defined.

(** *** The growth of the capacity *)

Lemma capacity_S (k : nat) :
  capacity (S k)
  = if decide (capacity k < k + 1)
    then round4 (needed_for (capacity k) (k + 1)) else capacity k.
Proof. reflexivity. Qed.

Lemma capacity_ge (k : nat) : k ≤ capacity k.
Proof.
  induction k as [|k IH]; [done|]. rewrite capacity_S. case_decide; [|lia].
  pose proof (round4_ge (needed_for (capacity k) (k + 1))).
  pose proof (needed_for_ge (capacity k) (k + 1)). lia.
Qed.

Lemma capacity_mono_S (k : nat) : capacity k ≤ capacity (S k).
Proof.
  rewrite capacity_S. case_decide; [|lia].
  pose proof (round4_ge (needed_for (capacity k) (k + 1))).
  pose proof (needed_for_ge (capacity k) (k + 1)). lia.
Qed.

Lemma capacity_mono (j k : nat) : j ≤ k → capacity j ≤ capacity k.
Proof.
  induction 1 as [|k _ IH]; [done|]. pose proof (capacity_mono_S k). lia.
Qed.

Lemma capacity_2840 : capacity 2840 = 2840.
Proof. vm_compute. reflexivity. Qed.

Lemma round4_le (n : nat) : round4 n ≤ n + 3.
Proof. unfold round4. case_decide; lia. Qed.

Lemma capacity_bound (k : nat) :
  capacity (S k) ≤ Nat.max (3 * k / 2) (S k) + 3.
Proof.
  induction k as [|k IH]; [vm_compute; lia|].
  rewrite capacity_S. case_decide as Hg.
  - pose proof (capacity_ge (S k)).
    assert (capacity (S k) = S k) as -> by lia.
    pose proof (round4_le (needed_for (S k) (S k + 1))).
    unfold needed_for in *. lia.
  - lia.
Qed.

Lemma Plain_Append_len (s s' : Plain.String) (c : ascii) (k k' : Plain.counters) :
  Plain.Append s c k = Ok (s', k') →
  Plain.used_ s' = Plain.used_ s + 1
  ∧ Plain.nCopies k' = Plain.nCopies k
  ∧ Plain.len_ s'
    = (if decide (Plain.len_ s < Plain.used_ s + 1)
       then round4 (needed_for (Plain.len_ s) (Plain.used_ s + 1))
       else Plain.len_ s)
  ∧ Plain.nAllocs k'
    = (Plain.nAllocs k
       + if decide (Plain.len_ s < Plain.used_ s + 1)%nat then 1%Z else 0%Z)%Z.
Proof.
  unfold Plain.Append. intros H. apply bind_Ok in H as (s1 & k1 & HR & H).
  assert (Hs1 : Plain.used_ s1 = Plain.used_ s ∧ Plain.nCopies k1 = Plain.nCopies k
                ∧ Plain.len_ s1
                  = (if decide (Plain.len_ s < Plain.used_ s + 1)
                     then round4 (needed_for (Plain.len_ s) (Plain.used_ s + 1))
                     else Plain.len_ s)
                ∧ Plain.nAllocs k1
                  = (Plain.nAllocs k
                     + if decide (Plain.len_ s < Plain.used_ s + 1)%nat
                       then 1%Z else 0%Z)%Z).
  { unfold Plain.Reserve in HR.
    destruct (decide (Plain.len_ s < Plain.used_ s + 1)) as [Hg|Hg];
      [|injection HR as <- <-; split_and!; [done | done | done | lia]].
    pose proof (needed_for_ge (Plain.len_ s) (Plain.used_ s + 1)) as Hnf.
    pose proof (round4_pos (needed_for (Plain.len_ s) (Plain.used_ s + 1))) as Hr4.
    rewrite decide_False in HR by lia.
    apply bind_Ok in HR as (nb & k2 & Hnb & HR).
    apply bind_Ok in HR as (nb' & k3 & Hcp & [= <- <-]). simpl.
    apply bind_Ok in Hnb as (u & k4 & Hinc & [= <- <-]).
    unfold Plain.incr_nAllocs, modify in Hinc. injection Hinc as _ <-.
    assert (k3 = Plain.mkCounters (Plain.nCopies k) (Plain.nAllocs k + 1)) as ->.
    { destruct (Plain.buf_ s); [|by injection Hcp as _ <-].
      apply bind_Ok in Hcp as (r & k5 & Hd & [= _ <-]).
      unfold defined in Hd. destruct (memcpy _ _ _); [|done].
      by injection Hd as _ <-. }
    done. }
  destruct Hs1 as (Hu1 & Hc1 & Hl1 & Ha1).
  destruct (Plain.buf_ s1) as [a|]; [|discriminate H].
  destruct (decide (Plain.used_ s1 < length a)); [|discriminate H].
  injection H as <- <-. simpl. by rewrite Hu1.
Qed.

Lemma Plain_appends_len (cs : list ascii) (s s' : Plain.String) (n : nat)
      (k k' : Plain.counters) :
  Plain.used_ s = n → Plain.len_ s = capacity n →
  Plain_appends s cs k = Ok (s', k') →
  Plain.len_ s' = capacity (n + length cs) ∧ Plain.nCopies k' = Plain.nCopies k.
Proof.
  revert s n k. induction cs as [|c cs IH]; intros s n k Hu Hl; simpl.
  - intros [= <- <-]. by rewrite Nat.add_0_r.
  - intros H. apply bind_Ok in H as (s1 & k1 & HA & H).
    destruct (Plain_Append_len _ _ _ _ _ HA) as (Hu1 & Hc1 & Hl1 & _).
    destruct (IH s1 (S n) k1) as [Hlen Hc]; [lia | | done |].
    + rewrite Hl1, capacity_S, Hu, Hl. done.
    + split; [|congruence]. rewrite Hlen. f_equal. lia.
Qed.

(** X19. In Plain a string built by appending character after character
    is never short of capacity and never holds much more than it needs:
    after [k] characters it has room for [k] at least and for at most
    [k] and a half plus 3, whatever the characters. No copy is counted. *)
Theorem Plain_capacity_after_appends (cs : list ascii) (k : Plain.counters) :
  ∃ s k',
    Plain_appends Plain.String_ctor cs k = Ok (s, k')
    ∧ Plain.len_ s = capacity (length cs)
    ∧ length cs ≤ Plain.len_ s
    ∧ Plain.len_ s ≤ Nat.max (3 * (length cs - 1) / 2) (length cs) + 3
    ∧ Plain.nCopies k' = Plain.nCopies k.
Proof.
  destruct (Plain_round_trip k cs) as (s & k' & Hrun & _).
  exists s, k'. split; [done|].
  destruct (Plain_appends_len cs Plain.String_ctor s 0 k k' eq_refl eq_refl Hrun)
    as [Hlen Hc].
  simpl in Hlen. rewrite Hlen. split_and!; [done | apply capacity_ge | | done].
  destruct (length cs) as [|n]; [vm_compute; lia|].
  pose proof (capacity_bound n). replace (S n - 1) with n by lia. done.
Qed.

End Plain_facts.


(** *** Plain_FastAlloc: one string in the arena *)

Section FastAlloc_growth.

Set Warnings "-clear-no-such-hyp".

Import round_trip growth.
Import Plain_FastAlloc.

Lemma memcpy_at_fa (dst src : Z) (n : nat) (h h' : heap) (u : unit) :
  memcpy_at dst src n h = Ok (u, h') → fa h' = fa h.
Proof.
  unfold memcpy_at. case_decide; [by intros [= _ <-]|]. intros Hrun.
  apply bind_Ok in Hrun as (d & h1 & Hd & Hrun).
  apply bind_Ok in Hrun as (s & h2 & Hs & Hrun).
  apply bind_Ok in Hrun as (r & h3 & Hr & Hrun).
  unfold chars_at in Hd, Hs.
  destruct (blocks h !! dst); [|done]. injection Hd as _ <-.
  destruct (blocks h !! src); [|done]. injection Hs as _ <-.
  unfold defined in Hr. destruct (memcpy _ _ _); [|done]. injection Hr as _ <-.
  unfold set_chars in Hrun. destruct (blocks h !! dst); [|done].
  by injection Hrun as _ <-.
Qed.

Lemma alone_not_exhausted (h : heap) (s : String) :
  alone h s → ¬ FastArena.exhausted (fa h).
Proof.
  intros Hal Hex.
  assert (H0 : 0 < FastArena.size) by (unfold FastArena.size; lia).
  assert (H1 : 1 < FastArena.size) by (unfold FastArena.size; lia).
  pose proof (Hal 0 H0) as Ha0. pose proof (Hal 1 H1) as Ha1.
  destruct (Hex 0 H0) as (x0 & Hx0 & Hnz0).
  destruct (Hex 1 H1) as (x1 & Hx1 & Hnz1).
  rewrite Hx0 in Ha0. rewrite Hx1 in Ha1.
  destruct (decide (FastArena.payload (fa h) 0 = buf_ s)) as [E0|];
    [|congruence].
  destruct (decide (FastArena.payload (fa h) 1 = buf_ s)) as [E1|];
    [|congruence].
  rewrite <- E1 in E0. by apply payload_inj in E0.
Qed.

(** [Reserve] takes the new block before it gives back the old one, and
    gives the old one back. *)
Lemma FastAlloc_Reserve_alone (h h' : heap) (s s' : String) (cs : list ascii)
      (n : nat) :
  FastAlloc_holds h s cs → alone h s → Reserve s n h = Ok (s', h') →
  alone h' s' ∧ FastArena.n_ (fa h') = FastArena.n_ (fa h)
  ∧ FastArena.buf_ (fa h') = FastArena.buf_ (fa h)
  ∧ len_ s' = if decide (len_ s < n)
              then round4 (needed_for (len_ s) n) else len_ s.
Proof.
  intros (Hwf & Hu & Hul & Hblk) Hal. unfold Reserve.
  case_decide as Hn; [|by intros [= <- <-]].
  pose proof (round4_ge (needed_for (len_ s) n)) as Hr4.
  pose proof (needed_for_ge (len_ s) n) as Hnf.
  rewrite decide_False by lia. intros Hrun.
  apply bind_Ok in Hrun as (p & h1 & Hnew & Hrun).
  apply bind_Ok in Hnew as ([] & h0 & Hinc & Hnew).
  unfold incr_nAllocs, modify in Hinc. injection Hinc as <-.
  apply FastAlloc_Allocate_Ok in Hnew as (i' & Hi' & Hfree & Hp & Hcap & ->);
    [|done].
  simpl in Hfree, Hp, Hcap.
  set (a := fa h) in *.
  set (a' := FastArena.set_hdr a (<[i' := 1%Z]> (FastArena.hdr a))) in *.
  assert (Hwf' : FastArena.wf a').
  { apply set_hdr_wf; [done | by rewrite length_insert]. }
  assert (Hlen : i' < length (FastArena.hdr a)) by (by destruct Hwf as [-> _]).
  apply bind_Ok in Hrun as ([] & h2 & Hcpy & Hrun).
  apply bind_Ok in Hrun as ([] & h3 & Hde & Hret).
  injection Hret as <- <-.
  assert (Hfa2 : fa h2 = a').
  { destruct (decide (buf_ s = 0%Z)); [by injection Hcpy as <-|].
    by apply memcpy_at_fa in Hcpy. }
  unfold Deallocate in Hde. rewrite Hfa2 in Hde.
  destruct (FastArena.Deallocate a' (buf_ s)) as [a3| |] eqn:HD; [|done..].
  injection Hde as <-. cbn [fa set_blocks set_fa buf_ len_].
  destruct Hblk as [[Hb0 Hl0]|(i & arr & Hi & Hb & Hiuse & Harr & Hla & Htake)].
  - rewrite Hb0 in HD. injection HD as <-.
    split; [|done]. intros j Hj. cbn [fa set_blocks set_fa buf_].
    change (FastArena.payload a' j) with (FastArena.payload a j).
    pose proof (Hal j Hj) as Hj0. fold a in Hj0. rewrite Hb0 in Hj0.
    rewrite decide_False in Hj0 by (by destruct (payload_in_range a j Hwf Hj)).
    destruct (decide (j = i')) as [->|Hne].
    + rewrite decide_True by done. by apply list_lookup_insert_eq.
    + rewrite decide_False
        by (rewrite Hp; intros E; by apply payload_inj in E).
      cbn [FastArena.hdr FastArena.set_hdr a'].
      by rewrite list_lookup_insert_ne.
  - assert (Hii' : i ≠ i').
    { intros ->. destruct Hiuse as (x & Hx & Hxnz).
      unfold FastArena.is_free in Hfree. congruence. }
    rewrite Hb in HD.
    change (FastArena.payload a i) with (FastArena.payload a' i) in HD.
    rewrite (Deallocate_payload a' i Hwf' Hi) in HD. injection HD as <-.
    split; [|done]. intros j Hj. cbn [fa set_blocks set_fa buf_].
    change (FastArena.payload (FastArena.set_hdr a' _) j)
      with (FastArena.payload a j).
    pose proof (Hal j Hj) as Hj0. fold a in Hj0. rewrite Hb in Hj0.
    cbn [FastArena.hdr FastArena.set_hdr a'].
    destruct (decide (j = i')) as [->|Hne].
    + rewrite decide_True by done.
      rewrite list_lookup_alter_ne by done. by apply list_lookup_insert_eq.
    + rewrite decide_False
        by (rewrite Hp; intros E; by apply payload_inj in E).
      destruct (decide (j = i)) as [->|Hni].
      * rewrite list_lookup_alter_eq, list_lookup_insert_ne by done.
        rewrite Hj0, decide_True by done. reflexivity.
      * rewrite list_lookup_alter_ne, list_lookup_insert_ne by done.
        rewrite Hj0, decide_False; [done|].
        intros E. by apply payload_inj in E.
Qed.

Lemma FastAlloc_Append_alone (h h' : heap) (s s' : String) (cs : list ascii)
      (c : ascii) :
  FastAlloc_holds h s cs → alone h s → Append s c h = Ok (s', h') →
  alone h' s' ∧ FastArena.n_ (fa h') = FastArena.n_ (fa h)
  ∧ FastArena.buf_ (fa h') = FastArena.buf_ (fa h)
  ∧ len_ s' = if decide (len_ s < used_ s + 1)
              then round4 (needed_for (len_ s) (used_ s + 1)) else len_ s.
Proof.
  intros Hh Hal Hrun. unfold Append in Hrun.
  apply bind_Ok in Hrun as (s1 & h1 & HR & Hrun).
  destruct (FastAlloc_Reserve_alone _ _ _ _ _ _ Hh Hal HR) as (Hal1 & Hn1 & Hb1 & Hl1).
  apply bind_Ok in Hrun as (a & h2 & Hch & Hrun).
  unfold chars_at in Hch.
  destruct (blocks h1 !! buf_ s1) as [a1|] eqn:Ha1; [|done].
  injection Hch as <- <-.
  destruct (decide (used_ s1 < length a1)); [|discriminate Hrun].
  apply bind_Ok in Hrun as ([] & h3 & Hset & Hret). injection Hret as <- <-.
  unfold set_chars in Hset. rewrite Ha1 in Hset. injection Hset as <-.
  done.
Qed.

Lemma FastAlloc_appends_alone (cs cs0 : list ascii) (h : heap) (s : String) :
  FastAlloc_holds h s cs0 → alone h s → FastArena.n_ (fa h) = 3000 →
  len_ s = capacity (length cs0) →
  (length cs0 + length cs ≤ 2840 →
   ∃ s' h', FastAlloc_appends s cs h = Ok (s', h')
            ∧ FastAlloc_holds h' s' (cs0 ++ cs) ∧ alone h' s'
            ∧ len_ s' = capacity (length cs0 + length cs)
            ∧ FastArena.n_ (fa h') = 3000
            ∧ FastArena.buf_ (fa h') = FastArena.buf_ (fa h))
  ∧ (length cs0 ≤ 2840 → 2840 < length cs0 + length cs →
     FastAlloc_appends s cs h = bad_alloc).
Proof.
  revert cs0 h s. induction cs as [|c cs IH]; intros cs0 h s Hh Hal Hn Hlen.
  - split; [|simpl; lia]. intros _. exists s, h. simpl.
    rewrite app_nil_r, Nat.add_0_r. done.
  - pose proof Hh as (Hwf & Hu & Hul & Hblk).
    destruct (FastAlloc_Append_outcome h s cs0 c Hh) as [Hthrow Hok].
    cbn zeta in Hthrow, Hok. rewrite Hu, Hlen, Hn in Hthrow, Hok.
    assert (Hstep : length cs0 < 2840 →
              ∃ s1 h1, Append s c h = Ok (s1, h1)
                       ∧ FastAlloc_holds h1 s1 (cs0 ++ [c]) ∧ alone h1 s1
                       ∧ FastArena.n_ (fa h1) = 3000
                       ∧ FastArena.buf_ (fa h1) = FastArena.buf_ (fa h)
                       ∧ len_ s1 = capacity (length (cs0 ++ [c]))).
    { intros Hlt. destruct Hok as (s1 & h1 & HA & Hh1).
      - intros [Hg [Hbig|Hex]]; [|by eapply alone_not_exhausted].
        pose proof (capacity_mono (S (length cs0)) 2840 ltac:(lia)) as Hm.
        rewrite capacity_2840, capacity_S, decide_True in Hm by done. lia.
      - destruct (FastAlloc_Append_alone _ _ _ _ _ _ Hh Hal HA) as (Hal1 & Hn1 & Hb1 & Hl1).
        exists s1, h1. split_and!; [done | done | done | congruence | done |].
        rewrite Hl1, Hu, Hlen, length_app. cbn [length].
        replace (capacity (length cs0 + 1)) with (capacity (S (length cs0)))
          by (f_equal; lia).
        by rewrite capacity_S. }
    split.
    + simpl. intros Hle.
      destruct Hstep as (s1 & h1 & HA & Hh1 & Hal1 & Hn1 & Hb1 & Hl1); [lia|].
      destruct (IH (cs0 ++ [c]) h1 s1 Hh1 Hal1 Hn1 Hl1) as [IHok _].
      destruct IHok as (s' & h' & Hrun & Hh' & Hal' & Hl' & Hn' & Hb').
      { rewrite length_app. simpl. lia. }
      exists s', h'. unfold bind. rewrite HA.
      rewrite <- app_assoc in Hh'. rewrite length_app in Hl'. simpl in Hl'.
      split_and!; [done | done | done | | done | congruence].
      rewrite Hl'. f_equal. lia.
    + simpl. intros Hle Hgt.
      destruct (decide (length cs0 = 2840)) as [E|E].
      * unfold bind. rewrite Hthrow; [done|].
        rewrite E, capacity_2840. split; [lia|]. left. vm_compute. lia.
      * destruct Hstep as (s1 & h1 & HA & Hh1 & Hal1 & Hn1 & Hb1 & Hl1); [lia|].
        destruct (IH (cs0 ++ [c]) h1 s1 Hh1 Hal1 Hn1 Hl1) as [_ IHbad].
        unfold bind. rewrite HA. apply IHbad; rewrite length_app; simpl; lia.
Qed.

Lemma FastAlloc_start_alone (base : Z) :
  (0 < base)%Z → alone (start base) String_ctor.
Proof.
  intros Hb j Hj. unfold start. cbn [fa buf_ String_ctor].
  rewrite decide_False
    by (by destruct (payload_in_range _ j (ctor_wf base 3000 Hb) Hj)).
  unfold FastArena.ctor. cbn [FastArena.hdr]. by apply lookup_replicate_2.
Qed.

(** X20. With its blocks of 3000 bytes Plain_FastAlloc has room for
    strings of 2840 characters and no more: appended one at a time to an
    empty string, up to 2840 characters go in and read back, the string
    holding one block of the arena and all the others being free; with
    more than 2840 the appends throw [bad_alloc]. *)
Theorem FastAlloc_string_takes_2840_characters (base : Z) (cs : list ascii) :
  (0 < base)%Z →
  (length cs ≤ 2840 →
   ∃ s h, FastAlloc_appends String_ctor cs (start base) = Ok (s, h)
          ∧ Length s = length cs
          ∧ FastAlloc_reads s 0 (length cs) h = Ok (Char <$> cs, h)
          ∧ alone h s)
  ∧ (2840 < length cs →
     FastAlloc_appends String_ctor cs (start base) = bad_alloc).
Proof.
  intros Hb.
  destruct (FastAlloc_appends_alone cs [] (start base) String_ctor
              (FastAlloc_start_holds base Hb) (FastAlloc_start_alone base Hb)
              eq_refl eq_refl) as [Hok Hbad].
  split.
  - intros Hle. destruct (Hok Hle) as (s & h & Hrun & Hh & Hal & _).
    exists s, h. simpl in Hh.
    destruct (FastAlloc_round_trip (start base) h s cs) as [HL HR];
      [by apply ctor_wf | done |].
    by split_and!.
  - intros Hgt. apply Hbad; simpl; lia.
Qed.

Lemma FastAlloc_string_takes_2840_characters_witness :
  (length ["a"; "b"]%char ≤ 2840 →
   ∃ s h, FastAlloc_appends String_ctor ["a"; "b"]%char (start 4096) = Ok (s, h)
          ∧ Length s = 2
          ∧ FastAlloc_reads s 0 2 h = Ok ([Char "a"; Char "b"], h)
          ∧ alone h s)
  ∧ (2840 < length ["a"; "b"]%char →
     FastAlloc_appends String_ctor ["a"; "b"]%char (start 4096) = bad_alloc).
Proof.
  apply (FastAlloc_string_takes_2840_characters 4096 ["a"; "b"]%char). lia.
Defined.

(** What [fa.Deallocate( buf_ )] leaves of an arena that holds one string:
    the arena as it was constructed. *)
Lemma alone_released (h : heap) (s : String) (cs : list ascii) :
  FastAlloc_holds h s cs → alone h s →
  ∃ a', FastArena.Deallocate (fa h) (buf_ s) = Ok a'
        ∧ FastArena.hdr a' = replicate FastArena.size 0%Z
        ∧ FastArena.n_ a' = FastArena.n_ (fa h)
        ∧ FastArena.buf_ a' = FastArena.buf_ (fa h).
Proof.
  intros (Hwf & Hu & Hul & Hblk) Hal. pose proof Hwf as [Hlen Hbase].
  destruct Hblk as [[Hb0 Hl0]|(i & arr & Hi & Hb & Hiuse & Harr & Hla & Htake)].
  - exists (fa h). rewrite Hb0. split_and!; [done | | done | done].
    apply list_eq. intros j. destruct (decide (j < FastArena.size)) as [Hj|Hj].
    + rewrite (Hal j Hj), Hb0.
      rewrite decide_False by (by destruct (payload_in_range _ j Hwf Hj)).
      symmetry. by apply lookup_replicate_2.
    + rewrite lookup_ge_None_2 by lia.
      symmetry. apply lookup_ge_None_2. rewrite length_replicate. lia.
  - eexists. rewrite Hb, (Deallocate_payload _ i Hwf Hi).
    split_and!; [reflexivity | | done | done].
    cbn [FastArena.hdr FastArena.set_hdr].
    apply list_eq. intros j. destruct (decide (j < FastArena.size)) as [Hj|Hj].
    + rewrite (lookup_replicate_2 _ _ _ Hj).
      destruct (decide (j = i)) as [->|Hne].
      * rewrite list_lookup_alter_eq, (Hal i Hi), decide_True by done. done.
      * rewrite list_lookup_alter_ne, (Hal j Hj) by done.
        rewrite decide_False; [done|]. rewrite Hb. intros E.
        by apply payload_inj in E.
    + rewrite (lookup_ge_None_2 (replicate _ _)) by (rewrite length_replicate; lia).
      apply lookup_ge_None_2. rewrite length_alter. lia.
Qed.

(** X21. In Plain_FastAlloc a string gives its block back: after up to 2840
    characters have been appended to an empty string on a new arena, the
    destructor, and [Clear] as well, leave the arena as it was
    constructed, with every block free; [Clear] leaves the empty string. *)
Theorem FastAlloc_string_gives_its_block_back (base : Z) (cs : list ascii) :
  (0 < base)%Z → length cs ≤ 2840 →
  ∃ s h,
    FastAlloc_appends String_ctor cs (start base) = Ok (s, h)
    ∧ (∃ h', dtor s h = Ok (tt, h') ∧ fa h' = fa (start base))
    ∧ (∃ h', Clear s h = Ok (String_ctor, h') ∧ fa h' = fa (start base)).
Proof.
  intros Hb Hle.
  destruct (FastAlloc_appends_alone cs [] (start base) String_ctor
              (FastAlloc_start_holds base Hb) (FastAlloc_start_alone base Hb)
              eq_refl eq_refl) as [Hok _].
  destruct (Hok Hle) as (s & h & Hrun & Hh & Hal & _ & Hn & Hbuf).
  exists s, h. split; [done|].
  destruct (alone_released h s _ Hh Hal) as (a' & HD & Hhdr & Hn' & Hb').
  assert (Ha' : a' = fa (start base)).
  { destruct a' as [n b hs]. cbn in *. subst hs. rewrite Hn in Hn'.
    rewrite Hbuf in Hb'. cbn in Hb'. subst n b. reflexivity. }
  unfold Clear, dtor, bind, Deallocate. rewrite HD, Ha'. split; by eexists.
Qed.

Lemma FastAlloc_string_gives_its_block_back_witness :
  ∃ s h,
    FastAlloc_appends String_ctor ["a"; "b"]%char (start 4096) = Ok (s, h)
    ∧ (∃ h', dtor s h = Ok (tt, h') ∧ fa h' = fa (start 4096))
    ∧ (∃ h', Clear s h = Ok (String_ctor, h') ∧ fa h' = fa (start 4096)).
Proof.
  apply (FastAlloc_string_gives_its_block_back 4096 ["a"; "b"]%char).
  - lia.
  - simpl. lia.
Defined.

Lemma set_hdr_back (a : FastArena.t) (hs : list Z) :
  FastArena.set_hdr (FastArena.set_hdr a hs) (FastArena.hdr a) = a.
Proof. by destruct a. Qed.

(** X22. The copy constructor of Plain_FastAlloc takes a block of the arena
    for the copy, also when the source is empty: it throws [bad_alloc]
    when no block is free; otherwise the copy has a block of its own and
    holds the characters of the source, the source holds its own, both
    counters go up by one, and destroying the copy gives the arena back
    as it was. *)
Theorem FastAlloc_copy_takes_a_block (h : heap) (s : String) (cs : list ascii) :
  FastAlloc_holds h s cs → len_ s ≤ FastArena.n_ (fa h) →
  (FastArena.exhausted (fa h) → copy_ctor s h = bad_alloc)
  ∧ (¬ FastArena.exhausted (fa h) →
     ∃ s2 h2,
       copy_ctor s h = Ok (s2, h2)
       ∧ buf_ s2 ≠ 0%Z ∧ buf_ s2 ≠ buf_ s
       ∧ FastAlloc_holds h2 s2 cs ∧ FastAlloc_holds h2 s cs
       ∧ nCopies h2 = (nCopies h + 1)%Z ∧ nAllocs h2 = (nAllocs h + 1)%Z
       ∧ ∃ h3, dtor s2 h2 = Ok (tt, h3) ∧ fa h3 = fa h
               ∧ FastAlloc_holds h3 s cs).
Proof.
  intros Hh Hcap. pose proof Hh as (Hwf & Hu & Hul & Hblk).
  destruct (Allocate_outcome (fa h) (len_ s) Hwf) as [Hthrow Hok].
  split.
  - intros Hex. unfold copy_ctor, bind at 1, Allocate.
    by rewrite (proj2 Hthrow (or_intror Hex)).
  - intros Hnex.
    destruct Hok as (i' & Hi' & Hfree & HA & Huse'); [intros [?|?]; [lia|done]|].
    set (a := fa h) in *.
    set (a' := FastArena.set_hdr a (<[i' := 1%Z]> (FastArena.hdr a))) in *.
    set (p := FastArena.payload a i') in *.
    assert (Hwf' : FastArena.wf a').
    { apply set_hdr_wf; [done | by rewrite length_insert]. }
    assert (Hpnz : p ≠ 0%Z) by (by destruct (payload_in_range a i' Hwf Hi')).
    assert (Hbp : buf_ s ≠ p).
    { destruct Hblk as [[-> _]|(i & arr & Hi & Hb & Hiuse & _)]; [done|].
      rewrite Hb. intros E. apply payload_inj in E. subst i.
      destruct Hiuse as (x & Hx & Hxnz).
      unfold FastArena.is_free in Hfree. congruence. }
    set (h1 := set_blocks (set_fa h a')
                 (<[p := replicate (FastArena.n_ a') Uninit]> (blocks h))).
    assert (Hcpy : ∃ r, memcpy_at p (buf_ s) (used_ s) h1
                        = Ok (tt, set_blocks h1 (<[p := r]> (blocks h)))
                        ∧ length r = FastArena.n_ a
                        ∧ take (used_ s) r = Char <$> cs).
    { destruct (decide (used_ s = 0)) as [Hu0|Hu0].
      - exists (replicate (FastArena.n_ a) Uninit).
        unfold memcpy_at. rewrite decide_True by done.
        split_and!; [| by rewrite length_replicate |].
        + reflexivity.
        + rewrite Hu0. destruct cs; [done | simpl in *; lia].
      - destruct Hblk as [[_ Hl0]|(i & arr & Hi & Hb & Hiuse & Harr & Hla & Htake)];
          [lia|].
        exists (take (used_ s) arr ++ replicate (FastArena.n_ a - used_ s) Uninit).
        split_and!.
        + erewrite memcpy_at_run;
            [ | simpl; apply lookup_insert_eq
              | simpl; rewrite lookup_insert_ne by done; exact Harr
              | apply memcpy_fresh; simpl; fold a; lia
              | done ].
          unfold h1, set_blocks. cbn [fa blocks nCopies nAllocs set_fa].
          by rewrite insert_insert_eq.
        + rewrite length_app, length_take, length_replicate. lia.
        + rewrite take_app_le by (rewrite length_take; lia).
          by rewrite take_take, Nat.min_id. }
    destruct Hcpy as (r & Hcpy & Hlr & Htr).
    set (h2 := set_nAllocs
                 (set_nCopies (set_blocks h1 (<[p := r]> (blocks h)))
                    (nCopies h + 1)) (nAllocs h + 1)).
    assert (Hrun : copy_ctor s h = Ok (mkString p (len_ s) (used_ s), h2)).
    { unfold copy_ctor, bind at 1, Allocate. fold a. rewrite HA. fold a' p h1.
      unfold bind at 1. rewrite Hcpy. reflexivity. }
    assert (Hsrc : ∀ hh, fa hh = a ∨ fa hh = a' →
                   (∀ q, q ≠ p → blocks hh !! q = blocks h !! q) →
                   FastAlloc_holds hh s cs).
    { intros hh Hfa Hbl. split_and!; [by destruct Hfa as [->| ->] | done | done |].
      destruct Hblk as [?|(i & arr & Hi & Hb & Hiuse & Harr & Hla & Htake)];
        [by left|].
      right. exists i, arr.
      assert (Hii' : i ≠ i').
      { intros ->. by rewrite Hb in Hbp. }
      split_and!; [done | | | | done | done].
      - by destruct Hfa as [->| ->].
      - destruct Hfa as [->| ->]; [done|].
        destruct Hiuse as (x & Hx & Hxnz). exists x. split; [|done].
        cbn [FastArena.hdr FastArena.set_hdr a'].
        by rewrite list_lookup_insert_ne.
      - by rewrite Hbl. }
    eexists _, h2. split; [exact Hrun|]. cbn [buf_].
    split_and!; [done | done | | | done | done |].
    + split_and!; [done | done | done |]. right. exists i', r.
      split_and!; [done | done | done | | simpl; lia | done].
      simpl. by rewrite lookup_insert_eq.
    + apply Hsrc; [by right|]. intros q Hq. simpl.
      by rewrite lookup_insert_ne.
    + pose proof (FastAlloc_Deallocate_payload h2 i' Hwf' Hi') as HD.
      eexists. split; [exact HD|]. split.
      * cbn [fa set_blocks set_fa h2 h1 set_nAllocs set_nCopies].
        cbn [FastArena.hdr FastArena.set_hdr a'].
        rewrite alter_free_block by done. apply set_hdr_back.
      * apply Hsrc.
        -- left. cbn [fa set_blocks set_fa h2 h1 set_nAllocs set_nCopies].
           cbn [FastArena.hdr FastArena.set_hdr a'].
           rewrite alter_free_block by done. apply set_hdr_back.
        -- intros q Hq. simpl.
           rewrite lookup_delete_ne, lookup_insert_ne by done. done.
Qed.

Lemma FastAlloc_copy_takes_a_block_witness :
  (FastArena.exhausted (fa (start 4096)) → copy_ctor String_ctor (start 4096) = bad_alloc)
  ∧ (¬ FastArena.exhausted (fa (start 4096)) →
     ∃ s2 h2,
       copy_ctor String_ctor (start 4096) = Ok (s2, h2)
       ∧ buf_ s2 ≠ 0%Z ∧ buf_ s2 ≠ buf_ String_ctor
       ∧ FastAlloc_holds h2 s2 [] ∧ FastAlloc_holds h2 String_ctor []
       ∧ nCopies h2 = (nCopies (start 4096) + 1)%Z
       ∧ nAllocs h2 = (nAllocs (start 4096) + 1)%Z
       ∧ ∃ h3, dtor s2 h2 = Ok (tt, h3) ∧ fa h3 = fa (start 4096)
               ∧ FastAlloc_holds h3 String_ctor []).
Proof.
  apply (FastAlloc_copy_takes_a_block (start 4096) String_ctor []).
  - apply FastAlloc_start_holds. lia.
  - simpl. lia.
Defined.

(** *** Plain_FastAlloc: several strings in the arena *)

Lemma alone_owned (h : heap) (s : String) : alone h s ↔ owned h [buf_ s].
Proof.
  split; intros Hal j Hj; rewrite (Hal j Hj); f_equal;
    repeat case_decide; try done; set_unfold; naive_solver.
Qed.

Lemma in_cons_swap (x a b : Z) (ps : list Z) :
  x ≠ a → x ≠ b →
  (if decide (x ∈ a :: ps) then 1%Z else 0%Z)
  = (if decide (x ∈ b :: ps) then 1%Z else 0%Z).
Proof.
  intros Ha Hb. repeat case_decide; try done; set_unfold; naive_solver.
Qed.

Lemma in_cons_drop (x a : Z) (ps : list Z) :
  x ≠ a →
  (if decide (x ∈ a :: ps) then 1%Z else 0%Z)
  = (if decide (x ∈ ps) then 1%Z else 0%Z).
Proof.
  intros Ha. repeat case_decide; try done; set_unfold; naive_solver.
Qed.

Lemma owned_free (h : heap) (ps : list Z) (j : nat) :
  owned h ps → j < FastArena.size → FastArena.is_free (fa h) j →
  FastArena.payload (fa h) j ∉ ps.
Proof.
  intros Hown Hj Hfree Hin. unfold FastArena.is_free in Hfree.
  rewrite (Hown j Hj), decide_True in Hfree by done. discriminate.
Qed.

(** Two strings leave 98 blocks free. *)
Lemma owned_not_exhausted (h : heap) (ps : list Z) :
  owned h ps → length ps ≤ 2 → ¬ FastArena.exhausted (fa h).
Proof.
  intros Hown Hlen Hex.
  assert (Hin : ∀ j, j < 3 → FastArena.payload (fa h) j ∈ ps).
  { intros j Hj.
    assert (Hj' : j < FastArena.size) by (unfold FastArena.size; lia).
    destruct (Hex j Hj') as (x & Hx & Hnz). rewrite (Hown j Hj') in Hx.
    case_decide; [done|]. by injection Hx as <-. }
  pose proof (Hin 0 ltac:(lia)) as H0. pose proof (Hin 1 ltac:(lia)) as H1.
  pose proof (Hin 2 ltac:(lia)) as H2.
  pose proof (payload_inj (fa h) 0 1). pose proof (payload_inj (fa h) 0 2).
  pose proof (payload_inj (fa h) 1 2).
  destruct ps as [|a [|b [|? ?]]]; cbn in Hlen; [| | |lia];
    set_unfold; naive_solver lia.
Qed.

Lemma memcpy_at_frame (dst src : Z) (n : nat) (h h' : heap) (u : unit) :
  memcpy_at dst src n h = Ok (u, h') →
  fa h' = fa h ∧ nCopies h' = nCopies h ∧ nAllocs h' = nAllocs h
  ∧ ∀ q, q ≠ dst → blocks h' !! q = blocks h !! q.
Proof.
  unfold memcpy_at. case_decide; [by intros [= _ <-]|]. intros Hrun.
  apply bind_Ok in Hrun as (d & h1 & Hd & Hrun).
  apply bind_Ok in Hrun as (s & h2 & Hs & Hrun).
  apply bind_Ok in Hrun as (r & h3 & Hr & Hrun).
  unfold chars_at in Hd, Hs.
  destruct (blocks h !! dst); [|done]. injection Hd as _ <-.
  destruct (blocks h !! src); [|done]. injection Hs as _ <-.
  unfold defined in Hr. destruct (memcpy _ _ _); [|done]. injection Hr as _ <-.
  unfold set_chars in Hrun. destruct (blocks h !! dst); [|done].
  injection Hrun as _ <-. split_and!; [done..|].
  intros q Hq. cbn. by rewrite lookup_insert_ne.
Qed.

(** [Reserve] in an arena that other strings use as well: their blocks
    stay as they are. *)
Lemma FastAlloc_Reserve_owned (h h' : heap) (s s' : String) (cs : list ascii)
      (n : nat) (ps : list Z) :
  FastAlloc_holds h s cs → owned h (buf_ s :: ps) → buf_ s ∉ ps →
  Reserve s n h = Ok (s', h') →
  owned h' (buf_ s' :: ps) ∧ (buf_ s' ∉ ps)
  ∧ FastArena.n_ (fa h') = FastArena.n_ (fa h)
  ∧ FastArena.buf_ (fa h') = FastArena.buf_ (fa h)
  ∧ (∀ q, q ∈ ps → blocks h' !! q = blocks h !! q)
  ∧ nCopies h' = nCopies h
  ∧ nAllocs h' = (nAllocs h + (if decide (len_ s < n)%nat then 1 else 0))%Z.
Proof.
  intros (Hwf & Hu & Hul & Hblk) Hown Hnot. unfold Reserve.
  case_decide as Hn;
    [|intros [= <- <-]; split_and!; [done..|lia]].
  pose proof (round4_ge (needed_for (len_ s) n)) as Hr4.
  pose proof (needed_for_ge (len_ s) n) as Hnf.
  rewrite decide_False by lia. intros Hrun.
  apply bind_Ok in Hrun as (p & h1 & Hnew & Hrun).
  apply bind_Ok in Hnew as ([] & h0 & Hinc & Hnew).
  unfold incr_nAllocs, modify in Hinc. injection Hinc as <-.
  apply FastAlloc_Allocate_Ok in Hnew as (i' & Hi' & Hfree & Hp & Hcap & ->);
    [|done].
  simpl in Hfree, Hp, Hcap.
  pose proof (owned_free h _ i' Hown Hi' Hfree) as Hpnot. rewrite <- Hp in Hpnot.
  apply not_elem_of_cons in Hpnot as [Hpb Hpps].
  set (a := fa h) in *.
  set (a' := FastArena.set_hdr a (<[i' := 1%Z]> (FastArena.hdr a))) in *.
  assert (Hwf' : FastArena.wf a').
  { apply set_hdr_wf; [done | by rewrite length_insert]. }
  assert (Hlen : i' < length (FastArena.hdr a)) by (by destruct Hwf as [-> _]).
  apply bind_Ok in Hrun as ([] & h2 & Hcpy & Hrun).
  apply bind_Ok in Hrun as ([] & h3 & Hde & Hret).
  injection Hret as <- <-.
  assert (Hh2 : fa h2 = a' ∧ nCopies h2 = nCopies h
                ∧ nAllocs h2 = (nAllocs h + 1)%Z
                ∧ ∀ q, q ≠ p → blocks h2 !! q = blocks h !! q).
  { destruct (decide (buf_ s = 0%Z)).
    - injection Hcpy as <-. split_and!; [done..|].
      intros q Hq. cbn. by rewrite lookup_insert_ne.
    - apply memcpy_at_frame in Hcpy as (Hfa & Hnc & Hna & Hfr).
      split_and!; [done..|]. intros q Hq. rewrite Hfr by done.
      cbn. by rewrite lookup_insert_ne. }
  destruct Hh2 as (Hfa2 & Hnc2 & Hna2 & Hfr2).
  unfold Deallocate in Hde. rewrite Hfa2 in Hde.
  destruct (FastArena.Deallocate a' (buf_ s)) as [a3| |] eqn:HD; [|done..].
  injection Hde as <-. cbn [fa blocks nCopies nAllocs set_blocks set_fa buf_ len_].
  assert (Hframe : ∀ q, q ∈ ps → delete (buf_ s) (blocks h2) !! q = blocks h !! q).
  { intros q Hq. rewrite lookup_delete_ne by (intros E; by rewrite E in Hnot).
    apply Hfr2. intros E. by rewrite E in Hq. }
  destruct Hblk as [[Hb0 Hl0]|(i & arr & Hi & Hb & Hiuse & Harr & Hla & Htake)].
  - rewrite Hb0 in HD. injection HD as <-.
    split_and!; [|done..]. intros j Hj. cbn [fa set_blocks set_fa].
    change (FastArena.payload a' j) with (FastArena.payload a j).
    pose proof (Hown j Hj) as Hj0. fold a in Hj0. rewrite Hb0 in Hj0.
    destruct (decide (j = i')) as [->|Hne].
    + rewrite decide_True by (rewrite Hp; by left).
      by apply list_lookup_insert_eq.
    + cbn [FastArena.hdr FastArena.set_hdr a'].
      rewrite list_lookup_insert_ne, Hj0 by done. f_equal.
      apply in_cons_swap.
      * by destruct (payload_in_range a j Hwf Hj).
      * rewrite Hp. intros E. by apply payload_inj in E.
  - assert (Hii' : i ≠ i').
    { intros ->. destruct Hiuse as (x & Hx & Hxnz).
      unfold FastArena.is_free in Hfree. congruence. }
    rewrite Hb in HD.
    change (FastArena.payload a i) with (FastArena.payload a' i) in HD.
    rewrite (Deallocate_payload a' i Hwf' Hi) in HD. injection HD as <-.
    split_and!; [|done..]. intros j Hj. cbn [fa set_blocks set_fa].
    change (FastArena.payload (FastArena.set_hdr a' _) j)
      with (FastArena.payload a j).
    pose proof (Hown j Hj) as Hj0. fold a in Hj0. rewrite Hb in Hj0.
    cbn [FastArena.hdr FastArena.set_hdr a'].
    destruct (decide (j = i')) as [->|Hne].
    + rewrite decide_True by (rewrite Hp; by left).
      rewrite list_lookup_alter_ne by done. by apply list_lookup_insert_eq.
    + destruct (decide (j = i)) as [->|Hni].
      * rewrite list_lookup_alter_eq, list_lookup_insert_ne by done.
        rewrite Hj0, decide_True by (by left).
        rewrite decide_False; [done|]. rewrite <- Hb.
        apply not_elem_of_cons. split; [|done]. congruence.
      * rewrite list_lookup_alter_ne, list_lookup_insert_ne by done.
        rewrite Hj0. f_equal. apply in_cons_swap.
        -- intros E. by apply payload_inj in E.
        -- rewrite Hp. intros E. by apply payload_inj in E.
Qed.

Lemma FastAlloc_Append_owned (h h' : heap) (s s' : String) (cs : list ascii)
      (c : ascii) (ps : list Z) :
  FastAlloc_holds h s cs → owned h (buf_ s :: ps) → buf_ s ∉ ps →
  Append s c h = Ok (s', h') →
  owned h' (buf_ s' :: ps) ∧ (buf_ s' ∉ ps)
  ∧ FastArena.n_ (fa h') = FastArena.n_ (fa h)
  ∧ FastArena.buf_ (fa h') = FastArena.buf_ (fa h)
  ∧ (∀ q, q ∈ ps → blocks h' !! q = blocks h !! q)
  ∧ nCopies h' = nCopies h
  ∧ nAllocs h'
    = (nAllocs h + (if decide (len_ s < used_ s + 1)%nat then 1 else 0))%Z.
Proof.
  intros Hh Hown Hnot Hrun. unfold Append in Hrun.
  apply bind_Ok in Hrun as (s1 & h1 & HR & Hrun).
  destruct (FastAlloc_Reserve_owned _ _ _ _ _ _ _ Hh Hown Hnot HR)
    as (Hown1 & Hnot1 & Hn1 & Hb1 & Hfr1 & Hnc1 & Hna1).
  apply bind_Ok in Hrun as (a & h2 & Hch & Hrun).
  unfold chars_at in Hch.
  destruct (blocks h1 !! buf_ s1) as [a1|] eqn:Ha1; [|done].
  injection Hch as <- <-.
  destruct (decide (used_ s1 < length a1)); [|discriminate Hrun].
  apply bind_Ok in Hrun as ([] & h3 & Hset & Hret). injection Hret as <- <-.
  unfold set_chars in Hset. rewrite Ha1 in Hset. injection Hset as <-.
  cbn [fa blocks nCopies nAllocs set_blocks buf_].
  split_and!; [done..| |done|done].
  intros q Hq. rewrite lookup_insert_ne by (intros E; by rewrite E in Hnot1).
  by apply Hfr1.
Qed.

(** A string keeps what it holds while other strings take and give back
    blocks. *)
Lemma FastAlloc_holds_frame (h h' : heap) (s : String) (cs : list ascii)
      (ps : list Z) :
  FastAlloc_holds h s cs → FastArena.wf (fa h') →
  FastArena.n_ (fa h') = FastArena.n_ (fa h) →
  FastArena.buf_ (fa h') = FastArena.buf_ (fa h) →
  owned h' ps → buf_ s ∈ ps →
  blocks h' !! buf_ s = blocks h !! buf_ s →
  FastAlloc_holds h' s cs.
Proof.
  intros (Hwf & Hu & Hul & Hblk) Hwf' Hn Hb Hown Hin Hfr.
  split_and!; [done..|].
  destruct Hblk as [?|(i & arr & Hi & Hbs & Hiuse & Harr & Hla & Htake)];
    [by left|].
  assert (Hpay : FastArena.payload (fa h') i = FastArena.payload (fa h) i).
  { unfold FastArena.payload, FastArena.block, FastArena.stride.
    by rewrite Hn, Hb. }
  right. exists i, arr. split_and!; [done | congruence | | congruence | done | done].
  exists 1%Z. split; [|done]. rewrite (Hown i Hi), decide_True; [done|].
  by rewrite Hpay, <- Hbs.
Qed.

(** The copy constructor in an arena that strings use. *)
Lemma FastAlloc_copy_owned (h : heap) (s : String) (cs : list ascii)
      (ps : list Z) :
  FastAlloc_holds h s cs → owned h ps → len_ s ≤ FastArena.n_ (fa h) →
  ¬ FastArena.exhausted (fa h) →
  ∃ s2 h2,
    copy_ctor s h = Ok (s2, h2)
    ∧ FastAlloc_holds h2 s2 cs
    ∧ owned h2 (buf_ s2 :: ps) ∧ (buf_ s2 ∉ ps) ∧ buf_ s2 ≠ 0%Z
    ∧ FastArena.n_ (fa h2) = FastArena.n_ (fa h)
    ∧ FastArena.buf_ (fa h2) = FastArena.buf_ (fa h)
    ∧ (∀ q, q ∈ ps → blocks h2 !! q = blocks h !! q)
    ∧ nCopies h2 = (nCopies h + 1)%Z ∧ nAllocs h2 = (nAllocs h + 1)%Z
    ∧ len_ s2 = len_ s ∧ used_ s2 = used_ s
    ∧ (cs = [] → blocks h2 !! buf_ s2
                 = Some (replicate (FastArena.n_ (fa h)) Uninit)).
Proof.
  intros Hh Hown Hcap Hnex. pose proof Hh as (Hwf & Hu & Hul & Hblk).
  destruct (Allocate_outcome (fa h) (len_ s) Hwf) as [_ Hok].
  destruct Hok as (i' & Hi' & Hfree & HA & Huse'); [intros [?|?]; [lia|done]|].
  pose proof (owned_free h ps i' Hown Hi' Hfree) as Hpnot.
  set (a := fa h) in *.
  set (a' := FastArena.set_hdr a (<[i' := 1%Z]> (FastArena.hdr a))) in *.
  set (p := FastArena.payload a i') in *.
  assert (Hwf' : FastArena.wf a').
  { apply set_hdr_wf; [done | by rewrite length_insert]. }
  assert (Hlen' : i' < length (FastArena.hdr a)) by (by destruct Hwf as [-> _]).
  assert (Hpnz : p ≠ 0%Z) by (by destruct (payload_in_range a i' Hwf Hi')).
  assert (Hbp : buf_ s ≠ p).
  { destruct Hblk as [[-> _]|(i & arr & Hi & Hb & Hiuse & _)]; [done|].
    rewrite Hb. intros E. apply payload_inj in E. subst i.
    destruct Hiuse as (x & Hx & Hxnz).
    unfold FastArena.is_free in Hfree. congruence. }
  set (h1 := set_blocks (set_fa h a')
               (<[p := replicate (FastArena.n_ a') Uninit]> (blocks h))).
  assert (Hcpy : ∃ r, memcpy_at p (buf_ s) (used_ s) h1
                      = Ok (tt, set_blocks h1 (<[p := r]> (blocks h)))
                      ∧ length r = FastArena.n_ a
                      ∧ take (used_ s) r = Char <$> cs
                      ∧ (cs = [] → r = replicate (FastArena.n_ a) Uninit)).
  { destruct (decide (used_ s = 0)) as [Hu0|Hu0].
    - exists (replicate (FastArena.n_ a) Uninit).
      unfold memcpy_at. rewrite decide_True by done.
      split_and!; [reflexivity | by rewrite length_replicate | | done].
      rewrite Hu0. destruct cs; [done | simpl in *; lia].
    - destruct Hblk as [[_ Hl0]|(i & arr & Hi & Hb & Hiuse & Harr & Hla & Htake)];
        [lia|].
      exists (take (used_ s) arr ++ replicate (FastArena.n_ a - used_ s) Uninit).
      split_and!.
      + erewrite memcpy_at_run;
          [ | simpl; apply lookup_insert_eq
            | simpl; rewrite lookup_insert_ne by done; exact Harr
            | apply memcpy_fresh; simpl; fold a; lia
            | done ].
        unfold h1, set_blocks. cbn [fa blocks nCopies nAllocs set_fa].
        by rewrite insert_insert_eq.
      + rewrite length_app, length_take, length_replicate. lia.
      + rewrite take_app_le by (rewrite length_take; lia).
        by rewrite take_take, Nat.min_id.
      + intros ->. simpl in Hu. lia. }
  destruct Hcpy as (r & Hcpy & Hlr & Htr & Hr0).
  set (h2 := set_nAllocs
               (set_nCopies (set_blocks h1 (<[p := r]> (blocks h)))
                  (nCopies h + 1)) (nAllocs h + 1)).
  exists (mkString p (len_ s) (used_ s)), h2.
  split_and!; cbn [buf_ len_ used_]; try done.
  - unfold copy_ctor, bind at 1, Allocate. fold a. rewrite HA. fold a' p h1.
    unfold bind at 1. rewrite Hcpy. reflexivity.
  - split_and!; [done | done | done |]. right. exists i', r.
    split_and!; [done | done | done | | simpl; lia | done].
    simpl. by rewrite lookup_insert_eq.
  - intros j Hj. cbn [fa h2 h1 set_nAllocs set_nCopies set_blocks set_fa].
    change (FastArena.payload a' j) with (FastArena.payload a j).
    cbn [FastArena.hdr FastArena.set_hdr a'].
    destruct (decide (j = i')) as [->|Hne].
    + rewrite decide_True by (by left). by apply list_lookup_insert_eq.
    + pose proof (Hown j Hj) as Hj0. fold a in Hj0.
      rewrite list_lookup_insert_ne, Hj0 by done. f_equal. symmetry.
      apply in_cons_drop. intros E. by apply payload_inj in E.
  - intros q Hq. simpl. rewrite lookup_insert_ne; [done|].
    intros E. by rewrite <- E in Hq.
  - intros E. simpl. rewrite lookup_insert_eq. by rewrite (Hr0 E).
Qed.

(** The destructor in an arena that other strings use as well. *)
Lemma FastAlloc_dtor_owned (h : heap) (s : String) (cs : list ascii)
      (ps : list Z) :
  FastAlloc_holds h s cs → owned h (buf_ s :: ps) → buf_ s ∉ ps →
  ∃ h', dtor s h = Ok (tt, h')
        ∧ owned h' ps ∧ FastArena.wf (fa h')
        ∧ FastArena.n_ (fa h') = FastArena.n_ (fa h)
        ∧ FastArena.buf_ (fa h') = FastArena.buf_ (fa h)
        ∧ (∀ q, q ∈ ps → blocks h' !! q = blocks h !! q)
        ∧ nCopies h' = nCopies h ∧ nAllocs h' = nAllocs h.
Proof.
  intros (Hwf & Hu & Hul & Hblk) Hown Hnot. unfold dtor, Deallocate.
  assert (Hframe : ∀ q, q ∈ ps → delete (buf_ s) (blocks h) !! q = blocks h !! q).
  { intros q Hq. apply lookup_delete_ne. intros E. by rewrite E in Hnot. }
  destruct Hblk as [[Hb0 Hl0]|(i & arr & Hi & Hb & Hiuse & Harr & Hla & Htake)].
  - rewrite Hb0. cbn. eexists. split; [reflexivity|].
    cbn [fa blocks nCopies nAllocs set_blocks set_fa].
    split_and!; [|done..| |done|done].
    + intros j Hj. cbn [fa set_blocks set_fa].
      rewrite (Hown j Hj), Hb0. f_equal. apply in_cons_drop.
      by destruct (payload_in_range _ j Hwf Hj).
    + by rewrite <- Hb0.
  - rewrite Hb, (Deallocate_payload _ i Hwf Hi). eexists. split; [reflexivity|].
    cbn [fa blocks nCopies nAllocs set_blocks set_fa].
    split_and!; [| |done|done| |done|done].
    + intros j Hj. cbn [fa set_blocks set_fa].
      change (FastArena.payload (FastArena.set_hdr (fa h) _) j)
        with (FastArena.payload (fa h) j).
      cbn [FastArena.hdr FastArena.set_hdr].
      destruct (decide (j = i)) as [->|Hne].
      * rewrite list_lookup_alter_eq, (Hown i Hi).
        rewrite decide_True by (rewrite Hb; by left).
        rewrite decide_False by (by rewrite <- Hb). done.
      * rewrite list_lookup_alter_ne, (Hown j Hj) by done. f_equal.
        apply in_cons_drop. rewrite Hb. intros E. by apply payload_inj in E.
    + apply set_hdr_wf; [done | by rewrite length_alter].
    + by rewrite <- Hb.
Qed.

End FastAlloc_growth.


(** ** The test harness: what [RUN_TEST] prints *)

Section harness_loops.

Import harness.

Context {H S : Type}.
Variable C : script.String_class H S.

(** The last round of the outer loop. *)
Lemma outer_snoc (k i : nat) (s : S) (counter : long_value) (h : H) :
  outer C (Datatypes.S k) i s counter h
  = (let! x := outer C k i s counter in inner C (i + k) letters s x) h.
Proof.
  revert i counter h. induction k as [|k IH]; intros i counter h.
  - cbn [outer]. rewrite Nat.add_0_r. unfold bind, ret.
    by destruct (inner C i letters s counter h) as [[x h1]| |].
  - change (outer C (Datatypes.S (Datatypes.S k)) i s counter h)
      with ((let! x := inner C i letters s counter in
             outer C (Datatypes.S k) (Datatypes.S i) s x) h).
    change (outer C (Datatypes.S k) i s counter)
      with (let! x := inner C i letters s counter in
            outer C k (Datatypes.S i) s x).
    unfold bind.
    destruct (inner C i letters s counter h) as [[x h1]| |]; [|done..].
    rewrite IH. unfold bind. by rewrite Nat.add_succ_r.
Qed.

End harness_loops.

Section harness_COW.

Import COW COW_props harness.

(** The first [char] of a clone is one that nothing has written. *)
Lemma read_first_of_clone (h : heap) (p : Z) (d : StringBuf) (n : nat) (k : Z) :
  objs h !! p = Some (set_refs (cloned d n) k) → 0 < len d →
  read (mkRef p 0) h = Ok (Uninit, h).
Proof.
  intros Hp Hlen. pose proof (round4_ge (Nat.max (len d) n)) as Hge.
  unfold read, bind, load. cbn [obj off]. rewrite Hp.
  unfold cloned. cbn [buf set_refs]. rewrite decide_False by lia.
  rewrite lookup_replicate_2 by lia. done.
Qed.

(** One round of the inner loop, on a string that holds its buffer alone:
    the copy shares the buffer, gets a buffer of its own when it is
    accessed or appended to, and is destroyed; the heap is left as it
    was, with the counters moved on. The [char] that [s2[0]] reads is one
    that the clone did not copy. *)
Lemma body_COW (sz : nat) (v : variant) (a : FastArena.t) (o : gmap Z StringBuf)
      (nc na : Z) (q : Z) (d : StringBuf) (i : nat) (c : ascii)
      (counter : long_value) :
  heap_wf sz (mkHeap a o nc na) → o !! q = Some d → refs d = 1%Z →
  0 < len d → ¬ FastArena.exhausted a →
  body (script.COW_class sz v) i c (mkString q) counter (mkHeap a o nc na)
  = Ok (if decide (i mod 3 = 0) then Indeterminate else counter,
        mkHeap a o (nc + 1) (na + if decide (i mod 3 = 2) then 0 else 1)).
Proof.
  intros Hwf Hq Hr Hlen Hne.
  pose proof (heap_wf_buf sz _ q d Hwf Hq) as Hbw.
  unfold body. unfold bind at 1. cbn [script.copy script.COW_class].
  rewrite (copy_ctor_shares sz v (mkHeap a o nc na) (mkString q) d Hq) by lia.
  cbn [data_ objs nCopies set_objs set_nCopies fa nAllocs].
  set (d2 := set_refs d (refs d + 1)).
  set (h1 := mkHeap a (<[q := d2]> o) (nc + 1) na).
  change (set_nCopies (set_objs (mkHeap a o nc na) (<[q := d2]> o)) (nc + 1))
    with h1.
  assert (Hq1 : objs h1 !! q = Some d2) by apply lookup_insert_eq.
  assert (Hwf1 : heap_wf sz h1).
  { apply (heap_wf_update sz (mkHeap a o nc na)); [done | done |].
    intros r x Hx. cbn in Hx.
    apply lookup_insert_Some in Hx as [[<- <-]|[_ Hx]].
    - split; [by apply set_refs_buf_wf | cbn; by rewrite Hq].
    - split; [by eapply (heap_wf_buf sz (mkHeap a o nc na)) | cbn; by rewrite Hx]. }
  assert (Hr2 : refs d2 = 2%Z) by (cbn; lia).
  assert (Hback : <[q := set_refs d2 (refs d2 - 1)]> (<[q := d2]> o) = o).
  { rewrite insert_insert_eq.
    change (set_refs d2 (refs d2 - 1)) with (set_refs d (refs d2 - 1)).
    rewrite (set_refs_same d) by lia. by apply insert_id. }
  destruct (operator_new_run sz (mkHeap a o nc na) Hwf Hne)
    as (j & Hj & Hfree & Hp & Hnew0).
  cbn [fa objs] in Hfree, Hp, Hnew0.
  set (p := FastArena.payload a j) in *.
  set (a1 := FastArena.set_hdr a (<[j := 1%Z]> (FastArena.hdr a))) in *.
  assert (Hpq : p ≠ q) by congruence.
  assert (Hnew : ∀ o' nc' na',
            operator_new sz (mkHeap a o' nc' na') = Ok (p, mkHeap a1 o' nc' na')).
  { intros o' nc' na'. unfold operator_new in *. cbn [fa] in *.
    destruct (FastArena.Allocate a sz) as [[p0 a0]| |]; [|done..].
    injection Hnew0 as -> Ha. unfold set_fa in Ha. cbn in Ha.
    by rewrite Ha. }
  assert (Hlast : ∀ x nc' na',
            buf_wf x → (refs x - 1 < 1)%Z →
            dtor (String_of sz v) (mkString p) (mkHeap a1 (<[p := x]> o) nc' na')
            = Ok (tt, mkHeap a o nc' na')).
  { intros x nc' na' Hx Hrx.
    pose proof (heap_wf_new sz (mkHeap a o nc na) j x nc' na' Hwf Hj Hfree Hx)
      as Hwf2. cbn [fa objs] in Hwf2. fold a1 p in Hwf2.
    pose proof (dtor_last sz v _ j x Hwf2 Hj) as HD.
    cbn [fa objs nCopies nAllocs] in HD.
    change (FastArena.payload a1 j) with p in HD.
    rewrite HD; [| apply lookup_insert_eq | done].
    f_equal. f_equal.
    apply (delete_new_block (mkHeap a o nc na) j x nc' na' Hfree Hp). }
  assert (Hmap : ∀ X Y : StringBuf,
            <[p := X]> (<[q := set_refs d2 (refs d2 - 1)]>
                          (<[p := Y]> (<[q := d2]> o)))
            = <[p := X]> o).
  { intros X Y. rewrite (insert_insert_ne _ q p) by done.
    by rewrite insert_insert_eq, Hback. }
  pose proof (round4_ge (Nat.max (len d2) (len d2))) as Hge1.
  pose proof (round4_ge (Nat.max (len d2) (used d2 + 1))) as Hge2.
  change (len d2) with (len d) in *. change (used d2) with (used d) in *.
  destruct Hbw as [Hused Hbuf].
  destruct (decide (i mod 3 = 0)) as [E0|E0].
  - (* counter += s2[0] *)
    rewrite decide_False by lia.
    unfold bind at 1, bind at 1. cbn [script.at_ script.COW_class].
    unfold bind at 1.
    rewrite (index_shared sz v h1 q d2 0 Hwf1 Hq1) by lia.
    unfold h1 at 1. rewrite Hnew. unfold detached, set_objs, set_nAllocs.
    cbn [fa objs nCopies nAllocs fst snd].
    rewrite Hmap. change (len d2) with (len d).
    rewrite decide_False by lia.
    unfold bind at 1.
    erewrite read_first_of_clone; [| apply lookup_insert_eq | done].
    unfold ret at 1. cbn [fst snd].
    assert (add_char (H := heap) counter Uninit = ret Indeterminate) as ->
      by (by destruct counter).
    unfold bind, ret. cbn [fst snd script.dtor script.COW_class].
    rewrite Hlast; [done | | cbn; lia].
    apply set_refs_buf_wf, cloned_buf_wf. by split.
  - destruct (decide (i mod 3 = 1)) as [E1|E1].
    + (* s2.Append( c ) *)
      rewrite decide_False by lia.
      unfold bind at 1, bind at 1. cbn [script.append script.COW_class].
      rewrite (Append_shared sz v h1 q d2 c Hwf1 Hq1) by lia.
      unfold h1 at 1. rewrite Hnew. unfold detached, set_objs, set_nAllocs.
      cbn [fa objs nCopies nAllocs fst snd].
      rewrite Hmap. change (len d2) with (len d). change (used d2) with (used d).
      rewrite decide_False by lia.
      unfold ret at 1, bind at 1. cbn [fst snd script.dtor script.COW_class].
      rewrite Hlast; [done | | cbn; lia].
      apply appended_buf_wf; [apply cloned_buf_wf; by split|].
      cbn. change (used d2) with (used d). change (len d2) with (len d). lia.
    + (* the copy is destroyed as it is *)
      rewrite decide_True by lia.
      unfold bind at 1, ret at 1, bind at 1. cbn [fst snd script.dtor script.COW_class].
      destruct (dtor_eq sz v h1 q d2 Hwf1 Hq1) as (j' & _ & _ & ->).
      rewrite decide_False by lia. unfold h1, set_objs.
      cbn [fa objs nCopies nAllocs]. rewrite Hback.
      by rewrite Z.add_0_r.
Qed.

(** On an empty string the access [s2[0]] goes through a null pointer. *)
Lemma body_COW_empty (sz : nat) (v : variant) (a : FastArena.t)
      (o : gmap Z StringBuf) (nc na : Z) (q : Z) (d : StringBuf) (c : ascii)
      (counter : long_value) :
  heap_wf sz (mkHeap a o nc na) → o !! q = Some d → refs d = 1%Z →
  len d = 0 → ¬ FastArena.exhausted a →
  body (script.COW_class sz v) 0 c (mkString q) counter (mkHeap a o nc na)
  = Undef.
Proof.
  intros Hwf Hq Hr Hlen Hne.
  unfold body. unfold bind at 1. cbn [script.copy script.COW_class].
  rewrite (copy_ctor_shares sz v (mkHeap a o nc na) (mkString q) d Hq) by lia.
  cbn [data_ objs nCopies set_objs set_nCopies fa nAllocs].
  set (d2 := set_refs d (refs d + 1)).
  set (h1 := mkHeap a (<[q := d2]> o) (nc + 1) na).
  change (set_nCopies (set_objs (mkHeap a o nc na) (<[q := d2]> o)) (nc + 1))
    with h1.
  assert (Hq1 : objs h1 !! q = Some d2) by apply lookup_insert_eq.
  assert (Hwf1 : heap_wf sz h1).
  { apply (heap_wf_update sz (mkHeap a o nc na)); [done | done |].
    intros r x Hx. cbn in Hx.
    apply lookup_insert_Some in Hx as [[<- <-]|[_ Hx]].
    - split; [apply set_refs_buf_wf; by eapply (heap_wf_buf sz (mkHeap a o nc na))
             | cbn; by rewrite Hq].
    - split; [by eapply (heap_wf_buf sz (mkHeap a o nc na)) | cbn; by rewrite Hx]. }
  destruct (operator_new_run sz h1 Hwf1 Hne) as (j & Hj & Hfree & Hp & Hnew).
  rewrite decide_True by done.
  unfold bind at 1, bind at 1. cbn [script.at_ script.COW_class].
  unfold bind at 1.
  rewrite (index_shared sz v h1 q d2 0 Hwf1 Hq1) by (cbn; lia).
  rewrite Hnew. unfold bind at 1, read, bind at 1, load.
  cbn [fst snd obj off objs set_objs]. rewrite lookup_insert_eq.
  unfold cloned. cbn [buf set_refs]. change (len d2) with (len d).
  rewrite Hlen. done.
Qed.

Lemma inner_COW (sz : nat) (v : variant) (a : FastArena.t) (o : gmap Z StringBuf)
      (q : Z) (d : StringBuf) (i : nat) (cs : list ascii)
      (counter : long_value) (nc na : Z) :
  heap_wf sz (mkHeap a o nc na) → o !! q = Some d → refs d = 1%Z →
  0 < len d → ¬ FastArena.exhausted a →
  inner (script.COW_class sz v) i cs (mkString q) counter (mkHeap a o nc na)
  = Ok (if decide (i mod 3 = 0 ∧ cs ≠ []) then Indeterminate else counter,
        mkHeap a o (nc + Z.of_nat (length cs))
          (na + if decide (i mod 3 = 2) then 0 else Z.of_nat (length cs))).
Proof.
  intros Hwf Hq Hr Hlen Hne. revert counter nc na Hwf.
  induction cs as [|c cs IH]; intros counter nc na Hwf.
  - cbn [inner length]. unfold ret. rewrite decide_False by (by intros [_ ?]).
    rewrite !Z.add_0_r. by destruct (decide (i mod 3 = 2)); rewrite ?Z.add_0_r.
  - cbn [inner]. unfold bind.
    rewrite (body_COW sz v a o nc na q d i c counter Hwf Hq Hr Hlen Hne).
    rewrite IH by exact Hwf. f_equal. f_equal.
    + destruct (decide (i mod 3 = 0)) as [E|E].
      * rewrite (decide_True (P := i mod 3 = 0 ∧ c :: cs ≠ [])) by done.
        by case_decide.
      * by rewrite !decide_False by (by intros [? _]).
    + cbn [length]. destruct (decide (i mod 3 = 2)); f_equal; lia.
Qed.

Lemma outer_COW (sz : nat) (v : variant) (a : FastArena.t) (o : gmap Z StringBuf)
      (q : Z) (d : StringBuf) (k : nat) (counter : long_value) (nc na : Z) :
  heap_wf sz (mkHeap a o nc na) → o !! q = Some d → refs d = 1%Z →
  0 < len d → ¬ FastArena.exhausted a →
  outer (script.COW_class sz v) k 0 (mkString q) counter (mkHeap a o nc na)
  = Ok (if decide (k = 0) then counter else Indeterminate,
        mkHeap a o (nc + 25 * Z.of_nat k) (na + 25 * Z.of_nat (k - k / 3))).
Proof.
  intros Hwf Hq Hr Hlen Hne.
  induction k as [|k IH].
  - cbn [outer]. unfold ret. cbn. by rewrite !Z.add_0_r.
  - rewrite outer_snoc. unfold bind. rewrite IH. cbn [Nat.add].
    rewrite (inner_COW sz v a o q d k letters) by done.
    change (length letters) with 25. f_equal. f_equal.
    + rewrite (decide_False (P := Datatypes.S k = 0)) by done.
      destruct (decide (k = 0)) as [->|]; [by rewrite decide_True|by case_decide].
    + destruct (decide (k mod 3 = 2)); f_equal; lia.
Qed.

(** The first loop of [Test]: [l] characters appended to a string that
    holds its buffer alone. *)
Lemma initialize_COW (sz : nat) (v : variant) (a : FastArena.t) (q : Z) (l : nat)
      (o : gmap Z StringBuf) (d : StringBuf) (nc na : Z) :
  heap_wf sz (mkHeap a o nc na) → o !! q = Some d → refs d = 1%Z →
  ∃ d' na',
    initialize (script.COW_class sz v) l (mkString q) (mkHeap a o nc na)
    = Ok (mkString q, mkHeap a (<[q := d']> o) nc na')
    ∧ refs d' = 1%Z ∧ buf_wf d' ∧ used d' = used d + l ∧ (l = 0 → d' = d).
Proof.
  revert o d na. induction l as [|l IH]; intros o d na Hwf Hq Hr;
    pose proof (heap_wf_buf sz _ q d Hwf Hq) as Hbw.
  - exists d, na. cbn [initialize]. unfold ret. rewrite insert_id by done.
    split_and!; [done | done | done | lia | done].
  - cbn [initialize]. unfold bind. cbn [script.append script.COW_class].
    rewrite (Append_unshared sz v (mkHeap a o nc na) q d "X" Hq) by (done || lia).
    unfold set_objs, set_nAllocs. cbn [fa objs nCopies nAllocs].
    set (dd := appended (set_refs (reserved d (used d + 1)) 1) "X").
    pose proof (reserved_wf d (used d + 1) Hbw) as Hrw.
    pose proof (reserved_len d (used d + 1)) as Hrl.
    pose proof (reserved_used d (used d + 1)) as Hru.
    assert (Hdd : buf_wf dd).
    { apply appended_buf_wf; [by apply set_refs_buf_wf|]. cbn. lia. }
    match goal with
    | |- context [mkHeap a (<[q := dd]> o) nc ?x] => set (na1 := x)
    end.
    destruct (IH (<[q := dd]> o) dd na1) as (d' & na' & Hrun & Hr' & Hw' & Hu' & _).
    + apply (heap_wf_store sz (mkHeap a o nc na) q d dd Hwf Hq Hdd).
    + apply lookup_insert_eq.
    + done.
    + exists d', na'. rewrite Hrun, insert_insert_eq.
      split_and!; [done | done | done | | done]. rewrite Hu'. cbn. lia.
Qed.

(** With one block taken, the arena that the constructor made has blocks
    left. *)
Lemma one_block_taken (base : Z) (sz j : nat) :
  ¬ FastArena.exhausted
      (FastArena.set_hdr (FastArena.ctor base sz)
         (<[j := 1%Z]> (FastArena.hdr (FastArena.ctor base sz)))).
Proof.
  intros Hex.
  destruct (Hex (if decide (j = 0) then 1 else 0)) as (x & Hx & Hnz).
  { unfold FastArena.size. case_decide; lia. }
  cbn [FastArena.hdr FastArena.set_hdr FastArena.ctor] in Hx.
  rewrite list_lookup_insert_ne in Hx by (case_decide; lia).
  apply lookup_replicate in Hx as [-> _]. done.
Qed.

Lemma fresh_heap_wf (sz : nat) (base nc na : Z) :
  (0 < base)%Z → heap_wf sz (mkHeap (FastArena.ctor base sz) ∅ nc na).
Proof. intros Hb. exact (proj1 (accounted_start sz base Hb)). Qed.

(** X23. What [RUN_TEST] prints in COW_Unsafe, COW_AtomicInt, COW_CritSec and
    COW_Mutex, from an arena with no string in it, for the loop count [n]
    and the string length [l] given to the program. With a string of one
    character or more it returns, and every string it made is destroyed
    and every block given back; [copies:] is 25 for each of the [n / 25]
    rounds of the outer loop, [allocs:] is 25 for each round in which the
    copy is accessed or appended to, and the counter written to test.out
    is made of [char]s that no one has written, as soon as there is one
    round. With an empty string and at least one round the access [s2[0]]
    goes through a null pointer. *)
Theorem RUN_TEST_COW_figures (sz : nat) (v : variant) (base nc na n l : Z) :
  (0 < base)%Z →
  let h0 := mkHeap (FastArena.ctor base sz) ∅ nc na in
  let k := Z.max 0 (n ÷ 25) in
  let allocs := (25 * (k - k / 3))%Z in
  ((0 < l)%Z ∨ (n < 25)%Z →
   RUN_TEST_COW sz v n l h0
   = Ok ((if decide (n < 25)%Z then Long 0 else Indeterminate,
          ((25 * k)%Z, allocs)),
         mkHeap (FastArena.ctor base sz) ∅ (25 * k) allocs))
  ∧ ((l ≤ 0)%Z → (25 ≤ n)%Z → RUN_TEST_COW sz v n l h0 = Undef).
Proof.
  intros Hb h0 k allocs.
  pose proof (fresh_heap_wf sz base nc na Hb) as Hwf0.
  assert (Hne0 : ¬ FastArena.exhausted (FastArena.ctor base sz)).
  { intros Hex. destruct (Hex 0) as (x & Hx & Hnz); [unfold FastArena.size; lia|].
    cbn in Hx. by injection Hx as <-. }
  destruct (operator_new_run sz h0 Hwf0 Hne0) as (j & Hj & Hfree & Hp & Hnew).
  cbn [fa objs h0] in Hfree, Hp, Hnew.
  set (a0 := FastArena.ctor base sz) in *.
  set (p0 := FastArena.payload a0 j) in *.
  set (a1 := FastArena.set_hdr a0 (<[j := 1%Z]> (FastArena.hdr a0))) in *.
  set (E := mkStringBuf None 0 0 1 0).
  assert (Hctor : String_ctor sz h0 = Ok (mkString p0, mkHeap a1 (<[p0 := E]> ∅) nc na)).
  { rewrite String_ctor_eq. fold h0 in Hnew. by rewrite Hnew. }
  assert (Hwf1 : ∀ x nc' na', buf_wf x → heap_wf sz (mkHeap a1 (<[p0 := x]> ∅) nc' na')).
  { intros x nc' na' Hx. exact (heap_wf_new sz h0 j x nc' na' Hwf0 Hj Hfree Hx). }
  assert (HE : buf_wf E) by (split; cbn; done).
  destruct (initialize_COW sz v a1 p0 (Z.to_nat l) (<[p0 := E]> ∅) E nc na
              (Hwf1 E nc na HE) (lookup_insert_eq _ _ _) eq_refl)
    as (d' & na' & Hrun & Hr' & Hw' & Hu' & Hd0).
  rewrite insert_insert_eq in Hrun.
  pose proof (one_block_taken base sz j) as Hne1. fold a0 a1 in Hne1.
  assert (Hfinal : ∀ x y,
            dtor (String_of sz v) (mkString p0) (mkHeap a1 (<[p0 := d']> ∅) x y)
            = Ok (tt, mkHeap a0 ∅ x y)).
  { intros x y.
    pose proof (dtor_last sz v _ j d' (Hwf1 d' x y Hw') Hj) as HD.
    cbn [fa objs nCopies nAllocs] in HD.
    change (FastArena.payload a1 j) with p0 in HD.
    rewrite HD; [| apply lookup_insert_eq | lia].
    f_equal. f_equal. apply (delete_new_block h0 j d' x y Hfree Hp). }
  assert (Hstart :
            RUN_TEST_COW sz v n l h0
            = match outer (script.COW_class sz v) (Z.to_nat (n ÷ 25)) 0 (mkString p0)
                      (Long 0) (mkHeap a1 (<[p0 := d']> ∅) 0 0) with
              | Ok (counter, h) =>
                  match dtor (String_of sz v) (mkString p0) h with
                  | Ok (_, h') => Ok ((counter, COW_counters h), h')
                  | bad_alloc => bad_alloc
                  | Undef => Undef
                  end
              | bad_alloc => bad_alloc
              | Undef => Undef
              end).
  { unfold RUN_TEST_COW, RUN_TEST, Test.
    unfold bind at 1. cbn [script.ctor script.COW_class]. rewrite Hctor.
    unfold bind at 1, bind at 1. rewrite Hrun.
    unfold bind at 1, modify. unfold COW_reset, set_nCopies, set_nAllocs.
    cbn [fa objs nCopies nAllocs].
    unfold bind at 1.
    destruct (outer _ _ _ _ _ _) as [[counter h]| |]; [|done..].
    unfold ret at 1. unfold bind at 1, bind at 1, ret.
    cbn [fst snd script.dtor script.COW_class].
    by destruct (dtor _ _ _) as [[u h']| |]. }
  rewrite Hstart. clear Hstart.
  split.
  - intros Hcase.
    destruct (decide (n < 25)%Z) as [Hn|Hn].
    + assert (Z.to_nat (n ÷ 25) = 0) as -> by lia.
      cbn [outer]. unfold ret. rewrite Hfinal. unfold COW_counters.
      cbn [nCopies nAllocs]. subst allocs k.
      replace (Z.max 0 (n ÷ 25)) with 0%Z by lia. done.
    + destruct Hcase as [Hl|?]; [|done].
      destruct Hw' as [Hused Hbuf]. cbn [used E] in Hu'.
      rewrite (outer_COW sz v a1 _ p0 d');
        [| by apply Hwf1 | apply lookup_insert_eq | done | lia | done].
      rewrite Hfinal. unfold COW_counters. cbn [nCopies nAllocs].
      rewrite decide_False by lia. subst allocs k.
      replace (25 * Z.of_nat (Z.to_nat (n ÷ 25)))%Z
        with (25 * Z.max 0 (n ÷ 25))%Z by lia.
      replace (25 * Z.of_nat (Z.to_nat (n ÷ 25) - Z.to_nat (n ÷ 25) / 3))%Z
        with (25 * (Z.max 0 (n ÷ 25) - Z.max 0 (n ÷ 25) / 3))%Z by lia.
      by rewrite !Z.add_0_l.
  - intros Hl Hn.
    assert (Z.to_nat l = 0) as El by lia. rewrite El in Hu'.
    destruct (Z.to_nat (n ÷ 25)) as [|k'] eqn:Ek; [lia|].
    cbn [outer]. unfold bind at 1.
    change letters with ("a"%char :: (ascii_of_nat <$> seq 98 24)).
    cbn [inner]. unfold bind at 1.
    rewrite (body_COW_empty sz v a1 _ 0 0 p0 d');
      [done | by apply Hwf1 | apply lookup_insert_eq | done | | done].
    by rewrite (Hd0 El).
Qed.

Lemma RUN_TEST_COW_figures_witness :
  RUN_TEST_COW 16 Mutex 100 1 (start 16 4096)
  = Ok ((Indeterminate, (100%Z, 75%Z)), mkHeap (FastArena.ctor 4096 16) ∅ 100 75).
Proof.
  destruct (RUN_TEST_COW_figures 16 Mutex 4096 0 0 100 1) as [Hok _]; [lia|].
  apply Hok. left. lia.
Defined.

End harness_COW.

Section harness_AtomicInt2.

Import COW_AtomicInt2 harness.

Lemma fresh_of_live (m : gmap positive glom) (q : positive) (x y : glom) :
  m !! q = Some x → fresh (dom (<[q := y]> m)) = fresh (dom m).
Proof.
  intros Hq. f_equal. apply dom_insert_lookup_L. by rewrite Hq.
Qed.

(** One round of the inner loop in COW_AtomicInt2, on a string that holds
    its buffer alone and begins with an ['X']: the clone has the
    characters of the string, and [s2[0]] reads the ['X']. *)
Lemma body_AtomicInt2 (m : gmap positive glom) (nc na : Z) (q : positive)
      (x : glom) (i : nat) (c : ascii) (z : Z) :
  m !! q = Some x → REFS x = 1%Z → glom_wf x → 0 < USED x →
  BUF x !! 0 = Some (Char "X") →
  (i mod 3 = 0 → (- 2 ^ 31 ≤ z + 88 < 2 ^ 31)%Z) →
  body script.AtomicInt2_class i c (mkString q) (Long z) (mkHeap m nc na)
  = Ok (Long (if decide (i mod 3 = 0) then (z + 88)%Z else z),
        mkHeap m (nc + 1) (na + if decide (i mod 3 = 2) then 0 else 1)).
Proof.
  intros Hq Hr Hwf Hused HX Hrange.
  pose proof (fresh_not_live (mkHeap m nc na)) as Hf. cbn [mem] in Hf.
  set (p := fresh (dom m)) in *.
  assert (Hpq : p ≠ q) by congruence.
  unfold body. unfold bind at 1. cbn [script.copy script.AtomicInt2_class].
  rewrite (copy_ctor_shares2 (mkHeap m nc na) (mkString q) x Hq) by lia.
  unfold set_nCopies, set_mem. cbn [data_ mem nCopies nAllocs].
  set (x2 := set_REFS x (REFS x + 1)).
  set (h1 := mkHeap (<[q := x2]> m) (nc + 1) na).
  assert (Hq1 : mem h1 !! q = Some x2) by apply lookup_insert_eq.
  assert (Hwf2 : glom_wf x2) by done.
  assert (Hr2 : REFS x2 = 2%Z) by (unfold x2, REFS in *; cbn; lia).
  assert (Hfresh : fresh (dom (mem h1)) = p) by (by eapply fresh_of_live).
  assert (Hback : <[q := set_REFS x2 (REFS x2 - 1)]> (<[q := x2]> m) = m).
  { rewrite insert_insert_eq. apply insert_id. rewrite Hq. f_equal.
    destruct x as [[l u r] b]. unfold set_REFS, x2, REFS, LEN, USED in *.
    cbn in *. by subst r. }
  assert (Hgone : ∀ X Y : glom,
            base.delete p
              (<[p := X]> (<[q := set_REFS x2 (REFS x2 - 1)]>
                             (<[p := Y]> (<[q := x2]> m))))
            = m).
  { intros X Y. rewrite delete_insert_eq.
    rewrite (insert_insert_ne _ q p) by done.
    rewrite delete_insert_eq, Hback. by apply delete_id. }
  destruct (decide (i mod 3 = 0)) as [E0|E0].
  - rewrite decide_False by lia.
    unfold bind at 1, bind at 1. cbn [script.at_ script.AtomicInt2_class].
    unfold bind at 1.
    rewrite (index_shared2 h1 q x2 0 Hq1) by (done || lia).
    rewrite Hfresh. unfold set_mem, set_nAllocs. cbn [mem nCopies nAllocs h1 fst snd].
    unfold bind at 1, read, bind at 1, load. cbn [obj off mem].
    rewrite lookup_insert_eq.
    assert (HX' : BUF (set_REFS (cloned x2 (LEN x2)) (-1)) !! 0 = Some (Char "X")).
    { unfold set_REFS, cloned. cbn [BUF].
      change (USED x2) with (USED x). change (BUF x2) with (BUF x).
      destruct Hwf as [Hu Hl].
      rewrite lookup_app_l by (rewrite length_take; lia).
      by rewrite lookup_take_lt. }
    assert (Hadd : add_char (H := heap) (Long z) (Char "X") = ret (Long (z + 88))).
    { unfold add_char. cbn zeta. change (char_value "X") with 88%Z.
      by rewrite decide_True by (apply Hrange; done). }
    unfold defined. rewrite HX'. unfold bind, ret. cbn [fst snd]. rewrite Hadd.
    unfold ret. cbn [fst snd script.dtor script.AtomicInt2_class].
    erewrite dtor_eq2 by (cbn [mem]; apply lookup_insert_eq).
    rewrite decide_True by (cbn; lia).
    unfold set_mem. cbn [mem nCopies nAllocs]. by rewrite Hgone.
  - destruct (decide (i mod 3 = 1)) as [E1|E1].
    + rewrite decide_False by lia.
      unfold bind at 1, bind at 1. cbn [script.append script.AtomicInt2_class].
      rewrite (Append_shared2 h1 q x2 c Hq1) by (done || lia).
      rewrite Hfresh. unfold set_mem, set_nAllocs. cbn [mem nCopies nAllocs h1].
      unfold ret, bind. cbn [fst snd script.dtor script.AtomicInt2_class].
      erewrite dtor_eq2 by (cbn [mem]; apply lookup_insert_eq).
      rewrite decide_True by (cbn; lia).
      unfold set_mem. cbn [mem nCopies nAllocs]. by rewrite Hgone.
    + rewrite decide_True by lia.
      unfold bind, ret. cbn [fst snd script.dtor script.AtomicInt2_class].
      rewrite (dtor_eq2 h1 q x2 Hq1). rewrite decide_False by lia.
      unfold set_mem, h1. cbn [mem nCopies nAllocs]. rewrite Hback.
      by rewrite Z.add_0_r.
Qed.

(** On an empty string [s2[0]] reads beyond a buffer that has no chars. *)
Lemma body_AtomicInt2_empty (m : gmap positive glom) (nc na : Z) (q : positive)
      (x : glom) (c : ascii) (counter : long_value) :
  m !! q = Some x → REFS x = 1%Z → glom_wf x → LEN x = 0 →
  body script.AtomicInt2_class 0 c (mkString q) counter (mkHeap m nc na) = Undef.
Proof.
  intros Hq Hr Hwf Hlen.
  unfold body. unfold bind at 1. cbn [script.copy script.AtomicInt2_class].
  rewrite (copy_ctor_shares2 (mkHeap m nc na) (mkString q) x Hq) by lia.
  unfold set_nCopies, set_mem. cbn [data_ mem nCopies nAllocs].
  set (x2 := set_REFS x (REFS x + 1)).
  set (h1 := mkHeap (<[q := x2]> m) (nc + 1) na).
  assert (Hq1 : mem h1 !! q = Some x2) by apply lookup_insert_eq.
  assert (Hr2 : REFS x2 = 2%Z) by (unfold x2, REFS in *; cbn; lia).
  rewrite decide_True by done.
  unfold bind at 1, bind at 1. cbn [script.at_ script.AtomicInt2_class].
  unfold bind at 1.
  rewrite (index_shared2 h1 q x2 0 Hq1) by (done || lia).
  unfold bind at 1, read, bind at 1, load. cbn [fst snd obj off mem set_mem].
  rewrite lookup_insert_eq. unfold set_REFS, cloned. cbn [BUF].
  change (LEN x2) with (LEN x). change (USED x2) with (USED x).
  destruct Hwf as [Hu Hl]. rewrite Hlen in *.
  assert (USED x = 0) as -> by lia. done.
Qed.

Lemma inner_AtomicInt2 (m : gmap positive glom) (q : positive) (x : glom)
      (i : nat) (cs : list ascii) (z nc na : Z) :
  m !! q = Some x → REFS x = 1%Z → glom_wf x → 0 < USED x →
  BUF x !! 0 = Some (Char "X") →
  (i mod 3 = 0 → (- 2 ^ 31 ≤ z ∧ z + 88 * Z.of_nat (length cs) < 2 ^ 31)%Z) →
  inner script.AtomicInt2_class i cs (mkString q) (Long z) (mkHeap m nc na)
  = Ok (Long (if decide (i mod 3 = 0) then (z + 88 * Z.of_nat (length cs))%Z else z),
        mkHeap m (nc + Z.of_nat (length cs))
          (na + if decide (i mod 3 = 2) then 0 else Z.of_nat (length cs))).
Proof.
  intros Hq Hr Hwf Hused HX. revert z nc na.
  induction cs as [|c cs IH]; intros z nc na Hrange.
  - cbn [inner length]. unfold ret.
    destruct (decide (i mod 3 = 0)), (decide (i mod 3 = 2));
      rewrite ?Z.mul_0_r, ?Z.add_0_r; done.
  - cbn [inner]. unfold bind. cbn [length] in Hrange.
    rewrite (body_AtomicInt2 m nc na q x i c z Hq Hr Hwf Hused HX) by lia.
    rewrite IH by (intros E; rewrite decide_True by done; lia).
    cbn [length].
    destruct (decide (i mod 3 = 0)), (decide (i mod 3 = 2));
      f_equal; f_equal; try lia; f_equal; lia.
Qed.

Lemma outer_AtomicInt2 (m : gmap positive glom) (q : positive) (x : glom)
      (k : nat) (z nc na : Z) :
  m !! q = Some x → REFS x = 1%Z → glom_wf x → 0 < USED x →
  BUF x !! 0 = Some (Char "X") →
  (- 2 ^ 31 ≤ z ∧ z + 2200 * Z.of_nat ((k + 2) / 3) < 2 ^ 31)%Z →
  outer script.AtomicInt2_class k 0 (mkString q) (Long z) (mkHeap m nc na)
  = Ok (Long (z + 2200 * Z.of_nat ((k + 2) / 3)),
        mkHeap m (nc + 25 * Z.of_nat k) (na + 25 * Z.of_nat (k - k / 3))).
Proof.
  intros Hq Hr Hwf Hused HX.
  induction k as [|k IH]; intros Hrange.
  - cbn [outer]. unfold ret. cbn. by rewrite !Z.add_0_r.
  - rewrite outer_snoc. unfold bind. rewrite IH by lia. cbn [Nat.add].
    rewrite (inner_AtomicInt2 m q x k letters) by (done || (intros E; cbn [length letters]; change (length letters) with 25; lia)).
    change (length letters) with 25.
    destruct (decide (k mod 3 = 0)), (decide (k mod 3 = 2));
      f_equal; f_equal; try lia; f_equal; lia.
Qed.

(** [Append] to the only string there is. *)
Lemma Append_alone2 (q : positive) (x : glom) (c : ascii) (nc na : Z) :
  REFS x = 1%Z → glom_wf x →
  ∃ q' x' na',
    Append (mkString q) c (mkHeap {[q := x]} nc na)
    = Ok (mkString q', mkHeap {[q' := x']} nc na')
    ∧ REFS x' = 1%Z ∧ glom_wf x' ∧ USED x' = USED x + 1
    ∧ take (USED x') (BUF x') = take (USED x) (BUF x) ++ [Char c].
Proof.
  intros Hr Hwf.
  rewrite (Append_unshared2 (mkHeap {[q := x]} nc na) q x c)
    by (done || lia || apply lookup_singleton_eq).
  destruct (cloned_len x (USED x + 1) Hwf) as (Hn & Hl & Hb & Hcu).
  pose proof (cloned_take x (USED x + 1) Hwf) as Hct.
  destruct Hwf as [Hux Hlx].
  unfold set_mem, set_nAllocs. cbn [mem nCopies nAllocs].
  destruct (decide (LEN x < USED x + 1)) as [Hg|Hg]; eexists _, _, _.
  - rewrite delete_singleton_eq, insert_empty. split; [reflexivity|].
    set (y := cloned x (USED x + 1)) in *.
    unfold appended, set_USED, set_BUF, set_REFS, glom_wf, REFS, USED, LEN in *.
    cbn [head BUF len used refs] in *.
    split_and!; [done | lia | by rewrite length_insert | lia |].
    rewrite take_snoc_insert by lia. by rewrite Hcu, Hct.
  - rewrite insert_singleton_eq. split; [reflexivity|].
    unfold appended, set_USED, set_BUF, set_REFS, glom_wf, REFS, USED, LEN in *.
    cbn [head BUF len used refs] in *.
    split_and!; [done | lia | by rewrite length_insert | lia |].
    by rewrite take_snoc_insert by lia.
Qed.

Lemma initialize_AtomicInt2 (l : nat) (q : positive) (x : glom) (nc na : Z) :
  REFS x = 1%Z → glom_wf x →
  take (USED x) (BUF x) = replicate (USED x) (Char "X") →
  ∃ q' x' na',
    initialize script.AtomicInt2_class l (mkString q) (mkHeap {[q := x]} nc na)
    = Ok (mkString q', mkHeap {[q' := x']} nc na')
    ∧ REFS x' = 1%Z ∧ glom_wf x' ∧ USED x' = USED x + l
    ∧ take (USED x') (BUF x') = replicate (USED x') (Char "X")
    ∧ (l = 0 → x' = x).
Proof.
  revert q x na. induction l as [|l IH]; intros q x na Hr Hwf Ht.
  - exists q, x, na. split_and!; [done | done | done | lia | done | done].
  - cbn [initialize]. unfold bind. cbn [script.append script.AtomicInt2_class].
    destruct (Append_alone2 q x "X" nc na Hr Hwf)
      as (q1 & x1 & na1 & -> & Hr1 & Hwf1 & Hu1 & Ht1).
    destruct (IH q1 x1 na1 Hr1 Hwf1) as (q' & x' & na' & Hrun & Hr' & Hw' & Hu' & Ht' & _).
    { rewrite Ht1, Ht, Hu1. by rewrite replicate_add. }
    exists q', x', na'. rewrite Hrun.
    split_and!; [done | done | done | lia | done | done].
Qed.

(** X24. What [RUN_TEST] prints in COW_AtomicInt2, for the loop count [n] and
    the string length [l] given to the program. With a string of one
    character or more it returns, as long as the [long] counter can hold
    the sum, and every buffer it made is deleted; [copies:] is 25 for
    each of the [n / 25] rounds of the outer loop, [allocs:] is 25 for
    each round in which the copy is accessed or appended to, and the
    counter written to test.out is 25 times the ['X'] that [s2[0]] reads,
    2200, for every third round. With an empty string and at least one
    round the access [s2[0]] reads beyond the buffer. *)
Theorem RUN_TEST_AtomicInt2_figures (nc na n l : Z) :
  let h0 := mkHeap ∅ nc na in
  let k := Z.max 0 (n ÷ 25) in
  let allocs := (25 * (k - k / 3))%Z in
  let counter := (2200 * ((k + 2) / 3))%Z in
  ((0 < l)%Z ∨ (n < 25)%Z → (counter < 2 ^ 31)%Z →
   RUN_TEST_AtomicInt2 n l h0
   = Ok ((Long counter, ((25 * k)%Z, allocs)), mkHeap ∅ (25 * k) allocs))
  ∧ ((l ≤ 0)%Z → (25 ≤ n)%Z → RUN_TEST_AtomicInt2 n l h0 = Undef).
Proof.
  intros h0 k allocs counter.
  set (E := mkGlom (mkStringBuf 0 0 1) []).
  set (p0 := fresh (dom (∅ : gmap positive glom))).
  assert (HE : glom_wf E) by (split; cbn; done).
  destruct (initialize_AtomicInt2 (Z.to_nat l) p0 E nc (na + 1) eq_refl HE eq_refl)
    as (q' & x' & na' & Hrun & Hr' & Hw' & Hu' & Ht' & Hd0).
  assert (Hfinal : ∀ y z,
            dtor (mkString q') (mkHeap {[q' := x']} y z) = Ok (tt, mkHeap ∅ y z)).
  { intros y z. rewrite (dtor_eq2 _ q' x') by apply lookup_singleton_eq.
    rewrite decide_True by lia. unfold set_mem. cbn [mem nCopies nAllocs].
    by rewrite delete_singleton_eq. }
  assert (Hstart :
            RUN_TEST_AtomicInt2 n l h0
            = match outer script.AtomicInt2_class (Z.to_nat (n ÷ 25)) 0 (mkString q')
                      (Long 0) (mkHeap {[q' := x']} 0 0) with
              | Ok (c, h) =>
                  match dtor (mkString q') h with
                  | Ok (_, h') => Ok ((c, AtomicInt2_counters h), h')
                  | bad_alloc => bad_alloc
                  | Undef => Undef
                  end
              | bad_alloc => bad_alloc
              | Undef => Undef
              end).
  { unfold RUN_TEST_AtomicInt2, RUN_TEST, Test.
    unfold bind at 1. cbn [script.ctor script.AtomicInt2_class].
    change (String_ctor h0) with (Ok (mkString p0, mkHeap (<[p0 := E]> ∅) nc (na + 1))).
    rewrite insert_empty.
    unfold bind at 1, bind at 1. rewrite Hrun.
    unfold bind at 1, modify. unfold AtomicInt2_reset, set_nCopies, set_nAllocs.
    cbn [mem nCopies nAllocs].
    unfold bind at 1.
    destruct (outer _ _ _ _ _ _) as [[c h]| |]; [|done..].
    unfold ret at 1. unfold bind at 1, bind at 1, ret.
    cbn [fst snd script.dtor script.AtomicInt2_class].
    by destruct (dtor _ _) as [[u h']| |]. }
  rewrite Hstart. clear Hstart.
  split.
  - intros Hcase Hcounter.
    destruct (decide (n < 25)%Z) as [Hn|Hn].
    + assert (Z.to_nat (n ÷ 25) = 0) as -> by lia.
      cbn [outer]. unfold ret. rewrite Hfinal. unfold AtomicInt2_counters.
      cbn [nCopies nAllocs]. subst allocs counter k.
      replace (Z.max 0 (n ÷ 25)) with 0%Z by lia. done.
    + destruct Hcase as [Hl|?]; [|done].
      cbn [USED head used E] in Hu'.
      rewrite (outer_AtomicInt2 {[q' := x']} q' x');
        [| apply lookup_singleton_eq | done | done | lia | | subst counter k; lia].
      * rewrite Hfinal. unfold AtomicInt2_counters. cbn [nCopies nAllocs].
        subst allocs counter k. rewrite !Z.add_0_l.
        replace (Z.of_nat ((Z.to_nat (n ÷ 25) + 2) / 3))
          with ((Z.max 0 (n ÷ 25) + 2) / 3)%Z by lia.
        replace (Z.of_nat (Z.to_nat (n ÷ 25)))
          with (Z.max 0 (n ÷ 25))%Z by lia.
        replace (Z.of_nat (Z.to_nat (n ÷ 25) - Z.to_nat (n ÷ 25) / 3))
          with (Z.max 0 (n ÷ 25) - Z.max 0 (n ÷ 25) / 3)%Z by lia.
        done.
      * assert (H0 : take (USED x') (BUF x') !! 0 = Some (Char "X")).
        { rewrite Ht'. apply lookup_replicate_2. lia. }
        by rewrite lookup_take_lt in H0 by lia.
  - intros Hl Hn.
    assert (Z.to_nat l = 0) as El by lia.
    destruct (Z.to_nat (n ÷ 25)) as [|k'] eqn:Ek; [lia|].
    cbn [outer]. unfold bind at 1.
    change letters with ("a"%char :: (ascii_of_nat <$> seq 98 24)).
    cbn [inner]. unfold bind at 1.
    rewrite (body_AtomicInt2_empty {[q' := x']} 0 0 q' x');
      [done | apply lookup_singleton_eq | done | done |].
    by rewrite (Hd0 El).
Qed.

Lemma RUN_TEST_AtomicInt2_figures_witness :
  RUN_TEST_AtomicInt2 100 1 start = Ok ((Long 4400, (100%Z, 75%Z)), mkHeap ∅ 100 75).
Proof.
  apply (proj1 (RUN_TEST_AtomicInt2_figures 0 0 100 1)).
  - left. lia.
  - vm_compute. reflexivity.
Defined.

End harness_AtomicInt2.

Section harness_Plain.

Import round_trip growth harness.

Lemma initialize_Plain (l : nat) (s : Plain.String) (k : Plain.counters) :
  initialize Plain_class l s k = Plain_appends s (replicate l "X"%char) k.
Proof.
  revert s k. induction l as [|l IH]; intros s k; [done|].
  cbn [initialize replicate Plain_appends]. unfold bind.
  cbn [script.append Plain_class].
  destruct (Plain.Append s "X" k) as [[s1 k1]| |]; [apply IH | done..].
Qed.

(** One round of the inner loop in Plain, on a string that begins with an
    ['X']: the copy is a full one, and an [Append] to it allocates again
    when the capacity it took over is used up. *)
Lemma body_Plain (s : Plain.String) (cs : list ascii) (i : nat) (c : ascii)
      (z : Z) (k : Plain.counters) :
  Plain_holds s ("X"%char :: cs) →
  (i mod 3 = 0 → (- 2 ^ 31 ≤ z + 88 < 2 ^ 31)%Z) →
  body Plain_class i c s (Long z) k
  = Ok (Long (if decide (i mod 3 = 0) then (z + 88)%Z else z),
        Plain.mkCounters (Plain.nCopies k + 1)
          (Plain.nAllocs k + 1
           + if decide (i mod 3 = 1 ∧ Plain.len_ s < Plain.used_ s + 1)
             then 1 else 0)).
Proof.
  intros Hh Hrange.
  destruct (Plain_copy_holds s _ k Hh) as (s2 & Hcopy & Hh2 & Hlen & Hused).
  unfold body. unfold bind at 1. cbn [script.copy Plain_class]. rewrite Hcopy.
  destruct (decide (i mod 3 = 0)) as [E0|E0].
  - rewrite decide_False by lia.
    assert (Hread : Plain.read (Plain.index s2 0) = Some (Char "X")).
    { pose proof (Plain_holds_reads s2 _ 1 0 Hh2) as Hr. cbn in Hr.
      by injection (Hr ltac:(lia)). }
    assert (Hadd : add_char (H := Plain.counters) (Long z) (Char "X")
                   = ret (Long (z + 88))).
    { unfold add_char. cbn zeta. change (char_value "X") with 88%Z.
      by rewrite decide_True by (apply Hrange; done). }
    unfold bind at 1, bind at 1. cbn [script.at_ Plain_class].
    rewrite Hread. unfold defined. unfold bind, ret. cbn [fst snd].
    rewrite Hadd. unfold ret. cbn [fst snd script.dtor Plain_class].
    by rewrite Z.add_0_r.
  - destruct (decide (i mod 3 = 1)) as [E1|E1].
    + unfold bind at 1, bind at 1. cbn [script.append Plain_class].
      destruct (Plain_holds_Append s2 _ c
                  (Plain.mkCounters (Plain.nCopies k + 1) (Plain.nAllocs k + 1)) Hh2)
        as (s3 & k3 & HA & _).
      rewrite HA.
      destruct (Plain_Append_len _ _ _ _ _ HA) as (_ & Hc3 & _ & Ha3).
      cbn [Plain.nCopies Plain.nAllocs] in Hc3, Ha3. rewrite Hlen, Hused in Ha3.
      unfold ret, bind. cbn [fst snd script.dtor Plain_class].
      f_equal. f_equal. destruct k3 as [c3 a3]. cbn in *. subst c3 a3.
      f_equal. f_equal. repeat case_decide; try done; tauto.
    + unfold bind, ret. cbn [fst snd script.dtor Plain_class].
      rewrite decide_False by tauto. by rewrite Z.add_0_r.
Qed.

(** On the empty string the copy has an array of no chars, and [s2[0]]
    reads beyond it. *)
Lemma body_Plain_empty (c : ascii) (counter : long_value) (k : Plain.counters) :
  body Plain_class 0 c Plain.String_ctor counter k = Undef.
Proof. reflexivity. Qed.

Lemma inner_Plain (s : Plain.String) (cs : list ascii) (i : nat)
      (cs' : list ascii) (z nc na : Z) :
  Plain_holds s ("X"%char :: cs) →
  (i mod 3 = 0 → (- 2 ^ 31 ≤ z ∧ z + 88 * Z.of_nat (length cs') < 2 ^ 31)%Z) →
  inner Plain_class i cs' s (Long z) (Plain.mkCounters nc na)
  = Ok (Long (if decide (i mod 3 = 0) then (z + 88 * Z.of_nat (length cs'))%Z else z),
        Plain.mkCounters (nc + Z.of_nat (length cs'))
          (na + Z.of_nat (length cs')
           + if decide (i mod 3 = 1 ∧ Plain.len_ s < Plain.used_ s + 1)
             then Z.of_nat (length cs') else 0)).
Proof.
  intros Hh. revert z nc na.
  induction cs' as [|c cs' IH]; intros z nc na Hrange.
  - cbn [inner length]. unfold ret.
    destruct (decide (i mod 3 = 0)),
      (decide (i mod 3 = 1 ∧ Plain.len_ s < Plain.used_ s + 1));
      rewrite ?Z.mul_0_r, ?Z.add_0_r; done.
  - cbn [inner]. unfold bind. cbn [length] in Hrange.
    rewrite (body_Plain s cs i c z _ Hh) by lia.
    cbn [Plain.nCopies Plain.nAllocs].
    rewrite IH by (intros E; rewrite decide_True by done; lia).
    cbn [length].
    destruct (decide (i mod 3 = 0)),
      (decide (i mod 3 = 1 ∧ Plain.len_ s < Plain.used_ s + 1));
      f_equal; f_equal; try lia; f_equal; lia.
Qed.

Lemma outer_Plain (s : Plain.String) (cs : list ascii) (k : nat) (z nc na : Z) :
  Plain_holds s ("X"%char :: cs) →
  (- 2 ^ 31 ≤ z ∧ z + 2200 * Z.of_nat ((k + 2) / 3) < 2 ^ 31)%Z →
  outer Plain_class k 0 s (Long z) (Plain.mkCounters nc na)
  = Ok (Long (z + 2200 * Z.of_nat ((k + 2) / 3)),
        Plain.mkCounters (nc + 25 * Z.of_nat k)
          (na + 25 * Z.of_nat k
           + if decide (Plain.len_ s < Plain.used_ s + 1)
             then 25 * Z.of_nat ((k + 1) / 3) else 0)).
Proof.
  intros Hh.
  induction k as [|k IH]; intros Hrange.
  - cbn [outer]. unfold ret. cbn. rewrite !Z.add_0_r. by case_decide; rewrite ?Z.add_0_r.
  - rewrite outer_snoc. unfold bind. rewrite IH by lia. cbn [Nat.add].
    rewrite (inner_Plain s cs k letters)
      by (done || (intros E; change (length letters) with 25; lia)).
    change (length letters) with 25.
    destruct (decide (Plain.len_ s < Plain.used_ s + 1)) as [Hg|Hg].
    + destruct (decide (k mod 3 = 0)), (decide (k mod 3 = 1)).
      all: try rewrite (decide_True (P := _ ∧ _)) by done.
      all: try rewrite (decide_False (P := _ ∧ _)) by tauto.
      all: f_equal; f_equal; try lia; f_equal; lia.
    + rewrite (decide_False (P := _ ∧ _)) by tauto.
      destruct (decide (k mod 3 = 0));
        f_equal; f_equal; try lia; f_equal; lia.
Qed.

(** X25. What [RUN_TEST] prints in Plain, for the loop count [n] and the
    string length [l] given to the program. With a string of one
    character or more it returns, as long as the [long] counter can hold
    the sum; [copies:] is 25 for each of the [n / 25] rounds of the outer
    loop; [allocs:] is as much, every copy being a full one, and 25 more
    for each round that appends to the copy when the string fills its
    capacity exactly; the counter written to test.out is 2200 for every
    third round. With an empty string and at least one round the access
    [s2[0]] reads beyond an array of no chars. *)
Theorem RUN_TEST_Plain_figures (k0 : Plain.counters) (n l : Z) :
  let k := Z.max 0 (n ÷ 25) in
  let full := if decide (capacity (Z.to_nat l) = Z.to_nat l) then 1%Z else 0%Z in
  let allocs := (25 * k + 25 * ((k + 1) / 3) * full)%Z in
  let counter := (2200 * ((k + 2) / 3))%Z in
  ((0 < l)%Z ∨ (n < 25)%Z → (counter < 2 ^ 31)%Z →
   RUN_TEST_Plain n l k0
   = Ok ((Long counter, ((25 * k)%Z, allocs)), Plain.mkCounters (25 * k) allocs))
  ∧ ((l ≤ 0)%Z → (25 ≤ n)%Z → RUN_TEST_Plain n l k0 = Undef).
Proof.
  intros k full allocs counter.
  assert (H0 : Plain_holds Plain.String_ctor []) by (by split_and!).
  destruct (Plain_holds_appends (replicate (Z.to_nat l) "X"%char) [] _ k0 H0)
    as (s & k1 & Hrun & Hh).
  cbn [app] in Hh.
  destruct (Plain_appends_len _ Plain.String_ctor s 0 k0 k1 eq_refl eq_refl Hrun)
    as [Hlen _].
  rewrite length_replicate in Hlen. cbn [Nat.add] in Hlen.
  assert (Hused : Plain.used_ s = Z.to_nat l).
  { destruct Hh as (_ & _ & Hu & _). by rewrite length_replicate in Hu. }
  assert (Hstart :
            RUN_TEST_Plain n l k0
            = match outer Plain_class (Z.to_nat (n ÷ 25)) 0 s (Long 0)
                      (Plain.mkCounters 0 0) with
              | Ok (c, h) => Ok ((c, Plain_counters h), h)
              | bad_alloc => bad_alloc
              | Undef => Undef
              end).
  { unfold RUN_TEST_Plain, RUN_TEST, Test.
    unfold bind at 1. cbn [script.ctor Plain_class]. unfold ret at 1.
    unfold bind at 1, bind at 1. rewrite initialize_Plain, Hrun.
    unfold bind at 1, modify. unfold Plain_reset.
    unfold bind at 1.
    destruct (outer _ _ _ _ _ _) as [[c h]| |]; [|done..].
    unfold ret at 1. unfold bind, ret. by cbn [fst snd script.dtor Plain_class]. }
  rewrite Hstart. clear Hstart.
  split.
  - intros Hcase Hcounter.
    destruct (decide (n < 25)%Z) as [Hn|Hn].
    + assert (Z.to_nat (n ÷ 25) = 0) as -> by lia.
      cbn [outer]. unfold ret, Plain_counters. cbn [Plain.nCopies Plain.nAllocs].
      subst allocs counter k.
      replace (Z.max 0 (n ÷ 25)) with 0%Z by lia. done.
    + destruct Hcase as [Hl|?]; [|done].
      destruct (Z.to_nat l) as [|l'] eqn:El; [lia|]. cbn [replicate] in Hh.
      rewrite (outer_Plain s _ _ 0 0 0 Hh) by (subst counter k; lia).
      unfold Plain_counters. cbn [Plain.nCopies Plain.nAllocs].
      rewrite Hlen, Hused. pose proof (capacity_ge (S l')) as Hge.
      subst allocs counter k full. rewrite !Z.add_0_l.
      replace (Z.of_nat ((Z.to_nat (n ÷ 25) + 2) / 3))
        with ((Z.max 0 (n ÷ 25) + 2) / 3)%Z by lia.
      replace (Z.of_nat (Z.to_nat (n ÷ 25)))
        with (Z.max 0 (n ÷ 25))%Z by lia.
      replace (Z.of_nat ((Z.to_nat (n ÷ 25) + 1) / 3))
        with ((Z.max 0 (n ÷ 25) + 1) / 3)%Z by lia.
      destruct (decide (capacity (S l') < S l' + 1)),
        (decide (capacity (S l') = S l')); try lia;
        rewrite ?Z.mul_1_r, ?Z.mul_0_r; done.
  - intros Hl Hn.
    assert (Z.to_nat l = 0) as El by lia. rewrite El in Hrun.
    cbn in Hrun. injection Hrun as <- _.
    destruct (Z.to_nat (n ÷ 25)) as [|k'] eqn:Ek; [lia|].
    cbn [outer]. unfold bind at 1.
    change letters with ("a"%char :: (ascii_of_nat <$> seq 98 24)).
    cbn [inner]. unfold bind at 1. by rewrite body_Plain_empty.
Qed.

Lemma RUN_TEST_Plain_figures_witness :
  RUN_TEST_Plain 100 4 (Plain.mkCounters 0 0)
  = Ok ((Long 4400, (100%Z, 125%Z)), Plain.mkCounters 100 125).
Proof.
  apply (proj1 (RUN_TEST_Plain_figures (Plain.mkCounters 0 0) 100 4)).
  - left. lia.
  - vm_compute. reflexivity.
Defined.

End harness_Plain.

Section harness_FastAlloc.

Import round_trip growth harness.
Import Plain_FastAlloc.

Lemma initialize_FastAlloc (l : nat) (s : String) (h : heap) :
  initialize FastAlloc_class l s h = FastAlloc_appends s (replicate l "X"%char) h.
Proof.
  revert s h. induction l as [|l IH]; intros s h; [done|].
  cbn [initialize replicate FastAlloc_appends]. unfold bind.
  cbn [script.append FastAlloc_class].
  destruct (Append s "X" h) as [[s1 h1]| |]; [apply IH | done..].
Qed.

(** An arena with no block in use is as the constructor made it. *)
Lemma owned_nothing (h : heap) (base : Z) :
  owned h [] → FastArena.wf (fa h) → FastArena.n_ (fa h) = 3000 →
  FastArena.buf_ (fa h) = base → fa h = FastArena.ctor base 3000.
Proof.
  intros Hown [Hlen _] Hn Hb. destruct (fa h) as [n b hs] eqn:E. cbn in *.
  subst n b. unfold FastArena.ctor. f_equal.
  apply list_eq. intros j. destruct (decide (j < FastArena.size)) as [Hj|Hj].
  - pose proof (Hown j Hj) as Hj0. rewrite E in Hj0. cbn in Hj0.
    rewrite Hj0, decide_False by set_solver.
    symmetry. by apply lookup_replicate_2.
  - rewrite lookup_ge_None_2 by lia.
    symmetry. apply lookup_ge_None_2. rewrite length_replicate. lia.
Qed.

(** The first [char] of a string, as a read finds it. *)
Lemma FastAlloc_read_first (h : heap) (s : String) (cs : list ascii) :
  FastAlloc_holds h s cs → buf_ s ≠ 0%Z → 0 < FastArena.n_ (fa h) →
  (cs = [] → blocks h !! buf_ s
             = Some (replicate (FastArena.n_ (fa h)) Uninit)) →
  read (index s 0) h = Ok (default Uninit (Char <$> head cs), h).
Proof.
  intros (Hwf & Hu & Hul & Hblk) Hnz Hn Hfresh.
  destruct Hblk as [[? _]|(i & arr & Hi & Hb & Hiuse & Harr & Hla & Htake)];
    [done|].
  unfold read, index, bind, chars_at. cbn [base off]. rewrite Harr.
  destruct cs as [|c0 cs]; cbn [head fmap option_fmap option_map default].
  - assert (arr = replicate (FastArena.n_ (fa h)) Uninit) as ->
      by (rewrite Hfresh in Harr by done; congruence).
    by rewrite lookup_replicate_2 by lia.
  - destruct (lookup_of_take arr (c0 :: cs) (used_ s) 0 Htake Hu)
      as (c & Hc & Hac); [simpl in Hu; lia|].
    injection Hc as <-. by rewrite Hac.
Qed.

(** One round of the inner loop in Plain_FastAlloc, on a string that has
    the arena to itself: the copy takes a second block, an [Append] to it
    that has to grow takes a third one and gives the second back, and the
    destructor gives back the block the copy ends with. *)
Lemma body_FastAlloc (h : heap) (s : String) (cs : list ascii) (i : nat)
      (c : ascii) (x x' : long_value) :
  FastAlloc_holds h s cs → owned h [buf_ s] → FastArena.n_ (fa h) = 3000 →
  len_ s ≤ 3000 →
  (i mod 3 = 0 →
   add_char (H := heap) x (default Uninit (Char <$> head cs)) = ret x') →
  ¬ (i mod 3 = 1 ∧ len_ s < used_ s + 1
     ∧ 3000 < round4 (needed_for (len_ s) (used_ s + 1))) →
  ∃ h',
    body FastAlloc_class i c s x h
    = Ok (if decide (i mod 3 = 0) then x' else x, h')
    ∧ FastAlloc_holds h' s cs ∧ owned h' [buf_ s]
    ∧ FastArena.n_ (fa h') = 3000
    ∧ FastArena.buf_ (fa h') = FastArena.buf_ (fa h)
    ∧ nCopies h' = (nCopies h + 1)%Z
    ∧ nAllocs h'
      = (nAllocs h + 1
         + (if decide (i mod 3 = 1 ∧ len_ s < used_ s + 1)%nat then 1 else 0))%Z.
Proof.
  intros Hh Hown Hn Hcap Hadd Hfits.
  destruct (FastAlloc_copy_owned h s cs [buf_ s] Hh Hown) as
    (s2 & h2 & Hcopy & Hh2 & Hown2 & Hnot2 & Hnz2 & Hn2 & Hb2 & Hfr2 & Hnc2
     & Hna2 & Hlen2 & Hused2 & Hfresh2);
    [lia | apply (owned_not_exhausted h [buf_ s]); [done | simpl; lia] |].
  assert (Hdone : ∀ h3 s3 cs3,
            FastAlloc_holds h3 s3 cs3 → owned h3 [buf_ s3; buf_ s] →
            buf_ s3 ∉ [buf_ s] →
            FastArena.n_ (fa h3) = FastArena.n_ (fa h) →
            FastArena.buf_ (fa h3) = FastArena.buf_ (fa h) →
            blocks h3 !! buf_ s = blocks h !! buf_ s →
            ∃ h', dtor s3 h3 = Ok (tt, h')
                  ∧ FastAlloc_holds h' s cs ∧ owned h' [buf_ s]
                  ∧ FastArena.n_ (fa h') = 3000
                  ∧ FastArena.buf_ (fa h') = FastArena.buf_ (fa h)
                  ∧ nCopies h' = nCopies h3 ∧ nAllocs h' = nAllocs h3).
  { intros h3 s3 cs3 Hh3 Hown3 Hnot3 Hn3 Hb3 Hfr3.
    destruct (FastAlloc_dtor_owned h3 s3 cs3 [buf_ s] Hh3 Hown3 Hnot3)
      as (h' & Hd & Hown' & Hwf' & Hn' & Hb' & Hfr' & Hnc' & Hna').
    exists h'. split_and!; [done | | done | congruence | congruence | done | done].
    apply (FastAlloc_holds_frame h h' s cs [buf_ s] Hh Hwf');
      [congruence | congruence | done | by left |].
    rewrite Hfr' by (by left). done. }
  unfold body. unfold bind at 1. cbn [script.copy FastAlloc_class]. rewrite Hcopy.
  destruct (decide (i mod 3 = 0)) as [E0|E0].
  - rewrite decide_False by lia.
    destruct (Hdone h2 s2 cs Hh2 Hown2 Hnot2 Hn2 Hb2)
      as (h' & Hd & Hh' & Hown' & Hn' & Hb' & Hnc' & Hna');
      [apply Hfr2; by left|].
    exists h'. split_and!; [| done | done | done | done | lia | lia].
    unfold bind at 1, bind at 1. cbn [script.at_ FastAlloc_class].
    unfold bind at 1.
    rewrite (FastAlloc_read_first h2 s2 cs Hh2 Hnz2);
      [| lia | intros E; rewrite (Hfresh2 E); by rewrite Hn2].
    unfold ret at 1. cbn [fst snd]. unfold bind at 1. rewrite (Hadd E0).
    unfold ret at 1. unfold ret at 1. unfold bind, ret.
    cbn [fst snd script.dtor FastAlloc_class]. by rewrite Hd.
  - destruct (decide (i mod 3 = 1)) as [E1|E1].
    + destruct (FastAlloc_Append_outcome h2 s2 cs c Hh2) as [_ Hok].
      cbn zeta in Hok. rewrite Hlen2, Hused2, Hn2, Hn in Hok.
      destruct Hok as (s3 & h3 & HA & Hh3).
      { intros [Hg [Hbig|Hex]]; [apply Hfits; by split_and!|].
        revert Hex. apply (owned_not_exhausted h2 [buf_ s2; buf_ s]);
          [done | simpl; lia]. }
      destruct (FastAlloc_Append_owned h2 h3 s2 s3 cs c [buf_ s] Hh2 Hown2 Hnot2 HA)
        as (Hown3 & Hnot3 & Hn3 & Hb3 & Hfr3 & Hnc3 & Hna3).
      destruct (Hdone h3 s3 _ Hh3 Hown3 Hnot3)
        as (h' & Hd & Hh' & Hown' & Hn' & Hb' & Hnc' & Hna');
        [congruence | congruence | |].
      { rewrite Hfr3 by (by left). apply Hfr2. by left. }
      exists h'. rewrite Hlen2, Hused2 in Hna3.
      split_and!; [| done | done | done | done | lia |].
      * unfold bind at 1, bind at 1. cbn [script.append FastAlloc_class].
        rewrite HA. unfold ret at 1. unfold bind, ret.
        cbn [fst snd script.dtor FastAlloc_class]. by rewrite Hd.
      * rewrite Hna', Hna3, Hna2.
        destruct (decide (len_ s < used_ s + 1)).
        -- by rewrite decide_True.
        -- by rewrite decide_False by tauto.
    + destruct (Hdone h2 s2 cs Hh2 Hown2 Hnot2 Hn2 Hb2)
        as (h' & Hd & Hh' & Hown' & Hn' & Hb' & Hnc' & Hna');
        [apply Hfr2; by left|].
      exists h'. split_and!; [| done | done | done | done | lia |].
      * unfold bind, ret. cbn [fst snd script.dtor FastAlloc_class].
        by rewrite Hd.
      * rewrite decide_False by tauto. lia.
Qed.

(** The round that appends to the copy of a string of 2840 characters asks
    the arena for more than a block holds. *)
Lemma body_FastAlloc_throws (h : heap) (s : String) (cs : list ascii) (i : nat)
      (c : ascii) (x : long_value) :
  FastAlloc_holds h s cs → owned h [buf_ s] → FastArena.n_ (fa h) = 3000 →
  len_ s ≤ 3000 →
  i mod 3 = 1 → len_ s < used_ s + 1 →
  3000 < round4 (needed_for (len_ s) (used_ s + 1)) →
  body FastAlloc_class i c s x h = bad_alloc.
Proof.
  intros Hh Hown Hn Hcap E1 Hg Hbig.
  destruct (FastAlloc_copy_owned h s cs [buf_ s] Hh Hown) as
    (s2 & h2 & Hcopy & Hh2 & Hown2 & Hnot2 & Hnz2 & Hn2 & Hb2 & Hfr2 & Hnc2
     & Hna2 & Hlen2 & Hused2 & Hfresh2);
    [lia | apply (owned_not_exhausted h [buf_ s]); [done | simpl; lia] |].
  destruct (FastAlloc_Append_outcome h2 s2 cs c Hh2) as [Hthrow _].
  cbn zeta in Hthrow. rewrite Hlen2, Hused2, Hn2, Hn in Hthrow.
  unfold body. unfold bind at 1. cbn [script.copy FastAlloc_class]. rewrite Hcopy.
  rewrite decide_False, decide_True by lia.
  unfold bind at 1, bind at 1. cbn [script.append FastAlloc_class].
  rewrite Hthrow; [done|]. split; [done|]. by left.
Qed.

(** The inner loop: [f m] is the counter after [m] additions of the first
    character. *)
Lemma inner_FastAlloc (s : String) (cs : list ascii) (i : nat)
      (f : nat → long_value) (cs' : list ascii) (m0 : nat) (h : heap) :
  FastAlloc_holds h s cs → owned h [buf_ s] → FastArena.n_ (fa h) = 3000 →
  len_ s ≤ 3000 →
  (i mod 3 = 0 → ∀ m, m0 ≤ m < m0 + length cs' →
   add_char (H := heap) (f m) (default Uninit (Char <$> head cs))
   = ret (f (S m))) →
  ¬ (i mod 3 = 1 ∧ len_ s < used_ s + 1
     ∧ 3000 < round4 (needed_for (len_ s) (used_ s + 1))) →
  ∃ h',
    inner FastAlloc_class i cs' s (f m0) h
    = Ok (f (if decide (i mod 3 = 0) then m0 + length cs' else m0), h')
    ∧ FastAlloc_holds h' s cs ∧ owned h' [buf_ s]
    ∧ FastArena.n_ (fa h') = 3000
    ∧ FastArena.buf_ (fa h') = FastArena.buf_ (fa h)
    ∧ nCopies h' = (nCopies h + Z.of_nat (length cs'))%Z
    ∧ nAllocs h'
      = (nAllocs h + Z.of_nat (length cs')
         + (if decide (i mod 3 = 1 ∧ len_ s < used_ s + 1)%nat
            then Z.of_nat (length cs') else 0))%Z.
Proof.
  intros Hh Hown Hn Hcap Hadd Hfits. revert m0 h Hh Hown Hn Hadd.
  induction cs' as [|c cs' IH]; intros m0 h Hh Hown Hn Hadd.
  - exists h. cbn [inner length]. unfold ret. rewrite Nat.add_0_r.
    split_and!; [by case_decide | done | done | done | done | lia |].
    case_decide; lia.
  - cbn [inner length] in *. unfold bind.
    destruct (body_FastAlloc h s cs i c (f m0) (f (S m0)) Hh Hown Hn Hcap)
      as (h1 & Hbody & Hh1 & Hown1 & Hn1 & Hb1 & Hnc1 & Hna1);
      [intros E; apply Hadd; [done | lia] | done |].
    rewrite Hbody.
    destruct (decide (i mod 3 = 0)) as [E0|E0].
    + destruct (IH (S m0) h1 Hh1 Hown1 Hn1)
        as (h' & Hrun & Hh' & Hown' & Hn' & Hb' & Hnc' & Hna').
      { intros _ m Hm. apply Hadd; [done | lia]. }
      exists h'. rewrite Hrun.
      rewrite decide_False in Hna1, Hna' by lia. rewrite decide_False by lia.
      split_and!; [| done | done | done | congruence | lia | lia].
      do 3 f_equal. lia.
    + destruct (IH m0 h1 Hh1 Hown1 Hn1)
        as (h' & Hrun & Hh' & Hown' & Hn' & Hb' & Hnc' & Hna'); [done|].
      exists h'. rewrite Hrun.
      split_and!; [done | done | done | done | congruence | lia |].
      rewrite Hna', Hna1. case_decide; lia.
Qed.

Lemma outer_FastAlloc (s : String) (cs : list ascii) (f : nat → long_value)
      (k : nat) (h : heap) :
  FastAlloc_holds h s cs → owned h [buf_ s] → FastArena.n_ (fa h) = 3000 →
  len_ s ≤ 3000 →
  (∀ m, m < 25 * ((k + 2) / 3) →
   add_char (H := heap) (f m) (default Uninit (Char <$> head cs))
   = ret (f (S m))) →
  (2 ≤ k → ¬ (len_ s < used_ s + 1
              ∧ 3000 < round4 (needed_for (len_ s) (used_ s + 1)))) →
  ∃ h',
    outer FastAlloc_class k 0 s (f 0) h = Ok (f (25 * ((k + 2) / 3)), h')
    ∧ FastAlloc_holds h' s cs ∧ owned h' [buf_ s]
    ∧ FastArena.n_ (fa h') = 3000
    ∧ FastArena.buf_ (fa h') = FastArena.buf_ (fa h)
    ∧ nCopies h' = (nCopies h + 25 * Z.of_nat k)%Z
    ∧ nAllocs h'
      = (nAllocs h + 25 * Z.of_nat k
         + (if decide (len_ s < used_ s + 1)%nat
            then 25 * Z.of_nat ((k + 1) / 3) else 0))%Z.
Proof.
  intros Hh Hown Hn Hcap.
  induction k as [|k IH]; intros Hadd Hfits.
  - exists h. cbn [outer]. unfold ret.
    split_and!; [done | done | done | done | done | lia |].
    case_decide; cbn; lia.
  - destruct IH as (h1 & Hrun & Hh1 & Hown1 & Hn1 & Hb1 & Hnc1 & Hna1).
    { intros m Hm. apply Hadd. lia. }
    { intros Hk. apply Hfits. lia. }
    rewrite outer_snoc. unfold bind. rewrite Hrun. cbn [Nat.add].
    destruct (inner_FastAlloc s cs k f letters (25 * ((k + 2) / 3)) h1
                Hh1 Hown1 Hn1 Hcap)
      as (h' & Hin & Hh' & Hown' & Hn' & Hb' & Hnc' & Hna').
    { intros E m Hm. apply Hadd. change (length letters) with 25 in Hm. lia. }
    { intros (E & Hg & Hbig). apply Hfits; [lia | done]. }
    exists h'. rewrite Hin. change (length letters) with 25 in *.
    split_and!; [| done | done | done | congruence | lia |].
    + assert (E : (if decide (k mod 3 = 0)
                   then 25 * ((k + 2) / 3) + 25 else 25 * ((k + 2) / 3))
                  = 25 * ((S k + 2) / 3))
        by (destruct (decide (k mod 3 = 0)); lia).
      by rewrite E.
    + rewrite Hna', Hna1.
      destruct (decide (len_ s < used_ s + 1)).
      * destruct (decide (k mod 3 = 1)).
        -- rewrite decide_True by done. lia.
        -- rewrite decide_False by tauto. lia.
      * rewrite decide_False by tauto. lia.
Qed.

Lemma outer_FastAlloc_throws (s : String) (cs : list ascii) (k : nat) (h : heap) :
  FastAlloc_holds h s ("X"%char :: cs) → owned h [buf_ s] →
  FastArena.n_ (fa h) = 3000 → len_ s ≤ 3000 →
  len_ s < used_ s + 1 → 3000 < round4 (needed_for (len_ s) (used_ s + 1)) →
  2 ≤ k →
  outer FastAlloc_class k 0 s (Long 0) h = bad_alloc.
Proof.
  intros Hh Hown Hn Hcap Hg Hbig Hk.
  destruct k as [|[|k]]; [lia | lia |]. cbn [outer]. unfold bind at 1.
  destruct (inner_FastAlloc s _ 0 (λ m, Long (88 * Z.of_nat m)) letters 0 h
              Hh Hown Hn Hcap)
    as (h1 & Hin & Hh1 & Hown1 & Hn1 & _).
  { intros _ m Hm. change (length letters) with 25 in Hm.
    change (default Uninit (Char <$> head ("X"%char :: cs))) with (Char "X").
    unfold add_char. cbn zeta.
    change (char_value "X") with 88%Z. rewrite decide_True by lia.
    do 2 f_equal. lia. }
  { intros (E & _). done. }
  cbn beta in Hin. change (Long (88 * Z.of_nat 0)) with (Long 0) in Hin.
  rewrite Hin. unfold bind at 1.
  change letters with ("a"%char :: (ascii_of_nat <$> seq 98 24)).
  cbn [inner]. unfold bind at 1.
  by rewrite (body_FastAlloc_throws h1 s _ 1 "a" _ Hh1 Hown1 Hn1 Hcap).
Qed.

(** X26. What [RUN_TEST] does in Plain_FastAlloc, the first test of [main],
    from a new arena, for the loop count [n] and the string length [l]
    given to the program. With a length above 2840 the string cannot be
    built, and with 2840 the first [Append] to a copy cannot grow it:
    [bad_alloc] is thrown, and nothing catches it. Otherwise [RUN_TEST]
    returns, as long as the [long] counter can hold the sum, with every
    block of the arena given back; [copies:] and [allocs:] are as in
    Plain, and so is the counter, except that the copy of an empty string
    has a block of the arena, of which [s2[0]] reads a [char] that no one
    has written. *)
Theorem RUN_TEST_Plain_FastAlloc_figures (base nc na n l : Z) :
  (0 < base)%Z →
  let h0 := mkHeap (FastArena.ctor base 3000) ∅ nc na in
  let k := Z.max 0 (n ÷ 25) in
  let full := if decide (capacity (Z.to_nat l) = Z.to_nat l) then 1%Z else 0%Z in
  let allocs := (25 * k + 25 * ((k + 1) / 3) * full)%Z in
  let counter := (2200 * ((k + 2) / 3))%Z in
  ((l < 2840)%Z ∨ (l = 2840 ∧ n < 50)%Z → (counter < 2 ^ 31)%Z →
   ∃ h',
     RUN_TEST_Plain_FastAlloc n l h0
     = Ok ((if decide (l ≤ 0 ∧ 25 ≤ n)%Z then Indeterminate else Long counter,
            ((25 * k)%Z, allocs)), h')
     ∧ fa h' = FastArena.ctor base 3000
     ∧ nCopies h' = (25 * k)%Z ∧ nAllocs h' = allocs)
  ∧ ((2840 < l)%Z ∨ (l = 2840 ∧ 50 ≤ n)%Z →
     RUN_TEST_Plain_FastAlloc n l h0 = bad_alloc).
Proof.
  intros Hb h0 k full allocs counter.
  set (L := Z.to_nat l). set (K := Z.to_nat (n ÷ 25)).
  assert (Hh0 : FastAlloc_holds h0 String_ctor []).
  { split_and!; [by apply ctor_wf | done | done | by left]. }
  assert (Hal0 : alone h0 String_ctor) by exact (FastAlloc_start_alone base Hb).
  destruct (FastAlloc_appends_alone (replicate L "X"%char) [] h0 String_ctor
              Hh0 Hal0 eq_refl eq_refl) as [Hok Hbad].
  rewrite length_replicate in Hok, Hbad. cbn [length Nat.add app] in Hok, Hbad.
  assert (Hstart : ∀ s h1,
            FastAlloc_appends String_ctor (replicate L "X"%char) h0 = Ok (s, h1) →
            RUN_TEST_Plain_FastAlloc n l h0
            = match outer FastAlloc_class K 0 s (Long 0) (FastAlloc_reset h1) with
              | Ok (c, h) =>
                  match dtor s h with
                  | Ok (_, h') => Ok ((c, FastAlloc_counters h), h')
                  | bad_alloc => bad_alloc
                  | Undef => Undef
                  end
              | bad_alloc => bad_alloc
              | Undef => Undef
              end).
  { intros s h1 Hrun. unfold RUN_TEST_Plain_FastAlloc, RUN_TEST, Test.
    unfold bind at 1. cbn [script.ctor FastAlloc_class]. unfold ret at 1.
    unfold bind at 1, bind at 1. rewrite initialize_FastAlloc. fold L. rewrite Hrun.
    unfold bind at 1, modify. unfold bind at 1. fold K.
    destruct (outer _ _ _ _ _ _) as [[c h]| |]; [|done..].
    unfold ret at 1. unfold bind at 1, bind at 1, ret.
    cbn [fst snd script.dtor FastAlloc_class].
    by destruct (dtor _ _) as [[u h']| |]. }
  split.
  - intros Hcase Hcounter.
    destruct Hok as (s & h1 & Hrun & Hh1 & Hal1 & Hlen1 & Hn1 & Hb1); [lia|].
    rewrite (Hstart s h1 Hrun). clear Hstart.
    apply alone_owned in Hal1.
    assert (Hused1 : used_ s = L).
    { destruct Hh1 as (_ & Hu & _). by rewrite length_replicate in Hu. }
    pose proof (capacity_ge L) as HgeL.
    assert (Hcap : len_ s ≤ 3000).
    { rewrite Hlen1. pose proof (capacity_mono L 2840 ltac:(lia)) as Hm.
      rewrite capacity_2840 in Hm. lia. }
    set (f := λ m : nat, if decide (L = 0)
                         then (if decide (m = 0) then Long 0 else Indeterminate)
                         else Long (88 * Z.of_nat m)).
    destruct (outer_FastAlloc s (replicate L "X"%char) f K (FastAlloc_reset h1)
                Hh1 Hal1 Hn1 Hcap)
      as (h2 & Hout & Hh2 & Hown2 & Hn2 & Hb2 & Hnc2 & Hna2).
    { intros m Hm. unfold f. destruct (decide (L = 0)) as [E|E].
      - rewrite E. cbn [replicate head fmap option_fmap option_map default].
        rewrite (decide_False (P := S m = 0)) by done. by case_decide.
      - destruct L as [|L']; [done|].
        change (default Uninit (Char <$> head (replicate (S L') "X"%char)))
          with (Char "X").
        unfold add_char. cbn zeta. change (char_value "X") with 88%Z.
        rewrite decide_True by (subst counter k K; lia).
        do 2 f_equal. lia. }
    { intros HK [Hg Hbig]. rewrite Hlen1, Hused1 in Hg, Hbig.
      assert (L < 2840) by (subst L K; lia).
      pose proof (capacity_mono (S L) 2840 ltac:(lia)) as Hm.
      rewrite capacity_2840, capacity_S, decide_True in Hm by done. lia. }
    assert (f 0 = Long 0) as Hf0
      by (unfold f; destruct (decide (L = 0)); [by rewrite decide_True | done]).
    rewrite Hf0 in Hout. rewrite Hout.
    destruct (FastAlloc_dtor_owned h2 s _ [] Hh2 Hown2) as
      (h3 & Hd & Hown3 & Hwf3 & Hn3 & Hb3 & _ & Hnc3 & Hna3); [set_solver|].
    rewrite Hd. exists h3.
    cbn [nCopies nAllocs FastAlloc_reset set_nCopies set_nAllocs] in Hnc2, Hna2.
    rewrite Hlen1, Hused1 in Hna2.
    assert (Hcopies : nCopies h2 = (25 * k)%Z) by (subst k K; lia).
    assert (Hallocs : nAllocs h2 = allocs).
    { rewrite Hna2. subst allocs full k K. fold L.
      destruct (decide (capacity L < L + 1)), (decide (capacity L = L));
        try lia. }
    split_and!; [| | congruence | congruence].
    + unfold FastAlloc_counters. rewrite Hcopies, Hallocs. do 3 f_equal.
      unfold f. destruct (decide (L = 0)) as [E|E].
      * destruct (decide (25 * ((K + 2) / 3) = 0)).
        -- rewrite decide_False by (subst L K; lia).
           f_equal. subst counter k K. lia.
        -- rewrite decide_True by (subst L K; lia). done.
      * rewrite decide_False by (subst L; lia).
        f_equal. subst counter k K. lia.
    + apply (owned_nothing h3 base Hown3 Hwf3); [congruence|].
      rewrite Hb3, Hb2. cbn [fa FastAlloc_reset set_nCopies set_nAllocs].
      by rewrite Hb1.
  - intros [Hl|[Hl Hn]].
    + unfold RUN_TEST_Plain_FastAlloc, RUN_TEST, Test.
      unfold bind at 1. cbn [script.ctor FastAlloc_class]. unfold ret at 1.
      unfold bind at 1, bind at 1. rewrite initialize_FastAlloc. fold L.
      rewrite Hbad; [done | lia | subst L; lia].
    + destruct Hok as (s & h1 & Hrun & Hh1 & Hal1 & Hlen1 & Hn1 & Hb1);
        [subst L; lia|].
      rewrite (Hstart s h1 Hrun). clear Hstart.
      apply alone_owned in Hal1.
      assert (HL : L = 2840) by (subst L; lia).
      assert (Hused1 : used_ s = 2840).
      { destruct Hh1 as (_ & Hu & _). rewrite length_replicate in Hu. lia. }
      rewrite HL, capacity_2840 in Hlen1.
      assert (Hcs : replicate L "X"%char = "X"%char :: replicate 2839 "X"%char).
      { rewrite HL. reflexivity. }
      rewrite Hcs in Hh1.
      rewrite (outer_FastAlloc_throws s _ K (FastAlloc_reset h1) Hh1 Hal1 Hn1);
        [done | lia | lia | | subst K; lia].
      rewrite Hlen1, Hused1. vm_compute. lia.
Qed.

Lemma RUN_TEST_Plain_FastAlloc_figures_witness :
  (∃ h',
     RUN_TEST_Plain_FastAlloc 100 4 (start 4096)
     = Ok ((Long 4400, (100%Z, 125%Z)), h')
     ∧ fa h' = FastArena.ctor 4096 3000
     ∧ nCopies h' = 100%Z ∧ nAllocs h' = 125%Z).
Proof.
  destruct (RUN_TEST_Plain_FastAlloc_figures 4096 0 0 100 4) as [Hok _]; [lia|].
  apply Hok.
  - left. lia.
  - vm_compute. reflexivity.
Defined.

End harness_FastAlloc.
